(* ===== verification/_CoqProject ===== *)
-Q . S2P
Prelude.v
GoStd.v
Effects.v
Monitor.v
GoHeap.v
DeepCopy.v
Api.v
K8sDemo.v
LvAttr.v
Exec.v
Lvm.v
HostTools.v
Resolver.v
Lvmd.v
Filter.v
Devices.v
Raid.v
VgEnv.v
Wipe.v
VgStatus.v
VgController.v
VgFacts.v
VgDeleteFacts.v
VgConfined.v
GroupContract.v
GroupSystem.v
GroupHealth.v
GroupRelease.v
VgConfigFacts.v
Host.v
Findings.v
WipeRetry.v
Webhook.v
WebhookFacts.v
Objects.v
ClusterStatus.v
ClusterEnv.v
ClusterController.v
ClusterFacts.v
Resources.v
VgManagerDaemon.v
ResourceFacts.v
ClusterWatches.v
ClusterSystem.v
ClusterDemo.v
NodeRemoval.v
StartLock.v
Migration.v
GroupPeers.v
Wiring.v
Volumes.v
CsiRunners.v
OperatorStart.v
Commands.v
OperatorProcess.v
VgManagerProcess.v
VgManagerStart.v
