(* ===== verification/Prelude.v ===== *)
(** * Verification of lvm-operator (LVMS)

    LVMS manages LVM volume groups on the nodes of a Kubernetes cluster. A user describes
    device classes in an LVMCluster object; the operator turns each class into an
    LVMVolumeGroup object and creates what serves volumes from it (the vgmanager DaemonSet, the
    CSI driver, storage and snapshot classes, network policies, ...); on every node the
    vgmanager process reconciles each LVMVolumeGroup with LVM on the host (creating,
    extending, checking and removing volume groups and thin pools), reports to the
    LVMVolumeGroupNodeStatus of the node and writes the lvmd configuration file from which
    TopoLVM serves volumes. The operator gathers the reports into the status of the
    LVMCluster. This library models the admission webhook that guards the LVMCluster object,
    the controllers of the operator with their resource managers, migrations and start, and
    vgmanager from the start lock over the reconciler down to the processes it starts, and
    proves what they promise.

    ** How code is modelled

    Pure functions are Rocq functions. Code that calls an interface is a program [prog E A]
    of Effects.v: a finite tree of calls of the event family [E] with a continuation for
    every answer, so each handler is total and needs no fuel (all loops of the source but one
    run over lists or finite trees), and executable against any handler of its events. The one
    exception, the wait for the start lock, takes a bound on its attempts that
    [WaitForLock_live] shows not to matter. The event families are the Go interfaces.
    Of vgmanager: [execE] (exec.Executor), [procE] (os/exec processes), [lvmE] (lvm.LVM),
    [lsblkE], [dmsetupE], [wipefsE], [resolveE] (symlink resolver), [resolveFnE]
    (filepath.EvalSymlinks), [lvmdE] (lvmd.Configurator), [fileE] (the configuration file),
    [gaugeE] (Prometheus gauges), [clientE] (Kubernetes client), [recorderE] (event recorder),
    [processE] (clock and log level), with [vgE] the sum of those the reconciler holds,
    [lockE] (the lock file) and [vgStartE] (the start of the process). Of the operator: [webhookE] (what the webhook asks its
    environment), [kubeE] (Kubernetes client), [managerE] (resource managers), [operatorE]
    (environment and log level), with [clusterE] their sum, and [cleanupE], [migrationE],
    [pvE], [pvcE] and [startE] of the migrations, the controllers for volumes and claims and
    the start of the operator. Of the CSI components: [grpcE] (socket and server) and [csiE]
    (the CSI and Kubernetes client libraries).
    A Go type that implements an interface is a function from its events to programs over a
    lower interface, and [interp] and [translate] put it in place.

    Four predicates state properties for every behaviour of the environment: [wp p Q] (all
    answers: the result and the trace of calls satisfy [Q]; since programs are finite trees
    this includes termination), [emits P p] (every call that can be made satisfies [P]),
    [must] and [may] (the environment is a transition relation, used for the configuration
    file). Trace projections ([wipe_of], [added_of], [destroy_of], [update_of],
    [reduced_of], ...) name the calls a theorem is about, [ordered] says what precedes a call.
    Goroutines are [parallel]: the traces of the programs in any interleaving, their results
    in any order. [sys_runs] (ClusterSystem.v) gives the LVMCluster controller its meaning
    with the managers in place; the processes of a node that compete for the start lock are
    the transition system [system_step] (StartLock.v) over a kernel that keeps one lock per
    file, with an invariant over [reachable].

    The whole cluster, for one volume group, is the transition system [world_step]
    (GroupSystem.v): all versions of the object on the API server, the nodes on which LVM has
    the group, and on every node an agent of which one call at a time is answered, in any
    interleaving with the other agents and with the other writers of the object. What is
    assumed of the environment is in [answers] and [world_step]: a cache may lag behind but never goes
    back; a write is refused when the object has changed since it was read; calls may report
    a failure although they took effect; agents may be killed anywhere; a node that joins is
    new (its name was not used before) and a node that leaves takes its disks along. An agent
    is any program that keeps the contract [in_order] of GroupContract.v, stated as a monitor
    of its calls ([follows], Monitor.v) behind the class [KeepsContract], of which the
    reconciler is an instance. What happens when nothing fails is stated over [healthy]
    (GroupHealth.v), the same environment with reads that are up to date, no failure without a
    reason, and logical volumes that LVM does not give up with their group; the runs of the
    reconciler in it are runs of [world_step].

    Errors are values of [error] (GoStd.v) with their text and what they wrap, so that
    errors.Is, errors.As and apierrors.IsNotFound are computed as in Go. A function whose
    value is meaningless beside an error returns [result error A]; one whose value is used
    beside an error returns a pair. A run-time panic is the error [EPanic], which no code
    handles. [int] and [int64] are [Z] with wrap-around written out where a sum can leave the
    range; floating point is IEEE-754 through the standard library's [spec_float]. A
    function that writes through a pointer returns the changed object.

    API objects are values in all of this: what lies behind a pointer, a slice or a map is part of
    the object. What makes that sound is that the objects of the shared cache are handed out as
    deep copies. Those are modelled in DeepCopy.v one level below, over a memory of typed
    variables with pointers, slices and maps (GoHeap.v), where [walk] functions read off the
    value a structure denotes and the locations it occupies. Where the source does share memory
    and it matters, the model says so ([FinalizerMemory], [confMapVolume_shared]).

    Code outside the repository is a parameter: [K8s] (API machinery: quantities, node
    selector matching, label validation) with [QuantityLaws] and [NodeSelectorLaws],
    [ControllerUtil] (finalizers and owner references) with [ControllerUtilLaws],
    [ControllerRefs] and [FinalizerMemory] (the memory RemoveFinalizer leaves to a slice that
    shares it), [Scheme] (kinds of objects), [StatusConditions] with [StatusConditionsLaws],
    [ScaledValues] (maxUnavailable), [OpenShiftLib] (leader election defaults, TLS profiles),
    [CsiLib] (types of the CSI libraries), [OwnerRequests] with [OwnerRequestsLaws] (requests for
    owners), [PFlag] with [PFlagLaws] (flag sets and their parser), [LogLibs] (flags of klog
    and zap), the parser of quantities in Volumes.v, [Yaml] with
    its round-trip law [YamlLaws], [GoRuntime] (the order of map iteration, of which only the
    permutation law is known, and the text of floats), [Allocator] (any fresh location), [Libraries],
    [LibraryCopies] and [LibraryLaws] (the Kubernetes structs in memory and their copy methods). K8sDemo.v and the [Demo] modules instantiate them.

    ** Files

    - Prelude.v: results, notations, generic lemmas on lists, options and integers, tactics
      and the hint database; GoStd.v: the part of the Go language and standard library that
      is used; Effects.v: programs, handlers, the four predicates, parallel runs and their
      laws; Monitor.v: contracts of programs as monitors of their calls; GoHeap.v: memory, and
      copies that share none of it.
    - DeepCopy.v: the API structs in memory and api/v1alpha1/zz_generated.deepcopy.go.
    - Api.v: the types of api/v1alpha1 (lvmcluster_types.go, lvmvolumegroup_types.go,
      lvmvolumegroupnodestatus_types.go) with their methods; K8sDemo.v: an instance of the
      parameters.
    - LvAttr.v: vgmanager/lv_attr.go. Exec.v: vgmanager/exec/exec.go and the report types.
      Lvm.v: vgmanager/lvm/lvm.go, [HostLVM] being the methods of the Go type. HostTools.v:
      vgmanager/lsblk, dmsetup and wipefs. Resolver.v: controllers/symlink-resolver.
      Lvmd.v: vgmanager/lvmd/lvmd.go ([FileConfig_*], [Cached_*]).
    - Filter.v: vgmanager/filter/filter.go. Devices.v: vgmanager/devices.go and
      device_mapping_helper.go. Raid.v: vgmanager/raid.go and raid_metrics.go. Wipe.v:
      vgmanager/wipe_devices.go.
    - VgEnv.v: the Reconciler and its interfaces; VgStatus.v: vgmanager/status.go;
      VgController.v: vgmanager/controller.go, with [reconcile] split where the source has
      blocks ([reconcileDevices], [reconcileExisting], [reconcileNew], ...).
    - VgFacts.v, VgDeleteFacts.v, VgConfined.v, VgConfigFacts.v: theorems on the reconciler (the
      devices it uses, deletion and removal of devices, confinement, configuration); Host.v: the
      reconciler over the implementations cmd/vgmanager/vgmanager.go gives it; Findings.v:
      behaviours that contradict comments, and witnesses; WipeRetry.v: what is used while wiping
      is pending, and wiping after the volume group was created.
    - GroupContract.v: what the reconciler promises to the rest of the cluster; GroupSystem.v:
      one volume group in the whole cluster and its invariant; GroupHealth.v: runs of the
      reconciler in a healthy cluster; GroupRelease.v: the deletion of a volume group, with a
      cluster that runs; GroupPeers.v: the other writers of the object
      (the manager of volume groups, the clean-ups, the migration) as peers.
    - Webhook.v, WebhookFacts.v: api/v1alpha1/lvmcluster_webhook.go and
      internal/cluster/namespace.go.
    - Objects.v: the Kubernetes objects the operator writes and labels/managed.go.
      ClusterStatus.v: lvmcluster/status.go and selector/selector.go. ClusterEnv.v: the
      Reconciler of the LVMCluster controller and its interfaces; ClusterController.v:
      lvmcluster/controller.go; ClusterFacts.v: its theorems against the interface of the
      resource managers.
    - Resources.v, VgManagerDaemon.v: the ten managers of lvmcluster/resource and
      logpassthrough/options.go; ResourceFacts.v: their theorems; ClusterWatches.v:
      lvmcluster/controller_watches.go; ClusterSystem.v: controller and managers together;
      ClusterDemo.v: concrete instances.
    - NodeRemoval.v: node/removal/controller.go. Volumes.v: persistent-volume/controller.go
      and persistent-volume-claim/controller.go. Migration.v: internal/migration.
      CsiRunners.v: csi/grpc_runner.go, provisioner.go, snapshotter.go and resizer.go.
      OperatorStart.v: run of cmd/operator/operator.go, up to the run of the manager, with
      internal/cluster (type.go, sno.go, leaderelection.go). Wiring.v: SetupWithManager and
      the predicates of all controllers. Commands.v: cmd/main.go, the flags of both commands
      and the binding of flags in logpassthrough/options.go. OperatorProcess.v: signals, exit code,
      metrics registry and cache transform of the operator (cmd/operator/operator.go,
      cmd/main.go).
    - StartLock.v: vgmanager/util/startlock.go. VgManagerProcess.v: cmd/vgmanager/vgmanager.go
      (what stops the process, its readiness, its paths) with csi/registrar.go and
      csi/health.go; VgManagerStart.v: its function run, from the environment to the exit code.

    ** What the theorems show

    - A volume group in the cluster: the reconciler keeps its contract at every point of its
      run ([Reconcile_keeps_contract]); hence in every reachable state a node that has the
      group is named by a finalizer of the object, and the object is never gone before the
      groups ([no_orphaned_group]); in a healthy cluster a deletion is refused, with nothing
      changed, while retained volumes are left, and otherwise completed by whatever runs of the
      agents of the matching nodes that keep the object ([deletion_completes]).
    - Reconciler of volume groups: every call stays within the volume group and the phase (live
      or deleting) of the object, and physical volumes are removed only after they were listed in
      the group and taken out of it ([reconcile_confined]); devices come only from this
      reconciliation's lsblk output and passed every filter
      ([reconcile_uses_accepted_devices]), static discovery never extends
      ([static_never_extends]), deletion asks for the storage class and the
      volumes of this very group before it destroys anything, and keeps the finalizer until the
      volume group is gone ([processDelete_safe]), removal of devices keeps
      configured ones and at least one ([deleteRemovedDevices_safe]), thin pools are
      validated ([validateLVs_correct]), the lvmd configuration is maintained
      ([configureClass_correct]); on the host this becomes a statement about the commands
      that run ([host_reconcile_commands]).
    - Devices: wiping happens on request, without the mark of the node, and only on devices
      configured paths resolve to; a complete wipe sets the mark and nothing else, an incomplete
      one leaves the object as it was ([wipeDevices_safe]); as long as it is pending, a device enters the volume group only after
      an attempt to wipe it failed ([used_only_if_not_wipeable]); filters and classification ([DefaultFilters_sound],
      [filterDevices_correct], [VerifyMandatoryDevicePaths_correct]); RAID device counts,
      exact as long as they fit 64 bits and wrapping around beyond, and health
      ([validateRAIDDeviceCount_correct], [buildRAIDStatus_correct]).
    - Host interfaces: success means that the process ended with success, and the exit code of a
      process that was waited for reaches the caller ([CommandExecutor_correct]), ill-formed
      requests run nothing ([HostLVM_guards]), DeleteVG removes everything
      ([DeleteVG_complete]), the resolver refines its specification
      ([Resolver_consistent]), and so does the configuration cache until a Save fails or the file
      is deleted ([CachedFileConfig_coherent]), lsblk trees and
      loop devices ([FlattenedBlockDevices_correct], [BlockDeviceInfos_correct]), lv_attr
      round trip ([ParsedLvAttr_roundtrip]).
    - Node status: entries are replaced and removed exactly and failures are never reported as
      Ready ([upsertStatus_correct], [mutateRemoveStatus_correct], [status_reports_correct]).
    - Process on a node: at most one vgmanager runs its manager ([manager_exclusive]), the wait
      for the lock ends when it can ([WaitForLock_live]), TopoLVM runs only with a
      configuration, exit code and readiness ([vgmanager_start_safe] over
      [vgmanager_lifecycle]), sockets where the DaemonSet puts them ([daemonset_paths]).
    - Webhook: creation admits exactly the declarative specification, for RAID configurations
      within 64-bit bounds ([ValidateCreate_correct], with [verifyNoDeviceOverlap_correct] and
      [verifyRAIDConfig_correct]); updates keep the immutable fields and the default class
      ([ValidateUpdate_immutable], [ValidateUpdate_keeps_default]); [Default_correct].
    - LVMCluster controller: a deletion removes vgmanager only when nothing needs it any more
      ([cluster_deletion_safe]) and a cluster is reported ready only when it is
      ([cluster_ready_sound], but see [stale_conditions_ready]), both over the Kubernetes client alone; clean-up of finalizers
      and classes ([checkStaleNodeFinalizers_safe], [checkForDeletedDeviceClasses_correct]);
      the status equals its declarative reading ([computeLVMClusterReadiness_correct],
      [validateDeviceClassSetup_correct], [computeDeviceClassStatuses_correct],
      [ValidNodes_correct]).
    - Resource managers: what they write ([vgManager_EnsureCreated_correct],
      [lvmVG_EnsureCreated_correct], [getTopolvmStorageClasses_correct]), the order of
      network policies ([networkPolicy_order]), labels and watches
      ([managed_labels_roundtrip], [watch_enqueues_owner]), and that a change of what they wrote
      is noticed ([drift_noticed]).
    - Other controllers and start of the operator: [node_removal_safe],
      [pv_label_converges], [pvc_warning_exact], [annotate_correct],
      [RemovePreMicroLVMSComponents_correct], [operator_start_safe], [operator_lifecycle]; log settings reach vgmanager
      through both command lines ([log_levels_reach_vgmanager]).
    - Deep copies: every root object is copied without sharing, so that no write through a copy
      reaches the cache ([DeepCopyObject_independent]); a nil receiver gives a nil interface
      ([DeepCopyObject_nil]).
    - CSI components: connections are closed and workers run only when they can
      ([provisioner_start_safe], [sidecars_start_safe]); servers and their socket files
      ([grpc_runner_correct]).
    - Divergences, each proved on the definitions: Findings.v,
      [Cached_Save_failure_forgotten], [Cached_Delete_keeps_cache],
      [ValidateUpdate_skips_size_limits], [verifyRAIDConfig_overflow],
      [logicalVolumesExist_stops_early], [stale_finalizer_skipped], [updateDaemonSet_loses],
      [scc_never_deleted], [node_cleanup_lost], [unmatched_node_keeps_finalizer],
      [group_wiped_after_creation], [confMapVolumes_leak], [stale_conditions_ready],
      [equal_capacity_warned].

    ** Not modelled

    Logging; contexts and their cancellation, except for the wait for the start lock; the
    decoding of JSON reports (the executor answers with decoded reports); the order of a map
    iteration may be any permutation but is the same for equal contents within a run; nil and
    empty slices are not told apart, outside DeepCopy.v, unless the source does; how the manager
    runs what is registered with it beyond the dispatch of events in Wiring.v; the registration of
    the webhook and the options of gRPC servers, which only call libraries, with the interceptor
    that logs the errors of their calls; what the controllers of the CSI libraries and of TopoLVM
    do once they run; mocks and tests. *)

From stdpp Require Export base list strings gmap.
From Stdlib Require Export ZArith.

(** * Scopes and notations *)

Declare Scope lvms_scope.
Delimit Scope lvms_scope with lvms.
Global Open Scope lvms_scope.

(** * Results of fallible Go functions *)

(** [(T, error)] where the value is meaningful only when the error is nil.
    Functions whose value is used together with a non-nil error return a pair
    [T * option error] instead, [None] being the nil error. *)
Inductive result (E A : Type) : Type :=
| Ok (a : A)
| Err (e : E).
Arguments Ok {_ _} _.
Arguments Err {_ _} _.

Definition is_Ok {E A} (r : result E A) : bool :=
  match r with Ok _ => true | Err _ => false end.

Definition result_bind {E A B} (r : result E A) (f : A -> result E B) : result E B :=
  match r with Ok a => f a | Err e => Err e end.

(** [if err := check; err != nil { return err }] on nil-able errors. *)
Definition orElse {E} (o : option E) (k : option E) : option E :=
  match o with Some e => Some e | None => k end.

Notation "o ;? k" := (orElse o k) (at level 63, right associativity) : lvms_scope.

Lemma orElse_None {E} (o k : option E) : orElse o k = None <-> o = None /\ k = None.
Proof. destruct o; simpl; naive_solver. Qed.

Lemma is_Ok_spec {E A} (r : result E A) : is_Ok r = true <-> exists a, r = Ok a.
Proof. destruct r; simpl; naive_solver. Qed.

(** * First failing element of a list

    The shape of every validation loop of the admission webhook:
    [for _, x := range xs { if err := f(x); err != nil { return err } }]. *)
Fixpoint first_error {E A} (f : A -> option E) (xs : list A) : option E :=
  match xs with
  | [] => None
  | x :: xs => orElse (f x) (first_error f xs)
  end.

Lemma first_error_None {E A} (f : A -> option E) xs :
  first_error f xs = None <-> Forall (fun x => f x = None) xs.
Proof.
  induction xs as [|x xs IH]; simpl; [by split|].
  rewrite orElse_None, Forall_cons, IH. done.
Qed.

Lemma first_error_app {E A} (f : A -> option E) xs ys :
  first_error f (xs ++ ys) = orElse (first_error f xs) (first_error f ys).
Proof.
  induction xs as [|x xs IH]; simpl; [done|].
  destruct (f x); simpl; [done|exact IH].
Qed.

(** * Searching a slice for the first match *)

Fixpoint find_first {A} (f : A -> bool) (xs : list A) : option A :=
  match xs with
  | [] => None
  | x :: xs => if f x then Some x else find_first f xs
  end.

Lemma find_first_Some {A} (f : A -> bool) xs x :
  find_first f xs = Some x -> x ∈ xs /\ f x = true.
Proof.
  induction xs as [|y ys IH]; simpl; [done|].
  destruct (f y) eqn:Hy; intros H.
  - injection H as ->. split; [apply list_elem_of_here|done].
  - destruct (IH H). split; [by apply list_elem_of_further|done].
Qed.

Lemma find_first_None {A} (f : A -> bool) xs :
  find_first f xs = None <-> Forall (fun x => f x = false) xs.
Proof.
  induction xs as [|y ys IH]; simpl; [by split|].
  rewrite Forall_cons. destruct (f y) eqn:Hy; naive_solver.
Qed.

Lemma find_first_is_Some {A} (f : A -> bool) xs :
  existsb f xs = true <-> is_Some (find_first f xs).
Proof.
  induction xs as [|y ys IH]; simpl.
  - split; [done|intros [? [=]]].
  - destruct (f y); simpl; [naive_solver|exact IH].
Qed.

(** [slices.Contains] on strings. *)
Definition contains_str (xs : list string) (x : string) : bool :=
  existsb (String.eqb x) xs.
Global Arguments contains_str : simpl never.

Lemma contains_str_spec xs x : contains_str xs x = true <-> x ∈ xs.
Proof.
  unfold contains_str. rewrite existsb_exists. split.
  - intros (y & Hy & He%String.eqb_eq). subst. by apply list_elem_of_In.
  - intros H. exists x. rewrite String.eqb_refl. split; [by apply list_elem_of_In|done].
Qed.

Lemma contains_str_false xs x : contains_str xs x = false <-> x ∉ xs.
Proof. rewrite <- contains_str_spec. destruct (contains_str xs x); naive_solver. Qed.

(** * Partial maps over lists *)

Lemma omap_elem {A B} (f : A -> option B) (l : list A) y : y ∈ omap f l <-> exists x, x ∈ l /\ f x = Some y.
Proof. apply list_elem_of_omap. Qed.

Lemma omap_skip {A B} (f : A -> option B) x (l : list A) : f x = None -> omap f (x :: l) = omap f l.
Proof. intros H. simpl. by rewrite H. Qed.

Lemma omap_hit {A B} (f : A -> option B) x y (l : list A) : f x = Some y -> omap f (x :: l) = y :: omap f l.
Proof. intros H. simpl. by rewrite H. Qed.

Lemma omap_nil {A B} (f : A -> option B) : omap f (@nil A) = [].
Proof. done. Qed.

(** * Automation *)

Create HintDb lvms discriminated.

(** Case analysis on every [if] and [match] of the goal. *)
Ltac split_matches :=
  repeat match goal with
  | |- context [match ?x with _ => _ end] => destruct x eqn:?; simpl in *
  end.

(** Turns boolean tests of the source into propositions. *)
Ltac bools :=
  repeat match goal with
  | H : _ && _ = true |- _ => apply andb_true_iff in H; destruct H
  | H : _ || _ = false |- _ => apply orb_false_iff in H; destruct H
  | H : negb _ = true |- _ => apply negb_true_iff in H
  | H : negb _ = false |- _ => apply negb_false_iff in H
  | H : String.eqb _ _ = true |- _ => apply String.eqb_eq in H
  | H : String.eqb _ _ = false |- _ => apply String.eqb_neq in H
  | H : bool_decide _ = true |- _ => apply bool_decide_eq_true in H
  | H : bool_decide _ = false |- _ => apply bool_decide_eq_false in H
  end.
