(* ===== verification/GoStd.v ===== *)
(** The parts of the Go language and standard library the operator uses:
    [error] values with wrapping ([fmt], [errors]), [strings], [strconv],
    [sort], [slices], 64-bit integers and IEEE-754 floating point.

    Strings are byte strings. [ToLower] acts on ASCII letters. [ParseFloat]
    covers decimal literals, infinities and NaN; hexadecimal literals and
    digit separators, which no LVM report contains, are rejected. *)

From S2P Require Import Prelude.
From stdpp Require Import pretty.
From Stdlib Require Import Ascii SpecFloat.

(** * What Go leaves unspecified

    [for k, v := range m] visits the entries of a map in an unspecified order:
    a definition that iterates a map takes its entries in the order chosen by
    [map_range], of which only the permutation law is known. [format_float] is
    the shortest text [fmt] prints for a float, which only reaches messages. *)
Class GoRuntime := {
  map_range : forall {A : Type}, list (string * A) -> list (string * A);
  map_range_perm : forall {A : Type} (l : list (string * A)), Permutation (map_range l) l;
  format_float : spec_float -> string;
}.

(** A runtime that visits entries in the order they were listed. *)
Definition listed_order_runtime : GoRuntime :=
  {| map_range := fun _ l => l;
     map_range_perm := fun _ l => Permutation_refl l;
     format_float := fun _ => "" |}.

(** * Errors *)

(** Reasons of a Kubernetes API status error the operator distinguishes. *)
Inductive StatusReason := StatusReasonNotFound | StatusReasonAlreadyExists | StatusReasonOther.

(** [ENew id msg] is the package-level value [var id = errors.New(msg)], equal
    only to itself. [EFmt msg ws] is a [fmt.Errorf] value with text [msg] that
    wraps [ws] through [%w], or an [errors.Join]. [EApi] is an API status error,
    [EExit] the failure of a command with its exit code, [EExt] any other error
    of the environment, [EPanic] a run-time panic. *)
Inductive error : Type :=
| ENew (id msg : string)
| EFmt (msg : string) (wrapped : list error)
| EApi (reason : StatusReason) (msg : string)
| EExit (code : Z) (msg : string)
| EExt (msg : string)
| EPanic (msg : string).

(** [err.Error()] *)
Definition Error (e : error) : string :=
  match e with
  | ENew _ m | EFmt m _ | EApi _ m | EExit _ m | EExt m | EPanic m => m
  end.

(** [errors.Is(err, target)] for a package-level [target]. *)
Fixpoint errors_Is (e : error) (target : string) : bool :=
  match e with
  | ENew id _ => String.eqb id target
  | EFmt _ ws => existsb (fun w => errors_Is w target) ws
  | _ => false
  end.

Definition errors_Is_opt (e : option error) (target : string) : bool :=
  match e with Some e => errors_Is e target | None => false end.

(** [apierrors.IsNotFound(err)] *)
Fixpoint IsNotFound (e : error) : bool :=
  match e with
  | EApi StatusReasonNotFound _ => true
  | EFmt _ ws => existsb IsNotFound ws
  | _ => false
  end.

(** [client.IgnoreNotFound(err)] *)
Definition IgnoreNotFound (e : error) : option error :=
  if IsNotFound e then None else Some e.

(** [errors.As(err, &execErr)] followed by [execErr.ExitCode()]. *)
Fixpoint AsExecError (e : error) : option Z :=
  match e with
  | EExit c _ => Some c
  | EFmt _ ws =>
      fold_right (fun w acc => match AsExecError w with Some c => Some c | None => acc end) None ws
  | _ => None
  end.

(** * Text *)

Definition dquote : string := String "034" "".

(** [%d] and [strconv.Itoa] *)
Definition Itoa (z : Z) : string := pretty z.

(** [%q] for printable ASCII text. *)
Fixpoint escape (s : string) : string :=
  match s with
  | "" => ""
  | String c s =>
      if Ascii.eqb c "034" || Ascii.eqb c "092" then String "092" (String c (escape s))
      else String c (escape s)
  end.
Definition quote (s : string) : string := dquote +:+ escape s +:+ dquote.

(** [strings.Join(xs, sep)] *)
Fixpoint strings_Join (xs : list string) (sep : string) : string :=
  match xs with
  | [] => ""
  | [x] => x
  | x :: xs => x +:+ sep +:+ strings_Join xs sep
  end.

(** [%v] and [%s] of a [[]string]. *)
Definition fmt_strings (xs : list string) : string := "[" +:+ strings_Join xs " " +:+ "]".

(** [fmt.Errorf(ctx + ": %w", err)] *)
Definition wrapErr (ctx : string) (err : error) : error := EFmt (ctx +:+ ": " +:+ Error err) [err].

(** [errors.Join(errs...)] *)
Definition errors_Join (errs : list error) : error :=
  EFmt (strings_Join (map Error errs) (String "010" "")) errs.

(** [strings.HasPrefix(s, p)] *)
Definition HasPrefix (s p : string) : bool := String.prefix p s.

(** [strings.TrimPrefix(s, p)] *)
Fixpoint drop_string (n : nat) (s : string) : string :=
  match n, s with
  | S n, String _ s => drop_string n s
  | _, _ => s
  end.
Definition TrimPrefix (s p : string) : string :=
  if HasPrefix s p then drop_string (String.length p) s else s.

(** [strings.Contains(s, sub)] *)
Fixpoint Contains (s sub : string) : bool :=
  HasPrefix s sub || match s with "" => false | String _ s => Contains s sub end.

(** [strings.ToLower(s)] *)
Definition lower_ascii (c : ascii) : ascii :=
  let n := N_of_ascii c in
  if ((65 <=? n) && (n <=? 90))%N then ascii_of_N (n + 32) else c.
Fixpoint ToLower (s : string) : string :=
  match s with "" => "" | String c s => String (lower_ascii c) (ToLower s) end.

(** [strings.Split(s, sep)] for a one-byte separator: n separators give n + 1 parts. *)
Fixpoint Split (s : string) (sep : ascii) : list string :=
  match s with
  | "" => [""]
  | String c s =>
      if Ascii.eqb c sep then "" :: Split s sep
      else match Split s sep with
           | [] => [String c ""]
           | x :: xs => String c x :: xs
           end
  end.

(** * Sorting *)

(** [sort.Strings]: byte-wise lexicographic order. *)
Fixpoint insert_by {A} (le : A -> A -> bool) (x : A) (xs : list A) : list A :=
  match xs with
  | [] => [x]
  | y :: ys => if le x y then x :: y :: ys else y :: insert_by le x ys
  end.
Definition sort_by {A} (le : A -> A -> bool) (xs : list A) : list A :=
  fold_right (insert_by le) [] xs.
Definition sort_Strings : list string -> list string := sort_by String.leb.

(** * 64-bit integers *)

(** Two's complement wrap-around of [int] and [int64]. *)
Definition wrap64 (z : Z) : Z := (z + 2 ^ 63) `mod` 2 ^ 64 - 2 ^ 63.
Definition min_int64 : Z := - 2 ^ 63.
Definition max_int64 : Z := 2 ^ 63 - 1.
Definition in_int64 (z : Z) : Prop := (min_int64 <= z <= max_int64)%Z.

(** [a % b] on [int]: the sign follows the dividend; a zero divisor panics. *)
Definition int_rem (a b : Z) : option Z := if (b =? 0)%Z then None else Some (Z.rem a b).

Definition digit_of (c : ascii) : option Z :=
  let n := Z.of_N (N_of_ascii c) in
  if ((48 <=? n) && (n <=? 57))%Z then Some (n - 48)%Z else None.

(** Reads a run of decimal digits: its value, its length and the rest. *)
Fixpoint read_digits (s : string) (acc : Z) (n : nat) : Z * nat * string :=
  match s with
  | "" => (acc, n, "")
  | String c s' =>
      match digit_of c with
      | Some d => read_digits s' (acc * 10 + d)%Z (S n)
      | None => (acc, n, s)
      end
  end.

Definition read_sign (s : string) : bool * string :=
  match s with
  | String c s' =>
      if Ascii.eqb c "-" then (true, s') else if Ascii.eqb c "+" then (false, s') else (false, s)
  | "" => (false, "")
  end.

Definition numError (fn s why : string) : error :=
  EFmt ("strconv." +:+ fn +:+ ": parsing " +:+ quote s +:+ ": " +:+ why) [].

(** [strconv.ParseInt(s, 10, 64)] *)
Definition ParseInt (s : string) : result error Z :=
  let '(neg, body) := read_sign s in
  let '(v, n, rest) := read_digits body 0 0 in
  if (n =? 0)%nat || negb (String.eqb rest "") then Err (numError "ParseInt" s "invalid syntax")
  else
    let z := if neg then (- v)%Z else v in
    if ((min_int64 <=? z) && (z <=? max_int64))%Z then Ok z
    else Err (numError "ParseInt" s "value out of range").

(** * IEEE-754 floating point *)

(** binary64 and binary32 as (precision, maximal exponent). *)
Abbreviation prec64 := 53%Z.
Abbreviation emax64 := 1024%Z.
Abbreviation prec32 := 24%Z.
Abbreviation emax32 := 128%Z.

(** [float64(n)] *)
Definition float64_of_int (z : Z) : spec_float := binary_normalize prec64 emax64 z 0 false.
Definition float64_div (x y : spec_float) : spec_float := SFdiv prec64 emax64 x y.
Definition float64_mul (x y : spec_float) : spec_float := SFmul prec64 emax64 x y.

(** A binary32 value widened to binary64, which is exact. *)
Definition float64_of_float32 (x : spec_float) : spec_float :=
  match x with
  | S754_finite s m e => binary_round prec64 emax64 s m e
  | _ => x
  end.

(** [int(x)]: truncation towards zero; a value outside [int64], an infinity or
    NaN gives the amd64 "integer indefinite" value. *)
Definition int_of_float64 (x : spec_float) : Z :=
  match x with
  | S754_zero _ => 0
  | S754_finite s m e =>
      let q := if (0 <=? e)%Z then Z.shiftl (Z.pos m) e else Z.shiftr (Z.pos m) (- e) in
      let z := if s then (- q)%Z else q in
      if ((min_int64 <=? z) && (z <=? max_int64))%Z then z else min_int64
  | _ => min_int64
  end.

(** The binary float nearest to [(-1)^neg * m * 10^e]. *)
Definition round_decimal (prec emax : Z) (neg : bool) (m e : Z) : spec_float :=
  match m with
  | Z.pos p =>
      if (0 <=? e)%Z then
        match (m * 10 ^ e)%Z with
        | Z.pos q => binary_round prec emax neg q 0
        | _ => S754_nan
        end
      else
        let '(q, e', l) := SFdiv_core_binary prec emax m 0 (10 ^ (- e)) 0 in
        binary_round_aux prec emax neg q e' l
  | _ => S754_zero neg
  end.

(** Reads [digits[.digits][(e|E)[sign]digits]]: mantissa and decimal exponent.
    The exponent stops growing at 10000, as in [strconv.readFloat]. *)
Definition read_exponent (s : string) : option Z :=
  match s with
  | "" => Some 0%Z
  | String c s =>
      if Ascii.eqb (lower_ascii c) "e" then
        let '(neg, body) := read_sign s in
        let '(v, n, rest) := read_digits body 0 0 in
        if (n =? 0)%nat || negb (String.eqb rest "") then None
        else let v := Z.min v 10000 in Some (if neg then (- v)%Z else v)
      else None
  end.

Definition read_decimal (s : string) : option (Z * Z) :=
  let '(ip, n, rest) := read_digits s 0 0 in
  let '(m, k, fd, rest) :=
    match rest with
    | String c rest' =>
        if Ascii.eqb c "." then
          let '(m, k, rest'') := read_digits rest' ip n in (m, k, (k - n)%nat, rest'')
        else (ip, n, 0%nat, rest)
    | "" => (ip, n, 0%nat, "")
    end in
  if (k =? 0)%nat then None
  else match read_exponent rest with
       | Some e => Some (m, (e - Z.of_nat fd)%Z)
       | None => None
       end.

(** [strconv.ParseFloat(s, 64)] when [bits32] is false, [strconv.ParseFloat(s, 32)]
    (the nearest binary32 value, as a float64) when it is true. *)
Definition ParseFloat (s : string) (bits32 : bool) : result error spec_float :=
  let '(neg, body) := read_sign s in
  let low := ToLower body in
  if String.eqb low "inf" || String.eqb low "infinity" then Ok (S754_infinity neg)
  else if String.eqb (ToLower s) "nan" then Ok S754_nan
  else
    match read_decimal body with
    | None => Err (numError "ParseFloat" s "invalid syntax")
    | Some (m, e) =>
        let f := if bits32 then float64_of_float32 (round_decimal prec32 emax32 neg m e)
                 else round_decimal prec64 emax64 neg m e in
        match f with
        | S754_infinity _ => Err (numError "ParseFloat" s "value out of range")
        | _ => Ok f
        end
    end.

(** [x > y] on floats: false when an operand is NaN. *)
Definition float64_gtb (x y : spec_float) : bool := SFltb y x.

#[export] Instance spec_float_eq_dec : EqDecision spec_float.
Proof. solve_decision. Defined.

(** * Lemmas *)

Lemma wrap64_id z : in_int64 z -> wrap64 z = z.
Proof. unfold in_int64, wrap64, min_int64, max_int64. intros H. rewrite Z.mod_small by lia. lia. Qed.

Lemma wrap64_range z : in_int64 (wrap64 z).
Proof.
  unfold in_int64, wrap64, min_int64, max_int64.
  pose proof (Z.mod_pos_bound (z + 2 ^ 63) (2 ^ 64) ltac:(lia)). lia.
Qed.

Lemma insert_by_perm {A} (le : A -> A -> bool) x xs : Permutation (insert_by le x xs) (x :: xs).
Proof.
  induction xs as [|y ys IH]; simpl; [done|]. destruct (le x y); [done|].
  rewrite IH. apply Permutation_swap.
Qed.

Lemma sort_by_perm {A} (le : A -> A -> bool) xs : Permutation (sort_by le xs) xs.
Proof.
  induction xs as [|x xs IH]; simpl; [done|]. rewrite insert_by_perm. by f_equiv.
Qed.

Lemma map_range_elem `{GoRuntime} {A} (l : list (string * A)) x : x ∈ map_range l <-> x ∈ l.
Proof. by rewrite map_range_perm. Qed.

Lemma string_app_nil s : "" +:+ s = s.
Proof. done. Qed.

Lemma string_app_cons c p s : String c p +:+ s = String c (p +:+ s).
Proof. done. Qed.

Lemma prefix_cons c p d s :
  String.prefix (String c p) (String d s) = if ascii_dec c d then String.prefix p s else false.
Proof. done. Qed.

Lemma HasPrefix_app p s : HasPrefix (p +:+ s) p = true.
Proof.
  unfold HasPrefix. induction p as [|c p IH]; [by destruct s|].
  rewrite string_app_cons, prefix_cons. destruct (ascii_dec c c); [exact IH|congruence].
Qed.

Lemma HasPrefix_spec s p : HasPrefix s p = true <-> exists t, s = p +:+ t.
Proof.
  split; [|intros [t ->]; apply HasPrefix_app].
  unfold HasPrefix. revert s. induction p as [|c p IH]; intros s.
  - intros _. by exists s.
  - destruct s as [|d s]; [done|]. rewrite prefix_cons.
    destruct (ascii_dec c d) as [->|]; [|done]. intros [t ->]%IH. by exists t.
Qed.

Lemma string_app_inj_l (p s t : string) : p +:+ s = p +:+ t -> s = t.
Proof. induction p as [|c p IH]; [done|]. rewrite !string_app_cons. intros H. injection H. exact IH. Qed.

Lemma TrimPrefix_app p s : TrimPrefix (p +:+ s) p = s.
Proof.
  unfold TrimPrefix. rewrite HasPrefix_app. induction p as [|c p IH]; [by destruct s|exact IH].
Qed.
