(* ===== verification/Effects.v ===== *)
(** Effectful Go code as a free monad over the interfaces it calls.

    An interface (a Go interface, the Kubernetes client, the operating system)
    is a family of events [E X]: a call and the type [X] of its answer. A
    program [prog E A] is a finite tree of calls; it is executable against any
    handler of its events ([run]) and it can be compiled to a lower interface
    ([interp]). Code that is not under src/ is never given a definition: it is
    whatever answers the events. *)

From S2P Require Import Prelude.

(** * Programs *)

Inductive prog (E : Type -> Type) (A : Type) : Type :=
| Ret (a : A)
| Vis {X : Type} (e : E X) (k : X -> prog E A).
Arguments Ret {E A} _.
Arguments Vis {E A X} _ _.

Fixpoint pbind {E A B} (p : prog E A) (f : A -> prog E B) : prog E B :=
  match p with
  | Ret a => f a
  | Vis e k => Vis e (fun x => pbind (k x) f)
  end.

Definition call {E X} (e : E X) : prog E X := Vis e Ret.

Declare Scope prog_scope.
Delimit Scope prog_scope with prog.
Bind Scope prog_scope with prog.
Global Open Scope prog_scope.

Notation "x <- p ;; k" := (pbind p (fun x => k))
  (at level 100, p at next level, right associativity) : prog_scope.
Notation "' pat <- p ;; k" := (pbind p (fun x => match x with pat => k end))
  (at level 20, pat pattern, p at level 99, k at level 200) : prog_scope.
Notation "p ;; k" := (pbind p (fun _ => k))
  (at level 100, k at level 200, right associativity) : prog_scope.

(** [x, err := p; if err != nil { h }; k] *)
Notation "'try' x := p 'catch' err => h 'in' k" :=
  (pbind p (fun r => match r with Ok x => k | Err err => h end))
  (at level 10, x pattern, p at level 100, err name, h at level 100, k at level 200) : prog_scope.

(** [if err := p; err != nil { h }; k] *)
Notation "'guard' p 'catch' err => h 'in' k" :=
  (pbind p (fun r => match r with None => k | Some err => h end))
  (at level 10, p at level 100, err name, h at level 100, k at level 200) : prog_scope.

(** * Loops *)

(** [for _, x := range xs] whose body updates a state and may leave the
    function with a value ([inr]). *)
Fixpoint for_each {E A S R} (body : A -> S -> prog E (S + R)) (xs : list A) (s : S) : prog E (S + R) :=
  match xs with
  | [] => Ret (inl s)
  | x :: xs =>
      r <- body x s;;
      match r with
      | inl s => for_each body xs s
      | inr r => Ret (inr r)
      end
  end.

(** A loop that never leaves the function. *)
Fixpoint fold_prog {E A S} (body : A -> S -> prog E S) (xs : list A) (s : S) : prog E S :=
  match xs with
  | [] => Ret s
  | x :: xs => s <- body x s;; fold_prog body xs s
  end.

(** * Semantics *)

(** A call together with its answer. *)
Inductive ev (E : Type -> Type) : Type :=
| Ev {X : Type} (e : E X) (x : X).
Arguments Ev {E X} _ _.

(** [runs p tr a]: with the answers recorded in [tr], [p] returns [a]. *)
Inductive runs {E A} : prog E A -> list (ev E) -> A -> Prop :=
| runs_ret a : runs (Ret a) [] a
| runs_vis X (e : E X) k x tr a : runs (k x) tr a -> runs (Vis e k) (Ev e x :: tr) a.

(** Execution against a stateful environment: the result, the new state of the
    environment and the trace of calls. *)
Fixpoint run {E A S} (h : forall X, E X -> S -> X * S) (p : prog E A) (s : S) : A * S * list (ev E) :=
  match p with
  | Ret a => (a, s, [])
  | Vis e k =>
      let '(x, s) := h _ e s in
      let '(a, s, tr) := run h (k x) s in
      (a, s, Ev e x :: tr)
  end.

(** Compilation of the calls of one interface into programs over another, with
    the private state of the implementation threaded through. *)
Fixpoint interp {E F A S} (h : forall X, E X -> S -> prog F (X * S)) (p : prog E A) (s : S) : prog F (A * S) :=
  match p with
  | Ret a => Ret (a, s)
  | Vis e k => '(x, s) <- h _ e s;; interp h (k x) s
  end.

(** Renaming of the calls of one interface into those of a larger one. *)
Fixpoint translate {E F A} (f : forall X, E X -> F X) (p : prog E A) : prog F A :=
  match p with
  | Ret a => Ret a
  | Vis e k => Vis (f _ e) (fun x => translate f (k x))
  end.

Definition translate_ev {E F} (f : forall X, E X -> F X) (v : ev E) : ev F :=
  match v with Ev e x => Ev (f _ e) x end.

(** * Postconditions *)

(** [wp p Q]: whatever the environment answers, [p] returns some [a] after a
    trace [tr] with [Q a tr]. Programs are finite trees, so this is total
    correctness. *)
Fixpoint wp {E A} (p : prog E A) (Q : A -> list (ev E) -> Prop) : Prop :=
  match p with
  | Ret a => Q a []
  | Vis e k => forall x, wp (k x) (fun a tr => Q a (Ev e x :: tr))
  end.

(** [emits P p]: every call [p] can make satisfies [P], whatever the answers. *)
Fixpoint emits {E A} (P : forall X, E X -> Prop) (p : prog E A) : Prop :=
  match p with
  | Ret _ => True
  | Vis e k => P _ e /\ forall x, emits P (k x)
  end.

(** Against an environment given as a transition relation on its state, [must]
    is the weakest precondition over all its behaviours and [may] the
    reachability of an outcome. *)
Fixpoint must {E A S} (step : forall X, E X -> S -> X -> S -> Prop) (p : prog E A) (s : S)
    (Q : A -> S -> Prop) : Prop :=
  match p with
  | Ret a => Q a s
  | Vis e k => forall x s', step _ e s x s' -> must step (k x) s' Q
  end.

Fixpoint may {E A S} (step : forall X, E X -> S -> X -> S -> Prop) (p : prog E A) (s : S)
    (a : A) (s' : S) : Prop :=
  match p with
  | Ret b => b = a /\ s = s'
  | Vis e k => exists x s1, step _ e s x s1 /\ may step (k x) s1 a s'
  end.

(** The call of a trace element satisfies [P]. *)
Definition ev_sat {E} (P : forall X, E X -> Prop) (v : ev E) : Prop :=
  match v with Ev e _ => P _ e end.

(** * Laws *)

Section Laws.
Context {E : Type -> Type}.


Lemma wp_mono {A} (p : prog E A) (Q Q' : A -> list (ev E) -> Prop) :
  wp p Q -> (forall a tr, Q a tr -> Q' a tr) -> wp p Q'.
Proof.
  revert Q Q'. induction p as [a|X e k IH]; simpl; intros Q Q' H HQ; [auto|].
  intros x. eapply IH; [apply H|]. simpl. auto.
Qed.

Lemma wp_bind {A B} (p : prog E A) (f : A -> prog E B) Q :
  wp p (fun a tr => wp (f a) (fun b tr' => Q b (tr ++ tr'))) -> wp (pbind p f) Q.
Proof.
  revert Q. induction p as [a|X e k IH]; simpl; intros Q H; [exact H|].
  intros x. apply IH. exact (H x).
Qed.

Lemma wp_call {X B} (e : E X) (f : X -> prog E B) Q :
  (forall x, wp (f x) (fun b tr => Q b (Ev e x :: tr))) -> wp (pbind (call e) f) Q.
Proof. simpl. auto. Qed.

Lemma wp_conj {A} (p : prog E A) Q1 Q2 :
  wp p Q1 -> wp p Q2 -> wp p (fun a tr => Q1 a tr /\ Q2 a tr).
Proof.
  revert Q1 Q2. induction p as [a|X e k IH]; simpl; intros Q1 Q2 H1 H2; [auto|].
  intros x. apply IH; auto.
Qed.

Lemma wp_intro {A} (p : prog E A) (Q : A -> list (ev E) -> Prop) :
  (forall a tr, Q a tr) -> wp p Q.
Proof. revert Q. induction p; simpl; auto. Qed.

(** The logic is sound and complete for the runs of a program. *)
Lemma wp_runs {A} (p : prog E A) Q tr a : wp p Q -> runs p tr a -> Q a tr.
Proof.
  intros H Hr. revert Q H. induction Hr as [|X e k x tr a Hr IH]; simpl; intros Q H; [exact H|].
  exact (IH _ (H x)).
Qed.

Lemma wp_self {A} (p : prog E A) : wp p (fun a tr => runs p tr a).
Proof.
  induction p as [a|X e k IH]; simpl; [constructor|].
  intros x. eapply wp_mono; [apply IH|]. intros a tr H. by constructor.
Qed.

Lemma run_runs {A S} (h : forall X, E X -> S -> X * S) (p : prog E A) s :
  runs p (run h p s).2 (run h p s).1.1.
Proof.
  revert s. induction p as [a|X e k IH]; simpl; intros s; [constructor|].
  destruct (h X e s) as [x s1]. specialize (IH x s1).
  destruct (run h (k x) s1) as [[a s2] tr]. simpl in *. by constructor.
Qed.

Lemma wp_run {A S} (h : forall X, E X -> S -> X * S) (p : prog E A) s Q :
  wp p Q -> Q (run h p s).1.1 (run h p s).2.
Proof. intros H. eapply wp_runs; [exact H|apply run_runs]. Qed.

Lemma run_bind {A B S} (h : forall X, E X -> S -> X * S) (p : prog E A) (f : A -> prog E B) s :
  run h (pbind p f) s =
  let '(a, s1, tr1) := run h p s in
  let '(b, s2, tr2) := run h (f a) s1 in (b, s2, tr1 ++ tr2).
Proof.
  revert s. induction p as [a|X e k IH]; intros s; simpl; [by destruct (run h (f a) s) as [[? ?] ?]|].
  destruct (h X e s) as [x s1]. rewrite IH. destruct (run h (k x) s1) as [[a s2] tr1].
  by destruct (run h (f a) s2) as [[? ?] ?].
Qed.

Lemma emits_bind {A B} P (p : prog E A) (f : A -> prog E B) :
  emits P p -> (forall a, emits P (f a)) -> emits P (pbind p f).
Proof. induction p as [a|X e k IH]; simpl; [auto|]. intros [He Hk] Hf. split; auto. Qed.

(** Sequencing with a fact about the answer of the first program. *)
Lemma emits_bind_post {A B} P (R : A -> Prop) (p : prog E A) (f : A -> prog E B) :
  emits P p -> wp p (fun a _ => R a) -> (forall a, R a -> emits P (f a)) -> emits P (pbind p f).
Proof. induction p as [a|X e k IH]; simpl; [auto|]. intros [He Hk] Hw Hf. split; auto. Qed.

Lemma emits_call {X} (P : forall X, E X -> Prop) (e : E X) : P X e -> emits P (call e).
Proof. simpl. auto. Qed.

Lemma emits_mono {A} (P P' : forall X, E X -> Prop) (p : prog E A) :
  emits P p -> (forall X e, P X e -> P' X e) -> emits P' p.
Proof. intros H HP. induction p as [a|X e k IH]; simpl in *; [done|]. destruct H. auto. Qed.

Lemma emits_for_each {A S R} P (body : A -> S -> prog E (S + R)) xs s :
  (forall x s, x ∈ xs -> emits P (body x s)) -> emits P (for_each body xs s).
Proof.
  revert s. induction xs as [|x xs IH]; simpl; intros s H; [done|].
  apply emits_bind; [apply H, list_elem_of_here|]. intros [s'|r]; [|done].
  apply IH. intros y s'' Hy. apply H. by apply list_elem_of_further.
Qed.

Lemma emits_fold {A S} P (body : A -> S -> prog E S) xs s :
  (forall x s, x ∈ xs -> emits P (body x s)) -> emits P (fold_prog body xs s).
Proof.
  revert s. induction xs as [|x xs IH]; simpl; intros s H; [done|].
  apply emits_bind; [apply H, list_elem_of_here|]. intros s'.
  apply IH. intros y s'' Hy. apply H. by apply list_elem_of_further.
Qed.

Lemma must_bind {A B S} step (p : prog E A) (f : A -> prog E B) (s : S) Q :
  must step p s (fun a s' => must step (f a) s' Q) -> must step (pbind p f) s Q.
Proof. revert s. induction p as [a|X e k IH]; simpl; intros s H; [exact H|]. auto. Qed.

Lemma must_mono {A S} step (p : prog E A) (s : S) (Q Q' : A -> S -> Prop) :
  must step p s Q -> (forall a s', Q a s' -> Q' a s') -> must step p s Q'.
Proof. revert s. induction p as [a|X e k IH]; simpl; intros s H HQ; eauto. Qed.

Lemma must_may {A S} step (p : prog E A) (s : S) Q a s' : must step p s Q -> may step p s a s' -> Q a s'.
Proof.
  revert s. induction p as [b|X e k IH]; simpl; intros s H Hm.
  - destruct Hm as [-> ->]. exact H.
  - destruct Hm as (x & s1 & Hs & Hm). eauto.
Qed.

Lemma emits_wp {A} P (p : prog E A) : emits P p -> wp p (fun _ tr => Forall (ev_sat P) tr).
Proof.
  induction p as [a|X e k IH]; simpl; [constructor|].
  intros [He Hk] x. eapply wp_mono; [apply IH, Hk|]. simpl. intros. by constructor.
Qed.

(** A program that only makes calls satisfying [P] may be skipped, remembering
    that the calls it made satisfy [P]. *)
Lemma wp_skip {A} P (p : prog E A) (Q : A -> list (ev E) -> Prop) :
  emits P p -> (forall a tr, Forall (ev_sat P) tr -> Q a tr) -> wp p Q.
Proof. intros He HQ. eapply wp_mono; [by apply emits_wp|]. auto. Qed.

(** Loop rule: an invariant over the state and the trace made so far. *)
Lemma wp_for_each {A S R} (I : S -> list (ev E) -> Prop) (body : A -> S -> prog E (S + R)) xs s
    (Q : S + R -> list (ev E) -> Prop) :
  I s [] ->
  (forall x s tr, x ∈ xs -> I s tr ->
     wp (body x s) (fun r tr' => match r with
                                 | inl s' => I s' (tr ++ tr')
                                 | inr v => Q (inr v) (tr ++ tr')
                                 end)) ->
  (forall s tr, I s tr -> Q (inl s) tr) ->
  wp (for_each body xs s) Q.
Proof.
  intros H0 Hb HQ.
  assert (Hgen : forall xs' s tr, (forall x, x ∈ xs' -> x ∈ xs) -> I s tr ->
    wp (for_each body xs' s) (fun r tr' => Q r (tr ++ tr'))).
  { induction xs' as [|x xs' IH]; simpl; intros s' tr Hsub Hi.
    - rewrite app_nil_r. by apply HQ.
    - apply wp_bind. eapply wp_mono; [eapply Hb; [apply Hsub, list_elem_of_here|exact Hi]|].
      intros [s''|v] tr' Hr; simpl in *.
      + eapply wp_mono; [apply IH; [|exact Hr]|].
        * intros y Hy. apply Hsub. by apply list_elem_of_further.
        * intros r tr'' H. by rewrite app_assoc.
      + by rewrite app_nil_r. }
  exact (Hgen xs s [] (fun _ H => H) H0).
Qed.

(** The same with an invariant that knows the elements visited so far. *)
Lemma wp_for_each_visited {A S R} (I : list A -> S -> list (ev E) -> Prop) (body : A -> S -> prog E (S + R)) xs s
    (Q : S + R -> list (ev E) -> Prop) :
  I [] s [] ->
  (forall visited x rest s tr, xs = visited ++ x :: rest -> I visited s tr ->
     wp (body x s) (fun r tr' => match r with
                                 | inl s' => I (visited ++ [x]) s' (tr ++ tr')
                                 | inr v => Q (inr v) (tr ++ tr')
                                 end)) ->
  (forall s tr, I xs s tr -> Q (inl s) tr) ->
  wp (for_each body xs s) Q.
Proof.
  intros H0 Hb HQ.
  assert (Hgen : forall rest visited s tr, xs = visited ++ rest -> I visited s tr ->
    wp (for_each body rest s) (fun r tr' => Q r (tr ++ tr'))).
  { induction rest as [|x rest IH]; simpl; intros visited s' tr Hxs Hi.
    - rewrite app_nil_r in *. subst visited. by apply HQ.
    - apply wp_bind. eapply wp_mono; [by eapply Hb|].
      intros [s''|v] tr' Hr; simpl in *; [|by rewrite app_nil_r].
      eapply wp_mono; [eapply (IH (visited ++ [x])); [by rewrite <- app_assoc|exact Hr]|].
      intros r tr'' H. by rewrite app_assoc. }
  exact (Hgen xs [] s [] eq_refl H0).
Qed.

(** The same with the elements the loop has visited. *)
Lemma wp_fold_visited {A S} (I : list A -> S -> list (ev E) -> Prop) (body : A -> S -> prog E S) xs s
    (Q : S -> list (ev E) -> Prop) :
  I [] s [] ->
  (forall visited x rest s tr, xs = visited ++ x :: rest -> I visited s tr ->
     wp (body x s) (fun s' tr' => I (visited ++ [x]) s' (tr ++ tr'))) ->
  (forall s tr, I xs s tr -> Q s tr) ->
  wp (fold_prog body xs s) Q.
Proof.
  intros H0 Hb HQ.
  assert (Hgen : forall rest visited s tr, xs = visited ++ rest -> I visited s tr ->
    wp (fold_prog body rest s) (fun r tr' => Q r (tr ++ tr'))).
  { induction rest as [|x rest IH]; simpl; intros visited s' tr Hxs Hi.
    - rewrite app_nil_r in *. subst visited. by apply HQ.
    - apply wp_bind. eapply wp_mono; [by eapply Hb|]. intros s'' tr' Hr.
      eapply wp_mono; [eapply (IH (visited ++ [x])); [by rewrite <- app_assoc|exact Hr]|].
      intros r tr'' H. by rewrite app_assoc. }
  exact (Hgen xs [] s [] eq_refl H0).
Qed.

Lemma wp_fold {A S} (I : S -> list (ev E) -> Prop) (body : A -> S -> prog E S) xs s
    (Q : S -> list (ev E) -> Prop) :
  I s [] ->
  (forall x s tr, x ∈ xs -> I s tr -> wp (body x s) (fun s' tr' => I s' (tr ++ tr'))) ->
  (forall s tr, I s tr -> Q s tr) ->
  wp (fold_prog body xs s) Q.
Proof.
  intros H0 Hb HQ.
  assert (Hgen : forall xs' s tr, (forall x, x ∈ xs' -> x ∈ xs) -> I s tr ->
    wp (fold_prog body xs' s) (fun r tr' => Q r (tr ++ tr'))).
  { induction xs' as [|x xs' IH]; simpl; intros s' tr Hsub Hi.
    - rewrite app_nil_r. by apply HQ.
    - apply wp_bind. eapply wp_mono; [eapply Hb; [apply Hsub, list_elem_of_here|exact Hi]|].
      intros s'' tr' Hr. eapply wp_mono; [apply IH; [|exact Hr]|].
      + intros y Hy. apply Hsub. by apply list_elem_of_further.
      + intros r tr'' H. by rewrite app_assoc. }
  exact (Hgen xs s [] (fun _ H => H) H0).
Qed.
End Laws.

Lemma emits_translate {E F : Type -> Type} {A} (P : forall X, F X -> Prop) (f : forall X, E X -> F X) (p : prog E A) :
  (forall X e, P X (f X e)) -> emits P (translate f p).
Proof. intros H. induction p as [a|X e k IH]; simpl; auto. Qed.

Lemma wp_translate {E F : Type -> Type} {A} (f : forall X, E X -> F X) (p : prog E A) Q :
  wp p (fun a tr => Q a (map (translate_ev f) tr)) -> wp (translate f p) Q.
Proof. revert Q. induction p as [a|X e k IH]; simpl; intros Q H; [exact H|]. intros x. apply IH, H. Qed.

(** Calls of an implemented interface: what the implementation of each call may do. *)
Lemma emits_interp {E F : Type -> Type} {A S} (P : forall X, E X -> Prop) (P' : forall X, F X -> Prop)
    (h : forall X, E X -> S -> prog F (X * S)) (p : prog E A) s :
  emits P p -> (forall X e s, P X e -> emits P' (h X e s)) -> emits P' (interp h p s).
Proof.
  intros Hp Hh. revert s. induction p as [a|X e k IH]; intros s; simpl in *; [done|].
  destruct Hp as [He Hk]. apply emits_bind; [by apply Hh|]. intros [x s']. by apply IH.
Qed.

(** * Order of calls *)

(** Every call of the trace is in the relation [R] to the calls before it. *)
Definition ordered {E} (R : list (ev E) -> ev E -> Prop) (tr : list (ev E)) : Prop :=
  forall tr1 v tr2, tr = tr1 ++ v :: tr2 -> R tr1 v.

Section Ordered.
Context {E : Type -> Type}.
Implicit Types (R : list (ev E) -> ev E -> Prop) (tr : list (ev E)).

Lemma ordered_nil R : ordered R [].
Proof. intros tr1 v tr2 H. by destruct tr1. Qed.

Lemma ordered_app R tr1 tr2 :
  ordered R (tr1 ++ tr2) <-> ordered R tr1 /\ ordered (fun before => R (tr1 ++ before)) tr2.
Proof.
  split.
  - intros H. split.
    + intros t1 v t2 ->. apply (H t1 v (t2 ++ tr2)). by rewrite <- app_assoc.
    + intros t1 v t2 ->. apply (H (tr1 ++ t1) v t2). by rewrite app_assoc.
  - intros [H1 H2] t1 v t2 Heq.
    apply app_eq_app in Heq as (l & [[-> Hl]|[-> ->]]); [|by apply (H2 l v t2)].
    destruct l as [|w l]; simplify_eq/=; [|by apply (H1 t1 w l)].
    specialize (H2 [] v t2 eq_refl). by rewrite !app_nil_r in H2.
Qed.

Lemma ordered_cons R v tr : ordered R (v :: tr) <-> R [] v /\ ordered (fun before => R (v :: before)) tr.
Proof.
  rewrite (ordered_app R [v] tr). split; intros [H1 H2]; (split; [|exact H2]).
  - by apply (H1 [] v []).
  - intros [|w t1] x t2 [= <- Ht]; [exact H1|by destruct t1].
Qed.

Lemma ordered_mono R R' tr :
  ordered R tr -> (forall before v, v ∈ tr -> R before v -> R' before v) -> ordered R' tr.
Proof.
  intros H HR tr1 v tr2 ->. apply HR; [|by apply (H tr1 v tr2)].
  rewrite elem_of_app. right. apply list_elem_of_here.
Qed.

(** A relation that holds of every call of the trace, whatever came before. *)
Lemma ordered_Forall R tr : Forall (fun v => forall before, R before v) tr -> ordered R tr.
Proof. intros H tr1 v tr2 ->. apply Forall_app in H as [_ [H _]%Forall_cons]. apply H. Qed.
End Ordered.

(** * Concurrency *)

(** [interleaved ls l]: [l] takes its elements from the fronts of the lists [ls] until all are
    used up. *)
Inductive interleaved {A} : list (list A) -> list A -> Prop :=
| interleaved_nil ls : Forall (eq []) ls -> interleaved ls []
| interleaved_cons ls1 x l ls2 tr :
    interleaved (ls1 ++ l :: ls2) tr -> interleaved (ls1 ++ (x :: l) :: ls2) (x :: tr).

Lemma interleaved_perm {A} (ls : list (list A)) tr : interleaved ls tr -> Permutation tr (concat ls).
Proof.
  induction 1 as [ls H|ls1 x l ls2 tr _ IH].
  - induction H as [|l ls <- _ IH]; simpl; [done|exact IH].
  - rewrite concat_app in *. simpl in *. rewrite IH. by rewrite Permutation_middle.
Qed.

Lemma interleaved_elem {A} (ls : list (list A)) tr x : interleaved ls tr -> x ∈ tr -> exists l, l ∈ ls /\ x ∈ l.
Proof.
  intros H%interleaved_perm. rewrite H, !list_elem_of_In, in_concat. intros (l & Hl & Hx). exists l.
  by rewrite !list_elem_of_In.
Qed.

Lemma interleaved_sub {A B} (rs : list (list A * B)) tr l b : interleaved (map fst rs) tr -> (l, b) ∈ rs -> l ⊆ tr.
Proof.
  intros Hi Hin v Hv. rewrite (interleaved_perm _ _ Hi), list_elem_of_In, in_concat. exists l.
  split; [|by apply list_elem_of_In]. apply in_map_iff. exists (l, b). by rewrite <- list_elem_of_In.
Qed.

Lemma interleaved_append {A} (ls : list (list A)) tr l tr' :
  interleaved ls tr' -> l = tr -> interleaved (l :: ls) (tr ++ tr').
Proof.
  intros H ->. induction tr as [|x tr IH]; simpl.
  - induction H as [ls H|ls1 x l ls2 tr' _ IH]; [constructor; by constructor|]. by apply (interleaved_cons ([] :: ls1)).
  - by apply (interleaved_cons []).
Qed.

(** What every list orders stays ordered in their interleaving, if more calls before do no harm. *)
Lemma interleaved_ordered {E} (R : list (ev E) -> ev E -> Prop) ls tr :
  (forall before before' v, R before v -> before ⊆ before' -> R before' v) ->
  interleaved ls tr -> (forall l, l ∈ ls -> ordered R l) -> ordered R tr.
Proof.
  intros Hmono Hi. revert R Hmono. induction Hi as [ls _|ls1 x l ls2 tr _ IH]; intros R Hmono Hls; [apply ordered_nil|].
  assert (Hx : ordered R (x :: l)) by (apply Hls; set_solver). apply ordered_cons in Hx as [Hx Hl].
  apply ordered_cons. split; [done|]. apply IH.
  - intros before before' v HR Hsub. eapply Hmono; [exact HR|set_solver].
  - intros l' [Hin|[->|Hin]%elem_of_cons]%elem_of_app; [|done|];
      (eapply ordered_mono; [apply Hls; set_solver|]); intros before v _ HR; (eapply Hmono; [exact HR|set_solver]).
Qed.

(** Goroutines: the programs run to their end, their calls reach the environment interleaved in
    any order and their results arrive, through a channel, in any order. *)
Definition parallel {E A} (ps : list (prog E A)) (tr : list (ev E)) (results : list A) : Prop :=
  exists rs : list (list (ev E) * A),
    Forall2 (fun p run => runs p run.1 run.2) ps rs /\ interleaved (map fst rs) tr /\ Permutation results (map snd rs).

Section Parallel.
Context {E : Type -> Type} {A : Type}.
Implicit Types (ps : list (prog E A)) (tr : list (ev E)) (results : list A).

Lemma parallel_nil : parallel (E := E) (A := A) [] [] [].
Proof. exists []. split; [constructor|]. split; [by constructor|done]. Qed.

(** One after the other is one of the schedules. *)
Lemma parallel_cons p ps tr1 a tr results :
  runs p tr1 a -> parallel ps tr results -> parallel (p :: ps) (tr1 ++ tr) (a :: results).
Proof.
  intros Hr (rs & Hrs & Hi & Hp). exists ((tr1, a) :: rs). split; [by constructor|].
  split; [by apply interleaved_append|]. simpl. by constructor.
Qed.

(** Every program ran, and its calls and its result are among those seen. *)
Lemma parallel_ran ps tr results p :
  parallel ps tr results -> p ∈ ps -> exists tr' a, runs p tr' a /\ tr' ⊆ tr /\ a ∈ results.
Proof.
  intros (rs & Hrs & Hi & Hp) (i & Hi')%list_elem_of_lookup_1.
  destruct (Forall2_lookup_l _ _ _ _ _ Hrs Hi') as ([tr' a] & Hrun & Hr). exists tr', a. split; [done|].
  apply list_elem_of_lookup_2 in Hrun. split; [by eapply interleaved_sub|].
  rewrite Hp. apply list_elem_of_fmap. by exists (tr', a).
Qed.

(** Every call is one of some program, and so is every result. *)
Lemma parallel_call ps tr results v :
  parallel ps tr results -> v ∈ tr -> exists p tr' a, p ∈ ps /\ runs p tr' a /\ v ∈ tr'.
Proof.
  intros (rs & Hrs & Hi & _) Hv. destruct (interleaved_elem _ _ _ Hi Hv) as (tr' & Hin & Hv').
  apply (list_elem_of_fmap fst) in Hin as ([tr0 a] & -> & (i & Hi')%list_elem_of_lookup_1).
  destruct (Forall2_lookup_r _ _ _ _ _ Hrs Hi') as (p & Hp & Hr). exists p, tr0, a.
  split; [by eapply list_elem_of_lookup_2|done].
Qed.

Lemma parallel_result ps tr results a :
  parallel ps tr results -> a ∈ results -> exists p tr', p ∈ ps /\ runs p tr' a /\ tr' ⊆ tr.
Proof.
  intros (rs & Hrs & Hi & Hp). rewrite Hp. intros Hin. apply (list_elem_of_fmap snd) in Hin as ([tr' a'] & -> & (i & Hi')%list_elem_of_lookup_1).
  destruct (Forall2_lookup_r _ _ _ _ _ Hrs Hi') as (p & Hps & Hr). exists p, tr'.
  split; [by eapply list_elem_of_lookup_2|]. split; [done|]. by eapply interleaved_sub, list_elem_of_lookup_2.
Qed.
End Parallel.

(** * Automation *)

(** An [ordered] goal on a concrete trace, call by call. *)
Ltac order_steps :=
  repeat match goal with
  | |- ordered _ [] => apply ordered_nil
  | |- ordered _ (_ :: _) => apply ordered_cons; split
  | |- ordered _ ((_ :: _) ++ _) => apply ordered_cons; split
  | |- ordered _ ([] ++ ?tr) => rewrite (app_nil_l tr)
  end.

(** One structural step of an [emits] goal: sequencing, loops, case analysis on
    answers, and known programs through the hint database. *)
Ltac emits_step :=
  match goal with
  | |- emits _ (Ret _) => exact I
  | |- emits _ (pbind _ _) => apply emits_bind; [|intros ?]
  | |- emits _ (call _) => apply emits_call; try exact I
  | |- emits _ (for_each _ _ _) => apply emits_for_each; intros ? ? _
  | |- emits _ (fold_prog _ _ _) => apply emits_fold; intros ? ? _
  | |- emits _ (match ?x with _ => _ end) => destruct x eqn:?
  | |- emits _ (let '_ := ?x in _) => destruct x eqn:?
  | |- emits _ _ => progress simpl
  end.
Ltac emits_auto := repeat (solve [eauto with lvms] || emits_step).
