(* ===== verification/Monitor.v ===== *)
(** Contracts of programs as monitors: an automaton that follows the calls of a program together
    with their answers and says which calls are in order. Unlike a postcondition, [follows]
    constrains a program at every point of its run, so it is the right notion for programs
    whose calls are interleaved with those of others. *)

From S2P Require Import Prelude Effects.

Section Monitor.
Context {E : Type -> Type} {M : Type}.
Variable delta : M -> ev E -> M.
Variable in_order : M -> forall X, E X -> Prop.

(** From the state [m] on, every call of [p] is in order. *)
Fixpoint follows {A} (m : M) (p : prog E A) : Prop :=
  match p with
  | Ret _ => True
  | Vis e k => in_order m _ e /\ forall x, follows (delta m (Ev e x)) (k x)
  end.

Lemma follows_bind {A B} (p : prog E A) (f : A -> prog E B) m :
  follows m p -> (forall tr a, runs p tr a -> follows (foldl delta m tr) (f a)) -> follows m (pbind p f).
Proof.
  revert m. induction p as [a|X e k IH]; intros m Hp Hf; cbn [pbind follows] in *.
  - apply (Hf [] a). constructor.
  - destruct Hp as [He Hk]. split; [done|]. intros x. apply IH; [apply Hk|].
    intros tr a Hr. apply (Hf (Ev e x :: tr)). by constructor.
Qed.

(** Calls under which a set of states is closed. *)
Record closed (P : M -> Prop) (good : forall X, E X -> Prop) : Prop := {
  closed_ok : forall m X (e : E X), P m -> good X e -> in_order m X e;
  closed_step : forall m X (e : E X) x, P m -> good X e -> P (delta m (Ev e x));
}.

Lemma follows_closed {A} P good (p : prog E A) m : closed P good -> P m -> emits good p -> follows m p.
Proof.
  intros HP. revert m. induction p as [a|X e k IH]; intros m Hm; cbn [emits follows]; [done|].
  intros [He Hk]. split; [by eapply closed_ok|]. intros x. apply IH; [by eapply closed_step|done].
Qed.

Lemma runs_closed {A} P good (p : prog E A) m tr a :
  closed P good -> P m -> emits good p -> runs p tr a -> P (foldl delta m tr).
Proof.
  intros HP Hm He Hr. revert m Hm He. induction Hr as [a|X e k x tr a _ IH]; intros m Hm He; [done|].
  destruct He as [He Hk]. apply (IH (delta m (Ev e x))); [by eapply closed_step|done].
Qed.

(** A first part whose calls keep a set of states, and what is known of its result. *)
Lemma follows_part {A B} P good (Q : A -> Prop) (p : prog E A) (f : A -> prog E B) m :
  closed P good -> P m -> emits good p -> wp p (fun a _ => Q a) ->
  (forall m a, P m -> Q a -> follows m (f a)) -> follows m (pbind p f).
Proof.
  intros HP Hm He Hw Hf. apply follows_bind; [by eapply follows_closed|]. intros tr a Hr.
  apply Hf; [by eapply runs_closed|]. by apply (wp_runs _ _ _ _ Hw) in Hr.
Qed.

Lemma follows_then {A B} P good (p : prog E A) (f : A -> prog E B) m :
  closed P good -> P m -> emits good p -> (forall m a, P m -> follows m (f a)) -> follows m (pbind p f).
Proof. intros HP Hm He Hf. eapply (follows_part P good (fun _ => True)); try done; [by apply wp_intro|]. auto. Qed.
End Monitor.
