(* ===== verification/GoHeap.v ===== *)
(** The memory of a Go program, as far as copying data structures needs it: typed variables and
    arrays at locations, pointers and slices into them, and a small monad of programs that read,
    write and allocate. The types that may be stored are a parameter (a universe of codes).

    The second part says which part of the memory a structure occupies and which value it denotes
    ([walk]), and when a program makes an independent copy of one ([clones]). *)

From S2P Require Import Prelude GoStd.

(** * Memory *)

(** The types of the variables of a program, their values and their zero values. *)
Class Universe := {
  ty : Type;
  ty_eq_dec :: EqDecision ty;
  den : ty -> Type;
  zero : forall t : ty, den t;
}.

(** The Go allocator may return any location that is not in use. *)
Abbreviation loc := positive (only parsing).
Class Allocator := {
  pick : gset loc -> loc;
  pick_fresh : forall X, pick X ∉ X;
}.

(** A pointer to a variable: an element of an allocated array, a single variable being an array
    of length one. A slice: an array, an offset and a length. *)
Record ptr := mkPtr { p_obj : loc; p_idx : nat }.
Record slice := mkSlice { sl_obj : loc; sl_off : nat; sl_len : nat }.

Record object `{Universe} := mkObject { obj_ty : ty; obj_data : list (den obj_ty) }.

Arguments mkObject {_} _ _.

Abbreviation heap := (gmap positive object).

Section Heap.
Context `{U : Universe}.

Definition as_ty (t : ty) (o : object) : option (list (den t)) :=
  match decide (obj_ty o = t) with
  | left e => Some (eq_rect (obj_ty o) (fun t => list (den t)) (obj_data o) t e)
  | right _ => None
  end.

Lemma as_ty_same t xs : as_ty t (mkObject t xs) = Some xs.
Proof. unfold as_ty. simpl. destruct (decide (t = t)) as [e|]; [|done]. by rewrite (proof_irrel e eq_refl). Qed.

(** A program over the memory; [None] is a panic (nil or out-of-range access). *)
Definition M (A : Type) : Type := heap -> option (A * heap).

#[export] Instance M_ret : MRet M := fun A a h => Some (a, h).
#[export] Instance M_bind : MBind M := fun A B f m h =>
  match m h with Some (a, h) => f a h | None => None end.

Definition read (l : loc) (t : ty) : M (list (den t)) := fun h =>
  o ← h !! l; xs ← as_ty t o; Some (xs, h).

Definition write (l : loc) (t : ty) (xs : list (den t)) : M unit := fun h =>
  _ ← h !! l; Some (tt, <[l := mkObject t xs]> h).

Definition panic {A} : M A := fun _ => None.

(** [*p] *)
Definition load (t : ty) (p : ptr) : M (den t) :=
  xs ← read (p_obj p) t; match xs !! p_idx p with Some x => mret x | None => panic end.

(** [*p = x] *)
Definition store (t : ty) (p : ptr) (x : den t) : M unit :=
  xs ← read (p_obj p) t; if decide (p_idx p < length xs) then write (p_obj p) t (<[p_idx p := x]> xs) else panic.

Context `{A : Allocator}.

Definition alloc (t : ty) (xs : list (den t)) : M loc := fun h =>
  let l := pick (dom h) in Some (l, <[l := mkObject t xs]> h).

(** [new(T)] *)
Definition new (t : ty) : M ptr := l ← alloc t [zero t]; mret (mkPtr l 0).

(** [make([]T, n)] *)
Definition make (t : ty) (n : nat) : M slice := l ← alloc t (replicate n (zero t)); mret (mkSlice l 0 n).

(** [&s[i]] *)
Definition index (s : slice) (i : nat) : M ptr :=
  if decide (i < sl_len s) then mret (mkPtr (sl_obj s) (sl_off s + i)) else panic.

(** [copy(dst, src)] *)
Definition copy_slice (t : ty) (dst src : slice) : M unit :=
  let n := Nat.min (sl_len dst) (sl_len src) in
  xs ← read (sl_obj src) t; ys ← read (sl_obj dst) t;
  write (sl_obj dst) t (take (sl_off dst) ys ++ take n (drop (sl_off src) xs) ++ drop (sl_off dst + n) ys).

(** [for i := range src { body(i) }] over the indices from [i], [n] of them. *)
Fixpoint for_range (body : nat -> M unit) (i n : nat) : M unit :=
  match n with
  | O => mret tt
  | S n => _ ← body i; for_range body (S i) n
  end.

(** * The statements deep copies are made of *)

(** [if in != nil { *out = new(T); ( *in).DeepCopyInto( *out) }], and [**out = **in] when [into]
    is the assignment [mret]. *)
Definition clone_struct (t : ty) (into : den t -> M (den t)) (p : option ptr) : M (option ptr) :=
  match p with
  | None => mret None
  | Some i => o ← new t; x ← load t i; y ← into x; _ ← store t o y; mret (Some o)
  end.

(** [if in != nil { x := ( *in).DeepCopy(); *out = &x }] *)
Definition clone_value (t : ty) (copy : den t -> M (den t)) (p : option ptr) : M (option ptr) :=
  match p with
  | None => mret None
  | Some i => x ← load t i; y ← copy x; l ← alloc t [y]; mret (Some (mkPtr l 0))
  end.

(** [if in != nil { *out = make([]T, len( *in)); copy( *out, *in) }] *)
Definition clone_plain_slice (t : ty) (s : option slice) : M (option slice) :=
  match s with
  | None => mret None
  | Some i => o ← make t (sl_len i); _ ← copy_slice t o i; mret (Some o)
  end.

(** [( *in)[k].DeepCopyInto(&( *out)[k])] *)
Definition clone_elem (t : ty) (into : den t -> M (den t)) (src dst : slice) (k : nat) : M unit :=
  i ← index src k; x ← load t i; y ← into x; o ← index dst k; store t o y.

(** [if in != nil { *out = make([]T, len( *in)); for i := range *in { ( *in)[i].DeepCopyInto(&( *out)[i]) } }] *)
Definition clone_slice (t : ty) (into : den t -> M (den t)) (s : option slice) : M (option slice) :=
  match s with
  | None => mret None
  | Some i =>
      o ← make t (sl_len i);
      _ ← for_range (clone_elem t into i o) 0 (sl_len i);
      mret (Some o)
  end.

End Heap.

(** * What a structure denotes *)

Section Walks.
Context `{U : Universe}.

(** A walk through a structure: the value it denotes and the locations it occupies; [None] when
    a pointer dangles or leads to an object of another type. *)
Definition W (V : Type) : Type := heap -> option (V * gset loc).

Definition wret {V} (v : V) : W V := fun _ => Some (v, ∅).
Definition wbind {V V'} (w : W V) (k : V -> W V') : W V' := fun h =>
  match w h with
  | Some (v, F) => match k v h with Some (u, G) => Some (u, F ∪ G) | None => None end
  | None => None
  end.

Definition wload (t : ty) (p : ptr) : W (den t) := fun h =>
  o ← h !! p_obj p; xs ← as_ty t o; x ← xs !! p_idx p; Some (x, {[p_obj p]}).

Definition wslice (t : ty) (s : slice) : W (list (den t)) := fun h =>
  o ← h !! sl_obj s; xs ← as_ty t o;
  if decide (sl_off s + sl_len s <= length xs) then Some (take (sl_len s) (drop (sl_off s) xs), {[sl_obj s]}) else None.

Definition walk_ptr {V} (t : ty) (walk : den t -> W V) (p : option ptr) : W (option V) :=
  match p with
  | None => wret None
  | Some i => wbind (wload t i) (fun x => wbind (walk x) (fun v => wret (Some v)))
  end.

Fixpoint walk_list {X V} (walk : X -> W V) (xs : list X) : W (list V) :=
  match xs with
  | [] => wret []
  | x :: xs => wbind (walk x) (fun v => wbind (walk_list walk xs) (fun vs => wret (v :: vs)))
  end.

Definition walk_slice {V} (t : ty) (walk : den t -> W V) (s : option slice) : W (option (list V)) :=
  match s with
  | None => wret None
  | Some i => wbind (wslice t i) (fun xs => wbind (walk_list walk xs) (fun vs => wret (Some vs)))
  end.

(** A walk depends on the locations it visits and on nothing else. *)
Class Walk {V} (w : W V) : Prop := {
  walk_local : forall h h' v F, w h = Some (v, F) -> (forall l, l ∈ F -> h' !! l = h !! l) -> w h' = Some (v, F);
  walk_owned : forall h v F, w h = Some (v, F) -> F ⊆ dom h;
}.

#[export] Instance wret_walk {V} (v : V) : Walk (wret v).
Proof. split; unfold wret; [done|]. intros. simplify_eq. set_solver. Qed.

#[export] Instance wbind_walk {V V'} (w : W V) (k : V -> W V') :
  Walk w -> (forall v, Walk (k v)) -> Walk (wbind w k).
Proof.
  intros Hw Hk. split; unfold wbind.
  - intros h h' u F. destruct (w h) as [[v G]|] eqn:E1; [|done]. destruct (k v h) as [[u' G']|] eqn:E2; [|done].
    intros [= <- <-] Ha. rewrite (walk_local _ _ _ _ E1) by set_solver. by rewrite (walk_local _ _ _ _ E2) by set_solver.
  - intros h u F. destruct (w h) as [[v G]|] eqn:E1; [|done]. destruct (k v h) as [[u' G']|] eqn:E2; [|done].
    intros [= <- <-]. apply walk_owned in E1, E2. set_solver.
Qed.

(** Reading one object is a walk whatever is done with its contents. *)
Lemma read_walk {V} (l : loc) (f : object -> option V) :
  Walk (fun h => o ← h !! l; x ← f o; Some (x, {[l]})).
Proof.
  split.
  - intros h h' v F. destruct (h !! l) as [o|] eqn:E; [|done]. simpl. destruct (f o) eqn:Ef; [|done].
    simpl. intros [= <- <-] Ha. rewrite Ha by set_solver. rewrite E. simpl. by rewrite Ef.
  - intros h v F. destruct (h !! l) as [o|] eqn:E; [|done]. simpl. destruct (f o); [|done].
    intros [= <- <-]. apply elem_of_dom_2 in E. set_solver.
Qed.

Lemma Walk_ext {V} (w w' : W V) : (forall h, w h = w' h) -> Walk w' -> Walk w.
Proof. intros E H. split; intros h; intros; rewrite ?E in *; [by eapply walk_local|by eapply walk_owned]. Qed.

#[export] Instance wload_walk t p : Walk (wload t p).
Proof.
  eapply Walk_ext; [|apply (read_walk (p_obj p) (fun o => xs ← as_ty t o; xs !! p_idx p))].
  intros h. unfold wload. destruct (h !! _); [|done]. simpl. by destruct (as_ty t o).
Qed.

#[export] Instance wslice_walk t s : Walk (wslice t s).
Proof.
  eapply Walk_ext; [|apply (read_walk (sl_obj s) (fun o => xs ← as_ty t o;
    if decide (sl_off s + sl_len s <= length xs) then Some (take (sl_len s) (drop (sl_off s) xs)) else None))].
  intros h. unfold wslice. destruct (h !! _); [|done]. simpl. destruct (as_ty t o); [|done]. simpl. by case_decide.
Qed.

#[export] Instance walk_list_walk {X V} (walk : X -> W V) xs : (forall x, Walk (walk x)) -> Walk (walk_list walk xs).
Proof. intros H. induction xs; simpl; apply _. Qed.

#[export] Instance walk_ptr_walk {V} t (walk : den t -> W V) p : (forall x, Walk (walk x)) -> Walk (walk_ptr t walk p).
Proof. intros H. destruct p; simpl; apply _. Qed.

#[export] Instance walk_slice_walk {V} t (walk : den t -> W V) s : (forall x, Walk (walk x)) -> Walk (walk_slice t walk s).
Proof. intros H. destruct s; simpl; apply _. Qed.

(** A structure denotes the same value in a larger memory. *)
Lemma walk_mono {V} (w : W V) `{!Walk w} h h' v F : w h = Some (v, F) -> h ⊆ h' -> w h' = Some (v, F).
Proof.
  intros E S. eapply walk_local; [exact E|]. intros l Hl. apply (walk_owned _ _ _ E) in Hl.
  apply elem_of_dom in Hl as [o Ho]. rewrite Ho. by eapply lookup_weaken.
Qed.

(** Writing to a location outside a structure does not change it. *)
Lemma walk_insert {V} (w : W V) `{!Walk w} h l o v F : w h = Some (v, F) -> l ∉ F -> w (<[l := o]> h) = Some (v, F).
Proof. intros E Hl. eapply walk_local; [exact E|]. intros l' Hl'. apply lookup_insert_ne. set_solver. Qed.

Lemma wbind_Some {V V'} (w : W V) (k : V -> W V') h u F :
  wbind w k h = Some (u, F) <-> exists v G G', w h = Some (v, G) /\ k v h = Some (u, G') /\ F = G ∪ G'.
Proof.
  unfold wbind. split.
  - destruct (w h) as [[v G]|]; [|done]. destruct (k v h) as [[u' G']|] eqn:E; [|done]. intros [= <- <-]. by exists v, G, G'.
  - intros (v & G & G' & -> & -> & ->). done.
Qed.

End Walks.

Notation "x ⇐ w ; k" := (wbind w (fun x => k)) (at level 20, w at level 100, k at level 200, right associativity) : lvms_scope.

(** * Independent copies *)

Section Clones.
Context `{U : Universe} `{A : Allocator}.

(** Wherever [w] denotes a value, [m] returns a structure that denotes the same value and occupies
    only locations that were not in use, and changes nothing else. *)
Definition clones {V T} (w : W V) (m : M T) (w' : T -> W V) : Prop :=
  forall h v F, w h = Some (v, F) ->
  exists y h' F', m h = Some (y, h') /\ h ⊆ h' /\ w' y h' = Some (v, F') /\ F' ## dom h.

Lemma disjoint_dom_mono (F : gset loc) (h h' : heap) : h ⊆ h' -> F ## dom h' -> F ## dom h.
Proof. intros S. apply subseteq_dom in S. set_solver. Qed.

(** A structure without pointers is its own copy. *)
Lemma clones_ret {V T} (v : V) (y : T) (w' : T -> W V) : (forall h, w' y h = Some (v, ∅)) -> clones (wret v) (mret y) w'.
Proof. intros E h v' F [= <- <-]. exists y, h, ∅. rewrite E. split; [done|]. split; [done|]. split; [done|]. set_solver. Qed.

Lemma alloc_spec t xs h :
  exists l, alloc t xs h = Some (l, <[l := mkObject t xs]> h) /\ h !! l = None /\ h ⊆ <[l := mkObject t xs]> h.
Proof.
  exists (pick (dom h)). assert (h !! pick (dom h) = None) as E by (apply not_elem_of_dom, pick_fresh).
  repeat split; [done|]. by apply insert_subseteq.
Qed.

Lemma wload_load t p h x F : wload t p h = Some (x, F) -> load t p h = Some (x, h).
Proof.
  unfold wload, load, read. unfold mbind, M_bind. destruct (h !! p_obj p) as [o|]; [|done]. simpl.
  destruct (as_ty t o) as [xs|]; [|done]. simpl. destruct (xs !! p_idx p); [|done]. simpl. by intros [= <- <-].
Qed.

Lemma wload_foot t p h x F : wload t p h = Some (x, F) -> F = {[p_obj p]}.
Proof.
  unfold wload. destruct (h !! p_obj p) as [o|]; [|done]. simpl. destruct (as_ty t o) as [xs|]; [|done]. simpl.
  destruct (xs !! p_idx p); [|done]. simpl. by intros [= _ <-].
Qed.

Lemma store_spec t l i x xs h : h !! l = Some (mkObject t xs) -> i < length xs ->
  store t (mkPtr l i) x h = Some (tt, <[l := mkObject t (<[i := x]> xs)]> h).
Proof.
  intros E Hi. unfold store, read, write, mbind, M_bind. simpl. rewrite E. simpl. rewrite as_ty_same. simpl.
  rewrite decide_True by done. by rewrite E.
Qed.

Lemma wload_at t l i x xs (h : heap) : h !! l = Some (mkObject t xs) -> xs !! i = Some x ->
  wload t (mkPtr l i) h = Some (x, {[l]}).
Proof. intros E Hx. unfold wload. simpl. rewrite E. simpl. rewrite as_ty_same. simpl. by rewrite Hx. Qed.

(** Replacing the object at a location that [h] does not use keeps [h]. *)
Lemma subseteq_insert_fresh (h h' : heap) l o : h !! l = None -> h ⊆ h' -> h ⊆ <[l := o]> h'.
Proof. intros E S. apply insert_subseteq_r; [|done]. done. Qed.

Section Pointers.
Context {V : Type} (t : ty) (walk : den t -> W V) {Hwalk : forall x, Walk (walk x)}.

Lemma walk_box l y (h : heap) u G : h !! l = Some (mkObject t [y]) -> walk y h = Some (u, G) ->
  walk_ptr t walk (Some (mkPtr l 0)) h = Some (Some u, {[l]} ∪ (G ∪ ∅)).
Proof.
  intros E Hy. simpl. apply wbind_Some. exists y, {[l]}, (G ∪ ∅). split; [by eapply wload_at|]. split; [|done].
  apply wbind_Some. by exists u, G, ∅.
Qed.

Lemma walk_ptr_Some i h v F : walk_ptr t walk (Some i) h = Some (v, F) ->
  exists x u G, load t i h = Some (x, h) /\ wload t i h = Some (x, {[p_obj i]}) /\ walk x h = Some (u, G) /\ v = Some u.
Proof.
  simpl. intros (x & F1 & F2 & Ex & H & _)%wbind_Some. apply wbind_Some in H as (u & G & G' & Hu & [= <- <-] & _).
  exists x, u, G. rewrite <- (wload_foot _ _ _ _ _ Ex). repeat split; [by eapply wload_load|done..].
Qed.

Lemma clone_struct_clones (into : den t -> M (den t)) p :
  (forall x, clones (walk x) (into x) walk) -> clones (walk_ptr t walk p) (clone_struct t into p) (walk_ptr t walk).
Proof.
  destruct p as [i|]; [|by intros _; apply clones_ret]. intros Hinto h v F Hw.
  apply walk_ptr_Some in Hw as (x & u & G & Hl & Hx & Hu & ->).
  destruct (alloc_spec t [zero t] h) as (l & Ha & Hfresh & S1). set (h1 := <[l := _]> h) in *.
  pose proof (walk_mono _ _ _ _ _ Hx S1) as Hx1. pose proof (walk_mono _ _ _ _ _ Hu S1) as Hu1.
  destruct (Hinto x h1 u G Hu1) as (y & h2 & G' & Hi & S2 & Hy & D).
  assert (h1 !! l = Some (mkObject t [zero t])) as E1 by apply lookup_insert_eq.
  assert (l ∈ dom h1) as Hl1 by by eapply elem_of_dom_2.
  exists (Some (mkPtr l 0)), (<[l := mkObject t [y]]> h2), ({[l]} ∪ (G' ∪ ∅)). split; [|split; [|split]].
  - unfold clone_struct, new, mbind, M_bind. rewrite Ha. simpl. rewrite (wload_load _ _ _ _ _ Hx1), Hi.
    rewrite (store_spec t l 0 y [zero t]); [done|by eapply lookup_weaken|simpl; lia].
  - apply subseteq_insert_fresh; [done|]. by etrans.
  - apply walk_box with (y := y); [apply lookup_insert_eq|]. apply walk_insert; [apply _|done|]. set_solver.
  - apply not_elem_of_dom in Hfresh. pose proof (disjoint_dom_mono _ _ _ S1 D). set_solver.
Qed.

Lemma clone_value_clones (copy : den t -> M (den t)) p :
  (forall x, clones (walk x) (copy x) walk) -> clones (walk_ptr t walk p) (clone_value t copy p) (walk_ptr t walk).
Proof.
  destruct p as [i|]; [|by intros _; apply clones_ret]. intros Hcopy h v F Hw.
  apply walk_ptr_Some in Hw as (x & u & G & Hl & Hx & Hu & ->).
  destruct (Hcopy x h u G Hu) as (y & h1 & G' & Hi & S1 & Hy & D).
  destruct (alloc_spec t [y] h1) as (l & Ha & Hfresh & S2).
  exists (Some (mkPtr l 0)), (<[l := mkObject t [y]]> h1), ({[l]} ∪ (G' ∪ ∅)). split; [|split; [|split]].
  - unfold clone_value, mbind, M_bind. by rewrite Hl, Hi, Ha.
  - by etrans.
  - apply walk_box with (y := y); [apply lookup_insert_eq|]. by eapply walk_mono.
  - apply not_elem_of_dom in Hfresh. apply subseteq_dom in S1. set_solver.
Qed.
End Pointers.

Section Slices.
Context {V : Type} (t : ty) (walk : den t -> W V) {Hwalk : forall x, Walk (walk x)}.

Lemma walk_list_snoc ys y (h : heap) vs v F G :
  walk_list walk ys h = Some (vs, F) -> walk y h = Some (v, G) ->
  exists F', walk_list walk (ys ++ [y]) h = Some (vs ++ [v], F') /\ F' ⊆ F ∪ G.
Proof.
  revert vs F. induction ys as [|z ys IH]; simpl; intros vs F Hys Hy.
  - injection Hys as <- <-. exists (G ∪ (∅ ∪ ∅)). split; [|set_solver]. apply wbind_Some. by exists v, G, (∅ ∪ ∅).
  - apply wbind_Some in Hys as (u & F1 & F2 & Hz & Hr & ->). apply wbind_Some in Hr as (us & F3 & F4 & Hr & [= <- <-] & ->).
    destruct (IH _ _ Hr Hy) as (F' & E & HF). exists (F1 ∪ (F' ∪ ∅)). split; [|set_solver].
    apply wbind_Some. exists u, F1, (F' ∪ ∅). split; [done|]. split; [|done]. apply wbind_Some. by exists (us ++ [v]), F', ∅.
Qed.

(** Reading the elements of a slice one by one. *)
Lemma wslice_index s k x xs h F : wslice t s h = Some (xs, F) -> xs !! k = Some x ->
  exists p, (forall h', index s k h' = Some (p, h')) /\ wload t p h = Some (x, {[sl_obj s]}).
Proof.
  unfold wslice. destruct (h !! sl_obj s) as [o|] eqn:E; [|done]. simpl. destruct (as_ty t o) as [zs|] eqn:Ez; [|done]. simpl.
  case_decide as Hle; [|done]. intros [= <- <-] Hx. apply lookup_take_Some in Hx as [Hx Hk]. rewrite lookup_drop in Hx.
  exists (mkPtr (sl_obj s) (sl_off s + k)). split.
  - intros h'. unfold index. by rewrite decide_True by done.
  - unfold wload. simpl. rewrite E. simpl. rewrite Ez. simpl. by rewrite Hx.
Qed.

Lemma wslice_array s xs h F : wslice t s h = Some (xs, F) ->
  exists zs, read (sl_obj s) t h = Some (zs, h) /\ xs = take (sl_len s) (drop (sl_off s) zs) /\ length xs = sl_len s.
Proof.
  unfold wslice, read. destruct (h !! sl_obj s) as [o|]; [|done]. simpl. destruct (as_ty t o) as [zs|]; [|done]. simpl.
  case_decide; [|done]. intros [= <- <-]. exists zs. repeat split. rewrite length_take, length_drop. lia.
Qed.

Lemma wslice_whole l xs (h : heap) : h !! l = Some (mkObject t xs) ->
  wslice t (mkSlice l 0 (length xs)) h = Some (xs, {[l]}).
Proof.
  intros E. unfold wslice. simpl. rewrite E. simpl. rewrite as_ty_same. simpl. rewrite decide_True by done.
  by rewrite drop_0, firstn_all.
Qed.

(** The loop over the elements: [ys] are already copied, [n] are left. *)
Lemma clone_loop (into : den t -> M (den t)) s l h0 xs F0 : (forall x, clones (walk x) (into x) walk) ->
  wslice t s h0 = Some (xs, F0) -> h0 !! l = None ->
  forall n ys vs1 vs2 F1 F2 h,
    walk_list walk (drop (length ys) xs) h0 = Some (vs2, F2) -> length xs = length ys + n ->
    h0 ⊆ h -> h !! l = Some (mkObject t (ys ++ replicate n (zero t))) ->
    walk_list walk ys h = Some (vs1, F1) -> l ∉ F1 -> F1 ## dom h0 ->
    exists h' ys' F', 
      for_range (clone_elem t into s (mkSlice l 0 (length xs))) (length ys) n h = Some (tt, h') /\
      h0 ⊆ h' /\ length ys' = length xs /\ h' !! l = Some (mkObject t ys') /\
      walk_list walk ys' h' = Some (vs1 ++ vs2, F') /\ (l ∉ F') /\ F' ## dom h0.
Proof.
  intros Hinto Hs Hl. induction n as [|n IH]; intros ys vs1 vs2 F1 F2 h H2 Hlen Hsub Ho H1 HlF D.
  - rewrite drop_ge in H2 by lia. injection H2 as <- <-. simpl in Ho. rewrite !app_nil_r in *. exists h, ys, F1. repeat split; try done. lia.
  - destruct (lookup_lt_is_Some_2 xs (length ys)) as [x Hx]; [lia|].
    rewrite (drop_S _ _ _ Hx) in H2. simpl in H2.
    apply wbind_Some in H2 as (v & G & G2 & Hv & H2 & ->). apply wbind_Some in H2 as (vs & F3 & F4 & H2 & [= <- <-] & ->).
    destruct (wslice_index s (length ys) x xs h0 F0 Hs Hx) as (p & Hp & Hload).
    destruct (Hinto x h v G (walk_mono _ _ _ _ _ Hv Hsub)) as (y & h1 & G' & Hi & S1 & Hy & DG).
    assert (h1 !! l = Some (mkObject t (ys ++ replicate (S n) (zero t)))) as Ho1 by by eapply lookup_weaken.
    assert (l ∉ G') as HlG by (apply elem_of_dom_2 in Ho; set_solver).
    assert (h0 ⊆ h1) as S01 by by etrans.
    set (h2 := <[l := mkObject t (ys ++ y :: replicate n (zero t))]> h1).
    destruct (walk_list_snoc ys y h2 vs1 v F1 G') as (F' & Hsn & HF').
    { apply walk_insert; [apply _|exact (walk_mono _ _ _ _ _ H1 S1)|done]. }
    { by apply walk_insert. }
    destruct (IH (ys ++ [y]) (vs1 ++ [v]) vs F' F3 h2) as (h' & ys' & F'' & Hrun & ?).
    + by rewrite length_app, Nat.add_comm.
    + rewrite length_app. simpl. lia.
    + by apply subseteq_insert_fresh.
    + unfold h2. rewrite lookup_insert_eq. by rewrite <- app_assoc.
    + done.
    + set_solver.
    + pose proof (disjoint_dom_mono _ _ _ Hsub DG). set_solver.
    + exists h', ys', F''. rewrite <- app_assoc in *. split; [|done]. simpl.
      unfold mbind at 1, M_bind at 1. unfold clone_elem at 1, mbind, M_bind. rewrite Hp.
      rewrite (wload_load _ _ _ _ _ (walk_mono _ _ _ _ _ Hload Hsub)), Hi.
      unfold index. simpl. rewrite decide_True by lia. unfold mret, M_ret. simpl.
      rewrite (store_spec t l _ y _ _ Ho1) by (rewrite length_app; simpl; lia).
      rewrite insert_app_r_alt, Nat.sub_diag by done. simpl. by rewrite length_app, Nat.add_comm in Hrun.
Qed.

Lemma clone_slice_clones (into : den t -> M (den t)) s :
  (forall x, clones (walk x) (into x) walk) -> clones (walk_slice t walk s) (clone_slice t into s) (walk_slice t walk).
Proof.
  destruct s as [i|]; [|by intros _; apply clones_ret]. intros Hinto h v F Hw. simpl in Hw.
  apply wbind_Some in Hw as (xs & F1 & F2 & Hs & Hw & _). apply wbind_Some in Hw as (vs & F3 & F4 & Hw & [= <- <-] & _).
  destruct (wslice_array _ _ _ _ Hs) as (zs & _ & _ & Hlen%eq_sym).
  destruct (alloc_spec t (replicate (sl_len i) (zero t)) h) as (l & Ha & Hl & S1).
  destruct (clone_loop into i l h xs F1 Hinto Hs Hl (length xs) [] [] vs ∅ F3 (<[l := mkObject t (replicate (sl_len i) (zero t))]> h))
    as (h' & ys & F' & Hrun & S & Hys & Ho & Hwalk' & HlF & D); try done.
  - by rewrite lookup_insert_eq, Hlen.
  - exists (Some (mkSlice l 0 (length ys))), h', ({[l]} ∪ (F' ∪ ∅)). split; [|split; [done|split]].
    + unfold clone_slice, make, mbind, M_bind. rewrite Ha. simpl. rewrite Hlen, Hys in *. simpl in Hrun. by rewrite Hrun.
    + simpl. apply wbind_Some. exists ys, {[l]}, (F' ∪ ∅). split; [by apply wslice_whole|]. split; [|done].
      apply wbind_Some. by exists vs, F', ∅.
    + apply not_elem_of_dom in Hl. set_solver.
Qed.
End Slices.

(** Values without pointers. *)
Lemma walk_list_wret {X} (xs : list X) h : walk_list wret xs h = Some (xs, ∅).
Proof. induction xs as [|x xs IH]; [done|]. simpl. unfold wbind, wret in *. rewrite IH. do 2 f_equal. Qed.

Lemma wret_clones {X} (x : X) : clones (wret x) (mret x) wret.
Proof. by apply clones_ret. Qed.

Lemma read_spec l t xs h : h !! l = Some (mkObject t xs) -> read l t h = Some (xs, h).
Proof. intros E. unfold read. rewrite E. simpl. by rewrite as_ty_same. Qed.

Lemma clone_plain_slice_clones t s : clones (walk_slice t wret s) (clone_plain_slice t s) (walk_slice t wret).
Proof.
  destruct s as [i|]; [|by apply clones_ret]. intros h v F Hw. simpl in Hw.
  apply wbind_Some in Hw as (xs & F1 & F2 & Hs & Hw & _). apply wbind_Some in Hw as (vs & F3 & F4 & Hw & [= <- <-] & _).
  rewrite walk_list_wret in Hw. injection Hw as <- <-.
  destruct (alloc_spec t (replicate (sl_len i) (zero t)) h) as (l & Ha & Hl & S1).
  destruct (wslice_array t i xs _ _ (walk_mono _ _ _ _ _ Hs S1)) as (zs & Hr & Exs & Hlen).
  exists (Some (mkSlice l 0 (length xs))), (<[l := mkObject t xs]> h), ({[l]} ∪ (∅ ∪ ∅)). split; [|split; [|split]].
  - unfold clone_plain_slice, make, copy_slice, mbind, M_bind. rewrite Ha. simpl. rewrite Hr.
    rewrite (read_spec l t (replicate (sl_len i) (zero t))) by apply lookup_insert_eq. unfold write.
    rewrite lookup_insert_eq. simpl. rewrite insert_insert_eq, Nat.min_id, <- Exs.
    rewrite drop_ge by (rewrite length_replicate; lia). by rewrite app_nil_r, Hlen.
  - by apply subseteq_insert_fresh.
  - simpl. apply wbind_Some. exists xs, {[l]}, (∅ ∪ ∅). split; [by apply wslice_whole, lookup_insert_eq|]. split; [|done].
    apply wbind_Some. exists xs, ∅, ∅. by rewrite walk_list_wret.
  - apply not_elem_of_dom in Hl. set_solver.
Qed.

End Clones.

(** * Copying the fields of a struct one after the other *)

Section Fields.
Context `{U : Universe}.

(** [w] denotes [v] in [h], outside [h0]. *)
Definition denotes (h0 h : heap) {V} (w : W V) (v : V) : Prop := exists F, w h = Some (v, F) /\ F ## dom h0.

Lemma denotes_ret h0 h {V} (v : V) : denotes h0 h (wret v) v.
Proof. exists ∅. split; [done|]. set_solver. Qed.

Lemma denotes_bind h0 h {V V'} (w : W V) (k : V -> W V') v u :
  denotes h0 h w v -> denotes h0 h (k v) u -> denotes h0 h (wbind w k) u.
Proof.
  intros (F & E & D) (G & E' & D'). exists (F ∪ G). split; [|set_solver]. apply wbind_Some. by exists v, F, G.
Qed.

(** The part of a copy that is left to run in [h], the copy having started in [h0]. *)
Definition clones_rest (h0 h : heap) {V T} (w : W V) (m : M T) (w' : T -> W V) : Prop :=
  forall v F, w h = Some (v, F) -> exists y h', m h = Some (y, h') /\ h ⊆ h' /\ denotes h0 h' (w' y) v.

Lemma clones_start {V T} (w : W V) (m : M T) w' : (forall h, clones_rest h h w m w') -> clones w m w'.
Proof. intros H h v F Hw. destruct (H h v F Hw) as (y & h' & Hm & S & F' & Hy & D). by exists y, h', F'. Qed.

Lemma clones_field {V1 T1 V T} h0 h (w1 : W V1) (m1 : M T1) w1' (k : V1 -> W V) (c : T1 -> M T) w' :
  clones w1 m1 w1' -> (forall y, Walk (w1' y)) -> (forall v, Walk (k v)) -> h0 ⊆ h ->
  (forall y1 v1 h1, h ⊆ h1 -> (forall h2, h1 ⊆ h2 -> denotes h0 h2 (w1' y1) v1) -> clones_rest h0 h1 (k v1) (c y1) w') ->
  clones_rest h0 h (wbind w1 k) (m1 ≫= c) w'.
Proof.
  intros H1 Hw Hk S H v F (v1 & F1 & F2 & E1 & E2 & ->)%wbind_Some.
  destruct (H1 h v1 F1 E1) as (y1 & h1 & F1' & Em & S1 & Ey & D).
  destruct (H y1 v1 h1 S1) with (v := v) (F := F2) as (y & h' & Ec & S2 & Hd).
  - intros h2 S2. exists F1'. split; [by eapply walk_mono|by eapply disjoint_dom_mono].
  - by eapply walk_mono.
  - exists y, h'. repeat split; [|by etrans|done]. unfold mbind, M_bind. by rewrite Em.
Qed.

Lemma clones_end {V T} h0 h (v : V) (y : T) w' : denotes h0 h (w' y) v -> clones_rest h0 h (wret v) (mret y) w'.
Proof. intros H v' F [= <- <-]. by exists y, h. Qed.
End Fields.

Create HintDb clone discriminated.
#[export] Hint Resolve wret_clones clone_plain_slice_clones clone_struct_clones clone_value_clones clone_slice_clones : clone.
#[export] Hint Extern 0 (Walk _) => apply _ : clone.
#[export] Hint Extern 0 (forall x, Walk _) => apply _ : clone.

(** Copies of structs: one field at a time, each by the lemma for its kind, then the fields of the
    result are read back. *)
Ltac smaller_heap := solve [repeat first [reflexivity | eassumption | etrans; [eassumption|]]].
Tactic Notation "clone_fields" reference(walk) reference(into) :=
  unfold into; unfold walk at 1; apply clones_start; intros ?h;
  repeat (eapply clones_field; [solve [eauto with clone] | apply _ | apply _ | smaller_heap | intros ? ? ? ? ?]);
  apply clones_end; unfold walk; simpl;
  repeat (eapply denotes_bind; [match goal with H : forall h2, _ ⊆ h2 -> _ |- _ => apply H; smaller_heap end | simpl]);
  apply denotes_ret.
