(* ===== verification/DeepCopy.v ===== *)
(** The deep copies of the API types (api/v1alpha1/zz_generated.deepcopy.go) over the memory of
    GoHeap.v.

    Each struct is written once, indexed by a mode: in memory ([Mem]) a pointer, slice or map field
    holds an address, as a value ([Val]) it holds what the address leads to, nil being told apart
    from empty. String-typed enumerations are the strings they are in Go. The methods are those of
    the source: [*out = *in] copies the fields, addresses included, and the statements after it
    replace the addresses; a method takes [*in] and returns what it leaves in [*out], [in] and
    [out] being different variables. Structs of the Kubernetes libraries, with their copy methods,
    are parameters. *)

From S2P Require Import Prelude GoStd GoHeap.

Inductive mode := Mem | Val.

Definition Ptr (m : mode) (T : Type) : Type := match m with Mem => option ptr | Val => option T end.
Definition Slice (m : mode) (T : Type) : Type := match m with Mem => option slice | Val => option (list T) end.
Definition StrMap (m : mode) : Type := match m with Mem => option ptr | Val => option (gmap string string) end.
Definition Lib (m : mode) (T V : Type) : Type := match m with Mem => T | Val => V end.


(** Structs of k8s.io packages: how they lie in memory, the values they denote, their zero
    values, and whatever else their methods allocate. *)
Class Libraries := {
  ObjectMeta_mem : Type; ObjectMeta_value : Type; ObjectMeta_zero : ObjectMeta_mem;
  ListMeta_mem : Type; ListMeta_value : Type; ListMeta_zero : ListMeta_mem;
  NodeSelector_mem : Type; NodeSelector_value : Type; NodeSelector_zero : NodeSelector_mem;
  Quantity_mem : Type; Quantity_value : Type; Quantity_zero : Quantity_mem;
  Toleration_mem : Type; Toleration_value : Type; Toleration_zero : Toleration_mem;
  Condition_mem : Type; Condition_value : Type; Condition_zero : Condition_mem;
  library_object : Type; library_zero : library_object;
}.

(** * The structs *)

Section Structs.
Context `{L : Libraries} {m : mode}.

(** metav1.TypeMeta *)
Record GoTypeMeta := mkGoTypeMeta { tm_Kind : string; tm_APIVersion : string }.

Record GoThinPoolConfig := mkGoThinPoolConfig {
  tp_Name : string;
  tp_SizePercent : Z;
  tp_OverprovisionRatio : Z;
  tp_ChunkSizeCalculationPolicy : string;
  tp_ChunkSize : Ptr m (Lib m Quantity_mem Quantity_value);
  tp_MetadataSize : Ptr m (Lib m Quantity_mem Quantity_value);
  tp_MetadataSizeCalculationPolicy : string;
}.

Record GoRAIDConfig := mkGoRAIDConfig {
  rc_Type : string;
  rc_Mirrors : Ptr m Z;
  rc_Stripes : Ptr m Z;
  rc_StripeSize : Ptr m (Lib m Quantity_mem Quantity_value);
}.

Record GoDeviceSelector := mkGoDeviceSelector {
  ds_Paths : Slice m string;
  ds_OptionalPaths : Slice m string;
  ds_ForceWipeDevicesAndDestroyAllData : Ptr m bool;
}.

Record GoStorageClassOptions := mkGoStorageClassOptions {
  sco_ReclaimPolicy : Ptr m string;
  sco_VolumeBindingMode : Ptr m string;
  sco_AdditionalParameters : StrMap m;
  sco_AdditionalLabels : StrMap m;
}.

Record GoDeviceClass := mkGoDeviceClass {
  dc_Name : string;
  dc_DeviceSelector : Ptr m GoDeviceSelector;
  dc_NodeSelector : Ptr m (Lib m NodeSelector_mem NodeSelector_value);
  dc_ThinPoolConfig : Ptr m GoThinPoolConfig;
  dc_RAIDConfig : Ptr m GoRAIDConfig;
  dc_Default : bool;
  dc_FilesystemType : string;
  dc_DeviceDiscoveryPolicy : Ptr m string;
  dc_StorageClassOptions : Ptr m GoStorageClassOptions;
}.

Record GoStorage := mkGoStorage { st_DeviceClasses : Slice m GoDeviceClass }.

Record GoLVMClusterSpec := mkGoLVMClusterSpec {
  lcs_Tolerations : Slice m (Lib m Toleration_mem Toleration_value);
  lcs_Storage : GoStorage;
}.

Record GoRAIDLVHealth := mkGoRAIDLVHealth {
  lh_Name : string;
  lh_RAIDType : string;
  lh_SyncPercent : Z;
  lh_HealthStatus : string;
}.

Record GoRAIDStatus := mkGoRAIDStatus {
  rs_Status : string;
  rs_MemberCount : Z;
  rs_DegradedMemberCount : Z;
  rs_MinSyncPercent : Ptr m Z;
  rs_LVHealth : Slice m GoRAIDLVHealth;
}.

Record GoExcludedDevice := mkGoExcludedDevice { ed_Name : string; ed_Reasons : Slice m string }.

Record GoVGStatus := mkGoVGStatus {
  vs_Name : string;
  vs_Status : string;
  vs_Reason : string;
  vs_Devices : Slice m string;
  vs_Excluded : Slice m GoExcludedDevice;
  vs_DeviceDiscoveryPolicy : string;
  vs_RAIDStatus : Ptr m GoRAIDStatus;
}.

Record GoNodeStatus := mkGoNodeStatus { nst_Node : string; nst_VGStatus : GoVGStatus }.

Record GoDeviceClassStatus := mkGoDeviceClassStatus {
  dcs_Name : string;
  dcs_NodeStatus : Slice m GoNodeStatus;
}.

Record GoLVMClusterStatus := mkGoLVMClusterStatus {
  lst_Ready : bool;
  lst_State : string;
  lst_Conditions : Slice m (Lib m Condition_mem Condition_value);
  lst_DeviceClassStatuses : Slice m GoDeviceClassStatus;
}.

Record GoLVMCluster := mkGoLVMCluster {
  lc_TypeMeta : GoTypeMeta;
  lc_ObjectMeta : Lib m ObjectMeta_mem ObjectMeta_value;
  lc_Spec : GoLVMClusterSpec;
  lc_Status : GoLVMClusterStatus;
}.

Record GoLVMClusterList := mkGoLVMClusterList {
  lcl_TypeMeta : GoTypeMeta;
  lcl_ListMeta : Lib m ListMeta_mem ListMeta_value;
  lcl_Items : Slice m GoLVMCluster;
}.

Record GoLVMVolumeGroupSpec := mkGoLVMVolumeGroupSpec {
  vgs_DeviceSelector : Ptr m GoDeviceSelector;
  vgs_NodeSelector : Ptr m (Lib m NodeSelector_mem NodeSelector_value);
  vgs_ThinPoolConfig : Ptr m GoThinPoolConfig;
  vgs_RAIDConfig : Ptr m GoRAIDConfig;
  vgs_Default : bool;
  vgs_DeviceDiscoveryPolicy : Ptr m string;
}.

Record GoLVMVolumeGroupStatus := mkGoLVMVolumeGroupStatus { }.

Record GoLVMVolumeGroup := mkGoLVMVolumeGroup {
  lvg_TypeMeta : GoTypeMeta;
  lvg_ObjectMeta : Lib m ObjectMeta_mem ObjectMeta_value;
  lvg_Spec : GoLVMVolumeGroupSpec;
  lvg_Status : GoLVMVolumeGroupStatus;
}.

Record GoLVMVolumeGroupList := mkGoLVMVolumeGroupList {
  lvgl_TypeMeta : GoTypeMeta;
  lvgl_ListMeta : Lib m ListMeta_mem ListMeta_value;
  lvgl_Items : Slice m GoLVMVolumeGroup;
}.

Record GoLVMVolumeGroupNodeStatusSpec := mkGoLVMVolumeGroupNodeStatusSpec {
  nss_LVMVGStatus : Slice m GoVGStatus;
}.

Record GoLVMVolumeGroupNodeStatusStatus := mkGoLVMVolumeGroupNodeStatusStatus { }.

Record GoLVMVolumeGroupNodeStatus := mkGoLVMVolumeGroupNodeStatus {
  ns_TypeMeta : GoTypeMeta;
  ns_ObjectMeta : Lib m ObjectMeta_mem ObjectMeta_value;
  ns_Spec : GoLVMVolumeGroupNodeStatusSpec;
  ns_Status : GoLVMVolumeGroupNodeStatusStatus;
}.

Record GoLVMVolumeGroupNodeStatusList := mkGoLVMVolumeGroupNodeStatusList {
  nsl_TypeMeta : GoTypeMeta;
  nsl_ListMeta : Lib m ListMeta_mem ListMeta_value;
  nsl_Items : Slice m GoLVMVolumeGroupNodeStatus;
}.

End Structs.

Arguments GoThinPoolConfig {L} m.
Arguments GoRAIDConfig {L} m.
Arguments GoDeviceSelector m : clear implicits.
Arguments GoStorageClassOptions m : clear implicits.
Arguments GoDeviceClass {L} m.
Arguments GoStorage {L} m.
Arguments GoLVMClusterSpec {L} m.
Arguments GoRAIDStatus m : clear implicits.
Arguments GoExcludedDevice m : clear implicits.
Arguments GoVGStatus m : clear implicits.
Arguments GoNodeStatus m : clear implicits.
Arguments GoDeviceClassStatus m : clear implicits.
Arguments GoLVMClusterStatus {L} m.
Arguments GoLVMCluster {L} m.
Arguments GoLVMClusterList {L} m.
Arguments GoLVMVolumeGroupSpec {L} m.
Arguments GoLVMVolumeGroup {L} m.
Arguments GoLVMVolumeGroupList {L} m.
Arguments GoLVMVolumeGroupNodeStatusSpec m : clear implicits.
Arguments GoLVMVolumeGroupNodeStatus {L} m.
Arguments GoLVMVolumeGroupNodeStatusList {L} m.
Arguments mkGoThinPoolConfig {L m} & _ _ _ _ _ _ _.
Arguments mkGoRAIDConfig {L m} & _ _ _ _.
Arguments mkGoDeviceSelector {m} & _ _ _.
Arguments mkGoStorageClassOptions {m} & _ _ _ _.
Arguments mkGoDeviceClass {L m} & _ _ _ _ _ _ _ _ _.
Arguments mkGoStorage {L m} & _.
Arguments mkGoLVMClusterSpec {L m} & _ _.
Arguments mkGoRAIDStatus {m} & _ _ _ _ _.
Arguments mkGoExcludedDevice {m} & _ _.
Arguments mkGoVGStatus {m} & _ _ _ _ _ _ _.
Arguments mkGoNodeStatus {m} & _ _.
Arguments mkGoDeviceClassStatus {m} & _ _.
Arguments mkGoLVMClusterStatus {L m} & _ _ _ _.
Arguments mkGoLVMCluster {L m} & _ _ _ _.
Arguments mkGoLVMClusterList {L m} & _ _ _.
Arguments mkGoLVMVolumeGroupSpec {L m} & _ _ _ _ _ _.
Arguments mkGoLVMVolumeGroup {L m} & _ _ _ _.
Arguments mkGoLVMVolumeGroupList {L m} & _ _ _.
Arguments mkGoLVMVolumeGroupNodeStatusSpec {m} & _.
Arguments mkGoLVMVolumeGroupNodeStatus {L m} & _ _ _ _.
Arguments mkGoLVMVolumeGroupNodeStatusList {L m} & _ _ _.

(** * The memory of the API objects *)

Section Zero.
Context `{L : Libraries}.

Definition ThinPoolConfig_zero : GoThinPoolConfig Mem := mkGoThinPoolConfig "" 0%Z 0%Z "" None None "".
Definition RAIDConfig_zero : GoRAIDConfig Mem := mkGoRAIDConfig "" None None None.
Definition DeviceSelector_zero : GoDeviceSelector Mem := mkGoDeviceSelector None None None.
Definition StorageClassOptions_zero : GoStorageClassOptions Mem := mkGoStorageClassOptions None None None None.
Definition DeviceClass_zero : GoDeviceClass Mem := mkGoDeviceClass "" None None None None false "" None None.
Definition Storage_zero : GoStorage Mem := mkGoStorage None.
Definition LVMClusterSpec_zero : GoLVMClusterSpec Mem := mkGoLVMClusterSpec None Storage_zero.
Definition RAIDLVHealth_zero : GoRAIDLVHealth := mkGoRAIDLVHealth "" "" 0%Z "".
Definition RAIDStatus_zero : GoRAIDStatus Mem := mkGoRAIDStatus "" 0%Z 0%Z None None.
Definition ExcludedDevice_zero : GoExcludedDevice Mem := mkGoExcludedDevice "" None.
Definition VGStatus_zero : GoVGStatus Mem := mkGoVGStatus "" "" "" None None "" None.
Definition NodeStatus_zero : GoNodeStatus Mem := mkGoNodeStatus "" VGStatus_zero.
Definition DeviceClassStatus_zero : GoDeviceClassStatus Mem := mkGoDeviceClassStatus "" None.
Definition LVMClusterStatus_zero : GoLVMClusterStatus Mem := mkGoLVMClusterStatus false "" None None.
Definition LVMCluster_zero : GoLVMCluster Mem :=
  mkGoLVMCluster (mkGoTypeMeta "" "") ObjectMeta_zero LVMClusterSpec_zero LVMClusterStatus_zero.
Definition LVMClusterList_zero : GoLVMClusterList Mem := mkGoLVMClusterList (mkGoTypeMeta "" "") ListMeta_zero None.
Definition LVMVolumeGroupSpec_zero : GoLVMVolumeGroupSpec Mem := mkGoLVMVolumeGroupSpec None None None None false None.
Definition LVMVolumeGroupStatus_zero : GoLVMVolumeGroupStatus := mkGoLVMVolumeGroupStatus.
Definition LVMVolumeGroup_zero : GoLVMVolumeGroup Mem :=
  mkGoLVMVolumeGroup (mkGoTypeMeta "" "") ObjectMeta_zero LVMVolumeGroupSpec_zero LVMVolumeGroupStatus_zero.
Definition LVMVolumeGroupList_zero : GoLVMVolumeGroupList Mem :=
  mkGoLVMVolumeGroupList (mkGoTypeMeta "" "") ListMeta_zero None.
Definition LVMVolumeGroupNodeStatusSpec_zero : GoLVMVolumeGroupNodeStatusSpec Mem :=
  mkGoLVMVolumeGroupNodeStatusSpec None.
Definition LVMVolumeGroupNodeStatusStatus_zero : GoLVMVolumeGroupNodeStatusStatus := mkGoLVMVolumeGroupNodeStatusStatus.
Definition LVMVolumeGroupNodeStatus_zero : GoLVMVolumeGroupNodeStatus Mem :=
  mkGoLVMVolumeGroupNodeStatus (mkGoTypeMeta "" "") ObjectMeta_zero LVMVolumeGroupNodeStatusSpec_zero LVMVolumeGroupNodeStatusStatus_zero.
Definition LVMVolumeGroupNodeStatusList_zero : GoLVMVolumeGroupNodeStatusList Mem :=
  mkGoLVMVolumeGroupNodeStatusList (mkGoTypeMeta "" "") ListMeta_zero None.
End Zero.

(** The types of variables: those of the fields and elements, and every struct. *)
Inductive code :=
| TString | TBool | TInt | TStrMap
| TNodeSelector | TQuantity | TToleration | TCondition | TLibrary
| TThinPoolConfig | TRAIDConfig | TDeviceSelector | TStorageClassOptions
| TDeviceClass | TStorage | TLVMClusterSpec | TRAIDLVHealth
| TRAIDStatus | TExcludedDevice | TVGStatus | TNodeStatus
| TDeviceClassStatus | TLVMClusterStatus | TLVMCluster | TLVMClusterList
| TLVMVolumeGroupSpec | TLVMVolumeGroupStatus | TLVMVolumeGroup | TLVMVolumeGroupList
| TLVMVolumeGroupNodeStatusSpec | TLVMVolumeGroupNodeStatusStatus | TLVMVolumeGroupNodeStatus
| TLVMVolumeGroupNodeStatusList.

#[export] Instance code_eq_dec : EqDecision code.
Proof. solve_decision. Defined.

Definition code_den `{Libraries} (t : code) : Type :=
  match t with
  | TString => string | TBool => bool | TInt => Z | TStrMap => gmap string string
  | TNodeSelector => NodeSelector_mem | TQuantity => Quantity_mem | TToleration => Toleration_mem
  | TCondition => Condition_mem | TLibrary => library_object
  | TThinPoolConfig => GoThinPoolConfig Mem
  | TRAIDConfig => GoRAIDConfig Mem
  | TDeviceSelector => GoDeviceSelector Mem
  | TStorageClassOptions => GoStorageClassOptions Mem
  | TDeviceClass => GoDeviceClass Mem
  | TStorage => GoStorage Mem
  | TLVMClusterSpec => GoLVMClusterSpec Mem
  | TRAIDLVHealth => GoRAIDLVHealth
  | TRAIDStatus => GoRAIDStatus Mem
  | TExcludedDevice => GoExcludedDevice Mem
  | TVGStatus => GoVGStatus Mem
  | TNodeStatus => GoNodeStatus Mem
  | TDeviceClassStatus => GoDeviceClassStatus Mem
  | TLVMClusterStatus => GoLVMClusterStatus Mem
  | TLVMCluster => GoLVMCluster Mem
  | TLVMClusterList => GoLVMClusterList Mem
  | TLVMVolumeGroupSpec => GoLVMVolumeGroupSpec Mem
  | TLVMVolumeGroupStatus => GoLVMVolumeGroupStatus
  | TLVMVolumeGroup => GoLVMVolumeGroup Mem
  | TLVMVolumeGroupList => GoLVMVolumeGroupList Mem
  | TLVMVolumeGroupNodeStatusSpec => GoLVMVolumeGroupNodeStatusSpec Mem
  | TLVMVolumeGroupNodeStatusStatus => GoLVMVolumeGroupNodeStatusStatus
  | TLVMVolumeGroupNodeStatus => GoLVMVolumeGroupNodeStatus Mem
  | TLVMVolumeGroupNodeStatusList => GoLVMVolumeGroupNodeStatusList Mem
  end.

Definition code_zero `{Libraries} (t : code) : code_den t :=
  match t with
  | TString => "" | TBool => false | TInt => 0%Z | TStrMap => ∅
  | TNodeSelector => NodeSelector_zero | TQuantity => Quantity_zero | TToleration => Toleration_zero
  | TCondition => Condition_zero | TLibrary => library_zero
  | TThinPoolConfig => ThinPoolConfig_zero
  | TRAIDConfig => RAIDConfig_zero
  | TDeviceSelector => DeviceSelector_zero
  | TStorageClassOptions => StorageClassOptions_zero
  | TDeviceClass => DeviceClass_zero
  | TStorage => Storage_zero
  | TLVMClusterSpec => LVMClusterSpec_zero
  | TRAIDLVHealth => RAIDLVHealth_zero
  | TRAIDStatus => RAIDStatus_zero
  | TExcludedDevice => ExcludedDevice_zero
  | TVGStatus => VGStatus_zero
  | TNodeStatus => NodeStatus_zero
  | TDeviceClassStatus => DeviceClassStatus_zero
  | TLVMClusterStatus => LVMClusterStatus_zero
  | TLVMCluster => LVMCluster_zero
  | TLVMClusterList => LVMClusterList_zero
  | TLVMVolumeGroupSpec => LVMVolumeGroupSpec_zero
  | TLVMVolumeGroupStatus => LVMVolumeGroupStatus_zero
  | TLVMVolumeGroup => LVMVolumeGroup_zero
  | TLVMVolumeGroupList => LVMVolumeGroupList_zero
  | TLVMVolumeGroupNodeStatusSpec => LVMVolumeGroupNodeStatusSpec_zero
  | TLVMVolumeGroupNodeStatusStatus => LVMVolumeGroupNodeStatusStatus_zero
  | TLVMVolumeGroupNodeStatus => LVMVolumeGroupNodeStatus_zero
  | TLVMVolumeGroupNodeStatusList => LVMVolumeGroupNodeStatusList_zero
  end.

#[export] Instance api_universe `{Libraries} : Universe :=
  {| ty := code; den := code_den; zero := code_zero |}.

(** * The library structs

    What their memory denotes, and their copy methods. *)
Class LibraryCopies (L : Libraries) := {
  ObjectMeta_walk : ObjectMeta_mem -> W ObjectMeta_value;
  ObjectMeta_DeepCopyInto : ObjectMeta_mem -> M ObjectMeta_mem;
  ListMeta_walk : ListMeta_mem -> W ListMeta_value;
  ListMeta_DeepCopyInto : ListMeta_mem -> M ListMeta_mem;
  NodeSelector_walk : NodeSelector_mem -> W NodeSelector_value;
  NodeSelector_DeepCopyInto : NodeSelector_mem -> M NodeSelector_mem;
  Quantity_walk : Quantity_mem -> W Quantity_value;
  Quantity_DeepCopy : Quantity_mem -> M Quantity_mem;
  Toleration_walk : Toleration_mem -> W Toleration_value;
  Toleration_DeepCopyInto : Toleration_mem -> M Toleration_mem;
  Condition_walk : Condition_mem -> W Condition_value;
  Condition_DeepCopyInto : Condition_mem -> M Condition_mem;
}.

(** The documented contract of those methods: a deep copy of the receiver. *)
Class LibraryLaws {L : Libraries} (C : LibraryCopies L) : Prop := {
  ObjectMeta_walks :: forall x, Walk (ObjectMeta_walk x);
  ObjectMeta_clones : forall x, clones (ObjectMeta_walk x) (ObjectMeta_DeepCopyInto x) ObjectMeta_walk;
  ListMeta_walks :: forall x, Walk (ListMeta_walk x);
  ListMeta_clones : forall x, clones (ListMeta_walk x) (ListMeta_DeepCopyInto x) ListMeta_walk;
  NodeSelector_walks :: forall x, Walk (NodeSelector_walk x);
  NodeSelector_clones : forall x, clones (NodeSelector_walk x) (NodeSelector_DeepCopyInto x) NodeSelector_walk;
  Quantity_walks :: forall x, Walk (Quantity_walk x);
  Quantity_clones : forall x, clones (Quantity_walk x) (Quantity_DeepCopy x) Quantity_walk;
  Toleration_walks :: forall x, Walk (Toleration_walk x);
  Toleration_clones : forall x, clones (Toleration_walk x) (Toleration_DeepCopyInto x) Toleration_walk;
  Condition_walks :: forall x, Walk (Condition_walk x);
  Condition_clones : forall x, clones (Condition_walk x) (Condition_DeepCopyInto x) Condition_walk;
}.

(** * The methods *)

Section Methods.
Context `{L : Libraries} `{C : !LibraryCopies L} `{A : Allocator} `{R : GoRuntime}.

(** [if in != nil { *out = make(map[string]string, len( *in)); for key, val := range *in { ( *out)[key] = val } }] *)
Definition set_entries (o : ptr) (kvs : list (string * string)) : M unit :=
  foldr (fun kv rest => out ← load TStrMap o; _ ← store TStrMap o (<[kv.1 := kv.2]> out); rest) (mret tt) kvs.

Definition clone_map (p : option ptr) : M (option ptr) :=
  match p with
  | None => mret None
  | Some i =>
      o ← new TStrMap; kvs ← load TStrMap i;
      _ ← set_entries o (map_range (map_to_list (kvs : gmap string string)));
      mret (Some o)
  end.

Definition ThinPoolConfig_DeepCopyInto (in_ : GoThinPoolConfig Mem) : M (GoThinPoolConfig Mem) :=
  chunkSize ← clone_value TQuantity Quantity_DeepCopy (tp_ChunkSize in_);
  metadataSize ← clone_value TQuantity Quantity_DeepCopy (tp_MetadataSize in_);
  mret ({| tp_Name := tp_Name in_; tp_SizePercent := tp_SizePercent in_;
       tp_OverprovisionRatio := tp_OverprovisionRatio in_;
       tp_ChunkSizeCalculationPolicy := tp_ChunkSizeCalculationPolicy in_; tp_ChunkSize := chunkSize;
       tp_MetadataSize := metadataSize;
       tp_MetadataSizeCalculationPolicy := tp_MetadataSizeCalculationPolicy in_ |}
    : GoThinPoolConfig Mem).

Definition ThinPoolConfig_DeepCopy (p : option ptr) : M (option ptr) :=
  clone_struct TThinPoolConfig ThinPoolConfig_DeepCopyInto p.

Definition RAIDConfig_DeepCopyInto (in_ : GoRAIDConfig Mem) : M (GoRAIDConfig Mem) :=
  mirrors ← clone_struct TInt mret (rc_Mirrors in_);
  stripes ← clone_struct TInt mret (rc_Stripes in_);
  stripeSize ← clone_value TQuantity Quantity_DeepCopy (rc_StripeSize in_);
  mret ({| rc_Type := rc_Type in_; rc_Mirrors := mirrors; rc_Stripes := stripes;
       rc_StripeSize := stripeSize |}
    : GoRAIDConfig Mem).

Definition RAIDConfig_DeepCopy (p : option ptr) : M (option ptr) := clone_struct TRAIDConfig RAIDConfig_DeepCopyInto p.

Definition DeviceSelector_DeepCopyInto (in_ : GoDeviceSelector Mem) : M (GoDeviceSelector Mem) :=
  paths ← clone_plain_slice TString (ds_Paths in_);
  optionalPaths ← clone_plain_slice TString (ds_OptionalPaths in_);
  forceWipeDevicesAndDestroyAllData ← clone_struct TBool mret (ds_ForceWipeDevicesAndDestroyAllData in_);
  mret ({| ds_Paths := paths; ds_OptionalPaths := optionalPaths;
       ds_ForceWipeDevicesAndDestroyAllData := forceWipeDevicesAndDestroyAllData |}
    : GoDeviceSelector Mem).

Definition DeviceSelector_DeepCopy (p : option ptr) : M (option ptr) :=
  clone_struct TDeviceSelector DeviceSelector_DeepCopyInto p.

Definition StorageClassOptions_DeepCopyInto (in_ : GoStorageClassOptions Mem) : M (GoStorageClassOptions Mem) :=
  reclaimPolicy ← clone_struct TString mret (sco_ReclaimPolicy in_);
  volumeBindingMode ← clone_struct TString mret (sco_VolumeBindingMode in_);
  additionalParameters ← clone_map (sco_AdditionalParameters in_);
  additionalLabels ← clone_map (sco_AdditionalLabels in_);
  mret ({| sco_ReclaimPolicy := reclaimPolicy; sco_VolumeBindingMode := volumeBindingMode;
       sco_AdditionalParameters := additionalParameters; sco_AdditionalLabels := additionalLabels |}
    : GoStorageClassOptions Mem).

Definition StorageClassOptions_DeepCopy (p : option ptr) : M (option ptr) :=
  clone_struct TStorageClassOptions StorageClassOptions_DeepCopyInto p.

Definition DeviceClass_DeepCopyInto (in_ : GoDeviceClass Mem) : M (GoDeviceClass Mem) :=
  deviceSelector ← clone_struct TDeviceSelector DeviceSelector_DeepCopyInto (dc_DeviceSelector in_);
  nodeSelector ← clone_struct TNodeSelector NodeSelector_DeepCopyInto (dc_NodeSelector in_);
  thinPoolConfig ← clone_struct TThinPoolConfig ThinPoolConfig_DeepCopyInto (dc_ThinPoolConfig in_);
  raidConfig ← clone_struct TRAIDConfig RAIDConfig_DeepCopyInto (dc_RAIDConfig in_);
  deviceDiscoveryPolicy ← clone_struct TString mret (dc_DeviceDiscoveryPolicy in_);
  storageClassOptions ← clone_struct TStorageClassOptions StorageClassOptions_DeepCopyInto (dc_StorageClassOptions in_);
  mret ({| dc_Name := dc_Name in_; dc_DeviceSelector := deviceSelector; dc_NodeSelector := nodeSelector;
       dc_ThinPoolConfig := thinPoolConfig; dc_RAIDConfig := raidConfig; dc_Default := dc_Default in_;
       dc_FilesystemType := dc_FilesystemType in_; dc_DeviceDiscoveryPolicy := deviceDiscoveryPolicy;
       dc_StorageClassOptions := storageClassOptions |}
    : GoDeviceClass Mem).

Definition DeviceClass_DeepCopy (p : option ptr) : M (option ptr) :=
  clone_struct TDeviceClass DeviceClass_DeepCopyInto p.

Definition Storage_DeepCopyInto (in_ : GoStorage Mem) : M (GoStorage Mem) :=
  deviceClasses ← clone_slice TDeviceClass DeviceClass_DeepCopyInto (st_DeviceClasses in_);
  mret ({| st_DeviceClasses := deviceClasses |}
    : GoStorage Mem).

Definition Storage_DeepCopy (p : option ptr) : M (option ptr) := clone_struct TStorage Storage_DeepCopyInto p.

Definition LVMClusterSpec_DeepCopyInto (in_ : GoLVMClusterSpec Mem) : M (GoLVMClusterSpec Mem) :=
  tolerations ← clone_slice TToleration Toleration_DeepCopyInto (lcs_Tolerations in_);
  storage ← Storage_DeepCopyInto (lcs_Storage in_);
  mret ({| lcs_Tolerations := tolerations; lcs_Storage := storage |}
    : GoLVMClusterSpec Mem).

Definition LVMClusterSpec_DeepCopy (p : option ptr) : M (option ptr) :=
  clone_struct TLVMClusterSpec LVMClusterSpec_DeepCopyInto p.

Definition RAIDLVHealth_DeepCopyInto (in_ : GoRAIDLVHealth) : M (GoRAIDLVHealth) := mret in_.

Definition RAIDLVHealth_DeepCopy (p : option ptr) : M (option ptr) :=
  clone_struct TRAIDLVHealth RAIDLVHealth_DeepCopyInto p.

Definition RAIDStatus_DeepCopyInto (in_ : GoRAIDStatus Mem) : M (GoRAIDStatus Mem) :=
  minSyncPercent ← clone_struct TInt mret (rs_MinSyncPercent in_);
  lvHealth ← clone_plain_slice TRAIDLVHealth (rs_LVHealth in_);
  mret ({| rs_Status := rs_Status in_; rs_MemberCount := rs_MemberCount in_;
       rs_DegradedMemberCount := rs_DegradedMemberCount in_; rs_MinSyncPercent := minSyncPercent;
       rs_LVHealth := lvHealth |}
    : GoRAIDStatus Mem).

Definition RAIDStatus_DeepCopy (p : option ptr) : M (option ptr) := clone_struct TRAIDStatus RAIDStatus_DeepCopyInto p.

Definition ExcludedDevice_DeepCopyInto (in_ : GoExcludedDevice Mem) : M (GoExcludedDevice Mem) :=
  reasons ← clone_plain_slice TString (ed_Reasons in_);
  mret ({| ed_Name := ed_Name in_; ed_Reasons := reasons |}
    : GoExcludedDevice Mem).

Definition ExcludedDevice_DeepCopy (p : option ptr) : M (option ptr) :=
  clone_struct TExcludedDevice ExcludedDevice_DeepCopyInto p.

Definition VGStatus_DeepCopyInto (in_ : GoVGStatus Mem) : M (GoVGStatus Mem) :=
  devices ← clone_plain_slice TString (vs_Devices in_);
  excluded ← clone_slice TExcludedDevice ExcludedDevice_DeepCopyInto (vs_Excluded in_);
  raidStatus ← clone_struct TRAIDStatus RAIDStatus_DeepCopyInto (vs_RAIDStatus in_);
  mret ({| vs_Name := vs_Name in_; vs_Status := vs_Status in_; vs_Reason := vs_Reason in_;
       vs_Devices := devices; vs_Excluded := excluded;
       vs_DeviceDiscoveryPolicy := vs_DeviceDiscoveryPolicy in_; vs_RAIDStatus := raidStatus |}
    : GoVGStatus Mem).

Definition VGStatus_DeepCopy (p : option ptr) : M (option ptr) := clone_struct TVGStatus VGStatus_DeepCopyInto p.

Definition NodeStatus_DeepCopyInto (in_ : GoNodeStatus Mem) : M (GoNodeStatus Mem) :=
  vgStatus ← VGStatus_DeepCopyInto (nst_VGStatus in_);
  mret ({| nst_Node := nst_Node in_; nst_VGStatus := vgStatus |}
    : GoNodeStatus Mem).

Definition NodeStatus_DeepCopy (p : option ptr) : M (option ptr) := clone_struct TNodeStatus NodeStatus_DeepCopyInto p.

Definition DeviceClassStatus_DeepCopyInto (in_ : GoDeviceClassStatus Mem) : M (GoDeviceClassStatus Mem) :=
  nodeStatus ← clone_slice TNodeStatus NodeStatus_DeepCopyInto (dcs_NodeStatus in_);
  mret ({| dcs_Name := dcs_Name in_; dcs_NodeStatus := nodeStatus |}
    : GoDeviceClassStatus Mem).

Definition DeviceClassStatus_DeepCopy (p : option ptr) : M (option ptr) :=
  clone_struct TDeviceClassStatus DeviceClassStatus_DeepCopyInto p.

Definition LVMClusterStatus_DeepCopyInto (in_ : GoLVMClusterStatus Mem) : M (GoLVMClusterStatus Mem) :=
  conditions ← clone_slice TCondition Condition_DeepCopyInto (lst_Conditions in_);
  deviceClassStatuses ← clone_slice TDeviceClassStatus DeviceClassStatus_DeepCopyInto (lst_DeviceClassStatuses in_);
  mret ({| lst_Ready := lst_Ready in_; lst_State := lst_State in_; lst_Conditions := conditions;
       lst_DeviceClassStatuses := deviceClassStatuses |}
    : GoLVMClusterStatus Mem).

Definition LVMClusterStatus_DeepCopy (p : option ptr) : M (option ptr) :=
  clone_struct TLVMClusterStatus LVMClusterStatus_DeepCopyInto p.

Definition LVMCluster_DeepCopyInto (in_ : GoLVMCluster Mem) : M (GoLVMCluster Mem) :=
  objectMeta ← ObjectMeta_DeepCopyInto (lc_ObjectMeta in_);
  spec ← LVMClusterSpec_DeepCopyInto (lc_Spec in_);
  status ← LVMClusterStatus_DeepCopyInto (lc_Status in_);
  mret ({| lc_TypeMeta := lc_TypeMeta in_; lc_ObjectMeta := objectMeta; lc_Spec := spec;
       lc_Status := status |}
    : GoLVMCluster Mem).

Definition LVMCluster_DeepCopy (p : option ptr) : M (option ptr) := clone_struct TLVMCluster LVMCluster_DeepCopyInto p.

Definition LVMClusterList_DeepCopyInto (in_ : GoLVMClusterList Mem) : M (GoLVMClusterList Mem) :=
  listMeta ← ListMeta_DeepCopyInto (lcl_ListMeta in_);
  items ← clone_slice TLVMCluster LVMCluster_DeepCopyInto (lcl_Items in_);
  mret ({| lcl_TypeMeta := lcl_TypeMeta in_; lcl_ListMeta := listMeta; lcl_Items := items |}
    : GoLVMClusterList Mem).

Definition LVMClusterList_DeepCopy (p : option ptr) : M (option ptr) :=
  clone_struct TLVMClusterList LVMClusterList_DeepCopyInto p.

Definition LVMVolumeGroupSpec_DeepCopyInto (in_ : GoLVMVolumeGroupSpec Mem) : M (GoLVMVolumeGroupSpec Mem) :=
  deviceSelector ← clone_struct TDeviceSelector DeviceSelector_DeepCopyInto (vgs_DeviceSelector in_);
  nodeSelector ← clone_struct TNodeSelector NodeSelector_DeepCopyInto (vgs_NodeSelector in_);
  thinPoolConfig ← clone_struct TThinPoolConfig ThinPoolConfig_DeepCopyInto (vgs_ThinPoolConfig in_);
  raidConfig ← clone_struct TRAIDConfig RAIDConfig_DeepCopyInto (vgs_RAIDConfig in_);
  deviceDiscoveryPolicy ← clone_struct TString mret (vgs_DeviceDiscoveryPolicy in_);
  mret ({| vgs_DeviceSelector := deviceSelector; vgs_NodeSelector := nodeSelector;
       vgs_ThinPoolConfig := thinPoolConfig; vgs_RAIDConfig := raidConfig;
       vgs_Default := vgs_Default in_; vgs_DeviceDiscoveryPolicy := deviceDiscoveryPolicy |}
    : GoLVMVolumeGroupSpec Mem).

Definition LVMVolumeGroupSpec_DeepCopy (p : option ptr) : M (option ptr) :=
  clone_struct TLVMVolumeGroupSpec LVMVolumeGroupSpec_DeepCopyInto p.

Definition LVMVolumeGroupStatus_DeepCopyInto (in_ : GoLVMVolumeGroupStatus) : M (GoLVMVolumeGroupStatus) := mret in_.

Definition LVMVolumeGroupStatus_DeepCopy (p : option ptr) : M (option ptr) :=
  clone_struct TLVMVolumeGroupStatus LVMVolumeGroupStatus_DeepCopyInto p.

Definition LVMVolumeGroup_DeepCopyInto (in_ : GoLVMVolumeGroup Mem) : M (GoLVMVolumeGroup Mem) :=
  objectMeta ← ObjectMeta_DeepCopyInto (lvg_ObjectMeta in_);
  spec ← LVMVolumeGroupSpec_DeepCopyInto (lvg_Spec in_);
  mret ({| lvg_TypeMeta := lvg_TypeMeta in_; lvg_ObjectMeta := objectMeta; lvg_Spec := spec;
       lvg_Status := lvg_Status in_ |}
    : GoLVMVolumeGroup Mem).

Definition LVMVolumeGroup_DeepCopy (p : option ptr) : M (option ptr) :=
  clone_struct TLVMVolumeGroup LVMVolumeGroup_DeepCopyInto p.

Definition LVMVolumeGroupList_DeepCopyInto (in_ : GoLVMVolumeGroupList Mem) : M (GoLVMVolumeGroupList Mem) :=
  listMeta ← ListMeta_DeepCopyInto (lvgl_ListMeta in_);
  items ← clone_slice TLVMVolumeGroup LVMVolumeGroup_DeepCopyInto (lvgl_Items in_);
  mret ({| lvgl_TypeMeta := lvgl_TypeMeta in_; lvgl_ListMeta := listMeta; lvgl_Items := items |}
    : GoLVMVolumeGroupList Mem).

Definition LVMVolumeGroupList_DeepCopy (p : option ptr) : M (option ptr) :=
  clone_struct TLVMVolumeGroupList LVMVolumeGroupList_DeepCopyInto p.

Definition LVMVolumeGroupNodeStatusSpec_DeepCopyInto (in_ : GoLVMVolumeGroupNodeStatusSpec Mem) : M (GoLVMVolumeGroupNodeStatusSpec Mem) :=
  lvmVGStatus ← clone_slice TVGStatus VGStatus_DeepCopyInto (nss_LVMVGStatus in_);
  mret ({| nss_LVMVGStatus := lvmVGStatus |}
    : GoLVMVolumeGroupNodeStatusSpec Mem).

Definition LVMVolumeGroupNodeStatusSpec_DeepCopy (p : option ptr) : M (option ptr) :=
  clone_struct TLVMVolumeGroupNodeStatusSpec LVMVolumeGroupNodeStatusSpec_DeepCopyInto p.

Definition LVMVolumeGroupNodeStatusStatus_DeepCopyInto (in_ : GoLVMVolumeGroupNodeStatusStatus) : M (GoLVMVolumeGroupNodeStatusStatus) := mret in_.

Definition LVMVolumeGroupNodeStatusStatus_DeepCopy (p : option ptr) : M (option ptr) :=
  clone_struct TLVMVolumeGroupNodeStatusStatus LVMVolumeGroupNodeStatusStatus_DeepCopyInto p.

Definition LVMVolumeGroupNodeStatus_DeepCopyInto (in_ : GoLVMVolumeGroupNodeStatus Mem) : M (GoLVMVolumeGroupNodeStatus Mem) :=
  objectMeta ← ObjectMeta_DeepCopyInto (ns_ObjectMeta in_);
  spec ← LVMVolumeGroupNodeStatusSpec_DeepCopyInto (ns_Spec in_);
  mret ({| ns_TypeMeta := ns_TypeMeta in_; ns_ObjectMeta := objectMeta; ns_Spec := spec;
       ns_Status := ns_Status in_ |}
    : GoLVMVolumeGroupNodeStatus Mem).

Definition LVMVolumeGroupNodeStatus_DeepCopy (p : option ptr) : M (option ptr) :=
  clone_struct TLVMVolumeGroupNodeStatus LVMVolumeGroupNodeStatus_DeepCopyInto p.

Definition LVMVolumeGroupNodeStatusList_DeepCopyInto (in_ : GoLVMVolumeGroupNodeStatusList Mem) : M (GoLVMVolumeGroupNodeStatusList Mem) :=
  listMeta ← ListMeta_DeepCopyInto (nsl_ListMeta in_);
  items ← clone_slice TLVMVolumeGroupNodeStatus LVMVolumeGroupNodeStatus_DeepCopyInto (nsl_Items in_);
  mret ({| nsl_TypeMeta := nsl_TypeMeta in_; nsl_ListMeta := listMeta; nsl_Items := items |}
    : GoLVMVolumeGroupNodeStatusList Mem).

Definition LVMVolumeGroupNodeStatusList_DeepCopy (p : option ptr) : M (option ptr) :=
  clone_struct TLVMVolumeGroupNodeStatusList LVMVolumeGroupNodeStatusList_DeepCopyInto p.

(** A runtime.Object of the API group: a pointer to one of the root structs, possibly nil. *)
Inductive Object :=
| OLVMCluster (p : option ptr)
| OLVMClusterList (p : option ptr)
| OLVMVolumeGroup (p : option ptr)
| OLVMVolumeGroupList (p : option ptr)
| OLVMVolumeGroupNodeStatus (p : option ptr)
| OLVMVolumeGroupNodeStatusList (p : option ptr).

(** [if c := in.DeepCopy(); c != nil { return c }; return nil] *)
Definition as_object (wrap : option ptr -> Object) (c : option ptr) : option Object :=
  match c with Some _ => Some (wrap c) | None => None end.

Definition LVMCluster_DeepCopyObject (p : option ptr) : M (option Object) :=
  c ← LVMCluster_DeepCopy p; mret (as_object OLVMCluster c).

Definition LVMClusterList_DeepCopyObject (p : option ptr) : M (option Object) :=
  c ← LVMClusterList_DeepCopy p; mret (as_object OLVMClusterList c).

Definition LVMVolumeGroup_DeepCopyObject (p : option ptr) : M (option Object) :=
  c ← LVMVolumeGroup_DeepCopy p; mret (as_object OLVMVolumeGroup c).

Definition LVMVolumeGroupList_DeepCopyObject (p : option ptr) : M (option Object) :=
  c ← LVMVolumeGroupList_DeepCopy p; mret (as_object OLVMVolumeGroupList c).

Definition LVMVolumeGroupNodeStatus_DeepCopyObject (p : option ptr) : M (option Object) :=
  c ← LVMVolumeGroupNodeStatus_DeepCopy p; mret (as_object OLVMVolumeGroupNodeStatus c).

Definition LVMVolumeGroupNodeStatusList_DeepCopyObject (p : option ptr) : M (option Object) :=
  c ← LVMVolumeGroupNodeStatusList_DeepCopy p; mret (as_object OLVMVolumeGroupNodeStatusList c).

(** The method of the interface. *)
Definition DeepCopyObject (o : Object) : M (option Object) :=
  match o with
  | OLVMCluster p => LVMCluster_DeepCopyObject p
  | OLVMClusterList p => LVMClusterList_DeepCopyObject p
  | OLVMVolumeGroup p => LVMVolumeGroup_DeepCopyObject p
  | OLVMVolumeGroupList p => LVMVolumeGroupList_DeepCopyObject p
  | OLVMVolumeGroupNodeStatus p => LVMVolumeGroupNodeStatus_DeepCopyObject p
  | OLVMVolumeGroupNodeStatusList p => LVMVolumeGroupNodeStatusList_DeepCopyObject p
  end.

End Methods.

(** * What the memory of an object denotes *)

Section Meaning.
Context `{L : Libraries} `{C : !LibraryCopies L}.

Definition ThinPoolConfig_walk (x : GoThinPoolConfig Mem) : W (GoThinPoolConfig Val) :=
  chunkSize ⇐ walk_ptr TQuantity Quantity_walk (tp_ChunkSize x);
  metadataSize ⇐ walk_ptr TQuantity Quantity_walk (tp_MetadataSize x);
  wret ({| tp_Name := tp_Name x; tp_SizePercent := tp_SizePercent x;
       tp_OverprovisionRatio := tp_OverprovisionRatio x;
       tp_ChunkSizeCalculationPolicy := tp_ChunkSizeCalculationPolicy x; tp_ChunkSize := chunkSize;
       tp_MetadataSize := metadataSize;
       tp_MetadataSizeCalculationPolicy := tp_MetadataSizeCalculationPolicy x |}
    : GoThinPoolConfig Val).

Definition RAIDConfig_walk (x : GoRAIDConfig Mem) : W (GoRAIDConfig Val) :=
  mirrors ⇐ walk_ptr TInt wret (rc_Mirrors x);
  stripes ⇐ walk_ptr TInt wret (rc_Stripes x);
  stripeSize ⇐ walk_ptr TQuantity Quantity_walk (rc_StripeSize x);
  wret ({| rc_Type := rc_Type x; rc_Mirrors := mirrors; rc_Stripes := stripes;
       rc_StripeSize := stripeSize |}
    : GoRAIDConfig Val).

Definition DeviceSelector_walk (x : GoDeviceSelector Mem) : W (GoDeviceSelector Val) :=
  paths ⇐ walk_slice TString wret (ds_Paths x);
  optionalPaths ⇐ walk_slice TString wret (ds_OptionalPaths x);
  forceWipeDevicesAndDestroyAllData ⇐ walk_ptr TBool wret (ds_ForceWipeDevicesAndDestroyAllData x);
  wret ({| ds_Paths := paths; ds_OptionalPaths := optionalPaths;
       ds_ForceWipeDevicesAndDestroyAllData := forceWipeDevicesAndDestroyAllData |}
    : GoDeviceSelector Val).

Definition StorageClassOptions_walk (x : GoStorageClassOptions Mem) : W (GoStorageClassOptions Val) :=
  reclaimPolicy ⇐ walk_ptr TString wret (sco_ReclaimPolicy x);
  volumeBindingMode ⇐ walk_ptr TString wret (sco_VolumeBindingMode x);
  additionalParameters ⇐ walk_ptr TStrMap wret (sco_AdditionalParameters x);
  additionalLabels ⇐ walk_ptr TStrMap wret (sco_AdditionalLabels x);
  wret ({| sco_ReclaimPolicy := reclaimPolicy; sco_VolumeBindingMode := volumeBindingMode;
       sco_AdditionalParameters := additionalParameters; sco_AdditionalLabels := additionalLabels |}
    : GoStorageClassOptions Val).

Definition DeviceClass_walk (x : GoDeviceClass Mem) : W (GoDeviceClass Val) :=
  deviceSelector ⇐ walk_ptr TDeviceSelector DeviceSelector_walk (dc_DeviceSelector x);
  nodeSelector ⇐ walk_ptr TNodeSelector NodeSelector_walk (dc_NodeSelector x);
  thinPoolConfig ⇐ walk_ptr TThinPoolConfig ThinPoolConfig_walk (dc_ThinPoolConfig x);
  raidConfig ⇐ walk_ptr TRAIDConfig RAIDConfig_walk (dc_RAIDConfig x);
  deviceDiscoveryPolicy ⇐ walk_ptr TString wret (dc_DeviceDiscoveryPolicy x);
  storageClassOptions ⇐ walk_ptr TStorageClassOptions StorageClassOptions_walk (dc_StorageClassOptions x);
  wret ({| dc_Name := dc_Name x; dc_DeviceSelector := deviceSelector; dc_NodeSelector := nodeSelector;
       dc_ThinPoolConfig := thinPoolConfig; dc_RAIDConfig := raidConfig; dc_Default := dc_Default x;
       dc_FilesystemType := dc_FilesystemType x; dc_DeviceDiscoveryPolicy := deviceDiscoveryPolicy;
       dc_StorageClassOptions := storageClassOptions |}
    : GoDeviceClass Val).

Definition Storage_walk (x : GoStorage Mem) : W (GoStorage Val) :=
  deviceClasses ⇐ walk_slice TDeviceClass DeviceClass_walk (st_DeviceClasses x);
  wret ({| st_DeviceClasses := deviceClasses |}
    : GoStorage Val).

Definition LVMClusterSpec_walk (x : GoLVMClusterSpec Mem) : W (GoLVMClusterSpec Val) :=
  tolerations ⇐ walk_slice TToleration Toleration_walk (lcs_Tolerations x);
  storage ⇐ Storage_walk (lcs_Storage x);
  wret ({| lcs_Tolerations := tolerations; lcs_Storage := storage |}
    : GoLVMClusterSpec Val).

Definition RAIDStatus_walk (x : GoRAIDStatus Mem) : W (GoRAIDStatus Val) :=
  minSyncPercent ⇐ walk_ptr TInt wret (rs_MinSyncPercent x);
  lvHealth ⇐ walk_slice TRAIDLVHealth wret (rs_LVHealth x);
  wret ({| rs_Status := rs_Status x; rs_MemberCount := rs_MemberCount x;
       rs_DegradedMemberCount := rs_DegradedMemberCount x; rs_MinSyncPercent := minSyncPercent;
       rs_LVHealth := lvHealth |}
    : GoRAIDStatus Val).

Definition ExcludedDevice_walk (x : GoExcludedDevice Mem) : W (GoExcludedDevice Val) :=
  reasons ⇐ walk_slice TString wret (ed_Reasons x);
  wret ({| ed_Name := ed_Name x; ed_Reasons := reasons |}
    : GoExcludedDevice Val).

Definition VGStatus_walk (x : GoVGStatus Mem) : W (GoVGStatus Val) :=
  devices ⇐ walk_slice TString wret (vs_Devices x);
  excluded ⇐ walk_slice TExcludedDevice ExcludedDevice_walk (vs_Excluded x);
  raidStatus ⇐ walk_ptr TRAIDStatus RAIDStatus_walk (vs_RAIDStatus x);
  wret ({| vs_Name := vs_Name x; vs_Status := vs_Status x; vs_Reason := vs_Reason x; vs_Devices := devices;
       vs_Excluded := excluded; vs_DeviceDiscoveryPolicy := vs_DeviceDiscoveryPolicy x;
       vs_RAIDStatus := raidStatus |}
    : GoVGStatus Val).

Definition NodeStatus_walk (x : GoNodeStatus Mem) : W (GoNodeStatus Val) :=
  vgStatus ⇐ VGStatus_walk (nst_VGStatus x);
  wret ({| nst_Node := nst_Node x; nst_VGStatus := vgStatus |}
    : GoNodeStatus Val).

Definition DeviceClassStatus_walk (x : GoDeviceClassStatus Mem) : W (GoDeviceClassStatus Val) :=
  nodeStatus ⇐ walk_slice TNodeStatus NodeStatus_walk (dcs_NodeStatus x);
  wret ({| dcs_Name := dcs_Name x; dcs_NodeStatus := nodeStatus |}
    : GoDeviceClassStatus Val).

Definition LVMClusterStatus_walk (x : GoLVMClusterStatus Mem) : W (GoLVMClusterStatus Val) :=
  conditions ⇐ walk_slice TCondition Condition_walk (lst_Conditions x);
  deviceClassStatuses ⇐ walk_slice TDeviceClassStatus DeviceClassStatus_walk (lst_DeviceClassStatuses x);
  wret ({| lst_Ready := lst_Ready x; lst_State := lst_State x; lst_Conditions := conditions;
       lst_DeviceClassStatuses := deviceClassStatuses |}
    : GoLVMClusterStatus Val).

Definition LVMCluster_walk (x : GoLVMCluster Mem) : W (GoLVMCluster Val) :=
  objectMeta ⇐ ObjectMeta_walk (lc_ObjectMeta x);
  spec ⇐ LVMClusterSpec_walk (lc_Spec x);
  status ⇐ LVMClusterStatus_walk (lc_Status x);
  wret ({| lc_TypeMeta := lc_TypeMeta x; lc_ObjectMeta := objectMeta; lc_Spec := spec;
       lc_Status := status |}
    : GoLVMCluster Val).

Definition LVMClusterList_walk (x : GoLVMClusterList Mem) : W (GoLVMClusterList Val) :=
  listMeta ⇐ ListMeta_walk (lcl_ListMeta x);
  items ⇐ walk_slice TLVMCluster LVMCluster_walk (lcl_Items x);
  wret ({| lcl_TypeMeta := lcl_TypeMeta x; lcl_ListMeta := listMeta; lcl_Items := items |}
    : GoLVMClusterList Val).

Definition LVMVolumeGroupSpec_walk (x : GoLVMVolumeGroupSpec Mem) : W (GoLVMVolumeGroupSpec Val) :=
  deviceSelector ⇐ walk_ptr TDeviceSelector DeviceSelector_walk (vgs_DeviceSelector x);
  nodeSelector ⇐ walk_ptr TNodeSelector NodeSelector_walk (vgs_NodeSelector x);
  thinPoolConfig ⇐ walk_ptr TThinPoolConfig ThinPoolConfig_walk (vgs_ThinPoolConfig x);
  raidConfig ⇐ walk_ptr TRAIDConfig RAIDConfig_walk (vgs_RAIDConfig x);
  deviceDiscoveryPolicy ⇐ walk_ptr TString wret (vgs_DeviceDiscoveryPolicy x);
  wret ({| vgs_DeviceSelector := deviceSelector; vgs_NodeSelector := nodeSelector;
       vgs_ThinPoolConfig := thinPoolConfig; vgs_RAIDConfig := raidConfig;
       vgs_Default := vgs_Default x; vgs_DeviceDiscoveryPolicy := deviceDiscoveryPolicy |}
    : GoLVMVolumeGroupSpec Val).

Definition LVMVolumeGroup_walk (x : GoLVMVolumeGroup Mem) : W (GoLVMVolumeGroup Val) :=
  objectMeta ⇐ ObjectMeta_walk (lvg_ObjectMeta x);
  spec ⇐ LVMVolumeGroupSpec_walk (lvg_Spec x);
  wret ({| lvg_TypeMeta := lvg_TypeMeta x; lvg_ObjectMeta := objectMeta; lvg_Spec := spec;
       lvg_Status := lvg_Status x |}
    : GoLVMVolumeGroup Val).

Definition LVMVolumeGroupList_walk (x : GoLVMVolumeGroupList Mem) : W (GoLVMVolumeGroupList Val) :=
  listMeta ⇐ ListMeta_walk (lvgl_ListMeta x);
  items ⇐ walk_slice TLVMVolumeGroup LVMVolumeGroup_walk (lvgl_Items x);
  wret ({| lvgl_TypeMeta := lvgl_TypeMeta x; lvgl_ListMeta := listMeta; lvgl_Items := items |}
    : GoLVMVolumeGroupList Val).

Definition LVMVolumeGroupNodeStatusSpec_walk (x : GoLVMVolumeGroupNodeStatusSpec Mem) : W (GoLVMVolumeGroupNodeStatusSpec Val) :=
  lvmVGStatus ⇐ walk_slice TVGStatus VGStatus_walk (nss_LVMVGStatus x);
  wret ({| nss_LVMVGStatus := lvmVGStatus |}
    : GoLVMVolumeGroupNodeStatusSpec Val).

Definition LVMVolumeGroupNodeStatus_walk (x : GoLVMVolumeGroupNodeStatus Mem) : W (GoLVMVolumeGroupNodeStatus Val) :=
  objectMeta ⇐ ObjectMeta_walk (ns_ObjectMeta x);
  spec ⇐ LVMVolumeGroupNodeStatusSpec_walk (ns_Spec x);
  wret ({| ns_TypeMeta := ns_TypeMeta x; ns_ObjectMeta := objectMeta; ns_Spec := spec;
       ns_Status := ns_Status x |}
    : GoLVMVolumeGroupNodeStatus Val).

Definition LVMVolumeGroupNodeStatusList_walk (x : GoLVMVolumeGroupNodeStatusList Mem) : W (GoLVMVolumeGroupNodeStatusList Val) :=
  listMeta ⇐ ListMeta_walk (nsl_ListMeta x);
  items ⇐ walk_slice TLVMVolumeGroupNodeStatus LVMVolumeGroupNodeStatus_walk (nsl_Items x);
  wret ({| nsl_TypeMeta := nsl_TypeMeta x; nsl_ListMeta := listMeta; nsl_Items := items |}
    : GoLVMVolumeGroupNodeStatusList Val).

Inductive object_value :=
| VLVMCluster (v : GoLVMCluster Val)
| VLVMClusterList (v : GoLVMClusterList Val)
| VLVMVolumeGroup (v : GoLVMVolumeGroup Val)
| VLVMVolumeGroupList (v : GoLVMVolumeGroupList Val)
| VLVMVolumeGroupNodeStatus (v : GoLVMVolumeGroupNodeStatus Val)
| VLVMVolumeGroupNodeStatusList (v : GoLVMVolumeGroupNodeStatusList Val).

(** [None] for a nil pointer. *)
Definition object_walk (o : Object) : W (option object_value) :=
  match o with
  | OLVMCluster p => v ⇐ walk_ptr TLVMCluster LVMCluster_walk p; wret (VLVMCluster <$> v)
  | OLVMClusterList p => v ⇐ walk_ptr TLVMClusterList LVMClusterList_walk p; wret (VLVMClusterList <$> v)
  | OLVMVolumeGroup p => v ⇐ walk_ptr TLVMVolumeGroup LVMVolumeGroup_walk p; wret (VLVMVolumeGroup <$> v)
  | OLVMVolumeGroupList p => v ⇐ walk_ptr TLVMVolumeGroupList LVMVolumeGroupList_walk p; wret (VLVMVolumeGroupList <$> v)
  | OLVMVolumeGroupNodeStatus p => v ⇐ walk_ptr TLVMVolumeGroupNodeStatus LVMVolumeGroupNodeStatus_walk p; wret (VLVMVolumeGroupNodeStatus <$> v)
  | OLVMVolumeGroupNodeStatusList p => v ⇐ walk_ptr TLVMVolumeGroupNodeStatusList LVMVolumeGroupNodeStatusList_walk p; wret (VLVMVolumeGroupNodeStatusList <$> v)
  end.

End Meaning.
(** * Copies of maps *)

Section Maps.
Context `{L : Libraries} `{A : Allocator} `{R : GoRuntime}.

(** Setting the entries of a map one by one leaves the entries in it, in whatever order they come. *)
Lemma set_entries_spec l kvs (d : gmap string string) (h : heap) : h !! l = Some (mkObject TStrMap [d]) ->
  set_entries (mkPtr l 0) kvs h =
    Some (tt, <[l := mkObject TStrMap [foldl (fun d kv => <[kv.1 := kv.2]> d) d kvs]]> h).
Proof.
  revert d h. induction kvs as [|[k v] kvs IH]; intros d h E.
  - simpl. by rewrite insert_id.
  - simpl. unfold mbind, M_bind. rewrite (wload_load (U := api_universe) TStrMap _ _ _ _ (wload_at (U := api_universe) TStrMap l 0 d [d] h E eq_refl)).
    rewrite (store_spec (U := api_universe) TStrMap l 0 _ [d] h E) by (simpl; lia). simpl.
    rewrite (IH (<[k := v]> d)) by apply lookup_insert_eq. by rewrite insert_insert_eq.
Qed.

Lemma foldl_entries (kvs : list (string * string)) (d : gmap string string) : NoDup kvs.*1 ->
  foldl (fun d kv => <[kv.1 := kv.2]> d) d kvs = list_to_map kvs ∪ d.
Proof.
  revert d. induction kvs as [|[k v] kvs IH]; intros d Hnd; simpl; [by rewrite map_empty_union|].
  inversion Hnd as [|? ? Hk Hnd']; subst. rewrite IH by done. rewrite <- insert_union_l.
  symmetry. apply insert_union_r. by apply not_elem_of_list_to_map_1.
Qed.

Lemma entries_in_any_order (x : gmap string string) : list_to_map (map_range (map_to_list x)) = x.
Proof.
  rewrite (list_to_map_proper _ (map_to_list x)); [apply list_to_map_to_list| |apply map_range_perm].
  rewrite map_range_perm. apply NoDup_fst_map_to_list.
Qed.

Lemma clone_map_clones p : clones (walk_ptr TStrMap wret p) (clone_map p) (walk_ptr TStrMap wret).
Proof.
  destruct p as [i|]; [|by apply clones_ret]. intros h v F Hw.
  apply walk_ptr_Some in Hw as (x & u & G & _ & Hx & [= <- <-] & ->).
  destruct (alloc_spec (U := api_universe) TStrMap [@zero api_universe TStrMap] h) as (l & Ha & Hl & S1).
  exists (Some (mkPtr l 0)), (<[l := @mkObject api_universe TStrMap [x]]> h), ({[l]} ∪ (∅ ∪ ∅)). split; [|split; [|split]].
  - unfold clone_map, new, mbind, M_bind. rewrite Ha. cbn beta iota delta [mret M_ret].
    rewrite (wload_load (U := api_universe) TStrMap _ _ _ _ (walk_mono _ _ _ _ _ Hx S1)).
    rewrite (set_entries_spec l _ ∅) by apply lookup_insert_eq. rewrite insert_insert_eq, foldl_entries, map_union_empty.
    + by rewrite entries_in_any_order.
    + rewrite map_range_perm. apply NoDup_fst_map_to_list.
  - by apply insert_subseteq.
  - by apply (walk_box (U := api_universe) TStrMap wret l x); [apply lookup_insert_eq|].
  - apply not_elem_of_dom in Hl. set_solver.
Qed.

End Maps.

(** * Every method makes an independent copy *)

Section Copies.
Context `{L : Libraries} `{C : !LibraryCopies L} `{LL : !LibraryLaws C} `{A : Allocator} `{R : GoRuntime}.

#[export] Instance ThinPoolConfig_walks x : Walk (ThinPoolConfig_walk x).
Proof. unfold ThinPoolConfig_walk. apply _. Qed.
#[export] Instance RAIDConfig_walks x : Walk (RAIDConfig_walk x).
Proof. unfold RAIDConfig_walk. apply _. Qed.
#[export] Instance DeviceSelector_walks x : Walk (DeviceSelector_walk x).
Proof. unfold DeviceSelector_walk. apply _. Qed.
#[export] Instance StorageClassOptions_walks x : Walk (StorageClassOptions_walk x).
Proof. unfold StorageClassOptions_walk. apply _. Qed.
#[export] Instance DeviceClass_walks x : Walk (DeviceClass_walk x).
Proof. unfold DeviceClass_walk. apply _. Qed.
#[export] Instance Storage_walks x : Walk (Storage_walk x).
Proof. unfold Storage_walk. apply _. Qed.
#[export] Instance LVMClusterSpec_walks x : Walk (LVMClusterSpec_walk x).
Proof. unfold LVMClusterSpec_walk. apply _. Qed.
#[export] Instance RAIDStatus_walks x : Walk (RAIDStatus_walk x).
Proof. unfold RAIDStatus_walk. apply _. Qed.
#[export] Instance ExcludedDevice_walks x : Walk (ExcludedDevice_walk x).
Proof. unfold ExcludedDevice_walk. apply _. Qed.
#[export] Instance VGStatus_walks x : Walk (VGStatus_walk x).
Proof. unfold VGStatus_walk. apply _. Qed.
#[export] Instance NodeStatus_walks x : Walk (NodeStatus_walk x).
Proof. unfold NodeStatus_walk. apply _. Qed.
#[export] Instance DeviceClassStatus_walks x : Walk (DeviceClassStatus_walk x).
Proof. unfold DeviceClassStatus_walk. apply _. Qed.
#[export] Instance LVMClusterStatus_walks x : Walk (LVMClusterStatus_walk x).
Proof. unfold LVMClusterStatus_walk. apply _. Qed.
#[export] Instance LVMCluster_walks x : Walk (LVMCluster_walk x).
Proof. unfold LVMCluster_walk. apply _. Qed.
#[export] Instance LVMClusterList_walks x : Walk (LVMClusterList_walk x).
Proof. unfold LVMClusterList_walk. apply _. Qed.
#[export] Instance LVMVolumeGroupSpec_walks x : Walk (LVMVolumeGroupSpec_walk x).
Proof. unfold LVMVolumeGroupSpec_walk. apply _. Qed.
#[export] Instance LVMVolumeGroup_walks x : Walk (LVMVolumeGroup_walk x).
Proof. unfold LVMVolumeGroup_walk. apply _. Qed.
#[export] Instance LVMVolumeGroupList_walks x : Walk (LVMVolumeGroupList_walk x).
Proof. unfold LVMVolumeGroupList_walk. apply _. Qed.
#[export] Instance LVMVolumeGroupNodeStatusSpec_walks x : Walk (LVMVolumeGroupNodeStatusSpec_walk x).
Proof. unfold LVMVolumeGroupNodeStatusSpec_walk. apply _. Qed.
#[export] Instance LVMVolumeGroupNodeStatus_walks x : Walk (LVMVolumeGroupNodeStatus_walk x).
Proof. unfold LVMVolumeGroupNodeStatus_walk. apply _. Qed.
#[export] Instance LVMVolumeGroupNodeStatusList_walks x : Walk (LVMVolumeGroupNodeStatusList_walk x).
Proof. unfold LVMVolumeGroupNodeStatusList_walk. apply _. Qed.

Hint Resolve ObjectMeta_clones ListMeta_clones NodeSelector_clones Quantity_clones Toleration_clones Condition_clones
  clone_map_clones : clone.

Lemma ThinPoolConfig_clones x : clones (ThinPoolConfig_walk x) (ThinPoolConfig_DeepCopyInto x) ThinPoolConfig_walk.
Proof. clone_fields ThinPoolConfig_walk ThinPoolConfig_DeepCopyInto. Qed.
Hint Resolve ThinPoolConfig_clones : clone.

Lemma RAIDConfig_clones x : clones (RAIDConfig_walk x) (RAIDConfig_DeepCopyInto x) RAIDConfig_walk.
Proof. clone_fields RAIDConfig_walk RAIDConfig_DeepCopyInto. Qed.
Hint Resolve RAIDConfig_clones : clone.

Lemma DeviceSelector_clones x : clones (DeviceSelector_walk x) (DeviceSelector_DeepCopyInto x) DeviceSelector_walk.
Proof. clone_fields DeviceSelector_walk DeviceSelector_DeepCopyInto. Qed.
Hint Resolve DeviceSelector_clones : clone.

Lemma StorageClassOptions_clones x : clones (StorageClassOptions_walk x) (StorageClassOptions_DeepCopyInto x) StorageClassOptions_walk.
Proof. clone_fields StorageClassOptions_walk StorageClassOptions_DeepCopyInto. Qed.
Hint Resolve StorageClassOptions_clones : clone.

Lemma DeviceClass_clones x : clones (DeviceClass_walk x) (DeviceClass_DeepCopyInto x) DeviceClass_walk.
Proof. clone_fields DeviceClass_walk DeviceClass_DeepCopyInto. Qed.
Hint Resolve DeviceClass_clones : clone.

Lemma Storage_clones x : clones (Storage_walk x) (Storage_DeepCopyInto x) Storage_walk.
Proof. clone_fields Storage_walk Storage_DeepCopyInto. Qed.
Hint Resolve Storage_clones : clone.

Lemma LVMClusterSpec_clones x : clones (LVMClusterSpec_walk x) (LVMClusterSpec_DeepCopyInto x) LVMClusterSpec_walk.
Proof. clone_fields LVMClusterSpec_walk LVMClusterSpec_DeepCopyInto. Qed.
Hint Resolve LVMClusterSpec_clones : clone.

Lemma RAIDStatus_clones x : clones (RAIDStatus_walk x) (RAIDStatus_DeepCopyInto x) RAIDStatus_walk.
Proof. clone_fields RAIDStatus_walk RAIDStatus_DeepCopyInto. Qed.
Hint Resolve RAIDStatus_clones : clone.

Lemma ExcludedDevice_clones x : clones (ExcludedDevice_walk x) (ExcludedDevice_DeepCopyInto x) ExcludedDevice_walk.
Proof. clone_fields ExcludedDevice_walk ExcludedDevice_DeepCopyInto. Qed.
Hint Resolve ExcludedDevice_clones : clone.

Lemma VGStatus_clones x : clones (VGStatus_walk x) (VGStatus_DeepCopyInto x) VGStatus_walk.
Proof. clone_fields VGStatus_walk VGStatus_DeepCopyInto. Qed.
Hint Resolve VGStatus_clones : clone.

Lemma NodeStatus_clones x : clones (NodeStatus_walk x) (NodeStatus_DeepCopyInto x) NodeStatus_walk.
Proof. clone_fields NodeStatus_walk NodeStatus_DeepCopyInto. Qed.
Hint Resolve NodeStatus_clones : clone.

Lemma DeviceClassStatus_clones x : clones (DeviceClassStatus_walk x) (DeviceClassStatus_DeepCopyInto x) DeviceClassStatus_walk.
Proof. clone_fields DeviceClassStatus_walk DeviceClassStatus_DeepCopyInto. Qed.
Hint Resolve DeviceClassStatus_clones : clone.

Lemma LVMClusterStatus_clones x : clones (LVMClusterStatus_walk x) (LVMClusterStatus_DeepCopyInto x) LVMClusterStatus_walk.
Proof. clone_fields LVMClusterStatus_walk LVMClusterStatus_DeepCopyInto. Qed.
Hint Resolve LVMClusterStatus_clones : clone.

Lemma LVMCluster_clones x : clones (LVMCluster_walk x) (LVMCluster_DeepCopyInto x) LVMCluster_walk.
Proof. clone_fields LVMCluster_walk LVMCluster_DeepCopyInto. Qed.
Hint Resolve LVMCluster_clones : clone.

Lemma LVMClusterList_clones x : clones (LVMClusterList_walk x) (LVMClusterList_DeepCopyInto x) LVMClusterList_walk.
Proof. clone_fields LVMClusterList_walk LVMClusterList_DeepCopyInto. Qed.
Hint Resolve LVMClusterList_clones : clone.

Lemma LVMVolumeGroupSpec_clones x : clones (LVMVolumeGroupSpec_walk x) (LVMVolumeGroupSpec_DeepCopyInto x) LVMVolumeGroupSpec_walk.
Proof. clone_fields LVMVolumeGroupSpec_walk LVMVolumeGroupSpec_DeepCopyInto. Qed.
Hint Resolve LVMVolumeGroupSpec_clones : clone.

Lemma LVMVolumeGroup_clones x : clones (LVMVolumeGroup_walk x) (LVMVolumeGroup_DeepCopyInto x) LVMVolumeGroup_walk.
Proof. clone_fields LVMVolumeGroup_walk LVMVolumeGroup_DeepCopyInto. Qed.
Hint Resolve LVMVolumeGroup_clones : clone.

Lemma LVMVolumeGroupList_clones x : clones (LVMVolumeGroupList_walk x) (LVMVolumeGroupList_DeepCopyInto x) LVMVolumeGroupList_walk.
Proof. clone_fields LVMVolumeGroupList_walk LVMVolumeGroupList_DeepCopyInto. Qed.
Hint Resolve LVMVolumeGroupList_clones : clone.

Lemma LVMVolumeGroupNodeStatusSpec_clones x : clones (LVMVolumeGroupNodeStatusSpec_walk x) (LVMVolumeGroupNodeStatusSpec_DeepCopyInto x) LVMVolumeGroupNodeStatusSpec_walk.
Proof. clone_fields LVMVolumeGroupNodeStatusSpec_walk LVMVolumeGroupNodeStatusSpec_DeepCopyInto. Qed.
Hint Resolve LVMVolumeGroupNodeStatusSpec_clones : clone.

Lemma LVMVolumeGroupNodeStatus_clones x : clones (LVMVolumeGroupNodeStatus_walk x) (LVMVolumeGroupNodeStatus_DeepCopyInto x) LVMVolumeGroupNodeStatus_walk.
Proof. clone_fields LVMVolumeGroupNodeStatus_walk LVMVolumeGroupNodeStatus_DeepCopyInto. Qed.
Hint Resolve LVMVolumeGroupNodeStatus_clones : clone.

Lemma LVMVolumeGroupNodeStatusList_clones x : clones (LVMVolumeGroupNodeStatusList_walk x) (LVMVolumeGroupNodeStatusList_DeepCopyInto x) LVMVolumeGroupNodeStatusList_walk.
Proof. clone_fields LVMVolumeGroupNodeStatusList_walk LVMVolumeGroupNodeStatusList_DeepCopyInto. Qed.
Hint Resolve LVMVolumeGroupNodeStatusList_clones : clone.

#[export] Instance object_walks o : Walk (object_walk o).
Proof. destruct o; simpl; apply _. Qed.

(** A method through its interface: the copy of a pointer, wrapped again. *)
Lemma as_object_clones {V} t (into : den t -> M (den t)) (walk : den t -> W V) `{!forall x, Walk (walk x)}
    (wrap : option ptr -> Object) (inject : V -> object_value) p :
  (forall x, clones (walk x) (into x) walk) ->
  (forall p, object_walk (wrap p) = wbind (walk_ptr t walk p) (fun v => wret (inject <$> v))) ->
  forall h v F, object_walk (wrap p) h = Some (Some v, F) ->
  exists o' h' F', (c ← clone_struct t into p; mret (as_object wrap c)) h = Some (Some o', h') /\ h ⊆ h' /\
    object_walk o' h' = Some (Some v, F') /\ F' ## dom h.
Proof.
  intros Hinto E h v F Hw. rewrite E in Hw. apply wbind_Some in Hw as (u & F1 & F2 & Hw & [= Hu <-] & ->).
  destruct (clone_struct_clones t walk into p Hinto h u F1 Hw) as (c & h' & F' & Hc & S & Hc' & D).
  destruct u as [u|]; [|done]. destruct c as [c|]; [|done].
  exists (wrap (Some c)), h', (F' ∪ ∅). unfold mbind at 1, M_bind at 1. rewrite Hc. repeat split; [done| |set_solver].
  rewrite E. apply wbind_Some. exists (Some u), F', ∅. by rewrite <- Hu.
Qed.

Lemma DeepCopyObject_clones o h v F : object_walk o h = Some (Some v, F) ->
  exists o' h' F', DeepCopyObject o h = Some (Some o', h') /\ h ⊆ h' /\ object_walk o' h' = Some (Some v, F') /\ F' ## dom h.
Proof.
  destruct o;
  [ apply (as_object_clones TLVMCluster LVMCluster_DeepCopyInto LVMCluster_walk OLVMCluster VLVMCluster)
  | apply (as_object_clones TLVMClusterList LVMClusterList_DeepCopyInto LVMClusterList_walk OLVMClusterList VLVMClusterList)
  | apply (as_object_clones TLVMVolumeGroup LVMVolumeGroup_DeepCopyInto LVMVolumeGroup_walk OLVMVolumeGroup VLVMVolumeGroup)
  | apply (as_object_clones TLVMVolumeGroupList LVMVolumeGroupList_DeepCopyInto LVMVolumeGroupList_walk OLVMVolumeGroupList VLVMVolumeGroupList)
  | apply (as_object_clones TLVMVolumeGroupNodeStatus LVMVolumeGroupNodeStatus_DeepCopyInto LVMVolumeGroupNodeStatus_walk OLVMVolumeGroupNodeStatus VLVMVolumeGroupNodeStatus)
  | apply (as_object_clones TLVMVolumeGroupNodeStatusList LVMVolumeGroupNodeStatusList_DeepCopyInto LVMVolumeGroupNodeStatusList_walk OLVMVolumeGroupNodeStatusList VLVMVolumeGroupNodeStatusList) ];
  eauto with clone.
Qed.

(** [o'] is a copy of [o] made in [h], with [h'] the memory afterwards: it denotes the same value [v]
    at locations of its own, so that no write through one is visible through the other. *)
Definition independent_copy (h : heap) (o : Object) (v : object_value) (h' : heap) (o' : Object) : Prop :=
  h ⊆ h' /\
  exists F F', object_walk o h' = Some (Some v, F) /\ object_walk o' h' = Some (Some v, F') /\ F ## F' /\
    (forall h2, (forall l, l ∉ F' -> h2 !! l = h' !! l) -> object_walk o h2 = Some (Some v, F)) /\
    (forall h2, (forall l, l ∉ F -> h2 !! l = h' !! l) -> object_walk o' h2 = Some (Some v, F')).

(** C30: DeepCopyObject of every root type returns, for a non-nil receiver whose memory is well
    formed, an object of the same type that denotes the same value (nil and empty told apart) and
    shares no memory with the receiver: whatever is written through the copy afterwards, the
    receiver is unchanged, and the other way round. It allocates and writes nothing else. *)
Theorem DeepCopyObject_independent (o : Object) (h : heap) (v : object_value) (F : gset loc) :
  object_walk o h = Some (Some v, F) ->
  exists o' h', DeepCopyObject o h = Some (Some o', h') /\ independent_copy h o v h' o'.
Proof.
  intros Hw. destruct (DeepCopyObject_clones o h v F Hw) as (o' & h' & F' & Hc & S & Hw' & D).
  pose proof (walk_mono _ _ _ _ _ Hw S) as Hw2. pose proof (walk_owned _ _ _ Hw) as HF. exists o', h'.
  assert (F ## F') as HFF by set_solver. split; [done|]. split; [done|]. exists F, F'. repeat split; try done.
  - intros h2 Ha. eapply walk_local; [exact Hw2|]. intros l Hl. apply Ha. set_solver.
  - intros h2 Ha. eapply walk_local; [exact Hw'|]. intros l Hl. apply Ha. set_solver.
Qed.

(** A nil receiver gives a nil interface, not an interface holding a nil pointer. *)
Lemma DeepCopyObject_nil o h F : object_walk o h = Some (None, F) -> DeepCopyObject o h = Some (None, h).
Proof.
  destruct o as [[p|]|[p|]|[p|]|[p|]|[p|]|[p|]]; try done; cbn [object_walk];
    intros (u & F1 & F2 & Hw & [= Hu _] & _)%wbind_Some; apply walk_ptr_Some in Hw as (? & ? & ? & _ & _ & _ & ->); done.
Qed.

End Copies.

(** * An example memory *)

Module CopyDemo.
#[local] Existing Instance listed_order_runtime.

#[local] Instance next_free : Allocator := {| pick := fresh; pick_fresh := is_fresh |}.

(** Object metadata with a map of labels, node selectors with a list of strings; the rest without
    pointers. *)
#[local] Instance demo_libraries : Libraries :=
  {| ObjectMeta_mem := option ptr; ObjectMeta_value := option (gmap string string); ObjectMeta_zero := None;
     ListMeta_mem := string; ListMeta_value := string; ListMeta_zero := "";
     NodeSelector_mem := option slice; NodeSelector_value := option (list string); NodeSelector_zero := None;
     Quantity_mem := string; Quantity_value := string; Quantity_zero := "";
     Toleration_mem := string; Toleration_value := string; Toleration_zero := "";
     Condition_mem := string; Condition_value := string; Condition_zero := "";
     library_object := unit; library_zero := tt |}.

#[local] Instance demo_copies : LibraryCopies demo_libraries :=
  {| ObjectMeta_walk := walk_ptr TStrMap wret; ObjectMeta_DeepCopyInto := clone_map;
     ListMeta_walk := wret; ListMeta_DeepCopyInto := mret;
     NodeSelector_walk := walk_slice TString wret; NodeSelector_DeepCopyInto := clone_plain_slice TString;
     Quantity_walk := wret; Quantity_DeepCopy := mret;
     Toleration_walk := wret; Toleration_DeepCopyInto := mret;
     Condition_walk := wret; Condition_DeepCopyInto := mret |}.

#[local] Instance demo_laws : LibraryLaws demo_copies.
Proof.
  split; simpl; try apply _; intros x;
    first [apply clone_map_clones | exact (wret_clones x) | exact (clone_plain_slice_clones (U := api_universe) TString x)].
Qed.

(** An LVMVolumeGroup with labels, a device selector whose paths lie in the middle of an array,
    an empty slice of optional paths, and a discovery policy. *)
Definition group_struct : GoLVMVolumeGroup Mem :=
  mkGoLVMVolumeGroup (mkGoTypeMeta "LVMVolumeGroup" "lvm.topolvm.io/v1alpha1") (Some (mkPtr 2 0))
    (mkGoLVMVolumeGroupSpec (Some (mkPtr 3 0)) None None None true (Some (mkPtr 5 0))) mkGoLVMVolumeGroupStatus.

Definition selector_struct : GoDeviceSelector Mem :=
  mkGoDeviceSelector (Some (mkSlice 4 1 2)) (Some (mkSlice 4 0 0)) None.

Definition labels : gmap string string := <["app" := "lvms"]> (<["env" := "test"]> ∅).

Definition memory : heap :=
  list_to_map
    [(1%positive, @mkObject api_universe TLVMVolumeGroup [group_struct]);
     (2%positive, @mkObject api_universe TStrMap [labels]);
     (3%positive, @mkObject api_universe TDeviceSelector [selector_struct]);
     (4%positive, @mkObject api_universe TString ["/dev/sda"; "/dev/sdb"; "/dev/sdc"; "/dev/sdd"]);
     (5%positive, @mkObject api_universe TString ["Dynamic"])].

Definition group : Object := OLVMVolumeGroup (Some (mkPtr 1 0)).

Definition selector_value : GoDeviceSelector Val := mkGoDeviceSelector (Some ["/dev/sdb"; "/dev/sdc"]) (Some []) None.

Definition group_value : object_value :=
  VLVMVolumeGroup (mkGoLVMVolumeGroup (mkGoTypeMeta "LVMVolumeGroup" "lvm.topolvm.io/v1alpha1") (Some labels)
    (mkGoLVMVolumeGroupSpec (Some selector_value) None None None true (Some "Dynamic")) mkGoLVMVolumeGroupStatus).

Lemma DeepCopyObject_independent_witness :
  object_walk group memory = Some (Some group_value, {[1; 2; 3; 4; 5]}%positive) /\
  exists o' h', DeepCopyObject group memory = Some (Some o', h') /\ independent_copy memory group group_value h' o'.
Proof.
  assert (object_walk group memory = Some (Some group_value, {[1; 2; 3; 4; 5]}%positive)) as H by (vm_compute; reflexivity).
  split; [exact H|]. exact (DeepCopyObject_independent group memory group_value _ H).
Defined.
End CopyDemo.
