(* ===== verification/Api.v ===== *)
(** The API types of api/v1alpha1 (LVMCluster, LVMVolumeGroup,
    LVMVolumeGroupNodeStatus) with their methods, and the third-party types and
    functions they mention, as parameters.

    String-typed Go enumerations become inductive types; a [...Other] constructor
    stands for every string the source does not name. Go maps and slices in the
    API are gmaps and lists, nil and empty being the same to the source unless a
    field is an [option]. *)

From S2P Require Import Prelude GoStd.

(** * Third-party API machinery

    Types and functions of k8s.io packages that are not under src/. *)
Class K8s := {
  (** resource.Quantity, compared by reflect.DeepEqual on its representation *)
  Quantity : Type;
  Quantity_eq_dec :: EqDecision Quantity;
  q_Value : Quantity -> Z;
  q_Cmp : Quantity -> Quantity -> Z;
  q_String : Quantity -> string;
  q_MustParse : string -> Quantity;
  (** corev1.NodeSelectorTerm, corev1.Toleration, corev1.Taint, corev1.Node *)
  NodeSelectorTerm : Type;
  NodeSelectorTerm_eq_dec :: EqDecision NodeSelectorTerm;
  Toleration : Type;
  Taint : Type;
  Node : Type;
  node_Name : Node -> string;
  node_Taints : Node -> list Taint;
  taint_Key : Taint -> string;
  TaintNodeNotReady : string;
  (** corev1helper.TolerationsTolerateTaint, comparison operators enabled *)
  TolerationsTolerateTaint : list Toleration -> Taint -> bool;
  (** the String method of corev1.NodeSelector, defined on nil too *)
  NodeSelector_String : option (list NodeSelectorTerm) -> string;
  (** corev1helper.MatchNodeSelectorTerms(node, selector) *)
  MatchNodeSelectorTerms : Node -> list NodeSelectorTerm -> result error bool;
  (** k8svalidation.IsQualifiedName and IsValidLabelValue: the list of complaints *)
  IsQualifiedName : string -> list string;
  IsValidLabelValue : string -> list string;
}.

(** Documented behaviour of resource.Quantity: a quantity denotes a number of
    1/1000 units here; [Cmp] compares the numbers and [Value] is the number of
    units, rounded up, when it fits an int64; the literals of the source denote
    what they say. *)
Class QuantityLaws (K : K8s) := {
  milli : Quantity -> Z;
  q_Cmp_lt : forall a b, (q_Cmp a b < 0)%Z <-> (milli a < milli b)%Z;
  q_Cmp_gt : forall a b, (q_Cmp a b > 0)%Z <-> (milli a > milli b)%Z;
  q_Value_ceil : forall a, in_int64 (- ((- milli a) `div` 1000)) -> q_Value a = (- ((- milli a) `div` 1000))%Z;
  q_MustParse_Ki : forall n, In n ["64"; "128"] -> milli (q_MustParse (n +:+ "Ki")) =
    match ParseInt n with Ok v => (v * 1024 * 1000)%Z | Err _ => 0%Z end;
  q_MustParse_Mi : milli (q_MustParse "2Mi") = (2 * 1024 ^ 2 * 1000)%Z;
  q_MustParse_Gi : forall n, In n ["1"; "16"] -> milli (q_MustParse (n +:+ "Gi")) =
    match ParseInt n with Ok v => (v * 1024 ^ 3 * 1000)%Z | Err _ => 0%Z end;
}.

(** corev1.NodeSelector *)
Record NodeSelector `{K8s} := mkNodeSelector { NodeSelectorTerms : list NodeSelectorTerm }.

#[export] Instance NodeSelector_eq_dec `{K8s} : EqDecision NodeSelector.
Proof. solve_decision. Defined.

(** The metav1.OwnerReference and metav1.ObjectMeta fields the source reads or writes. *)
Record OwnerReference := mkOwnerReference {
  or_APIVersion : string; or_Kind : string; or_Name : string; or_UID : string;
}.

Record ObjectMeta := mkObjectMeta {
  om_Name : string;
  om_Namespace : string;
  om_UID : string;
  om_Labels : gmap string string;
  om_Annotations : option (gmap string string);
  om_Finalizers : list string;
  om_OwnerReferences : list OwnerReference;
  om_DeletionTimestamp : option string;
}.

(** * lvmcluster_types.go *)

Inductive MetadataSizePolicy :=
| MetadataSizePolicyHost | MetadataSizePolicyStatic | MetadataSizePolicyOther (s : string).

Inductive ChunkSizeCalculationPolicy :=
| ChunkSizeCalculationPolicyHost | ChunkSizeCalculationPolicyStatic
| ChunkSizeCalculationPolicyOther (s : string).

Inductive DeviceFilesystemType :=
| FilesystemTypeExt4 | FilesystemTypeXFS | FilesystemTypeOther (s : string).

Inductive RAIDType :=
| RAIDTypeRAID1 | RAIDTypeRAID4 | RAIDTypeRAID5 | RAIDTypeRAID6 | RAIDTypeRAID10
| RAIDTypeOther (s : string).

Inductive DeviceDiscoveryPolicySpec :=
| DeviceDiscoveryPolicyStatic | DeviceDiscoveryPolicyDynamic | DeviceDiscoveryPolicyOther (s : string).

Inductive ReclaimPolicy :=
| PersistentVolumeReclaimDelete | PersistentVolumeReclaimRetain | PersistentVolumeReclaimOther (s : string).

Inductive VolumeBindingMode :=
| VolumeBindingWaitForFirstConsumer | VolumeBindingImmediate | VolumeBindingOther (s : string).

#[export] Instance MetadataSizePolicy_eq_dec : EqDecision MetadataSizePolicy.
Proof. solve_decision. Defined.
#[export] Instance ChunkSizeCalculationPolicy_eq_dec : EqDecision ChunkSizeCalculationPolicy.
Proof. solve_decision. Defined.
#[export] Instance DeviceFilesystemType_eq_dec : EqDecision DeviceFilesystemType.
Proof. solve_decision. Defined.
#[export] Instance RAIDType_eq_dec : EqDecision RAIDType.
Proof. solve_decision. Defined.
#[export] Instance DeviceDiscoveryPolicySpec_eq_dec : EqDecision DeviceDiscoveryPolicySpec.
Proof. solve_decision. Defined.
#[export] Instance ReclaimPolicy_eq_dec : EqDecision ReclaimPolicy.
Proof. solve_decision. Defined.
#[export] Instance VolumeBindingMode_eq_dec : EqDecision VolumeBindingMode.
Proof. solve_decision. Defined.

Definition RAIDType_string (t : RAIDType) : string :=
  match t with
  | RAIDTypeRAID1 => "raid1" | RAIDTypeRAID4 => "raid4" | RAIDTypeRAID5 => "raid5"
  | RAIDTypeRAID6 => "raid6" | RAIDTypeRAID10 => "raid10" | RAIDTypeOther s => s
  end.

Definition DeviceFilesystemType_string (t : DeviceFilesystemType) : string :=
  match t with
  | FilesystemTypeExt4 => "ext4" | FilesystemTypeXFS => "xfs" | FilesystemTypeOther s => s
  end.

(** [ptr.Deref(p, def)] *)
Abbreviation Deref p d := (default d p) (only parsing).

(** The arithmetic is on Go's 64-bit [int]. *)
Definition MinDeviceCount (r : RAIDType) (mirrors : Z) (stripes : option Z) : Z :=
  match r with
  | RAIDTypeRAID1 => wrap64 (mirrors + 1)
  | RAIDTypeRAID4 | RAIDTypeRAID5 => wrap64 (Deref stripes 2%Z + 1)
  | RAIDTypeRAID6 => wrap64 (Deref stripes 3%Z + 2)
  | RAIDTypeRAID10 => wrap64 (2 * wrap64 (mirrors + 1))
  | RAIDTypeOther _ => 0
  end.

Abbreviation DevicePath := string (only parsing).

(** [DevicePath.Unresolved] is the identity on the underlying string. *)
Definition Unresolved (d : DevicePath) : string := d.

Record DeviceSelector := mkDeviceSelector {
  ds_Paths : list DevicePath;
  ds_OptionalPaths : list DevicePath;
  ds_ForceWipeDevicesAndDestroyAllData : option bool;
}.

Record StorageClassOptions := mkStorageClassOptions {
  sco_ReclaimPolicy : option ReclaimPolicy;
  sco_VolumeBindingMode : option VolumeBindingMode;
  sco_AdditionalParameters : gmap string string;
  sco_AdditionalLabels : gmap string string;
}.

Section Types.
Context `{K : K8s}.

Definition ThinPoolMetadataSizeMinimum : Quantity := q_MustParse "2Mi".
Definition ThinPoolMetadataSizeMaximum : Quantity := q_MustParse "16Gi".
Definition ThinPoolMetadataSizeDefault : Quantity := q_MustParse "1Gi".
Definition ChunkSizeMinimum : Quantity := q_MustParse "64Ki".
Definition ChunkSizeDefault : Quantity := q_MustParse "128Ki".
Definition ChunkSizeMaximum : Quantity := q_MustParse "1Gi".

Record ThinPoolConfig := mkThinPoolConfig {
  tp_Name : string;
  tp_SizePercent : Z;
  tp_OverprovisionRatio : Z;
  tp_ChunkSizeCalculationPolicy : ChunkSizeCalculationPolicy;
  tp_ChunkSize : option Quantity;
  tp_MetadataSize : option Quantity;
  tp_MetadataSizeCalculationPolicy : MetadataSizePolicy;
}.

Record RAIDConfig := mkRAIDConfig {
  rc_Type : RAIDType;
  rc_Mirrors : option Z;
  rc_Stripes : option Z;
  rc_StripeSize : option Quantity;
}.

Definition EffectiveMirrors (r : RAIDConfig) : Z :=
  match rc_Mirrors r with
  | Some m => m
  | None => 1
  end.

Record DeviceClass := mkDeviceClass {
  dc_Name : string;
  dc_DeviceSelector : option DeviceSelector;
  dc_NodeSelector : option NodeSelector;
  dc_ThinPoolConfig : option ThinPoolConfig;
  dc_RAIDConfig : option RAIDConfig;
  dc_Default : bool;
  dc_FilesystemType : DeviceFilesystemType;
  dc_DeviceDiscoveryPolicy : option DeviceDiscoveryPolicySpec;
  dc_StorageClassOptions : option StorageClassOptions;
}.

(** A device selector with at least one path, required or optional. *)
Definition selector_has_paths (o : option DeviceSelector) : bool :=
  match o with
  | Some s => (0 <? length (ds_Paths s))%nat || (0 <? length (ds_OptionalPaths s))%nat
  | None => false
  end.

Definition HasExplicitPaths (dc : DeviceClass) : bool := selector_has_paths (dc_DeviceSelector dc).

Record Storage := mkStorage { st_DeviceClasses : list DeviceClass }.

Record LVMClusterSpec := mkLVMClusterSpec {
  lcs_Tolerations : list Toleration;
  lcs_Storage : Storage;
}.

End Types.

(** * lvmvolumegroupnodestatus_types.go *)

Inductive DeviceDiscoveryPolicyStatus :=
| DeviceDiscoveryPolicyPreconfigured | DeviceDiscoveryPolicyRuntimeDynamic | DeviceDiscoveryPolicyRuntimeStatic.

Inductive VGStatusType := VGStatusProgressing | VGStatusReady | VGStatusFailed | VGStatusDegraded.

Inductive RAIDHealthStatus := RAIDHealthStatusHealthy | RAIDHealthStatusDegraded | RAIDHealthStatusFailed.

#[export] Instance DeviceDiscoveryPolicyStatus_eq_dec : EqDecision DeviceDiscoveryPolicyStatus.
Proof. solve_decision. Defined.
#[export] Instance VGStatusType_eq_dec : EqDecision VGStatusType.
Proof. solve_decision. Defined.
#[export] Instance RAIDHealthStatus_eq_dec : EqDecision RAIDHealthStatus.
Proof. solve_decision. Defined.

Record RAIDLVHealth := mkRAIDLVHealth {
  lh_Name : string;
  lh_RAIDType : RAIDType;
  lh_SyncPercent : Z;
  lh_HealthStatus : string;
}.

Record RAIDStatus := mkRAIDStatus {
  rs_Status : RAIDHealthStatus;
  rs_MemberCount : Z;
  rs_DegradedMemberCount : Z;
  rs_MinSyncPercent : option Z;
  rs_LVHealth : list RAIDLVHealth;
}.

Record ExcludedDevice := mkExcludedDevice { ed_Name : string; ed_Reasons : list string }.

(** The zero value of the policy field (never written to the API) is [None]. *)
Record VGStatus := mkVGStatus {
  vs_Name : string;
  vs_Status : VGStatusType;
  vs_Reason : string;
  vs_Devices : list string;
  vs_Excluded : list ExcludedDevice;
  vs_DeviceDiscoveryPolicy : option DeviceDiscoveryPolicyStatus;
  vs_RAIDStatus : option RAIDStatus;
}.

Record LVMVolumeGroupNodeStatus := mkLVMVolumeGroupNodeStatus {
  ns_meta : ObjectMeta;
  ns_LVMVGStatus : list VGStatus;
}.

(** * Cluster status and root objects *)

Inductive LVMStateType :=
| LVMStatusProgressing | LVMStatusReady | LVMStatusFailed | LVMStatusDegraded | LVMStatusUnknown.

#[export] Instance LVMStateType_eq_dec : EqDecision LVMStateType.
Proof. solve_decision. Defined.

(** metav1.Condition, without its timestamps. *)
Record Condition := mkCondition {
  cond_Type : string; cond_Status : bool; cond_Reason : string; cond_Message : string;
}.

Definition ResourcesAvailable : string := "ResourcesAvailable".
Definition VolumeGroupsReady : string := "VolumeGroupsReady".

Record NodeStatus := mkNodeStatus { nst_Node : string; nst_VGStatus : VGStatus }.

Record DeviceClassStatus := mkDeviceClassStatus {
  dcs_Name : string;
  dcs_NodeStatus : list NodeStatus;
}.

Record LVMClusterStatus := mkLVMClusterStatus {
  lst_Ready : bool;
  lst_State : LVMStateType;
  lst_Conditions : list Condition;
  lst_DeviceClassStatuses : list DeviceClassStatus;
}.

Section Objects.
Context `{K : K8s}.

Record LVMCluster := mkLVMCluster {
  lc_meta : ObjectMeta;
  lc_Spec : LVMClusterSpec;
  lc_Status : LVMClusterStatus;
}.

(** * lvmvolumegroup_types.go *)

Record LVMVolumeGroupSpec := mkLVMVolumeGroupSpec {
  vgs_DeviceSelector : option DeviceSelector;
  vgs_NodeSelector : option NodeSelector;
  vgs_ThinPoolConfig : option ThinPoolConfig;
  vgs_RAIDConfig : option RAIDConfig;
  vgs_Default : bool;
  vgs_DeviceDiscoveryPolicy : option DeviceDiscoveryPolicySpec;
}.

Record LVMVolumeGroup := mkLVMVolumeGroup {
  lvg_meta : ObjectMeta;
  lvg_Spec : LVMVolumeGroupSpec;
}.

Definition lvg_Name (vg : LVMVolumeGroup) : string := om_Name (lvg_meta vg).

Definition deviceClasses (l : LVMCluster) : list DeviceClass := st_DeviceClasses (lcs_Storage (lc_Spec l)).

(** Functional update of the device classes of a cluster. *)
Definition with_deviceClasses (dcs : list DeviceClass) (l : LVMCluster) : LVMCluster :=
  {| lc_meta := lc_meta l;
     lc_Spec := {| lcs_Tolerations := lcs_Tolerations (lc_Spec l); lcs_Storage := {| st_DeviceClasses := dcs |} |};
     lc_Status := lc_Status l |}.

#[export] Instance RAIDConfig_eq_dec : EqDecision RAIDConfig.
Proof. solve_decision. Defined.
#[export] Instance ThinPoolConfig_eq_dec : EqDecision ThinPoolConfig.
Proof. solve_decision. Defined.
End Objects.

(** * Minimum device counts *)

(** The schema bounds of the RAID fields (kubebuilder Minimum markers). *)
Definition raid_schema `{K8s} (rc : RAIDConfig) : Prop :=
  (forall m, rc_Mirrors rc = Some m -> (1 <= m)%Z) /\ (forall s, rc_Stripes rc = Some s -> (2 <= s)%Z).

(** The number of devices each level needs, without machine arithmetic. *)
Definition min_devices_spec (r : RAIDType) (mirrors : Z) (stripes : option Z) : Z :=
  match r with
  | RAIDTypeRAID1 => mirrors + 1
  | RAIDTypeRAID4 | RAIDTypeRAID5 => Deref stripes 2%Z + 1
  | RAIDTypeRAID6 => Deref stripes 3%Z + 2
  | RAIDTypeRAID10 => 2 * (mirrors + 1)
  | RAIDTypeOther _ => 0
  end.

(** Where the number fits 64 bits, the computation does not wrap around; where it does not, the
    result is not positive. *)
Lemma MinDeviceCount_exact r mirrors stripes :
  (0 <= mirrors)%Z -> in_int64 (min_devices_spec r mirrors stripes) ->
  MinDeviceCount r mirrors stripes = min_devices_spec r mirrors stripes.
Proof.
  unfold in_int64, min_int64, max_int64. intros Hm Hs. destruct r; simpl in *; try done;
    rewrite ?(wrap64_id (mirrors + 1)); rewrite ?wrap64_id; try done; unfold in_int64, min_int64, max_int64; lia.
Qed.

Lemma MinDeviceCount_wraps r mirrors stripes :
  (0 <= mirrors <= max_int64)%Z -> (0 <= Deref stripes 0 <= max_int64)%Z -> ~ in_int64 (min_devices_spec r mirrors stripes) ->
  (MinDeviceCount r mirrors stripes <= 0)%Z.
Proof.
  unfold in_int64, min_int64, max_int64. intros Hm Hs Hno.
  assert (Hwrap : forall z, (2 ^ 63 <= z <= 2 ^ 64)%Z -> wrap64 z = (z - 2 ^ 64)%Z).
  { intros z Hz. unfold wrap64. destruct (decide (z = 2 ^ 64 + 2 ^ 63)%Z); [lia|].
    replace (z + 2 ^ 63)%Z with ((z - 2 ^ 63) + 1 * 2 ^ 64)%Z by lia. rewrite Z.mod_add by lia. rewrite Z.mod_small by lia. lia. }
  destruct r; simpl in *; try (destruct stripes; simpl in *; try lia; rewrite Hwrap by lia; lia).
  destruct (decide (mirrors = 2 ^ 63 - 1)%Z) as [->|Hne]; [by vm_compute|].
  rewrite (wrap64_id (mirrors + 1)) by (unfold in_int64, min_int64, max_int64; lia). rewrite Hwrap by lia. lia.
Qed.
