(* ===== verification/K8sDemo.v ===== *)
(** A concrete instance of the third-party parameters, on which the witnesses
    evaluate: quantities are numbers of 1/1000 units, a node is its name, the selector
    terms it satisfies and its taints, which are tolerated by name, every label is well formed. It satisfies the
    documented laws of resource.Quantity. *)

From S2P Require Import Prelude GoStd Api.

Definition demo_MustParse (s : string) : Z :=
  let '(v, _, rest) := read_digits s 0 0 in
  (v * 1000 * (if String.eqb rest "Ki" then 1024 else if String.eqb rest "Mi" then 1024 ^ 2
               else if String.eqb rest "Gi" then 1024 ^ 3 else 1))%Z.

Definition demo_Cmp (a b : Z) : Z :=
  match (a ?= b)%Z with Lt => -1 | Eq => 0 | Gt => 1 end.

Definition demo_K8s : K8s := {|
  Quantity := Z;
  q_Value := fun a => (- ((- a) `div` 1000))%Z;
  q_Cmp := demo_Cmp;
  q_String := Itoa;
  q_MustParse := demo_MustParse;
  NodeSelectorTerm := string;
  Toleration := string;
  Taint := string;
  Node := string * list string * list string;
  node_Name := fun node => node.1.1;
  node_Taints := fun node => node.2;
  taint_Key := fun taint => taint;
  TaintNodeNotReady := "node.kubernetes.io/not-ready";
  TolerationsTolerateTaint := contains_str;
  NodeSelector_String := fun o => match o with None => "nil" | Some ts => fmt_strings ts end;
  MatchNodeSelectorTerms := fun node ts => Ok (existsb (contains_str node.1.2) ts);
  IsQualifiedName := fun _ => [];
  IsValidLabelValue := fun _ => [];
|}.

Lemma demo_quantity_laws : QuantityLaws demo_K8s.
Proof.
  refine {| milli := (fun q => q) : @Quantity demo_K8s -> Z |}; try done.
  - intros a b. simpl. unfold demo_Cmp. destruct (Z.compare_spec a b); lia.
  - intros a b. simpl. unfold demo_Cmp. destruct (Z.compare_spec a b); lia.
  - intros n [<-|[<-|[]]]; by vm_compute.
  - intros n [<-|[<-|[]]]; by vm_compute.
Defined.
