(* ===== verification/LvAttr.v ===== *)
(** The lv_attr flags of a logical volume (internal/controllers/vgmanager/lv_attr.go).

    Each Go flag type is a rune with named constants; here it is an inductive
    type with the same constructors and one constructor for every other rune. A
    flag is only ever built from one byte of the report, so runes are bytes. *)

From S2P Require Import Prelude GoStd.
From Stdlib Require Import Ascii.

(** * Flag types *)

Inductive VolumeType :=
| VolumeTypeMirrored | VolumeTypeMirroredNoInitialSync
| VolumeTypeOrigin | VolumeTypeOriginWithMergingSnapshot
| VolumeTypeRAID | VolumeTypeRAIDNoInitialSync
| VolumeTypeSnapshot | VolumeTypeMergingSnapshot
| VolumeTypePVMove | VolumeTypeVirtual
| VolumeTypeMirrorOrRAIDImage | VolumeTypeMirrorOrRAIDImageOutOfSync
| VolumeTypeMirrorLogDevice | VolumeTypeUnderConversion
| VolumeTypeThinVolume | VolumeTypeThinPool | VolumeTypeThinPoolData | VolumeTypeThinPoolMetadata
| VolumeTypeNone | VolumeTypeOther (c : ascii).

Inductive Permissions :=
| PermissionsWriteable | PermissionsReadOnly | PermissionsReadOnlyActivationOfNonReadOnlyVolume
| PermissionsNone | PermissionsOther (c : ascii).

Inductive AllocationPolicy :=
| AllocationPolicyAnywhere | AllocationPolicyAnywhereLocked
| AllocationPolicyContiguous | AllocationPolicyContiguousLocked
| AllocationPolicyInherited | AllocationPolicyInheritedLocked
| AllocationPolicyCling | AllocationPolicyClingLocked
| AllocationPolicyNormal | AllocationPolicyNormalLocked
| AllocationPolicyNone | AllocationPolicyOther (c : ascii).

Inductive Minor := MinorTrue | MinorFalse | MinorOther (c : ascii).

Inductive State :=
| StateActive | StateSuspended | StateInvalidSnapshot | StateSuspendedSnapshot
| StateSnapshotMergeFailed | StateSuspendedSnapshotMergeFailed
| StateMappedDevicePresentWithoutTables | StateMappedDevicePresentWithInactiveTables
| StateNone | StateOther (c : ascii).

Inductive Open := OpenTrue | OpenFalse | OpenOther (c : ascii).

Inductive OpenTarget :=
| OpenTargetMirror | OpenTargetRaid | OpenTargetSnapshot | OpenTargetThin | OpenTargetUnknown
| OpenTargetVirtual | OpenTargetOther (c : ascii).

Inductive Zero := ZeroTrue | ZeroFalse | ZeroOther (c : ascii).

Inductive Partial := PartialTrue | PartialFalse | PartialOther (c : ascii).

(** The conversions [T(raw[i])] and the rune a flag stands for. *)
Class Flag (T : Type) := {
  of_rune : ascii -> T;
  rune_of : T -> ascii;
  rune_of_of_rune : forall c, rune_of (of_rune c) = c;
}.

Ltac flag_cases := intros [[] [] [] [] [] [] [] []]; reflexivity.

#[export, refine] Instance Flag_VolumeType : Flag VolumeType := {|
  of_rune := fun c =>
    match c with
    | "m"%char => VolumeTypeMirrored | "M"%char => VolumeTypeMirroredNoInitialSync
    | "o"%char => VolumeTypeOrigin | "O"%char => VolumeTypeOriginWithMergingSnapshot
    | "r"%char => VolumeTypeRAID | "R"%char => VolumeTypeRAIDNoInitialSync
    | "s"%char => VolumeTypeSnapshot | "S"%char => VolumeTypeMergingSnapshot
    | "p"%char => VolumeTypePVMove | "v"%char => VolumeTypeVirtual
    | "i"%char => VolumeTypeMirrorOrRAIDImage | "I"%char => VolumeTypeMirrorOrRAIDImageOutOfSync
    | "l"%char => VolumeTypeMirrorLogDevice | "c"%char => VolumeTypeUnderConversion
    | "V"%char => VolumeTypeThinVolume | "t"%char => VolumeTypeThinPool
    | "T"%char => VolumeTypeThinPoolData | "e"%char => VolumeTypeThinPoolMetadata
    | "-"%char => VolumeTypeNone | c => VolumeTypeOther c
    end;
  rune_of := fun t =>
    match t with
    | VolumeTypeMirrored => "m"%char | VolumeTypeMirroredNoInitialSync => "M"%char
    | VolumeTypeOrigin => "o"%char | VolumeTypeOriginWithMergingSnapshot => "O"%char
    | VolumeTypeRAID => "r"%char | VolumeTypeRAIDNoInitialSync => "R"%char
    | VolumeTypeSnapshot => "s"%char | VolumeTypeMergingSnapshot => "S"%char
    | VolumeTypePVMove => "p"%char | VolumeTypeVirtual => "v"%char
    | VolumeTypeMirrorOrRAIDImage => "i"%char | VolumeTypeMirrorOrRAIDImageOutOfSync => "I"%char
    | VolumeTypeMirrorLogDevice => "l"%char | VolumeTypeUnderConversion => "c"%char
    | VolumeTypeThinVolume => "V"%char | VolumeTypeThinPool => "t"%char
    | VolumeTypeThinPoolData => "T"%char | VolumeTypeThinPoolMetadata => "e"%char
    | VolumeTypeNone => "-"%char | VolumeTypeOther c => c
    end; rune_of_of_rune := _ |}.
Proof. flag_cases. Defined.

#[export, refine] Instance Flag_Permissions : Flag Permissions := {|
  of_rune := fun c =>
    match c with
    | "w"%char => PermissionsWriteable | "r"%char => PermissionsReadOnly
    | "R"%char => PermissionsReadOnlyActivationOfNonReadOnlyVolume
    | "-"%char => PermissionsNone | c => PermissionsOther c
    end;
  rune_of := fun t =>
    match t with
    | PermissionsWriteable => "w"%char | PermissionsReadOnly => "r"%char
    | PermissionsReadOnlyActivationOfNonReadOnlyVolume => "R"%char
    | PermissionsNone => "-"%char | PermissionsOther c => c
    end; rune_of_of_rune := _ |}.
Proof. flag_cases. Defined.

#[export, refine] Instance Flag_AllocationPolicy : Flag AllocationPolicy := {|
  of_rune := fun c =>
    match c with
    | "a"%char => AllocationPolicyAnywhere | "A"%char => AllocationPolicyAnywhereLocked
    | "c"%char => AllocationPolicyContiguous | "C"%char => AllocationPolicyContiguousLocked
    | "i"%char => AllocationPolicyInherited | "I"%char => AllocationPolicyInheritedLocked
    | "l"%char => AllocationPolicyCling | "L"%char => AllocationPolicyClingLocked
    | "n"%char => AllocationPolicyNormal | "N"%char => AllocationPolicyNormalLocked
    | "-"%char => AllocationPolicyNone | c => AllocationPolicyOther c
    end;
  rune_of := fun t =>
    match t with
    | AllocationPolicyAnywhere => "a"%char | AllocationPolicyAnywhereLocked => "A"%char
    | AllocationPolicyContiguous => "c"%char | AllocationPolicyContiguousLocked => "C"%char
    | AllocationPolicyInherited => "i"%char | AllocationPolicyInheritedLocked => "I"%char
    | AllocationPolicyCling => "l"%char | AllocationPolicyClingLocked => "L"%char
    | AllocationPolicyNormal => "n"%char | AllocationPolicyNormalLocked => "N"%char
    | AllocationPolicyNone => "-"%char | AllocationPolicyOther c => c
    end; rune_of_of_rune := _ |}.
Proof. flag_cases. Defined.

#[export, refine] Instance Flag_Minor : Flag Minor := {|
  of_rune := fun c => match c with "m"%char => MinorTrue | "-"%char => MinorFalse | c => MinorOther c end;
  rune_of := fun t => match t with MinorTrue => "m"%char | MinorFalse => "-"%char | MinorOther c => c end; rune_of_of_rune := _ |}.
Proof. flag_cases. Defined.

#[export, refine] Instance Flag_State : Flag State := {|
  of_rune := fun c =>
    match c with
    | "a"%char => StateActive | "s"%char => StateSuspended
    | "I"%char => StateInvalidSnapshot | "S"%char => StateSuspendedSnapshot
    | "m"%char => StateSnapshotMergeFailed | "M"%char => StateSuspendedSnapshotMergeFailed
    | "d"%char => StateMappedDevicePresentWithoutTables
    | "i"%char => StateMappedDevicePresentWithInactiveTables
    | "-"%char => StateNone | c => StateOther c
    end;
  rune_of := fun t =>
    match t with
    | StateActive => "a"%char | StateSuspended => "s"%char
    | StateInvalidSnapshot => "I"%char | StateSuspendedSnapshot => "S"%char
    | StateSnapshotMergeFailed => "m"%char | StateSuspendedSnapshotMergeFailed => "M"%char
    | StateMappedDevicePresentWithoutTables => "d"%char
    | StateMappedDevicePresentWithInactiveTables => "i"%char
    | StateNone => "-"%char | StateOther c => c
    end; rune_of_of_rune := _ |}.
Proof. flag_cases. Defined.

#[export, refine] Instance Flag_Open : Flag Open := {|
  of_rune := fun c => match c with "o"%char => OpenTrue | "-"%char => OpenFalse | c => OpenOther c end;
  rune_of := fun t => match t with OpenTrue => "o"%char | OpenFalse => "-"%char | OpenOther c => c end; rune_of_of_rune := _ |}.
Proof. flag_cases. Defined.

#[export, refine] Instance Flag_OpenTarget : Flag OpenTarget := {|
  of_rune := fun c =>
    match c with
    | "m"%char => OpenTargetMirror | "r"%char => OpenTargetRaid | "s"%char => OpenTargetSnapshot
    | "t"%char => OpenTargetThin | "u"%char => OpenTargetUnknown | "v"%char => OpenTargetVirtual
    | c => OpenTargetOther c
    end;
  rune_of := fun t =>
    match t with
    | OpenTargetMirror => "m"%char | OpenTargetRaid => "r"%char | OpenTargetSnapshot => "s"%char
    | OpenTargetThin => "t"%char | OpenTargetUnknown => "u"%char | OpenTargetVirtual => "v"%char
    | OpenTargetOther c => c
    end; rune_of_of_rune := _ |}.
Proof. flag_cases. Defined.

#[export, refine] Instance Flag_Zero : Flag Zero := {|
  of_rune := fun c => match c with "z"%char => ZeroTrue | "-"%char => ZeroFalse | c => ZeroOther c end;
  rune_of := fun t => match t with ZeroTrue => "z"%char | ZeroFalse => "-"%char | ZeroOther c => c end; rune_of_of_rune := _ |}.
Proof. flag_cases. Defined.

#[export, refine] Instance Flag_Partial : Flag Partial := {|
  of_rune := fun c => match c with "p"%char => PartialTrue | "-"%char => PartialFalse | c => PartialOther c end;
  rune_of := fun t => match t with PartialTrue => "p"%char | PartialFalse => "-"%char | PartialOther c => c end; rune_of_of_rune := _ |}.
Proof. flag_cases. Defined.

#[export] Instance VolumeType_eq_dec : EqDecision VolumeType.
Proof. solve_decision. Defined.
#[export] Instance State_eq_dec : EqDecision State.
Proof. solve_decision. Defined.
#[export] Instance Partial_eq_dec : EqDecision Partial.
Proof. solve_decision. Defined.

(** * LvAttr *)

Record LvAttr := mkLvAttr {
  la_VolumeType : VolumeType;
  la_Permissions : Permissions;
  la_AllocationPolicy : AllocationPolicy;
  la_Minor : Minor;
  la_State : State;
  la_Open : Open;
  la_OpenTarget : OpenTarget;
  la_Zero : Zero;
  la_Partial : Partial;
}.

(** The tenth byte of the report is required and not interpreted. *)
Definition ParsedLvAttr (raw : string) : result error LvAttr :=
  match raw with
  | String c0 (String c1 (String c2 (String c3 (String c4 (String c5
      (String c6 (String c7 (String c8 (String _ ""))))))))) =>
      Ok {| la_VolumeType := of_rune c0; la_Permissions := of_rune c1; la_AllocationPolicy := of_rune c2;
            la_Minor := of_rune c3; la_State := of_rune c4; la_Open := of_rune c5;
            la_OpenTarget := of_rune c6; la_Zero := of_rune c7; la_Partial := of_rune c8 |}
  | _ => Err (EFmt (raw +:+ " is an invalid length lv_attr") [])
  end.

(** [%c] of a rune below 256, in UTF-8. *)
Definition fmt_rune (c : ascii) : string :=
  let n := N_of_ascii c in
  if (n <? 128)%N then String c ""
  else String (ascii_of_N (192 + n / 64)) (String (ascii_of_N (128 + n mod 64)) "").

Definition LvAttr_String (l : LvAttr) : string :=
  fmt_rune (rune_of (la_VolumeType l)) +:+ fmt_rune (rune_of (la_Permissions l)) +:+
  fmt_rune (rune_of (la_AllocationPolicy l)) +:+ fmt_rune (rune_of (la_Minor l)) +:+
  fmt_rune (rune_of (la_State l)) +:+ fmt_rune (rune_of (la_Open l)) +:+
  fmt_rune (rune_of (la_OpenTarget l)) +:+ fmt_rune (rune_of (la_Zero l)) +:+
  fmt_rune (rune_of (la_Partial l)).

(** * Theorems *)

Fixpoint ascii_only (s : string) : bool :=
  match s with
  | "" => true
  | String c s => (N_of_ascii c <? 128)%N && ascii_only s
  end.

(** The RAID volumes the health code looks at. *)
Definition is_raid_volume (t : VolumeType) : bool :=
  bool_decide (t = VolumeTypeRAID) || bool_decide (t = VolumeTypeRAIDNoInitialSync).

Lemma fmt_rune_ascii c : (N_of_ascii c <? 128)%N = true -> fmt_rune c = String c "".
Proof. unfold fmt_rune. by intros ->. Qed.

Lemma Ok_inj {E A} (a b : A) : @Ok E A a = Ok b -> a = b.
Proof. by injection 1. Qed.

Lemma ParsedLvAttr_length raw : is_Ok (ParsedLvAttr raw) = true <-> String.length raw = 10%nat.
Proof.
  do 10 (destruct raw as [|? raw]; [by simpl|]). destruct raw; by simpl.
Qed.

(** ParsedLvAttr accepts exactly the reports of ten bytes, and for an ASCII report the
    text of the parsed flags is the report without its last byte. *)
Theorem ParsedLvAttr_roundtrip raw :
  (is_Ok (ParsedLvAttr raw) = true <-> String.length raw = 10%nat) /\
  (forall a, ParsedLvAttr raw = Ok a -> ascii_only raw = true ->
     exists c, raw = LvAttr_String a +:+ String c "").
Proof.
  split; [apply ParsedLvAttr_length|]. intros a Ha Hascii.
  do 10 (destruct raw as [|? raw]; [done|]). destruct raw; [|done].
  apply Ok_inj in Ha. subst a. cbn [ascii_only] in Hascii. bools.
  unfold LvAttr_String. cbn [la_VolumeType la_Permissions la_AllocationPolicy la_Minor la_State
    la_Open la_OpenTarget la_Zero la_Partial].
  rewrite !rune_of_of_rune, !fmt_rune_ascii by done. by eexists.
Qed.
