(* ===== verification/Exec.v ===== *)
(** The data reported by the host tools and the command executor
    (internal/controllers/vgmanager/exec/exec.go; the report types of lvm/lvm.go and lsblk/lsblk.go).

    [execE] is the Go interface [Executor]. [CommandExecutor] implements it over
    [procE], the operations on operating-system processes. *)

From S2P Require Import Prelude GoStd Effects.
From Stdlib Require Import Ascii.

(** * Reports *)

Record PhysicalVolume := mkPhysicalVolume {
  PvName : string; pv_UUID : string; pv_VgName : string; PvFmt : string; PvAttr : string;
  PvSize : string; PvFree : string; PvMissing : string; DevSize : string;
}.

(** [PhysicalVolume{PvName: name}] *)
Definition pv_named (name : string) : PhysicalVolume :=
  mkPhysicalVolume name "" "" "" "" "" "" "" "".

Record VGReportItem := mkVGReportItem { vgr_Name : string; vgr_VgSize : string; vgr_Tags : string }.
Record VGReport := mkVGReport { vgr_Report : list (list VGReportItem) }.
Record PVReport := mkPVReport { pvr_Report : list (list PhysicalVolume) }.

Record LogicalVolume := mkLogicalVolume {
  lv_Name : string; lv_VgName : string; lv_PoolName : string; lv_LvAttr : string; lv_LvSize : string;
  lv_MetadataPercent : string; lv_ChunkSize : string; lv_MetadataSize : string;
  lv_RAIDSyncPercent : string; lv_LVHealthStatus : string; lv_LVLayout : string; lv_RAIDSyncAction : string;
}.
Record LVReportItem := mkLVReportItem { lri_Lv : list LogicalVolume }.
Record LVReport := mkLVReport { lvr_Report : list LVReportItem }.

(** lsblk.BlockDevice *)
Inductive BlockDevice : Type := mkBlockDevice {
  bd_Name : string; bd_KName : string; bd_Type : string; bd_Model : string; bd_Vendor : string;
  bd_State : string; bd_FSType : string; bd_Size : string; bd_Children : list BlockDevice;
  bd_ReadOnly : bool; bd_Serial : string; bd_PartLabel : string;
}.

(** The targets the source decodes command output into. *)
Inductive ReportKind := VGReportKind | PVReportKind | LVReportKind | LsblkKind | LosetupKind.
Definition ReportOf (k : ReportKind) : Type :=
  match k with
  | VGReportKind => VGReport
  | PVReportKind => PVReport
  | LVReportKind => LVReport
  | LsblkKind => gmap string (list BlockDevice)
  | LosetupKind => gmap string (list string)
  end.

(** * Executor *)

Inductive execE : Type -> Type :=
| RunCommandAsHost (command : string) (arg : list string) : execE (option error)
| CombinedOutputCommandAsHost (command : string) (arg : list string) : execE (string * option error)
| RunCommandAsHostInto (k : ReportKind) (command : string) (arg : list string) : execE (result error (ReportOf k)).

(** The failure of [cmd.Wait]: an exit status, or another error. *)
Inductive WaitError := ExitStatus (code : Z) (msg : string) | WaitFailed (msg : string).

Inductive procE : Type -> Type :=
| StdoutPipe : procE (option error)
| StderrPipe : procE (option error)
| Start (path : string) (arg : list string) : procE (option error)
| CloseStdout : procE (option error)
| CloseStderr : procE (option error)
| ScanStdout : procE (option error)
| DecodeStdout (k : ReportKind) : procE (result error (ReportOf k))
| ReadAllStderr : procE (result error string)
| Wait : procE (option WaitError)
| CombinedOutput (path : string) (arg : list string) : procE (string * option error).

Definition nsEnterPath := "/usr/bin/nsenter".
Definition nsEnterFlags : list string := ["-m"; "-u"; "-i"; "-n"; "-p"; "-t"; "1"].

Definition WrapCommandWithNSenter (command : string) (arg : list string) : string * list string :=
  (nsEnterPath, nsEnterFlags ++ [command] ++ arg).

(** [bytes.TrimSpace] on ASCII white space. *)
Definition is_space (c : ascii) : bool :=
  let n := N_of_ascii c in ((9 <=? n) && (n <=? 13) || (n =? 32))%N.
Fixpoint TrimLeft (s : string) : string :=
  match s with String c s' => if is_space c then TrimLeft s' else s | "" => "" end.
Fixpoint TrimRight (s : string) : string :=
  match s with
  | "" => ""
  | String c s => match TrimRight s with "" => if is_space c then "" else String c "" | s => String c s end
  end.
Definition TrimSpace (s : string) : string := TrimRight (TrimLeft s).

Definition WaitError_Error (e : WaitError) : string :=
  match e with ExitStatus _ m | WaitFailed m => m end.

(** [internalError.ExitCode] *)
Definition ExitCode (e : WaitError) : Z := match e with ExitStatus c _ => c | WaitFailed _ => -1 end.

(** [&internalError{err, stderr}] with its [Error] text. *)
Definition internalError (e : WaitError) (stderr : string) : error :=
  EExit (ExitCode e)
    (if String.eqb stderr "" then WaitError_Error e
     else WaitError_Error e +:+ ": " +:+ TrimSpace stderr).

(** [errors.Join] of nil-able errors. *)
Definition errors_Join_opt (errs : list (option error)) : option error :=
  match omap id errs with
  | [] => None
  | es => Some (errors_Join es)
  end.

(** [pipeClosingReadCloser.Close] *)
Definition Close : prog procE (option error) :=
  try stderr := call ReadAllStderr catch err => Ret (Some err) in
  guard call CloseStderr catch err => Ret (Some err) in
  w <- call Wait;;
  match w with
  | Some err => Ret (Some (internalError err (TrimSpace stderr)))
  | None => Ret None
  end.

Definition runCommandWithOutput (path : string) (arg : list string) : prog procE (option error) :=
  guard call StdoutPipe catch err => Ret (Some err) in
  guard call StderrPipe catch err => (call CloseStdout;; Ret (Some err)) in
  guard call (Start path arg) catch err => (call CloseStdout;; call CloseStderr;; Ret (Some err)) in
  Ret None.

Definition StartCommandWithOutputAsHost (command : string) (arg : list string) : prog procE (option error) :=
  let '(command, arg) := WrapCommandWithNSenter command arg in
  runCommandWithOutput command arg.

(** The nil target: the output is logged. *)
Definition CE_RunCommandAsHost (command : string) (arg : list string) : prog procE (option error) :=
  guard StartCommandWithOutputAsHost command arg
    catch err => Ret (Some (EFmt ("failed to execute command: " +:+ Error err) [])) in
  err <- call ScanStdout;;
  closeErr <- Close;;
  Ret (errors_Join_opt [closeErr; err]).

Definition CE_RunCommandAsHostInto (k : ReportKind) (command : string) (arg : list string)
  : prog procE (result error (ReportOf k)) :=
  guard StartCommandWithOutputAsHost command arg
    catch err => Ret (Err (EFmt ("failed to execute command: " +:+ Error err) [])) in
  r <- call (DecodeStdout k);;
  closeErr <- Close;;
  Ret match r, closeErr with
      | Ok v, None => Ok v
      | Ok _, Some e => Err (errors_Join [e])
      | Err e, None => Err (errors_Join [e])
      | Err e, Some c => Err (errors_Join [c; e])
      end.

Definition CE_CombinedOutputCommandAsHost (command : string) (arg : list string)
  : prog procE (string * option error) :=
  let '(command, arg) := WrapCommandWithNSenter command arg in
  call (CombinedOutput command arg).

Definition CommandExecutor (X : Type) (e : execE X) : prog procE X :=
  match e with
  | RunCommandAsHost c a => CE_RunCommandAsHost c a
  | CombinedOutputCommandAsHost c a => CE_CombinedOutputCommandAsHost c a
  | RunCommandAsHostInto k c a => CE_RunCommandAsHostInto k c a
  end.

(** * Theorems *)

(** A process operation that runs [command] with [arg] in the namespaces of process 1. *)
Definition starts_on_host (command : string) (arg : list string) X (e : procE X) : Prop :=
  match e with
  | Start p a | CombinedOutput p a =>
      p = nsEnterPath /\ a = nsEnterFlags ++ [command] ++ arg
  | _ => True
  end.

Definition command_of {X} (e : execE X) : string * list string :=
  match e with
  | RunCommandAsHost c a | CombinedOutputCommandAsHost c a | RunCommandAsHostInto _ c a => (c, a)
  end.

Lemma Close_emits c a : emits (starts_on_host c a) Close.
Proof. unfold Close. emits_auto. Qed.
#[export] Hint Resolve Close_emits : lvms.

Lemma Start_emits c a : emits (starts_on_host c a) (StartCommandWithOutputAsHost c a).
Proof. unfold StartCommandWithOutputAsHost, WrapCommandWithNSenter, runCommandWithOutput. emits_auto; done. Qed.
#[export] Hint Resolve Start_emits : lvms.

(** The exit codes of the failed [Wait] calls of a trace. *)
Definition wait_code (v : ev procE) : option Z :=
  match v with
  | @Ev _ X e x =>
      match e in procE X return X -> option Z with
      | Wait => fun w => ExitCode <$> w
      | _ => fun _ => None
      end x
  end.
Definition wait_codes (tr : list (ev procE)) : list Z := omap wait_code tr.

(** [err] reports the failure of the process, if it failed. *)
Definition reports_exit (err : option error) (tr : list (ev procE)) : Prop :=
  forall code, code ∈ wait_codes tr -> exists e, err = Some e /\ AsExecError e = Some code.

(** Reading or closing the error output failed. *)
Definition stderr_lost (tr : list (ev procE)) : Prop :=
  (exists e, Ev ReadAllStderr (Err e) ∈ tr) \/ (exists e, Ev CloseStderr (Some e) ∈ tr).

(** The end of a process: what [Wait] said is reported, success only if it said so, and it is
    asked unless the error output was lost, which is reported as well. *)
Definition ended (err : option error) (tr : list (ev procE)) : Prop :=
  reports_exit err tr /\ (err = None -> Ev Wait None ∈ tr) /\
  ((exists w, Ev Wait w ∈ tr) \/ (is_Some err /\ stderr_lost tr)).

Lemma Close_ended : wp Close ended.
Proof.
  unfold ended, reports_exit, stderr_lost. simpl. intros [s|e]; simpl; [|split_and!; [set_solver|done|right; set_solver]].
  intros [e|]; simpl; [split_and!; [set_solver|done|right; set_solver]|].
  intros [w|]; simpl; split_and!.
  - intros code Hc. apply list_elem_of_singleton in Hc as ->. by eexists.
  - done.
  - left. exists (Some w). set_solver.
  - set_solver.
  - set_solver.
  - left. exists None. set_solver.
Qed.

(** The process was started. *)
Definition started_of (v : ev procE) : option unit :=
  match v with
  | @Ev _ X e x =>
      match e in procE X return X -> option unit with
      | Start _ _ => fun err => match err with None => Some tt | Some _ => None end
      | _ => fun _ => None
      end x
  end.

Lemma Start_outcome c a : wp (StartCommandWithOutputAsHost c a) (fun err tr =>
  wait_codes tr = [] /\ (is_Some err -> omap started_of tr = [])).
Proof.
  unfold StartCommandWithOutputAsHost, WrapCommandWithNSenter, runCommandWithOutput. simpl.
  intros [e|]; simpl; [done|]. intros [e|]; simpl; [by intros|]. intros [e|]; simpl; [by intros|].
  split; [done|]. by intros [? [=]].
Qed.

Lemma wait_codes_app t1 t2 : wait_codes (t1 ++ t2) = wait_codes t1 ++ wait_codes t2.
Proof. unfold wait_codes. apply omap_app. Qed.

Lemma AsExecError_Join e es c : AsExecError e = Some c -> AsExecError (errors_Join (e :: es)) = Some c.
Proof. simpl. by intros ->. Qed.

(** The outcome of a command: if the process was started, its end; otherwise a failure. *)
Definition outcome (err : option error) (tr : list (ev procE)) : Prop :=
  reports_exit err tr /\ (err = None -> Ev Wait None ∈ tr) /\
  (omap started_of tr <> [] -> (exists w, Ev Wait w ∈ tr) \/ (is_Some err /\ stderr_lost tr)).

(** A command that reads the output of the process with one call in between. *)
Lemma command_outcome {X A} (read : procE X) (other : X -> option error) (result : X -> option error -> A)
    (failure : A -> option error) c a fail :
  (forall e, is_Some (failure (fail e))) -> (forall x, wait_code (Ev read x) = None) ->
  (forall x closeErr, failure (result x closeErr) = errors_Join_opt [closeErr; other x]) ->
  wp (guard StartCommandWithOutputAsHost c a catch err => Ret (fail err) in
      x <- call read;;
      closeErr <- Close;;
      Ret (result x closeErr)) (fun r tr => outcome (failure r) tr).
Proof.
  intros Hfail Hwait Hres. apply wp_bind. eapply wp_mono; [apply Start_outcome|]. intros [e|] tr0 [H0 Hst].
  { cbn [wp]. rewrite app_nil_r. unfold outcome, reports_exit. rewrite H0, (Hst ltac:(done)). destruct (Hfail e) as [e' ->].
    split_and!; [set_solver|done|done]. }
  apply wp_call. intros x. apply wp_bind. eapply wp_mono; [apply Close_ended|]. intros closeErr tr1 (Hrep & Hok & Hend).
  cbn [wp]. rewrite app_nil_r, Hres. unfold errors_Join_opt, outcome. cbn [omap list_omap id].
  split_and!.
  - intros code. rewrite wait_codes_app, H0. unfold wait_codes. rewrite omap_skip by apply Hwait.
    intros (e & -> & He)%Hrep. cbn. destruct (other x); eexists; (split; [done|]); by apply AsExecError_Join.
  - intros Hnone. destruct closeErr; [by destruct (other x)|]. specialize (Hok eq_refl). set_solver.
  - intros _. destruct Hend as [[w Hw]|[[e ->] [[e' He']|[e' He']]]]; [left; exists w; set_solver| |];
      (right; split; [by destruct (other x); eexists|]); [left|right]; exists e'; set_solver.
Qed.

