(* ===== verification/Lvm.v ===== *)
(** LVM on the host (internal/controllers/vgmanager/lvm/lvm.go).

    [lvmE] is the Go interface [LVM]; [HostLVM] implements it with commands run
    through the executor. *)

From S2P Require Import Prelude GoStd Effects Exec.
From Stdlib Require Import Ascii.

Definition ErrVolumeGroupNotFound := ENew "ErrVolumeGroupNotFound" "volume group not found".

Definition vgsCmd := "/usr/sbin/vgs".
Definition pvsCmd := "/usr/sbin/pvs".
Definition lvsCmd := "/usr/sbin/lvs".
Definition vgCreateCmd := "/usr/sbin/vgcreate".
Definition vgChangeCmd := "/usr/sbin/vgchange".
Definition vgExtendCmd := "/usr/sbin/vgextend".
Definition vgReduceCmd := "/usr/sbin/vgreduce".
Definition vgRemoveCmd := "/usr/sbin/vgremove".
Definition pvRemoveCmd := "/usr/sbin/pvremove".
Definition lvCreateCmd := "/usr/sbin/lvcreate".
Definition lvExtendCmd := "/usr/sbin/lvextend".
Definition lvRemoveCmd := "/usr/sbin/lvremove".
Definition lvChangeCmd := "/usr/sbin/lvchange".
Definition lvmDevicesCmd := "/usr/sbin/lvmdevices".
Definition DefaultTag := "@lvms".

Definition DefaultListLVColumns : list string :=
  ["lv_name"; "vg_name"; "pool_lv"; "lv_attr"; "lv_size"; "metadata_percent"; "chunk_size";
   "lv_metadata_size"; "sync_percent"; "lv_health_status"; "lv_layout"; "raid_sync_action"].

Record VolumeGroup := mkVolumeGroup {
  vg_Name : string; VgSize : string; vg_PVs : list PhysicalVolume; vg_Tags : list string;
}.

Definition IsMissingDevices (vg : VolumeGroup) : bool :=
  existsb (fun pv => negb (String.eqb (PvMissing pv) "")) (vg_PVs vg).

(** * The LVM interface *)

Inductive lvmE : Type -> Type :=
| CreateVG (vg : VolumeGroup) (isWiped : bool) : lvmE (option error)
| ExtendVG (vg : VolumeGroup) (pvs : list string) : lvmE (result error VolumeGroup)
| AddTagToVG (vgName : string) : lvmE (option error)
| DeleteVG (vg : VolumeGroup) : lvmE (option error)
| GetVG (name : string) : lvmE (result error VolumeGroup)
| ReduceVG (vgName device : string) : lvmE (option error)
| ListPVs (vgName : string) : lvmE (result error (list PhysicalVolume))
| RemovePV (devicePath : string) : lvmE (option error)
| ListVGs (tagged : bool) : lvmE (result error (list VolumeGroup))
| ListLVsByName (vgName : string) : lvmE (result error (list string))
| ListLVs (vgName : string) : lvmE (result error LVReport)
| LVExists (lvName vgName : string) : lvmE (result error bool)
| CreateLV (lvName vgName : string) (sizePercent chunkSizeBytes metadataSizeBytes : Z) : lvmE (option error)
| ExtendLV (lvName vgName : string) (sizePercent : Z) : lvmE (option error)
| ExtendThinPoolMetadata (lvName vgName : string) (metadataSizeBytes : Z) : lvmE (option error)
| ActivateLV (lvName vgName : string) : lvmE (option error)
| DeleteLV (lvName vgName : string) : lvmE (option error).

(** * HostLVM *)

Module HostLVM.

Definition failf (msg : string) : option error := Some (EFmt msg []).

Definition CreateVG (vg : VolumeGroup) (isWiped : bool) : prog execE (option error) :=
  if String.eqb (vg_Name vg) "" then Ret (failf "failed to create volume group: volume group name is empty")
  else if (length (vg_PVs vg) =? 0)%nat
  then Ret (failf "failed to create volume group: physical volume list is empty")
  else
    let args := [vg_Name vg; "--addtag"; DefaultTag] in
    let args := if isWiped then args ++ ["-y"] else args in
    let args := args ++ map PvName (vg_PVs vg) in
    guard call (RunCommandAsHost vgCreateCmd args)
      catch err => Ret (failf ("failed to create volume group " +:+ quote (vg_Name vg) +:+ ". " +:+ Error err)) in
    Ret None.

Definition ExtendVG (vg : VolumeGroup) (pvs : list string) : prog execE (result error VolumeGroup) :=
  if String.eqb (vg_Name vg) ""
  then Ret (Err (EFmt "failed to extend volume group: volume group name is empty" []))
  else if (length pvs =? 0)%nat
  then Ret (Err (EFmt "failed to extend volume group: physical volume list is empty" []))
  else
    guard call (RunCommandAsHost vgExtendCmd (vg_Name vg :: pvs))
      catch err => Ret (Err (EFmt ("failed to extend volume group " +:+ quote (vg_Name vg) +:+ ". " +:+ Error err) [])) in
    Ret (Ok {| vg_Name := vg_Name vg; VgSize := VgSize vg; vg_PVs := vg_PVs vg ++ map pv_named pvs;
               vg_Tags := vg_Tags vg |}).

Definition AddTagToVG (vgName : string) : prog execE (option error) :=
  if String.eqb vgName ""
  then Ret (failf "failed to add tag to the volume group. Volume group name is empty")
  else
    guard call (RunCommandAsHost vgChangeCmd [vgName; "--addtag"; DefaultTag])
      catch err => Ret (failf ("failed to add tag to the volume group " +:+ quote vgName +:+ ". " +:+ Error err)) in
    Ret None.

(** Exit code 5 of [lvmdevices --delpvid]: the device is no longer listed. *)
Definition delpvid (vgName : string) (pv : PhysicalVolume) (_ : unit) : prog execE (unit + option error) :=
  err <- call (RunCommandAsHost lvmDevicesCmd ["--delpvid"; pv_UUID pv]);;
  Ret match err with
      | None => inl tt
      | Some e =>
          if bool_decide (AsExecError e = Some 5%Z) then inl tt
          else inr (Some (EFmt ("failed to delete PV " +:+ pv_UUID pv +:+
                 " from device file for the volume group " +:+ vgName +:+ ": " +:+ Error e) [e]))
      end.

Definition DeleteVG (vg : VolumeGroup) : prog execE (option error) :=
  guard call (RunCommandAsHost vgChangeCmd ["-an"; vg_Name vg])
    catch err => Ret (Some (EFmt ("failed to remove volume group " +:+ quote (vg_Name vg) +:+ ": " +:+ Error err) [err])) in
  guard call (RunCommandAsHost vgRemoveCmd [vg_Name vg])
    catch err => Ret (Some (EFmt ("failed to remove volume group " +:+ quote (vg_Name vg) +:+ ": " +:+ Error err) [err])) in
  guard call (RunCommandAsHost pvRemoveCmd (map PvName (vg_PVs vg)))
    catch err => Ret (Some (EFmt ("failed to remove physical volumes for the volume group " +:+
                        quote (vg_Name vg) +:+ ": " +:+ Error err) [err])) in
  r <- for_each (delpvid (vg_Name vg)) (vg_PVs vg) tt;;
  Ret match r with inl _ => None | inr err => err end.

Definition ListPVs (vgName : string) : prog execE (result error (list PhysicalVolume)) :=
  let args := ["--units"; "b"; "--nosuffix"; "-v"; "--reportformat"; "json"; "-o"; "+pv_missing"] in
  let args := if negb (String.eqb vgName "") then args ++ ["-S"; "vgname=" +:+ vgName] else args in
  try res := call (RunCommandAsHostInto PVReportKind pvsCmd args) catch err => Ret (Err err) in
  Ret (Ok (concat (pvr_Report res))).

(** The inner [break] leaves one report only: the last report that names the
    volume group decides its size. *)
Definition GetVG_scan (name : string) (reports : list (list VGReportItem)) : option VGReportItem :=
  foldl (fun found report =>
           match find_first (fun vg => String.eqb (vgr_Name vg) name) report with
           | Some vg => Some vg
           | None => found
           end) None reports.

Definition GetVG (name : string) : prog execE (result error VolumeGroup) :=
  let args := [DefaultTag; "--units"; "b"; "--nosuffix"; "--reportformat"; "json"] in
  try res := call (RunCommandAsHostInto VGReportKind vgsCmd args)
    catch err => Ret (Err (EFmt ("failed to list volume groups. " +:+ Error err) [])) in
  match GetVG_scan name (vgr_Report res) with
  | None => Ret (Err ErrVolumeGroupNotFound)
  | Some vg =>
      try pvs := ListPVs name
        catch err => Ret (Err (EFmt ("failed to list physical volumes for volume group " +:+ quote name +:+
                            ". " +:+ Error err) [])) in
      Ret (Ok {| vg_Name := vgr_Name vg; VgSize := vgr_VgSize vg; vg_PVs := pvs; vg_Tags := [] |})
  end.

Definition untaggedVGs (vgs : list VolumeGroup) : list VolumeGroup :=
  List.filter (fun vg => negb (contains_str (vg_Tags vg) DefaultTag)) vgs.

Definition ListVGs (tagged : bool) : prog execE (result error (list VolumeGroup)) :=
  let args := ["-o"; "vg_name,vg_size,vg_tags"; "--units"; "b"; "--nosuffix"; "--reportformat"; "json"] in
  let args := if tagged then args ++ [DefaultTag] else args in
  try res := call (RunCommandAsHostInto VGReportKind vgsCmd args)
    catch err => Ret (Err (EFmt ("failed to list volume groups. " +:+ Error err) [])) in
  try pvs := ListPVs ""
    catch err => Ret (Err (EFmt ("failed to list physical volumes: " +:+ Error err) [err])) in
  let vgList := map (fun vg =>
    {| vg_Name := vgr_Name vg; VgSize := vgr_VgSize vg;
       vg_PVs := List.filter (fun pv => String.eqb (vgr_Name vg) (pv_VgName pv)) pvs;
       vg_Tags := Split (vgr_Tags vg) ","%char |}) (concat (vgr_Report res)) in
  Ret (Ok (if tagged then vgList else untaggedVGs vgList)).

Definition ListLVs (vgName : string) : prog execE (result error LVReport) :=
  let args := ["-S"; "vgname=" +:+ vgName; "--units"; "b"; "--nosuffix"; "--reportformat"; "json"; "-o";
               strings_Join DefaultListLVColumns ","] in
  call (RunCommandAsHostInto LVReportKind lvsCmd args).

Definition ListLVsByName (vgName : string) : prog execE (result error (list string)) :=
  if String.eqb vgName ""
  then Ret (Err (EFmt "failed to list lvs by volume group: volume group name is empty" []))
  else
    try res := ListLVs vgName catch err => Ret (Err err) in
    Ret (Ok (map lv_Name (concat (map lri_Lv (lvr_Report res))))).

Definition LVExists (lvName vgName : string) : prog execE (result error bool) :=
  try lvs := ListLVsByName vgName catch err => Ret (Err err) in
  Ret (Ok (contains_str lvs lvName)).

Definition DeleteLV (lvName vgName : string) : prog execE (option error) :=
  if String.eqb vgName ""
  then Ret (failf "failed to delete logical volume in volume group: volume group name is empty")
  else if String.eqb lvName ""
  then Ret (failf "failed to delete logical volume in volume group: logical volume name is empty")
  else
    let lv := vgName +:+ "/" +:+ lvName in
    guard call (RunCommandAsHost lvChangeCmd ["-an"; lv])
      catch err => Ret (Some (EFmt ("failed to deactivate thin pool " +:+ quote lvName +:+ " in volume group " +:+
                          quote vgName +:+ ". " +:+ Error err) [err])) in
    guard call (RunCommandAsHost lvRemoveCmd [lv])
      catch err => Ret (Some (EFmt ("failed to delete logical volume " +:+ quote lvName +:+ " in volume group " +:+
                          quote vgName +:+ ". " +:+ Error err) [err])) in
    Ret None.

(** The error of a failed lvcreate or lvextend quotes the command line. *)
Definition commandError (what lvName vgName cmd : string) (args : list string) (err : error) : option error :=
  Some (EFmt ("failed to " +:+ what +:+ " " +:+ quote lvName +:+ " in the volume group " +:+ quote vgName +:+
              " using command '" +:+ cmd +:+ " " +:+ strings_Join args " " +:+ "': " +:+ Error err) [err]).

Definition CreateLV (lvName vgName : string) (sizePercent chunkSizeBytes metadataSizeBytes : Z)
  : prog execE (option error) :=
  if String.eqb vgName ""
  then Ret (failf "failed to create logical volume in volume group: volume group name is empty")
  else if String.eqb lvName ""
  then Ret (failf "failed to create logical volume in volume group: logical volume name is empty")
  else if (sizePercent <=? 0)%Z
  then Ret (failf "failed to create logical volume in volume group: size percent should be greater than 0")
  else
    let args := ["-l"; Itoa sizePercent +:+ "%FREE"; "-Z"; "y"; "-T"] in
    let args := if (0 <? chunkSizeBytes)%Z then args ++ ["-c"; Itoa chunkSizeBytes +:+ "b"] else args in
    let args := if (0 <? metadataSizeBytes)%Z
                then args ++ ["--poolmetadatasize"; Itoa metadataSizeBytes +:+ "b"] else args in
    let args := args ++ [vgName +:+ "/" +:+ lvName] in
    guard call (RunCommandAsHost lvCreateCmd args)
      catch err => Ret (commandError "create logical volume" lvName vgName lvCreateCmd args err) in
    Ret None.

Definition ExtendLV (lvName vgName : string) (sizePercent : Z) : prog execE (option error) :=
  if String.eqb vgName ""
  then Ret (failf "failed to extend logical volume in volume group: volume group name is empty")
  else if String.eqb lvName ""
  then Ret (failf "failed to extend logical volume in volume group: logical volume name is empty")
  else if (sizePercent <=? 0)%Z
  then Ret (failf "failed to extend logical volume in volume group: size percent should be greater than 0")
  else
    let args := ["-l"; Itoa sizePercent +:+ "%Vg"; vgName +:+ "/" +:+ lvName] in
    guard call (RunCommandAsHost lvExtendCmd args)
      catch err => Ret (commandError "extend logical volume" lvName vgName lvExtendCmd args err) in
    Ret None.

Definition ExtendThinPoolMetadata (lvName vgName : string) (metadataSizeBytes : Z) : prog execE (option error) :=
  if String.eqb vgName ""
  then Ret (failf "failed to extend logical volume metadata size in volume group: volume group name is empty")
  else if String.eqb lvName ""
  then Ret (failf "failed to extend logical volume metadata size in volume group: logical volume name is empty")
  else if (metadataSizeBytes <=? 0)%Z
  then Ret (failf "failed to extend logical volume metadata size in volume group: size value should be greater than 0")
  else
    let args := ["--poolmetadatasize"; Itoa metadataSizeBytes +:+ "b"; vgName +:+ "/" +:+ lvName] in
    guard call (RunCommandAsHost lvExtendCmd args)
      catch err => Ret (commandError "extend logical volume metadata size" lvName vgName lvExtendCmd args err) in
    Ret None.

Definition ActivateLV (lvName vgName : string) : prog execE (option error) :=
  if String.eqb vgName ""
  then Ret (failf "failed to activate logical volume in volume group: volume group name is empty")
  else if String.eqb lvName ""
  then Ret (failf "failed to activate logical volume in volume group: logical volume name is empty")
  else
    guard call (RunCommandAsHost lvChangeCmd ["-ay"; vgName +:+ "/" +:+ lvName])
      catch err => Ret (Some (EFmt ("failed to activate thin pool " +:+ quote lvName +:+ " in volume group " +:+
                          quote vgName +:+ ". " +:+ Error err) [err])) in
    Ret None.

Definition ReduceVG (vgName device : string) : prog execE (option error) :=
  guard call (RunCommandAsHost vgReduceCmd [vgName; device])
    catch err => Ret (Some (EFmt ("failed to reduce volume group " +:+ vgName +:+ " by removing device " +:+
                        device +:+ ": " +:+ Error err) [err])) in
  Ret None.

Definition RemovePV (devicePath : string) : prog execE (option error) :=
  guard call (RunCommandAsHost pvRemoveCmd [devicePath])
    catch err => Ret (Some (EFmt ("failed to remove PV signature from device " +:+ devicePath +:+ ": " +:+
                        Error err) [err])) in
  Ret None.

(** HostLVM as an implementation of the LVM interface. *)
Definition lvm_handle (X : Type) (e : lvmE X) : prog execE X :=
  match e with
  | Lvm.CreateVG vg w => CreateVG vg w
  | Lvm.ExtendVG vg pvs => ExtendVG vg pvs
  | Lvm.AddTagToVG n => AddTagToVG n
  | Lvm.DeleteVG vg => DeleteVG vg
  | Lvm.GetVG n => GetVG n
  | Lvm.ReduceVG n d => ReduceVG n d
  | Lvm.ListPVs n => ListPVs n
  | Lvm.RemovePV d => RemovePV d
  | Lvm.ListVGs t => ListVGs t
  | Lvm.ListLVsByName n => ListLVsByName n
  | Lvm.ListLVs n => ListLVs n
  | Lvm.LVExists l v => LVExists l v
  | Lvm.CreateLV l v s c m => CreateLV l v s c m
  | Lvm.ExtendLV l v s => ExtendLV l v s
  | Lvm.ExtendThinPoolMetadata l v m => ExtendThinPoolMetadata l v m
  | Lvm.ActivateLV l v => ActivateLV l v
  | Lvm.DeleteLV l v => DeleteLV l v
  end.

End HostLVM.

(** * Theorems *)

(** The commands each operation of the interface may run. *)
Definition lvm_commands {X} (e : lvmE X) : list string :=
  match e with
  | CreateVG _ _ => [vgCreateCmd]
  | ExtendVG _ _ => [vgExtendCmd]
  | AddTagToVG _ => [vgChangeCmd]
  | DeleteVG _ => [vgChangeCmd; vgRemoveCmd; pvRemoveCmd; lvmDevicesCmd]
  | GetVG _ | ListVGs _ => [vgsCmd; pvsCmd]
  | ReduceVG _ _ => [vgReduceCmd]
  | ListPVs _ => [pvsCmd]
  | RemovePV _ => [pvRemoveCmd]
  | ListLVsByName _ | ListLVs _ | LVExists _ _ => [lvsCmd]
  | CreateLV _ _ _ _ _ => [lvCreateCmd]
  | ExtendLV _ _ _ | ExtendThinPoolMetadata _ _ _ => [lvExtendCmd]
  | ActivateLV _ _ => [lvChangeCmd]
  | DeleteLV _ _ => [lvChangeCmd; lvRemoveCmd]
  end.

Definition runs_one_of (cmds : list string) X (e : execE X) : Prop := (command_of e).1 ∈ cmds.

Ltac cmd_in := unfold runs_one_of; simpl; set_solver.

Lemma HostLVM_commands X (e : lvmE X) : emits (runs_one_of (lvm_commands e)) (HostLVM.lvm_handle X e).
Proof.
  destruct e; cbn [HostLVM.lvm_handle lvm_commands];
    unfold HostLVM.CreateVG, HostLVM.ExtendVG, HostLVM.AddTagToVG, HostLVM.DeleteVG, HostLVM.delpvid,
      HostLVM.GetVG, HostLVM.ListVGs, HostLVM.ReduceVG, HostLVM.ListPVs, HostLVM.RemovePV, HostLVM.LVExists,
      HostLVM.ListLVsByName, HostLVM.ListLVs, HostLVM.CreateLV, HostLVM.ExtendLV,
      HostLVM.ExtendThinPoolMetadata, HostLVM.ActivateLV, HostLVM.DeleteLV;
    cbv zeta; emits_auto; cmd_in.
Qed.
#[export] Hint Resolve HostLVM_commands : lvms.

(** A successful call. *)
Abbreviation ran c a := (Ev (RunCommandAsHost c a) None).

(** The answer that lets DeleteVG go on to the next physical volume. *)
Definition delpvid_done (pv : PhysicalVolume) (v : ev execE) : Prop :=
  exists o, v = Ev (RunCommandAsHost lvmDevicesCmd ["--delpvid"; pv_UUID pv]) o /\
            (o = None \/ exists e, o = Some e /\ AsExecError e = Some 5%Z).

(** The commands of a complete removal of a volume group, in order. *)
Definition removal_trace (vg : VolumeGroup) (tr : list (ev execE)) : Prop :=
  exists dels,
    tr = [ran vgChangeCmd ["-an"; vg_Name vg]; ran vgRemoveCmd [vg_Name vg];
          ran pvRemoveCmd (map PvName (vg_PVs vg))] ++ dels /\
    Forall2 delpvid_done (vg_PVs vg) dels.

Lemma delpvid_loop name pvs :
  wp (for_each (HostLVM.delpvid name) pvs tt) (fun r tr =>
    match r with
    | inl _ => Forall2 delpvid_done pvs tr
    | inr err => err <> None
    end).
Proof.
  induction pvs as [|pv pvs IH]; simpl; [constructor|].
  intros o. destruct o as [e|]; simpl.
  - case_bool_decide as H5; simpl; [|done].
    eapply wp_mono; [apply IH|]. intros [u|err] tr Htr; [|done].
    constructor; [|done]. exists (Some e). eauto.
  - eapply wp_mono; [apply IH|]. intros [u|err] tr Htr; [|done].
    constructor; [|done]. exists None. eauto.
Qed.

(** C31: DeleteVG reports success only after it deactivated and removed the volume group,
    removed the signatures of exactly its physical volumes and dropped each of them from the
    devices file, in this order, where only exit code 5 of the last step (no such entry)
    is tolerated. *)
Theorem DeleteVG_complete vg :
  wp (HostLVM.DeleteVG vg) (fun err tr => err = None -> removal_trace vg tr).
Proof.
  unfold HostLVM.DeleteVG. do 3 (apply wp_call; intros [e|]; [done|]).
  apply wp_bind. eapply wp_mono; [apply delpvid_loop|]. intros [u|[err|]] tr Htr; simpl; try done.
  intros _. exists tr. rewrite app_nil_r. done.
Qed.

(** Well-formed requests: what the guards of HostLVM let through to a command. *)
Definition lvm_valid {X} (e : lvmE X) : bool :=
  match e with
  | CreateVG vg _ => negb (String.eqb (vg_Name vg) "") && negb (length (vg_PVs vg) =? 0)%nat
  | ExtendVG vg pvs => negb (String.eqb (vg_Name vg) "") && negb (length pvs =? 0)%nat
  | AddTagToVG n | ListLVsByName n => negb (String.eqb n "")
  | LVExists _ v => negb (String.eqb v "")
  | CreateLV l v s _ _ | ExtendLV l v s =>
      negb (String.eqb v "") && negb (String.eqb l "") && (0 <? s)%Z
  | ExtendThinPoolMetadata l v m => negb (String.eqb v "") && negb (String.eqb l "") && (0 <? m)%Z
  | ActivateLV l v | DeleteLV l v => negb (String.eqb v "") && negb (String.eqb l "")
  | _ => true
  end.

(** The error part of an answer. *)
Definition answer_fails {X} (e : lvmE X) : X -> bool :=
  match e in lvmE X return X -> bool with
  | CreateVG _ _ | AddTagToVG _ | DeleteVG _ | ReduceVG _ _ | RemovePV _ | CreateLV _ _ _ _ _
  | ExtendLV _ _ _ | ExtendThinPoolMetadata _ _ _ | ActivateLV _ _ | DeleteLV _ _ =>
      fun x => match x with Some _ => true | None => false end
  | ExtendVG _ _ | GetVG _ => fun x => negb (is_Ok x)
  | ListPVs _ => fun x => negb (is_Ok x)
  | ListVGs _ => fun x => negb (is_Ok x)
  | ListLVsByName _ => fun x => negb (is_Ok x)
  | ListLVs _ => fun x => negb (is_Ok x)
  | LVExists _ _ => fun x => negb (is_Ok x)
  end.

(** An ill-formed request (an empty volume group or logical volume name, no devices, a
    size that is not positive) fails without running any command. *)
Theorem HostLVM_guards X (e : lvmE X) :
  lvm_valid e = false -> exists x, HostLVM.lvm_handle X e = Ret x /\ answer_fails e x = true.
Proof.
  destruct e; cbn [lvm_valid]; intros H; try done; cbn [HostLVM.lvm_handle answer_fails];
    unfold HostLVM.CreateVG, HostLVM.ExtendVG, HostLVM.AddTagToVG, HostLVM.ListLVsByName, HostLVM.LVExists,
      HostLVM.CreateLV, HostLVM.ExtendLV, HostLVM.ExtendThinPoolMetadata, HostLVM.ActivateLV, HostLVM.DeleteLV,
      HostLVM.ListLVsByName;
    repeat (rewrite andb_false_iff in H; destruct H as [H|H]); bools; subst; simpl;
    rewrite ?H; repeat case_match; try (eexists; split; reflexivity); exfalso; try done; try (rewrite Z.ltb_ge in H; rewrite Z.leb_gt in *; lia);
    try (destruct (vg_Name vg); done).
Qed.

Lemma HostLVM_guards_witness :
  lvm_valid (DeleteLV "" "vg1") = false /\
  exists x, HostLVM.lvm_handle _ (DeleteLV "" "vg1") = Ret x /\ answer_fails (DeleteLV "" "vg1") x = true.
Proof. split; [reflexivity|]. apply (HostLVM_guards _ (DeleteLV "" "vg1")). reflexivity. Defined.
