(* ===== verification/HostTools.v ===== *)
(** The other host tools of vgmanager: lsblk and losetup (lsblk/lsblk.go), dmsetup
    (dmsetup/dmsetup.go) and wipefs (wipefs/wipefs.go), each an interface of events
    and its implementation over the executor. *)

From S2P Require Import Prelude GoStd Effects Exec.

(** * Block devices *)

Definition HasChildren (b : BlockDevice) : bool := (0 <? length (bd_Children b))%nat.

(** Induction over the tree of a block device. *)
Section BlockDeviceInd.
Variable P : BlockDevice -> Prop.
Hypothesis step : forall b, Forall P (bd_Children b) -> P b.

Fixpoint BlockDevice_tree_ind (b : BlockDevice) : P b :=
  step b ((fix go (bs : list BlockDevice) : Forall P bs :=
             match bs with
             | [] => Forall_nil_2 P
             | b :: bs => Forall_cons_2 P b bs (BlockDevice_tree_ind b) (go bs)
             end) (bd_Children b)).
End BlockDeviceInd.

(** [dev] is a device of the tree of [b]. *)
Inductive in_tree (dev : BlockDevice) : BlockDevice -> Prop :=
| in_tree_here : in_tree dev dev
| in_tree_child b c : c ∈ bd_Children b -> in_tree dev c -> in_tree dev b.

Definition in_forest (dev : BlockDevice) (bs : list BlockDevice) : Prop := exists b, b ∈ bs /\ in_tree dev b.

(** * lsblk *)

Definition DefaultLosetup := "/usr/sbin/losetup".
Definition DefaultLsblk := "/usr/bin/lsblk".
Definition pluginString := "plugins/kubernetes.io".
Definition DeviceTypeLoop := "loop".
Definition DeviceTypeROM := "rom".
Definition DeviceTypeLVM := "lvm".
Definition LSBLK_COLUMNS := "NAME,ROTA,TYPE,SIZE,MODEL,VENDOR,RO,STATE,KNAME,SERIAL,PARTLABEL,FSTYPE".

(** The only field of BlockDeviceInfo is IsUsableLoopDev. *)
Abbreviation BlockDeviceInfos_t := (gmap string bool).

Inductive lsblkE : Type -> Type :=
| ListBlockDevices : lsblkE (result error (list BlockDevice))
| BlockDeviceInfos (bs : list BlockDevice) : lsblkE (result error BlockDeviceInfos_t).

Fixpoint FlattenedDevice (b : BlockDevice) (flattened : gmap string BlockDevice) : gmap string BlockDevice :=
  let flattened := <[bd_KName b := b]> flattened in
  if HasChildren b then
    foldl (fun acc c => FlattenedDevice c acc) ∅ (bd_Children b) ∪ flattened
  else flattened.

Definition FlattenedBlockDevices (bs : list BlockDevice) : gmap string BlockDevice :=
  foldl (fun acc b => FlattenedDevice b acc) ∅ bs.

Module HostLSBLK.
Section HostLSBLK.
Context `{GoRuntime}.
Variables lsblk losetup : string.

Definition ListBlockDevices : prog execE (result error (list BlockDevice)) :=
  let args := ["--json"; "--paths"; "-o"; LSBLK_COLUMNS] in
  try blockDeviceMap := call (RunCommandAsHostInto LsblkKind lsblk args) catch err => Ret (Err err) in
  Ret (Ok (default [] ((blockDeviceMap : gmap string (list BlockDevice)) !! "blockdevices"))).

(** The value is used by the caller even when the error is not nil. *)
Definition IsUsableLoopDev (b : BlockDevice) : prog execE (bool * option error) :=
  let args := [bd_Name b; "-O"; "BACK-FILE"; "--json"] in
  try loopDeviceMap := call (RunCommandAsHostInto LosetupKind losetup args) catch err => Ret (true, Some err) in
  let backFiles := default [] ((loopDeviceMap : gmap string (list string)) !! "loopdevices") in
  if existsb (fun f => Contains f pluginString) backFiles then Ret (false, None) else Ret (true, None).

Definition loopInfo (dev : BlockDevice) (infos : BlockDeviceInfos_t) : prog execE BlockDeviceInfos_t :=
  if String.eqb (bd_Type dev) "loop" then
    r <- IsUsableLoopDev dev;;
    Ret (<[bd_KName dev := r.1]> infos)
  else Ret infos.

Definition BlockDeviceInfos (bs : list BlockDevice) : prog execE (result error BlockDeviceInfos_t) :=
  let flattenedMap := FlattenedBlockDevices bs in
  infos <- fold_prog (fun kv => loopInfo kv.2) (map_range (map_to_list flattenedMap)) ∅;;
  Ret (Ok infos).

Definition lsblk_handle (X : Type) (e : lsblkE X) : prog execE X :=
  match e with
  | HostTools.ListBlockDevices => ListBlockDevices
  | HostTools.BlockDeviceInfos bs => BlockDeviceInfos bs
  end.
End HostLSBLK.
End HostLSBLK.

(** * dmsetup *)

Definition DefaultDMSetup := "/usr/sbin/dmsetup".
Definition ErrReferenceNotFound := ENew "ErrReferenceNotFound" "device-mapper reference not found".

Inductive dmsetupE : Type -> Type :=
| Remove (deviceName : string) : dmsetupE (option error).

Definition HostDmsetup_Remove (dmsetup deviceName : string) : prog execE (option error) :=
  if (String.length deviceName =? 0)%nat
  then Ret (Some (EFmt "failed to remove device-mapper reference. Device name is empty" []))
  else
    ' (output, err) <- call (CombinedOutputCommandAsHost dmsetup ["remove"; "--force"; deviceName]);;
    match err with
    | None => Ret None
    | Some err =>
        if Contains output "not found" then Ret (Some ErrReferenceNotFound)
        else Ret (Some (EFmt ("failed to remove the reference from device-mapper " +:+ quote deviceName +:+ ": " +:+
                          Error err) [err]))
    end.

(** * wipefs *)

Definition DefaultWipefs := "/usr/sbin/wipefs".

Inductive wipefsE : Type -> Type :=
| Wipe (deviceName : string) : wipefsE (option error).

Definition HostWipefs_Wipe (wipefs deviceName : string) : prog execE (option error) :=
  if (String.length deviceName =? 0)%nat
  then Ret (Some (EFmt "failed to wipe the device. Device name is empty" []))
  else
    ' (output, err) <- call (CombinedOutputCommandAsHost wipefs ["--all"; "--force"; deviceName]);;
    match err with
    | Some err => Ret (Some (EFmt ("failed to wipe the device " +:+ quote deviceName +:+ ". " +:+
                                   Error (errors_Join [err; EFmt output []])) []))
    | None => Ret None
    end.

(** * Lemmas *)

Lemma HasChildren_false b : HasChildren b = false -> bd_Children b = [].
Proof. unfold HasChildren. rewrite Nat.ltb_ge. intros H. apply length_zero_iff_nil. lia. Qed.

Lemma in_forest_cons dev b bs : in_forest dev (b :: bs) <-> in_tree dev b \/ in_forest dev bs.
Proof.
  unfold in_forest. split.
  - intros (x & Hx & Hd). apply elem_of_cons in Hx as [->|Hx]; eauto.
  - intros [Hd|(x & Hx & Hd)]; [exists b|exists x]; set_solver.
Qed.

Lemma in_tree_inv dev b : in_tree dev b <-> dev = b \/ in_forest dev (bd_Children b).
Proof.
  split.
  - inversion 1; subst; [by left|right]. eexists. eauto.
  - intros [->|(c & Hc & Hd)]; [constructor|by econstructor].
Qed.

Lemma HostLSBLK_commands `{GoRuntime} lsblk losetup X (e : lsblkE X) :
  emits (fun X (e : execE X) => (command_of e).1 ∈ [lsblk; losetup]) (HostLSBLK.lsblk_handle lsblk losetup X e).
Proof.
  destruct e; cbn [HostLSBLK.lsblk_handle];
    unfold HostLSBLK.ListBlockDevices, HostLSBLK.BlockDeviceInfos, HostLSBLK.loopInfo, HostLSBLK.IsUsableLoopDev;
    cbv zeta; emits_auto; simpl; set_solver.
Qed.

(** * Flattening *)

(** Every entry of [m] is a device satisfying [Q], recorded under its kernel name. *)
Definition indexed (Q : BlockDevice -> Prop) (m : gmap string BlockDevice) : Prop :=
  forall k d, m !! k = Some d -> bd_KName d = k /\ Q d.

(** Every device satisfying [Q] has an entry in [m] under its kernel name. *)
Definition covers (Q : BlockDevice -> Prop) (m : gmap string BlockDevice) : Prop :=
  forall d, Q d -> is_Some (m !! bd_KName d).

Lemma indexed_mono (Q Q' : BlockDevice -> Prop) m : indexed Q m -> (forall d, Q d -> Q' d) -> indexed Q' m.
Proof. intros H HQ k d Hd. destruct (H k d Hd). auto. Qed.

Lemma indexed_empty Q : indexed Q ∅.
Proof. intros k d. by rewrite lookup_empty. Qed.

Lemma covers_False m : covers (fun _ => False) m.
Proof. by intros d []. Qed.

Lemma flatten_fold_spec (bs : list BlockDevice) :
  Forall (fun b => forall Q m, indexed Q m -> covers Q m ->
    indexed (fun d => Q d \/ in_tree d b) (FlattenedDevice b m) /\
    covers (fun d => Q d \/ in_tree d b) (FlattenedDevice b m)) bs ->
  forall Q m, indexed Q m -> covers Q m ->
    indexed (fun d => Q d \/ in_forest d bs) (foldl (fun acc b => FlattenedDevice b acc) m bs) /\
    covers (fun d => Q d \/ in_forest d bs) (foldl (fun acc b => FlattenedDevice b acc) m bs).
Proof.
  induction 1 as [|b bs Hb _ IH]; simpl; intros Q m Hi Hc.
  - split; [eapply indexed_mono; [exact Hi|]; auto|].
    intros d [Hd|(x & Hx & _)]; [by apply Hc|set_solver].
  - destruct (Hb Q m Hi Hc) as [Hi1 Hc1]. destruct (IH _ _ Hi1 Hc1) as [Hi2 Hc2]. split.
    + eapply indexed_mono; [exact Hi2|]. intros d. rewrite in_forest_cons. tauto.
    + intros d. rewrite in_forest_cons. intros Hd. apply Hc2. tauto.
Qed.

Lemma insert_spec (Q : BlockDevice -> Prop) m b :
  indexed Q m -> covers Q m ->
  indexed (fun d => Q d \/ d = b) (<[bd_KName b := b]> m) /\
  covers (fun d => Q d \/ d = b) (<[bd_KName b := b]> m).
Proof.
  intros Hi Hc. split.
  - intros k d. rewrite lookup_insert_Some. intros [[<- <-]|[_ Hd]]; [auto|].
    destruct (Hi k d Hd). auto.
  - intros d Hd. destruct (decide (bd_KName d = bd_KName b)) as [->|Hne].
    + rewrite lookup_insert_eq. by eexists.
    + rewrite lookup_insert_ne by done. destruct Hd as [Hd| ->]; [by apply Hc|done].
Qed.

Lemma union_spec (Q1 Q2 : BlockDevice -> Prop) m1 m2 :
  indexed Q1 m1 -> covers Q1 m1 -> indexed Q2 m2 -> covers Q2 m2 ->
  indexed (fun d => Q1 d \/ Q2 d) (m1 ∪ m2) /\ covers (fun d => Q1 d \/ Q2 d) (m1 ∪ m2).
Proof.
  intros Hi1 Hc1 Hi2 Hc2. split.
  - intros k d Hd. apply lookup_union_Some_raw in Hd as [Hd|[_ Hd]].
    + destruct (Hi1 k d Hd). auto.
    + destruct (Hi2 k d Hd). auto.
  - intros d [Hd|Hd]; apply lookup_union_is_Some; [left; by apply Hc1|right; by apply Hc2].
Qed.

Lemma FlattenedDevice_spec b : forall Q m, indexed Q m -> covers Q m ->
  indexed (fun d => Q d \/ in_tree d b) (FlattenedDevice b m) /\
  covers (fun d => Q d \/ in_tree d b) (FlattenedDevice b m).
Proof.
  induction b as [b IH] using BlockDevice_tree_ind. intros Q m Hi Hc.
  destruct (insert_spec Q m b Hi Hc) as [Hi1 Hc1].
  assert (Heq : FlattenedDevice b m = if HasChildren b then
    foldl (fun acc c => FlattenedDevice c acc) ∅ (bd_Children b) ∪ <[bd_KName b := b]> m
    else <[bd_KName b := b]> m) by (by destruct b).
  rewrite Heq. clear Heq. destruct (HasChildren b) eqn:Hch.
  - destruct (flatten_fold_spec (bd_Children b) IH (fun _ => False) ∅) as [Hi2 Hc2];
      [apply indexed_empty|apply covers_False|].
    destruct (union_spec _ _ _ _ Hi2 Hc2 Hi1 Hc1) as [Hi3 Hc3]. split.
    + eapply indexed_mono; [exact Hi3|]. intros d. rewrite (in_tree_inv d b). tauto.
    + intros d. rewrite (in_tree_inv d b). intros Hd. apply Hc3. tauto.
  - apply HasChildren_false in Hch. split.
    + eapply indexed_mono; [exact Hi1|]. intros d. rewrite (in_tree_inv d b). tauto.
    + intros d. rewrite (in_tree_inv d b), Hch. intros Hd. apply Hc1.
      destruct Hd as [?|[?|(x & Hx & _)]]; [auto|auto|set_solver].
Qed.

Lemma FlattenedBlockDevices_spec bs :
  indexed (fun d => in_forest d bs) (FlattenedBlockDevices bs) /\
  covers (fun d => in_forest d bs) (FlattenedBlockDevices bs).
Proof.
  destruct (flatten_fold_spec bs) with (Q := fun _ : BlockDevice => False) (m := ∅ : gmap string BlockDevice)
    as [Hi Hc]; [|apply indexed_empty|apply covers_False|].
  - apply Forall_forall. intros b _. apply FlattenedDevice_spec.
  - split; [|intros d Hd; apply Hc; auto]. eapply indexed_mono; [exact Hi|]. by intros d [[]|?].
Qed.

(** FlattenedBlockDevices maps the kernel name of every device of the lsblk tree, at any
    depth, to a device of the tree with that kernel name, and contains nothing else. *)
Theorem FlattenedBlockDevices_correct bs :
  (forall k d, FlattenedBlockDevices bs !! k = Some d -> bd_KName d = k /\ in_forest d bs) /\
  (forall d, in_forest d bs -> is_Some (FlattenedBlockDevices bs !! bd_KName d)).
Proof. apply FlattenedBlockDevices_spec. Qed.

Section Infos.
Context `{GoRuntime}.
Variables lsblk losetup : string.

(** A losetup report that shows a back file of a Kubernetes volume. *)
Definition kubernetes_backed (m : gmap string (list string)) : bool :=
  existsb (fun f => Contains f pluginString) (default [] (m !! "loopdevices")).

Definition losetup_call (dev : BlockDevice) : execE (result error (ReportOf LosetupKind)) :=
  RunCommandAsHostInto LosetupKind losetup [bd_Name dev; "-O"; "BACK-FILE"; "--json"].

(** Loop devices of a list of entries. *)
Definition loops (l : list (string * BlockDevice)) (k : string) : Prop :=
  exists kv, kv ∈ l /\ bd_Type kv.2 = "loop" /\ bd_KName kv.2 = k.

Definition marked_by_losetup (l : list (string * BlockDevice)) (k : string) (tr : list (ev execE)) : Prop :=
  exists kv m, kv ∈ l /\ bd_KName kv.2 = k /\ bd_Type kv.2 = "loop" /\
    Ev (losetup_call kv.2) (Ok m) ∈ tr /\ kubernetes_backed m = true.

Lemma loopInfo_fold l infos0 :
  wp (fold_prog (fun kv => HostLSBLK.loopInfo losetup kv.2) l infos0) (fun infos tr =>
    forall k, (is_Some (infos !! k) <-> is_Some (infos0 !! k) \/ loops l k) /\
              (infos !! k = Some false -> infos0 !! k = Some false \/ marked_by_losetup l k tr)).
Proof.
  revert infos0. induction l as [|kv l IH]; intros infos0; simpl.
  { intros k. split; [|auto]. unfold loops. set_solver. }
  unfold HostLSBLK.loopInfo at 1, HostLSBLK.IsUsableLoopDev.
  assert (Hskip : forall k tr v, marked_by_losetup l k tr -> marked_by_losetup (kv :: l) k (v :: tr)).
  { intros k tr v (x & m & ? & ? & ? & ? & ?). exists x, m. set_solver. }
  destruct (String.eqb_spec (bd_Type kv.2) "loop") as [Hl|Hl]; cbn [pbind call wp].
  2:{ eapply wp_mono; [apply IH|]. intros infos tr Hk k. destruct (Hk k) as [Hd Hf]. split.
      - rewrite Hd. unfold loops. set_solver.
      - intros Hff. destruct (Hf Hff) as [?|(x & m & ? & ? & ? & ? & ?)]; [auto|right]. exists x, m. set_solver. }
  assert (Hdom : forall (b : bool) (infos : BlockDeviceInfos_t) k,
    (is_Some (infos !! k) <-> is_Some (<[bd_KName kv.2 := b]> infos0 !! k) \/ loops l k) ->
    (is_Some (infos !! k) <-> is_Some (infos0 !! k) \/ loops (kv :: l) k)).
  { intros b infos k ->. rewrite lookup_insert_is_Some'. unfold loops. set_solver. }
  intros [m|e]; cbn [pbind call wp].
  - destruct (existsb _ _) eqn:Hm; cbn [pbind wp fst]; (eapply wp_mono; [apply IH|]);
      intros infos tr Hk k; destruct (Hk k) as [Hd Hf]; (split; [eapply Hdom, Hd|]); intros Hff;
      (destruct (Hf Hff) as [Hi|Hm']; [|right; by apply Hskip]).
    + apply lookup_insert_Some in Hi as [[<- _]|[_ Hi]]; [right|auto].
      exists kv, m. set_solver.
    + apply lookup_insert_Some in Hi as [[_ [=]]|[_ Hi]]. auto.
  - eapply wp_mono; [apply IH|]. intros infos tr Hk k. destruct (Hk k) as [Hd Hf].
    split; [eapply Hdom, Hd|]. intros Hff. destruct (Hf Hff) as [Hi|Hm']; [|right; by apply Hskip].
    apply lookup_insert_Some in Hi as [[_ [=]]|[_ Hi]]. auto.
Qed.

(** BlockDeviceInfos never fails, reports on exactly the loop devices of the lsblk tree,
    and marks one as unusable only when losetup showed a Kubernetes back file for it. *)
Theorem BlockDeviceInfos_correct bs :
  wp (HostLSBLK.BlockDeviceInfos losetup bs) (fun r tr =>
    exists infos, r = Ok infos /\
      (forall k, is_Some (infos !! k) <->
         exists dev, FlattenedBlockDevices bs !! k = Some dev /\ bd_Type dev = "loop") /\
      (forall k, infos !! k = Some false ->
         exists dev m, FlattenedBlockDevices bs !! k = Some dev /\ Ev (losetup_call dev) (Ok m) ∈ tr /\
                       kubernetes_backed m = true)).
Proof.
  unfold HostLSBLK.BlockDeviceInfos. apply wp_bind. eapply wp_mono; [apply loopInfo_fold|].
  intros infos tr Hk. simpl. exists infos. rewrite app_nil_r.
  pose proof (proj1 (FlattenedBlockDevices_spec bs)) as Hidx.
  assert (Hin : forall kv, kv ∈ map_range (map_to_list (FlattenedBlockDevices bs)) <->
            FlattenedBlockDevices bs !! kv.1 = Some kv.2).
  { intros [k d]. rewrite map_range_elem, elem_of_map_to_list. done. }
  split; [done|]. split; intros k; destruct (Hk k) as [Hd Hf].
  - rewrite Hd, lookup_empty. split.
    + intros [[? [=]]|(kv & Hkv%Hin & Hl & <-)]. exists kv.2.
      destruct (Hidx _ _ Hkv) as [-> _]. done.
    + intros (d & Hdev & Hl). right. exists (k, d). destruct (Hidx _ _ Hdev) as [Hkn _].
      rewrite Hin. done.
  - intros Hff. destruct (Hf Hff) as [Hi|(kv & m & Hkv%Hin & <- & Hl & Htr & Hm)]; [done|].
    exists kv.2, m. destruct (Hidx _ _ Hkv) as [-> _]. done.
Qed.
End Infos.
