(* ===== verification/Resolver.v ===== *)
(** The cached symlink resolver (internal/controllers/symlink-resolver).

    [resolveE] is the resolver as its clients see it; [Resolver] implements it over
    [resolveFnE], the function it was created with (filepath.EvalSymlinks by
    default), remembering successful answers. *)

From S2P Require Import Prelude GoStd Effects.

Inductive resolveE : Type -> Type :=
| Resolve (path : string) : resolveE (result error string).

Inductive resolveFnE : Type -> Type :=
| resolveFn (path : string) : resolveFnE (result error string).

Abbreviation resolver_cache := (gmap string string).

Definition Resolver_Resolve (path : string) (cache : resolver_cache)
  : prog resolveFnE (result error string * resolver_cache) :=
  match cache !! path with
  | Some val => Ret (Ok val, cache)
  | None =>
      try val := call (resolveFn path) catch err => Ret (Err err, cache) in
      Ret (Ok val, <[path := val]> cache)
  end.

Definition Resolver (X : Type) (e : resolveE X) : resolver_cache -> prog resolveFnE (X * resolver_cache) :=
  match e with Resolve path => Resolver_Resolve path end.

(** * Theorems *)

(** The successful answers of the resolve function, and those given to the client. *)
Definition fn_answer (v : ev resolveFnE) : option (string * string) :=
  match v with
  | @Ev _ X e x =>
      match e in resolveFnE X return X -> option (string * string) with
      | resolveFn path => fun r => match r with Ok val => Some (path, val) | Err _ => None end
      end x
  end.
Definition client_answer (v : ev resolveE) : option (string * string) :=
  match v with
  | @Ev _ X e x =>
      match e in resolveE X return X -> option (string * string) with
      | Resolve path => fun r => match r with Ok val => Some (path, val) | Err _ => None end
      end x
  end.

(** What one call does to the cache. *)
Definition resolve_ok (path : string) (cache : resolver_cache) (r : result error string)
    (cache' : resolver_cache) (tr : list (ev resolveFnE)) : Prop :=
  cache ⊆ cache' /\ (forall v, r = Ok v -> cache' !! path = Some v) /\
  NoDup (omap fn_answer tr).*1 /\
  (forall q v, (q, v) ∈ omap fn_answer tr -> cache !! q = None /\ cache' !! q = Some v).

Lemma Resolver_Resolve_ok path cache :
  wp (Resolver_Resolve path cache) (fun r tr => resolve_ok path cache r.1 r.2 tr).
Proof.
  unfold Resolver_Resolve, resolve_ok. destruct (cache !! path) as [v|] eqn:Hc; simpl.
  - split; [done|]. split; [naive_solver|]. split; [constructor|]. set_solver.
  - intros [v|e]; simpl.
    + split; [by apply insert_subseteq|]. split; [intros w [= ->]; by rewrite lookup_insert_eq|].
      split; [apply NoDup_singleton|]. intros q w [= -> ->]%list_elem_of_singleton.
      split; [done|by rewrite lookup_insert_eq].
    + split; [done|]. split; [done|]. split; [constructor|set_solver].
Qed.

(** A run of a client through the resolver: the calls the client made, the calls
    that reached the resolve function, and the caches before and after. *)
Definition consistent_run {A} (p : prog resolveE A) (cache : resolver_cache) (r : A * resolver_cache)
    (tr : list (ev resolveFnE)) : Prop :=
  exists ctr, runs p ctr r.1 /\ cache ⊆ r.2 /\
    (forall q v, (q, v) ∈ omap client_answer ctr -> r.2 !! q = Some v) /\
    NoDup (omap fn_answer tr).*1 /\
    (forall q v, (q, v) ∈ omap fn_answer tr -> cache !! q = None /\ r.2 !! q = Some v).

Lemma Resolver_consistent_gen {A} (p : prog resolveE A) cache :
  wp (interp Resolver p cache) (consistent_run p cache).
Proof.
  revert cache. induction p as [a|X e k IH]; intros cache; simpl.
  { exists []. repeat split; [constructor|done|set_solver|constructor|set_solver|set_solver]. }
  destruct e as [path]. apply wp_bind. eapply wp_mono; [apply Resolver_Resolve_ok|].
  intros [x c1] tr (Hsub & Hx & Hnd & Hfn). eapply wp_mono; [apply IH|]. simpl in *.
  intros [b c2] tr2 (ctr & Hr & Hsub2 & Hcl & Hnd2 & Hfn2). simpl in *.
  exists (Ev (Resolve path) x :: ctr). rewrite omap_app, fmap_app. split; [by constructor|].
  split; [by etrans|]. split; [|split].
  - intros q v Hq. destruct x as [w|e]; [|by apply Hcl]. apply elem_of_cons in Hq as [Hq|Hq]; [|by apply Hcl].
    simplify_eq. eapply lookup_weaken; [|exact Hsub2]. by apply Hx.
  - apply NoDup_app. split; [done|]. split; [|done]. intros q Hq Hq2.
    apply list_elem_of_fmap in Hq as ([? v] & -> & Hq). apply list_elem_of_fmap in Hq2 as ([? w] & ? & Hq2).
    simpl in *. subst. destruct (Hfn _ _ Hq), (Hfn2 _ _ Hq2). congruence.
  - intros q v [Hq|Hq]%elem_of_app.
    + destruct (Hfn _ _ Hq). split; [done|]. by eapply lookup_weaken.
    + destruct (Hfn2 _ _ Hq) as [Hn ?]. split; [|done].
      destruct (cache !! q) eqn:Hc; [|done]. by rewrite (lookup_weaken _ _ _ _ Hc Hsub) in Hn.
Qed.

(** Whatever the file system answers over time, a client of a fresh resolver sees one
    consistent view: all its successful resolutions of a path give the same target, and
    the underlying resolve function succeeds at most once per path. *)
Theorem Resolver_consistent {A} (p : prog resolveE A) :
  wp (interp Resolver p ∅) (fun r tr =>
    (exists ctr, runs p ctr r.1 /\
       forall q v w, (q, v) ∈ omap client_answer ctr -> (q, w) ∈ omap client_answer ctr -> v = w) /\
    NoDup (omap fn_answer tr).*1).
Proof.
  eapply wp_mono; [apply Resolver_consistent_gen|]. intros r tr (ctr & Hr & _ & Hcl & Hnd & _).
  split; [|done]. exists ctr. split; [done|]. intros q v w Hv%Hcl Hw%Hcl. congruence.
Qed.
