(* ===== verification/Lvmd.v ===== *)
(** The lvmd configuration file shared with TopoLVM and its cache
    (internal/controllers/vgmanager/lvmd/lvmd.go).

    [lvmdE] is the Go interface [Configurator]. [FileConfig] implements it on the file,
    [CachedFileConfig] keeps the last configuration in memory in front of it. YAML
    is a third-party codec, a parameter here. *)

From S2P Require Import Prelude GoStd Effects.
From Stdlib Require Import SpecFloat.

(** * Configuration (the fields of the TopoLVM types the source copies) *)

Module lvmd.
Inductive DeviceType := TypeThin | TypeThick | TypeOther (s : string).

Record ThinPoolConfig := mkThinPoolConfig { Name : string; OverprovisionRatio : spec_float }.

Record DeviceClass := mkDeviceClass {
  dc_Name : string; dc_VolumeGroup : string; dc_Default : bool; dc_SpareGB : option N; dc_Stripe : option N;
  dc_StripeSize : string; dc_LVCreateOptions : list string; dc_Type : DeviceType;
  dc_ThinPoolConfig : option ThinPoolConfig;
}.

Record LvcreateOptionClass := mkLvcreateOptionClass { co_Name : string; co_Options : list string }.

Record Config := mkConfig {
  SocketName : string;
  DeviceClasses : list DeviceClass;
  LvcreateOptionClasses : list LvcreateOptionClass;
}.

(** [&Config{}] *)
Definition emptyConfig : Config := mkConfig "" [] [].

End lvmd.

#[export] Instance lvmd_DeviceType_eq_dec : EqDecision lvmd.DeviceType.
Proof. solve_decision. Defined.
#[export] Instance lvmd_ThinPoolConfig_eq_dec : EqDecision lvmd.ThinPoolConfig.
Proof. solve_decision. Defined.
#[export] Instance lvmd_DeviceClass_eq_dec : EqDecision lvmd.DeviceClass.
Proof. solve_decision. Defined.
#[export] Instance lvmd_LvcreateOptionClass_eq_dec : EqDecision lvmd.LvcreateOptionClass.
Proof. solve_decision. Defined.
#[export] Instance lvmd_Config_eq_dec : EqDecision lvmd.Config.
Proof. solve_decision. Defined.

(** Field by field, as the source copies it. *)
Definition copyDeviceClass (dc : lvmd.DeviceClass) : lvmd.DeviceClass :=
  {| lvmd.dc_Name := lvmd.dc_Name dc;
     lvmd.dc_VolumeGroup := lvmd.dc_VolumeGroup dc;
     lvmd.dc_Default := lvmd.dc_Default dc;
     lvmd.dc_SpareGB := match lvmd.dc_SpareGB dc with Some n => Some n | None => None end;
     lvmd.dc_Stripe := match lvmd.dc_Stripe dc with Some n => Some n | None => None end;
     lvmd.dc_StripeSize := lvmd.dc_StripeSize dc;
     lvmd.dc_LVCreateOptions := lvmd.dc_LVCreateOptions dc;
     lvmd.dc_Type := lvmd.dc_Type dc;
     lvmd.dc_ThinPoolConfig :=
       match lvmd.dc_ThinPoolConfig dc with
       | Some tp => Some {| lvmd.Name := lvmd.Name tp; lvmd.OverprovisionRatio := lvmd.OverprovisionRatio tp |}
       | None => None
       end |}.

Definition DeepCopyConfig (c : option lvmd.Config) : option lvmd.Config :=
  match c with
  | None => None
  | Some c =>
      Some {| lvmd.SocketName := lvmd.SocketName c;
              lvmd.DeviceClasses := map copyDeviceClass (lvmd.DeviceClasses c);
              lvmd.LvcreateOptionClasses :=
                map (fun co => {| lvmd.co_Name := lvmd.co_Name co; lvmd.co_Options := lvmd.co_Options co |})
                  (lvmd.LvcreateOptionClasses c) |}
  end.

(** * The file *)

(** sigs.k8s.io/yaml *)
Class Yaml := {
  Marshal : lvmd.Config -> result error string;
  Unmarshal : string -> result error lvmd.Config;
}.

(** Documented: decoding an encoded configuration gives it back. *)
Class YamlLaws (Y : Yaml) := {
  Unmarshal_Marshal : forall c s, Marshal c = Ok s -> Unmarshal s = Ok c;
}.

Inductive OpenResult := Opened | NotExist | OpenFailed (err : error).

(** [ReadAll] answers the content of the opened file. *)
Inductive fileE : Type -> Type :=
| OpenFile (path : string) : fileE OpenResult
| ReadAll (path : string) : fileE (result error string)
| WriteFile (path content : string) : fileE (option error)
| RemoveFile (path : string) : fileE (option error).

Inductive lvmdE : Type -> Type :=
| Load : lvmdE (result error (option lvmd.Config))
| Save (config : lvmd.Config) : lvmdE (option error)
| Delete : lvmdE (option error).

Definition DefaultFileConfigPath := "/etc/topolvm/lvmd.yaml".
Definition maxReadLength : N := 2 * 2 ^ 20.

Section File.
Context `{Y : Yaml}.
Variable path : string.

Definition FileConfig_Load : prog fileE (result error (option lvmd.Config)) :=
  o <- call (OpenFile path);;
  match o with
  | NotExist => Ret (Ok None)
  | OpenFailed err => Ret (Err (EFmt ("failed to open config file " +:+ path +:+ ": " +:+ Error err) [err]))
  | Opened =>
      try content := call (ReadAll path)
        catch err => Ret (Err (EFmt ("failed to read config file " +:+ path +:+ ": " +:+ Error err) [err])) in
      if (maxReadLength <=? N.of_nat (String.length content))%N
      then Ret (Err (EFmt ("the read limit is reached for config file " +:+ path) []))
      else match Unmarshal content with
           | Err err => Ret (Err (EFmt ("failed to unmarshal config file " +:+ path +:+ ": " +:+ Error err) [err]))
           | Ok config => Ret (Ok (Some config))
           end
  end.

Definition saveError (err : error) : option error :=
  Some (EFmt ("failed to save config file " +:+ path +:+ ": " +:+ Error err) [err]).

Definition FileConfig_Save (config : lvmd.Config) : prog fileE (option error) :=
  match Marshal config with
  | Err err => Ret (saveError err)
  | Ok out =>
      guard call (WriteFile path out) catch err => Ret (saveError err) in
      Ret None
  end.

Definition FileConfig_Delete : prog fileE (option error) :=
  guard call (RemoveFile path)
    catch err => Ret (Some (EFmt ("failed to delete config file " +:+ path +:+ ": " +:+ Error err) [err])) in
  Ret None.

(** * The cache: the embedded [*Config], nil or a configuration *)

Abbreviation lvmd_cache := (option lvmd.Config).

Definition Cached_Load (cache : lvmd_cache) : prog fileE (result error (option lvmd.Config) * lvmd_cache) :=
  match cache with
  | Some _ => Ret (Ok (DeepCopyConfig cache), cache)
  | None =>
      try conf := FileConfig_Load catch err => Ret (Err err, cache) in
      Ret (Ok (DeepCopyConfig conf), conf)
  end.

(** [reflect.DeepEqual] on the pointers; nil and empty slices are not told apart. *)
Definition Cached_Save (config : lvmd.Config) (cache : lvmd_cache) : prog fileE (option error * lvmd_cache) :=
  if bool_decide (Some config = cache) then Ret (None, cache)
  else
    err <- FileConfig_Save config;;
    Ret (err, Some config).

(** Promoted from the embedded FileConfig: the cache is not touched. *)
Definition Cached_Delete (cache : lvmd_cache) : prog fileE (option error * lvmd_cache) :=
  err <- FileConfig_Delete;;
  Ret (err, cache).

Definition CachedFileConfig (X : Type) (e : lvmdE X) : lvmd_cache -> prog fileE (X * lvmd_cache) :=
  match e with
  | Load => Cached_Load
  | Save config => Cached_Save config
  | Delete => Cached_Delete
  end.
End File.

(** * Theorems *)

Lemma copyDeviceClass_id dc : copyDeviceClass dc = dc.
Proof. destruct dc as [? ? ? [] [] ? ? ? [[]|]]; reflexivity. Qed.

Lemma DeepCopyConfig_id c : DeepCopyConfig c = c.
Proof.
  destruct c as [[s dcs cos]|]; [|done]. simpl. f_equal. f_equal.
  - induction dcs; simpl; rewrite ?copyDeviceClass_id; congruence.
  - induction cos as [|[] cos IH]; simpl; congruence.
Qed.

(** A file system that holds at most the configuration file. A failing operation
    leaves the file as it is. *)
Definition fs_step (X : Type) (e : fileE X) : option string -> X -> option string -> Prop :=
  match e with
  | OpenFile _ => fun f r f' =>
      f' = f /\ match r with NotExist => f = None | Opened => f <> None | OpenFailed _ => True end
  | ReadAll _ => fun f r f' => f' = f /\ match r with Ok s => f = Some s | Err _ => True end
  | WriteFile _ s => fun f r f' => match r with None => f' = Some s | Some _ => f' = f end
  | RemoveFile _ => fun f r f' => match r with None => f <> None /\ f' = None | Some _ => f' = f end
  end.

Section Facts.
Context `{Y : Yaml}.
Variable path : string.

(** The file holds [c]. *)
Definition file_holds (f : option string) (c : option lvmd.Config) : Prop :=
  match c with
  | Some c => exists s, f = Some s /\ Unmarshal s = Ok c
  | None => f = None
  end.

(** A filled cache agrees with the file. *)
Definition coherent (cache : option lvmd.Config) (f : option string) : Prop :=
  match cache with Some _ => file_holds f cache | None => True end.

Lemma FileConfig_Load_spec f :
  must fs_step (FileConfig_Load path) f (fun r f' => f' = f /\ forall c, r = Ok c -> file_holds f c).
Proof.
  unfold FileConfig_Load. simpl. intros [| |e] ? [-> Ho]; simpl; [|naive_solver|naive_solver].
  intros [s|e] ? [-> Hr]; simpl; [|naive_solver].
  destruct (_ <=? _)%N; simpl; [naive_solver|].
  destruct (Unmarshal s) as [c|] eqn:Hu; simpl; [|naive_solver].
  split; [done|]. intros ? [= <-]. simpl. eauto.
Qed.

(** The states of a cache and the file since the cache was created empty, if the file is changed
    through this cache only, by calls of Save that returned nil. *)
Inductive used : option lvmd.Config -> option string -> Prop :=
| used_fresh f : used None f
| used_load cache f r cache' f' :
    used cache f -> may fs_step (Cached_Load path cache) f (r, cache') f' -> used cache' f'
| used_save cache f config cache' f' :
    used cache f -> may fs_step (Cached_Save path config cache) f (None, cache') f' -> used cache' f'.

Lemma Cached_Load_spec cache f :
  coherent cache f ->
  must fs_step (Cached_Load path cache) f (fun r f' =>
    f' = f /\ coherent r.2 f' /\ forall c, r.1 = Ok c -> file_holds f c).
Proof.
  intros Hc. unfold Cached_Load. rewrite DeepCopyConfig_id. destruct cache as [c|].
  - simpl. split; [done|]. split; [done|]. by intros ? [= <-].
  - apply must_bind. eapply must_mono; [apply FileConfig_Load_spec|].
    intros [c|e] f' [-> Hf]; simpl; [|naive_solver]. rewrite DeepCopyConfig_id.
    split; [done|]. split; [destruct c; [by apply Hf|done]|]. intros ? [= <-]. by apply Hf.
Qed.

Lemma Cached_Save_spec `{L : !YamlLaws Y} config cache f :
  coherent cache f ->
  must fs_step (Cached_Save path config cache) f (fun r f' =>
    r.1 = None -> coherent r.2 f' /\ file_holds f' (Some config)).
Proof.
  intros Hc. unfold Cached_Save. case_bool_decide as Heq; simpl.
  - subst cache. done.
  - unfold FileConfig_Save. destruct (Marshal config) as [s|e] eqn:Hm; simpl; [|done].
    intros [e|] f' Hf; simpl in *; [done|]. intros _. subst f'.
    apply Unmarshal_Marshal in Hm. split; eauto.
Qed.

Lemma used_coherent `{L : !YamlLaws Y} cache f : used cache f -> coherent cache f.
Proof.
  induction 1 as [f|cache f r cache' f' _ IH Hmay|cache f config cache' f' _ IH Hmay]; [done| |].
  - destruct (must_may _ _ _ _ _ _ (Cached_Load_spec cache f IH) Hmay) as (_ & H & _). exact H.
  - destruct (must_may _ _ _ _ _ _ (Cached_Save_spec config cache f IH) Hmay eq_refl) as [H _]. exact H.
Qed.

(** C33: as long as the file is changed only through the cache, by calls of Save that returned nil,
    and was not deleted, since the cache was created: a Load that succeeds returns what the
    configuration file holds and changes nothing, and a Save that returns nil has put the
    configuration into the file. (After a Save that failed, or a Delete, the cache may differ from the
    file: [Cached_Save_failure_forgotten], [Cached_Delete_keeps_cache].) *)
Theorem CachedFileConfig_coherent `{L : !YamlLaws Y} cache f :
  used cache f ->
  must fs_step (CachedFileConfig path _ Load cache) f (fun r f' => f' = f /\ forall c, r.1 = Ok c -> file_holds f c) /\
  forall config, must fs_step (CachedFileConfig path _ (Save config) cache) f (fun r f' => r.1 = None -> file_holds f' (Some config)).
Proof.
  intros Hu%used_coherent. split.
  - eapply must_mono; [by apply Cached_Load_spec|]. by intros r f' (? & _ & ?).
  - intros config. eapply must_mono; [by apply Cached_Save_spec|]. intros r f' H Hr. by destruct (H Hr).
Qed.

(** A Save whose write fails has already replaced the cached configuration: when the same
    configuration is saved again the call returns nil although the file never received it. *)
Theorem Cached_Save_failure_forgotten config f s :
  Marshal config = Ok s ->
  exists err cache,
    may fs_step (Cached_Save path config None) f (Some err, cache) f /\
    must fs_step (Cached_Save path config cache) f (fun r f' => r = (None, cache) /\ f' = f).
Proof.
  intros Hm. unfold Cached_Save at 1. rewrite bool_decide_eq_false_2 by done.
  unfold FileConfig_Save. rewrite Hm. eexists _, (Some config). split.
  - exists (Some (EExt "no space left on device")), f. simpl. split; [done|]. by split.
  - unfold Cached_Save. rewrite bool_decide_eq_true_2 by done. by simpl.
Qed.

(** Delete removes the file and leaves the cache: Load still returns the deleted
    configuration, saving it again writes nothing, and a repeated Delete fails. *)
Theorem Cached_Delete_keeps_cache config s :
  may fs_step (Cached_Delete path (Some config)) (Some s) (None, Some config) None /\
  Cached_Load path (Some config) = Ret (Ok (Some config), Some config) /\
  Cached_Save path config (Some config) = Ret (None, Some config) /\
  must fs_step (Cached_Delete path (Some config)) None (fun r f' => r.1 <> None /\ f' = None).
Proof.
  split; [|split; [|split]].
  - exists None, None. by simpl.
  - unfold Cached_Load. by rewrite DeepCopyConfig_id.
  - unfold Cached_Save. by rewrite bool_decide_eq_true_2.
  - simpl. intros [e|] f' H; simpl in *; naive_solver.
Qed.
End Facts.

(** * A concrete codec *)

Module Demo.
Definition demo_config : lvmd.Config :=
  lvmd.mkConfig "" [lvmd.mkDeviceClass "vg1" "vg1" true (Some 0%N) None "" [] lvmd.TypeThick None] [].

(** Knows one configuration only. *)
Definition demo_yaml : Yaml := {|
  Marshal := fun c => if bool_decide (c = demo_config) then Ok "vg1" else Err (EExt "unsupported");
  Unmarshal := fun s => if String.eqb s "vg1" then Ok demo_config else Err (EExt "unsupported") |}.

#[local] Instance demo_yaml_laws : YamlLaws demo_yaml.
Proof. split. intros c s. simpl. case_bool_decide; [by intros [= <-]; subst|done]. Defined.

Lemma CachedFileConfig_coherent_witness :
  @used demo_yaml "lvmd.yaml" (Some demo_config) (Some "vg1") /\
  must fs_step (@CachedFileConfig demo_yaml "lvmd.yaml" _ Load (Some demo_config)) (Some "vg1") (fun r f' =>
    f' = Some "vg1" /\ forall c, r.1 = Ok c -> @file_holds demo_yaml (Some "vg1") c).
Proof.
  assert (H : @used demo_yaml "lvmd.yaml" (Some demo_config) (Some "vg1")).
  { apply (@used_save demo_yaml _ None None demo_config); [constructor|].
    exists None, (Some "vg1"). split; [reflexivity|]. by split. }
  split; [exact H|].
  exact (proj1 (@CachedFileConfig_coherent demo_yaml "lvmd.yaml" _ (Some demo_config) (Some "vg1") H)).
Defined.

Lemma Cached_Save_failure_forgotten_witness :
  @Marshal demo_yaml demo_config = Ok "vg1" /\
  exists err cache,
    may fs_step (@Cached_Save demo_yaml "lvmd.yaml" demo_config None) None (Some err, cache) None /\
    must fs_step (@Cached_Save demo_yaml "lvmd.yaml" demo_config cache) None
      (fun r f' => r = (None, cache) /\ f' = None).
Proof.
  split; [reflexivity|].
  exact (@Cached_Save_failure_forgotten demo_yaml "lvmd.yaml" demo_config None "vg1" eq_refl).
Defined.
End Demo.
