(* ===== verification/Filter.v ===== *)
(** The device filters (internal/controllers/vgmanager/filter/filter.go).

    A filter is a check of one block device that may ask the symlink resolver; the
    map of filters is an association list, iterated in the order of [map_range]. *)

From S2P Require Import Prelude GoStd Effects Api K8sDemo Exec HostTools Resolver.

Definition StateSuspended := "suspended".
Definition FSTypeLVM2Member := "LVM2_member".

Definition notReadOnly := "notReadOnly".
Definition notSuspended := "notSuspended".
Definition noInvalidPartitionLabel := "noInvalidPartitionLabel".
Definition onlyValidFilesystemSignatures := "onlyValidFilesystemSignatures".
Definition noChildren := "noChildren".
Definition usableDeviceType := "usableDeviceType".
Definition partOfDeviceSelector := "partOfDeviceSelector".

Definition ErrDeviceAlreadySetupCorrectly := ENew "ErrDeviceAlreadySetupCorrectly"
  "the device is already setup correctly and was filtered to avoid attempting recreation".
Definition ErrLVMPartition := ENew "ErrLVMPartition"
  "the device is a lvm partition and is excluded by default".

Definition invalidPartitionLabels : list string := ["bios"; "boot"; "reserved"].

Abbreviation Filter_t := (BlockDevice -> prog resolveE (option error)).
Abbreviation Filters := (list (string * Filter_t)).

Definition IsExpectedDeviceErrorAfterSetup (err : error) : bool :=
  errors_Is err "ErrDeviceAlreadySetupCorrectly" || errors_Is err "ErrLVMPartition".

(** [%s] of a PhysicalVolume *)
Definition fmt_pv (pv : PhysicalVolume) : string :=
  "{" +:+ strings_Join [PvName pv; pv_UUID pv; pv_VgName pv; PvFmt pv; PvAttr pv; PvSize pv; PvFree pv;
                        PvMissing pv; DevSize pv] " " +:+ "}".

Section Filters.
Context `{K : K8s}.

Record Options := mkOptions {
  fo_VG : LVMVolumeGroup;
  fo_BDI : gmap string bool;
  fo_PVs : list PhysicalVolume;
}.

Variable opts : Options.

(** [resolver.Resolve] with the empty string beside an error. *)
Definition Resolve_pair (path : string) : prog resolveE (string * option error) :=
  r <- call (Resolve path);;
  Ret match r with Ok v => (v, None) | Err e => ("", Some e) end.

Fixpoint matchPaths (dev : BlockDevice) (paths : list DevicePath) : prog resolveE (option error) :=
  match paths with
  | [] => Ret (Some (EFmt (bd_Name dev +:+
      " is not part of the device selector or could not be resolved via symlink resolution") []))
  | path :: paths =>
      r <- Resolve_pair (Unresolved path);;
      if String.eqb r.1 (bd_KName dev) then Ret None else matchPaths dev paths
  end.

Definition partOfDeviceSelector_filter : Filter_t := fun dev =>
  match vgs_DeviceSelector (lvg_Spec (fo_VG opts)) with
  | None => Ret None
  | Some sel => matchPaths dev (ds_Paths sel ++ ds_OptionalPaths sel)
  end.

Definition notReadOnly_filter : Filter_t := fun dev =>
  Ret (if bd_ReadOnly dev then Some (EFmt (bd_Name dev +:+ " cannot be read-only") []) else None).

(** The message has the state where it means the name and the other way round. *)
Definition notSuspended_filter : Filter_t := fun dev =>
  Ret (if String.eqb (bd_State dev) StateSuspended
       then Some (EFmt (bd_State dev +:+ " cannot be in a " +:+ quote (bd_Name dev) +:+ " state") [])
       else None).

Definition noInvalidPartitionLabel_filter : Filter_t := fun dev =>
  Ret (if existsb (fun l => Contains (ToLower (bd_PartLabel dev)) l) invalidPartitionLabels
       then Some (EFmt (bd_Name dev +:+ " has an invalid partition label " +:+ quote (bd_PartLabel dev)) [])
       else None).

(** The first physical volume that resolves to the device. *)
Fixpoint findPV (dev : BlockDevice) (pvs : list PhysicalVolume) : prog resolveE (result error (option PhysicalVolume)) :=
  match pvs with
  | [] => Ret (Ok None)
  | pv :: pvs =>
      try resolvedPVPath := call (Resolve (PvName pv))
        catch err => Ret (Err (EFmt ("the pv " +:+ fmt_pv pv +:+ " could not be resolved via symlink: " +:+
                                     Error err) [err])) in
      if String.eqb resolvedPVPath (bd_KName dev) then Ret (Ok (Some pv)) else findPV dev pvs
  end.

Definition invalidSignature (dev : BlockDevice) : option error :=
  Some (EFmt (bd_Name dev +:+ " has an invalid filesystem signature (" +:+ bd_FSType dev +:+
              ") and cannot be used") []).

Definition onlyValidFilesystemSignatures_filter : Filter_t := fun dev =>
  if String.eqb (bd_FSType dev) "" then Ret None
  else if String.eqb (bd_FSType dev) FSTypeLVM2Member then
    try foundPV := findPV dev (fo_PVs opts) catch err => Ret (Some err) in
    match foundPV with
    | None => Ret None
    | Some pv =>
        if String.eqb (pv_VgName pv) (lvg_Name (fo_VG opts)) then
          Ret (Some (EFmt (bd_Name dev +:+ " is already a LVM2_Member of " +:+ lvg_Name (fo_VG opts) +:+ ": " +:+
                 Error ErrDeviceAlreadySetupCorrectly) [ErrDeviceAlreadySetupCorrectly]))
        else if negb (String.eqb (pv_VgName pv) "") then
          Ret (Some (EFmt (bd_Name dev +:+ " is already a LVM2_Member of another volume group (" +:+
                 pv_VgName pv +:+ ") and cannot be used for the volume group " +:+ lvg_Name (fo_VG opts)) []))
        else if negb (HasChildren dev) then
          Ret (if String.eqb (PvFree pv) "0G"
               then Some (EFmt (bd_Name dev +:+
                 " was reported as having no free capacity as a physical volume and cannot be used") [])
               else None)
        else Ret (invalidSignature dev)
    end
  else Ret (invalidSignature dev).

Definition noChildren_filter : Filter_t := fun dev =>
  Ret (if HasChildren dev
       then Some (EFmt (bd_Name dev +:+ " has children block devices and could not be considered") [])
       else None).

Definition usableDeviceType_filter : Filter_t := fun dev =>
  Ret (if String.eqb (bd_Type dev) DeviceTypeLoop then
         if negb (default false (fo_BDI opts !! bd_KName dev))
         then Some (EFmt (bd_Name dev +:+ " is an unusable loopback device") []) else None
       else if String.eqb (bd_Type dev) DeviceTypeROM then
         Some (EFmt (bd_Name dev +:+ " has a device type of " +:+ quote (bd_Type dev) +:+ " which is unsupported") [])
       else if String.eqb (bd_Type dev) DeviceTypeLVM then Some ErrLVMPartition
       else None).

Definition DefaultFilters : Filters :=
  [(partOfDeviceSelector, partOfDeviceSelector_filter);
   (notReadOnly, notReadOnly_filter);
   (notSuspended, notSuspended_filter);
   (noInvalidPartitionLabel, noInvalidPartitionLabel_filter);
   (onlyValidFilesystemSignatures, onlyValidFilesystemSignatures_filter);
   (noChildren, noChildren_filter);
   (usableDeviceType, usableDeviceType_filter)].

(** * What passing the filters means *)

(** The static conditions: they depend on the device and the block device infos only. *)
Definition usable_device (dev : BlockDevice) : Prop :=
  bd_ReadOnly dev = false /\ bd_State dev <> StateSuspended /\
  (forall l, l ∈ invalidPartitionLabels -> Contains (ToLower (bd_PartLabel dev)) l = false) /\
  bd_Children dev = [] /\
  bd_Type dev <> DeviceTypeROM /\ bd_Type dev <> DeviceTypeLVM /\
  (bd_Type dev = DeviceTypeLoop -> fo_BDI opts !! bd_KName dev = Some true).

(** A configured path resolved to the device. *)
Definition selected_device (dev : BlockDevice) (tr : list (ev resolveE)) : Prop :=
  forall sel, vgs_DeviceSelector (lvg_Spec (fo_VG opts)) = Some sel ->
  exists path, path ∈ ds_Paths sel ++ ds_OptionalPaths sel /\ Ev (Resolve path) (Ok (bd_KName dev)) ∈ tr.

(** The device has no file system signature, or is an orphaned physical volume: none that is listed
    is this device, or one that is belongs to no volume group. *)
Definition free_device (dev : BlockDevice) (tr : list (ev resolveE)) : Prop :=
  bd_FSType dev = "" \/
  (bd_FSType dev = FSTypeLVM2Member /\
   ((forall pv, pv ∈ fo_PVs opts -> exists target, Ev (Resolve (PvName pv)) (Ok target) ∈ tr /\ target <> bd_KName dev) \/
    (exists pv, pv ∈ fo_PVs opts /\ Ev (Resolve (PvName pv)) (Ok (bd_KName dev)) ∈ tr /\
                pv_VgName pv = "" /\ PvFree pv <> "0G"))).

Lemma HasChildren_spec dev : HasChildren dev = false <-> bd_Children dev = [].
Proof. split; [apply HasChildren_false|]. unfold HasChildren. by intros ->. Qed.

Lemma matchPaths_spec dev paths : bd_KName dev <> "" ->
  wp (matchPaths dev paths) (fun r tr => r = None ->
    exists path, path ∈ paths /\ Ev (Resolve path) (Ok (bd_KName dev)) ∈ tr).
Proof.
  intros Hk. induction paths as [|p paths IH]; [done|]. simpl. intros [v|e]; simpl.
  - destruct (String.eqb_spec v (bd_KName dev)) as [->|Hne]; simpl.
    + intros _. exists p. set_solver.
    + eapply wp_mono; [apply IH|]. intros r tr H Hr. destruct (H Hr) as (q & Hq & Htr). exists q. set_solver.
  - destruct (match bd_KName dev with EmptyString => true | _ => false end) eqn:He; [by destruct (bd_KName dev)|].
    eapply wp_mono; [apply IH|]. intros r tr H Hr. destruct (H Hr) as (q & Hq & Htr). exists q. set_solver.
Qed.

Lemma findPV_spec dev pvs :
  wp (findPV dev pvs) (fun r tr => forall o, r = Ok o ->
    match o with
    | None => forall pv, pv ∈ pvs ->
        exists target, Ev (Resolve (PvName pv)) (Ok target) ∈ tr /\ target <> bd_KName dev
    | Some pv => pv ∈ pvs /\ Ev (Resolve (PvName pv)) (Ok (bd_KName dev)) ∈ tr
    end).
Proof.
  induction pvs as [|pv pvs IH]; simpl; [intros o [= <-]; set_solver|].
  intros [v|e]; simpl; [|done]. destruct (String.eqb_spec v (bd_KName dev)) as [->|Hne]; simpl.
  - intros o [= <-]. set_solver.
  - eapply wp_mono; [apply IH|]. intros r tr H o Ho. specialize (H o Ho). destruct o as [q|].
    + set_solver.
    + intros q [->|Hq]%elem_of_cons; [exists v; set_solver|].
      destruct (H q Hq) as (t & Ht & ?). exists t. set_solver.
Qed.

Lemma fs_filter_spec dev :
  wp (onlyValidFilesystemSignatures_filter dev) (fun r tr => r = None -> free_device dev tr).
Proof.
  unfold onlyValidFilesystemSignatures_filter, free_device.
  destruct (String.eqb_spec (bd_FSType dev) "") as [He|He]; [by left|].
  destruct (String.eqb_spec (bd_FSType dev) FSTypeLVM2Member) as [Hm|Hm]; [|done].
  apply wp_bind. eapply wp_mono; [apply findPV_spec|]. intros [[pv|]|e] tr H; simpl; [| |done].
  - destruct (H _ eq_refl) as [Hin Htr].
    destruct (String.eqb_spec (pv_VgName pv) (lvg_Name (fo_VG opts))); [done|].
    destruct (String.eqb_spec (pv_VgName pv) ""); simpl; [|done].
    destruct (HasChildren dev); simpl; [done|].
    destruct (String.eqb_spec (PvFree pv) "0G"); [done|]. intros _. right. split; [done|]. right.
    exists pv. rewrite app_nil_r. done.
  - intros _. right. split; [done|]. left. rewrite app_nil_r. exact (H _ eq_refl).
Qed.

(** The filter [f] ran on [dev] during [tr] and answered [r]; it accepted it. *)
Definition ran_in (f : Filter_t) (dev : BlockDevice) (r : option error) (tr : list (ev resolveE)) : Prop :=
  exists t1 t2 t3, tr = t1 ++ t2 ++ t3 /\ runs (f dev) t2 r.
Definition passed_in (f : Filter_t) (dev : BlockDevice) (tr : list (ev resolveE)) : Prop := ran_in f dev None tr.

Lemma passed_in_wp f dev tr (Q : list (ev resolveE) -> Prop) :
  passed_in f dev tr -> wp (f dev) (fun r t => r = None -> Q t) ->
  (forall t1 t2 t3, Q t2 -> Q (t1 ++ t2 ++ t3)) -> Q tr.
Proof.
  intros (t1 & t2 & t3 & -> & Hr) Hwp HQ. apply HQ. exact (wp_runs _ _ _ _ Hwp Hr eq_refl).
Qed.

Lemma passed_in_pure f dev tr o : passed_in f dev tr -> f dev = Ret o -> o = None.
Proof.
  intros (t1 & t2 & t3 & _ & Hr) He. rewrite He in Hr.
  apply (wp_runs (Ret o : prog resolveE _) (fun r _ => o = r) t2 None); [done|exact Hr].
Qed.

Lemma existsb_false {A} (f : A -> bool) l : existsb f l = false <-> forall x, x ∈ l -> f x = false.
Proof.
  induction l as [|y l IH]; simpl; [set_solver|]. rewrite orb_false_iff, IH. set_solver.
Qed.

(** A device that passed the selector filter is one a configured path resolved to. *)
Lemma passed_selected dev tr : bd_KName dev <> "" -> passed_in partOfDeviceSelector_filter dev tr -> selected_device dev tr.
Proof.
  intros Hk H sel Hsel.
  apply (passed_in_wp partOfDeviceSelector_filter dev tr (fun t =>
    exists path, path ∈ ds_Paths sel ++ ds_OptionalPaths sel /\ Ev (Resolve path) (Ok (bd_KName dev)) ∈ t)).
  - done.
  - unfold partOfDeviceSelector_filter. rewrite Hsel. by apply matchPaths_spec.
  - set_solver.
Qed.

End Filters.

Module Demo.

Definition demo_meta (name : string) : ObjectMeta := mkObjectMeta name "openshift-storage" "uid" ∅ None [] [] None.
Definition demo_vg : @LVMVolumeGroup demo_K8s :=
  mkLVMVolumeGroup (demo_meta "vg1")
    (mkLVMVolumeGroupSpec (Some (mkDeviceSelector ["/dev/disk/by-id/a"] [] None)) None None None true None).
Definition demo_device (name : string) : BlockDevice :=
  mkBlockDevice name name "disk" "" "" "" "" "100G" [] false "" "".
Definition demo_opts : @Options demo_K8s := mkOptions demo_vg ∅ [].
Definition demo_trace : list (ev resolveE) := [Ev (Resolve "/dev/disk/by-id/a") (Ok "/dev/sda")].

End Demo.
