(* ===== verification/Devices.v ===== *)
(** Device selection of vgmanager (devices.go, device_mapping_helper.go). *)

From S2P Require Import Prelude GoStd Effects Api Exec Lvm HostTools Resolver Filter.

Record FilteredBlockDevice := mkFilteredBlockDevice {
  fb_BlockDevice : BlockDevice;
  fb_FilterErrors : list error;
}.

Record FilteredBlockDevices := mkFilteredBlockDevices {
  Available : list BlockDevice;
  Excluded : list FilteredBlockDevice;
}.

Definition fb_KName (f : FilteredBlockDevice) : string := bd_KName (fb_BlockDevice f).

(** * addDevicesToVG *)

(** The last volume group of that name: the loop has no [break]. *)
Definition lastVGNamed (vgName : string) (vgs : list VolumeGroup) : option VolumeGroup :=
  foldl (fun found vg => if String.eqb (vg_Name vg) vgName then Some vg else found) None vgs.

Definition addDevicesToVG (vgs : list VolumeGroup) (vgName : string) (devices : list BlockDevice) (isWiped : bool)
  : prog lvmE (option error) :=
  if (length devices <? 1)%nat
  then Ret (Some (EFmt ("can't create vg " +:+ quote vgName +:+ " with 0 devices") []))
  else
    let args := map bd_KName devices in
    match lastVGNamed vgName vgs with
    | Some existingVolumeGroup =>
        try _ := call (ExtendVG existingVolumeGroup args)
          catch err => Ret (Some (EFmt ("failed to extend volume group " +:+ vgName +:+ ": " +:+ Error err) [err])) in
        Ret None
    | None =>
        guard call (CreateVG (mkVolumeGroup vgName "" (map pv_named args) []) isWiped)
          catch err => Ret (Some (EFmt ("failed to create volume group " +:+ vgName +:+ ": " +:+ Error err) [err])) in
        Ret None
    end.

(** * VerifyMandatoryDevicePaths *)

Definition IsAvailable (f : FilteredBlockDevices) (dev : string) : bool :=
  existsb (fun available => String.eqb dev (bd_KName available)) (Available f).

Definition FilterErrors (f : FilteredBlockDevices) (dev : string) : list error :=
  match find_first (fun excluded => String.eqb dev (fb_KName excluded)) (Excluded f) with
  | Some excluded => fb_FilterErrors excluded
  | None => []
  end.

Definition mandatoryPathError (path : string) (err : error) : error :=
  EFmt ("mandatory device path " +:+ quote path +:+ " cannot be used, " +:+
        "because it is NOT available as a new device for the volume group and " +:+
        "NOT part of a valid and tagged existing volume group: " +:+ Error err) [err].

Definition missingDevice : error :=
  EFmt ("the device did not exist on the host, make sure it is connected and visible via " +:+ dquote +:+
        "lsblk --json --paths -o " +:+ LSBLK_COLUMNS +:+ dquote +:+
        " and confirm it is discoverable via a path resolvable (e.g. via symlink) on the host") [].

Definition alreadySetup (errs : list error) : bool :=
  existsb (fun err => errors_Is err "ErrDeviceAlreadySetupCorrectly") errs.

Definition verifyPath (f : FilteredBlockDevices) (path : DevicePath) (_ : unit) : prog resolveE (unit + option error) :=
  try path := call (Resolve (Unresolved path))
    catch err => Ret (inr (Some (EFmt ("failed to resolve symlink to determine available or setup path: " +:+
                                       Error err) [err]))) in
  let errs := FilterErrors f path in
  if negb (IsAvailable f path) && negb (alreadySetup errs) then
    let err := if (0 <? length errs)%nat then errors_Join errs else missingDevice in
    Ret (inr (Some (mandatoryPathError path err)))
  else Ret (inl tt).

Definition VerifyMandatoryDevicePaths (f : FilteredBlockDevices) (paths : list DevicePath)
  : prog resolveE (option error) :=
  r <- for_each (verifyPath f) paths tt;;
  Ret match r with inl _ => None | inr err => err end.

(** * filterDevices *)

Section Filter.
Context `{R : GoRuntime}.
Variable filters : Filters.

(** The two maps of the Go function. *)
Record classified := mkClassified {
  availableByKName : gmap string BlockDevice;
  excludedByKName : gmap string FilteredBlockDevice;
}.

Definition collect (c : classified) : FilteredBlockDevices :=
  {| Available := (map_range (map_to_list (availableByKName c))).*2;
     Excluded := (map_range (map_to_list (excludedByKName c))).*2 |}.

(** The results of the children: a device already recorded is kept. The errors the
    source appends to a recorded device are appended to a copy of the map entry and
    do not reach the map. *)
Definition addAvailable (available : BlockDevice) (m : gmap string BlockDevice) : gmap string BlockDevice :=
  match m !! bd_KName available with
  | Some _ => m
  | None => <[bd_KName available := available]> m
  end.

Definition addExcluded (excluded : FilteredBlockDevice) (m : gmap string FilteredBlockDevice)
  : gmap string FilteredBlockDevice :=
  match m !! fb_KName excluded with
  | Some _ => m
  | None => <[fb_KName excluded := excluded]> m
  end.

Definition mergeChildren (child : FilteredBlockDevices) (c : classified) : classified :=
  {| availableByKName := foldl (fun m a => addAvailable a m) (availableByKName c) (Available child);
     excludedByKName := foldl (fun m e => addExcluded e m) (excludedByKName c) (Excluded child) |}.

Definition runFilters (device : BlockDevice) : prog resolveE (list error) :=
  fold_prog (fun nf errs =>
    err <- (nf : string * Filter_t).2 device;;
    Ret match err with Some e => errs ++ [e] | None => errs end) (map_range filters) [].

Definition classify (device : BlockDevice) (filterErrs : list error) (c : classified) : classified :=
  if (length filterErrs =? 0)%nat then
    {| availableByKName := <[bd_KName device := device]> (availableByKName c);
       excludedByKName := excludedByKName c |}
  else
    {| availableByKName := availableByKName c;
       excludedByKName := addExcluded (mkFilteredBlockDevice device filterErrs) (excludedByKName c) |}.

(** One iteration of the loop, with the recursive call on the children. *)
Fixpoint filterDevice (device : BlockDevice) (c : classified) : prog resolveE classified :=
  c <- (if HasChildren device then
          child <- fold_prog filterDevice (bd_Children device) (mkClassified ∅ ∅);;
          Ret (mergeChildren (collect child) c)
        else Ret c);;
  filterErrs <- runFilters device;;
  Ret (classify device filterErrs c).

Definition filterDevices (devices : list BlockDevice) : prog resolveE FilteredBlockDevices :=
  c <- fold_prog filterDevice devices (mkClassified ∅ ∅);;
  Ret (collect c).
End Filter.

(** * buildDevicePathMappings *)

Section Mappings.
Context `{K : K8s}.

Definition requiredMapping (path : DevicePath) (acc : list string) : prog resolveE (list string + error) :=
  try resolved := call (Resolve (Unresolved path))
    catch err => Ret (inr (EFmt ("failed to resolve path " +:+ path +:+ ", " +:+ Error err) [err])) in
  Ret (inl (acc ++ [resolved])).

Definition optionalMapping (path : DevicePath) (acc : list string) : prog resolveE (list string) :=
  try resolved := call (Resolve (Unresolved path)) catch err => Ret acc in
  Ret (acc ++ [resolved]).

Definition buildDevicePathMappings (volumeGroup : LVMVolumeGroup) : prog resolveE (result error (list string)) :=
  match vgs_DeviceSelector (lvg_Spec volumeGroup) with
  | None => Ret (Ok [])
  | Some sel =>
      r <- for_each requiredMapping (ds_Paths sel) [];;
      match r with
      | inr err => Ret (Err err)
      | inl resolvedPaths =>
          resolvedPaths <- fold_prog optionalMapping (ds_OptionalPaths sel) resolvedPaths;;
          Ret (Ok resolvedPaths)
      end
  end.
End Mappings.

(** * Theorems on filterDevices *)

Section Filtered.
Context `{R : GoRuntime}.
Variable filters : Filters.

Lemma ran_in_extend f dev r tr t t' : ran_in f dev r tr -> ran_in f dev r (t ++ tr ++ t').
Proof.
  intros (t1 & t2 & t3 & -> & H). exists (t ++ t1), t2, (t3 ++ t'). split; [|done].
  by rewrite <- !app_assoc.
Qed.

Lemma ran_in_app_r f dev r tr t : ran_in f dev r tr -> ran_in f dev r (tr ++ t).
Proof. intros H. apply (ran_in_extend _ _ _ _ [] t H). Qed.

Lemma ran_in_app_l f dev r tr t : ran_in f dev r tr -> ran_in f dev r (t ++ tr).
Proof. intros H. apply (ran_in_extend _ _ _ _ t []) in H. by rewrite app_nil_r in H. Qed.

(** All filters accepted [dev]; the errors of [e] were each returned by a filter. *)
Definition accepted (dev : BlockDevice) (tr : list (ev resolveE)) : Prop :=
  forall name f, (name, f) ∈ filters -> passed_in f dev tr.
Definition rejected (e : FilteredBlockDevice) (tr : list (ev resolveE)) : Prop :=
  fb_FilterErrors e <> [] /\
  forall err, err ∈ fb_FilterErrors e ->
    exists name f, (name, f) ∈ filters /\ ran_in f (fb_BlockDevice e) (Some err) tr.

Lemma accepted_app dev tr t t' : accepted dev tr -> accepted dev (t ++ tr ++ t').
Proof. intros H name f Hf. apply ran_in_extend. exact (H name f Hf). Qed.

Lemma rejected_app e tr t t' : rejected e tr -> rejected e (t ++ tr ++ t').
Proof.
  intros [Hne H]. split; [done|]. intros err He. destruct (H err He) as (n & f & Hf & Hr).
  exists n, f. split; [done|]. by apply ran_in_extend.
Qed.

(** The maps classify exactly the devices satisfying [Q], by what the filters answered. *)
Record Inv (Q : BlockDevice -> Prop) (tr : list (ev resolveE)) (c : classified) : Prop := mkInv {
  inv_available k d : availableByKName c !! k = Some d -> bd_KName d = k /\ Q d /\ accepted d tr;
  inv_excluded k e : excludedByKName c !! k = Some e ->
    fb_KName e = k /\ Q (fb_BlockDevice e) /\ rejected e tr;
  inv_cover d : Q d -> is_Some (availableByKName c !! bd_KName d) \/ is_Some (excludedByKName c !! bd_KName d);
}.

Lemma Inv_empty tr : Inv (fun _ => False) tr (mkClassified ∅ ∅).
Proof. split; simpl; [intros k d|intros k e|done]; by rewrite lookup_empty. Qed.

Lemma Inv_extend Q Q' tr t t' c : Inv Q tr c -> (forall d, Q d <-> Q' d) -> Inv Q' (t ++ tr ++ t') c.
Proof.
  intros [Ha He Hc] HQ. split.
  - intros k d Hd. destruct (Ha k d Hd) as (? & ? & ?). split; [done|]. split; [by apply HQ|by apply accepted_app].
  - intros k e Hd. destruct (He k e Hd) as (? & ? & ?). split; [done|]. split; [by apply HQ|by apply rejected_app].
  - intros d Hd. by apply Hc, HQ.
Qed.

Lemma Inv_extend_r Q tr t c : Inv Q tr c -> Inv Q (tr ++ t) c.
Proof. intros H. apply (Inv_extend Q Q tr [] t c H). done. Qed.

Lemma addAvailable_lookup l m k :
  foldl (fun m a => addAvailable a m) m l !! k =
  match m !! k with
  | Some d => Some d
  | None => find_first (fun a => String.eqb (bd_KName a) k) l
  end.
Proof.
  revert m. induction l as [|a l IH]; intros m; simpl; [by destruct (m !! k)|].
  rewrite IH. unfold addAvailable. destruct (m !! bd_KName a) eqn:Ha.
  - destruct (m !! k) eqn:Hk; [done|]. destruct (String.eqb_spec (bd_KName a) k); [congruence|done].
  - destruct (decide (bd_KName a = k)) as [<-|Hne].
    + rewrite lookup_insert_eq, Ha, String.eqb_refl. done.
    + rewrite lookup_insert_ne by done. destruct (m !! k); [done|].
      apply String.eqb_neq in Hne. by rewrite Hne.
Qed.

Lemma addExcluded_lookup l m k :
  foldl (fun m a => addExcluded a m) m l !! k =
  match m !! k with
  | Some d => Some d
  | None => find_first (fun a => String.eqb (fb_KName a) k) l
  end.
Proof.
  revert m. induction l as [|a l IH]; intros m; simpl; [by destruct (m !! k)|].
  rewrite IH. unfold addExcluded. destruct (m !! fb_KName a) eqn:Ha.
  - destruct (m !! k) eqn:Hk; [done|]. destruct (String.eqb_spec (fb_KName a) k); [congruence|done].
  - destruct (decide (fb_KName a = k)) as [<-|Hne].
    + rewrite lookup_insert_eq, Ha, String.eqb_refl. done.
    + rewrite lookup_insert_ne by done. destruct (m !! k); [done|].
      apply String.eqb_neq in Hne. by rewrite Hne.
Qed.

Lemma map_values_elem {A} (m : gmap string A) x :
  x ∈ (map_range (map_to_list m)).*2 <-> exists k, m !! k = Some x.
Proof.
  rewrite list_elem_of_fmap. split.
  - intros ([k y] & -> & H). rewrite map_range_elem, elem_of_map_to_list in H. by exists k.
  - intros [k H]. exists (k, x). by rewrite map_range_elem, elem_of_map_to_list.
Qed.

Lemma find_first_elem {A} (f : A -> bool) l x : x ∈ l -> f x = true -> is_Some (find_first f l).
Proof.
  intros Hx Hf. apply find_first_is_Some, existsb_exists. exists x. split; [by apply list_elem_of_In|done].
Qed.

Lemma mergeChildren_Inv Q Q' tr c child :
  Inv Q tr c -> Inv Q' tr child -> Inv (fun d => Q d \/ Q' d) tr (mergeChildren (collect child) c).
Proof.
  intros [Ha He Hc] [Ha' He' Hc']. split; simpl.
  - intros k d. rewrite addAvailable_lookup. destruct (availableByKName c !! k) as [d'|] eqn:Hk.
    + intros [= <-]. destruct (Ha k _ Hk) as (? & ? & ?). auto.
    + intros [[k' Hd]%map_values_elem Hkn]%find_first_Some. bools.
      destruct (Ha' _ _ Hd) as (? & ? & ?). auto.
  - intros k d. rewrite addExcluded_lookup. destruct (excludedByKName c !! k) as [d'|] eqn:Hk.
    + intros [= <-]. destruct (He k _ Hk) as (? & ? & ?). auto.
    + intros [[k' Hd]%map_values_elem Hkn]%find_first_Some. bools.
      destruct (He' _ _ Hd) as (? & ? & ?). auto.
  - intros d Hd. rewrite addAvailable_lookup, addExcluded_lookup.
    destruct (availableByKName c !! bd_KName d) eqn:H1; [left; eauto|].
    destruct (excludedByKName c !! bd_KName d) eqn:H2; [right; eauto|].
    destruct Hd as [Hd|Hd]; [destruct (Hc d Hd) as [[? ?]|[? ?]]; congruence|].
    destruct (Hc' d Hd) as [[x Hx]|[x Hx]]; [left|right].
    + apply (find_first_elem _ _ x); [apply map_values_elem; eauto|].
      destruct (Ha' _ _ Hx) as (-> & _). apply String.eqb_refl.
    + apply (find_first_elem _ _ x); [apply map_values_elem; eauto|].
      destruct (He' _ _ Hx) as (-> & _). apply String.eqb_refl.
Qed.

(** The loop over the filters, after [dn] of them. *)
Lemma runFilters_loop device l errs0 tr0 dn :
  (forall nf, nf ∈ l -> nf ∈ filters) ->
  (errs0 = [] -> forall nf, nf ∈ dn -> passed_in nf.2 device tr0) ->
  (forall err, err ∈ errs0 -> exists n f, (n, f) ∈ filters /\ ran_in f device (Some err) tr0) ->
  wp (fold_prog (fun nf errs => err <- (nf : string * Filter_t).2 device;;
        Ret match err with Some e => errs ++ [e] | None => errs end) l errs0) (fun errs tr =>
    (errs = [] -> forall nf, nf ∈ dn ++ l -> passed_in nf.2 device (tr0 ++ tr)) /\
    (forall err, err ∈ errs -> exists n f, (n, f) ∈ filters /\ ran_in f device (Some err) (tr0 ++ tr))).
Proof.
  revert errs0 tr0 dn. induction l as [|nf l IH]; intros errs0 tr0 dn Hsub Hok Herr; simpl.
  { rewrite !app_nil_r. done. }
  apply wp_bind, wp_bind. eapply wp_mono; [apply wp_self|]. intros o t Ht. simpl. rewrite app_nil_r.
  assert (Hran : ran_in nf.2 device o (tr0 ++ t)) by (exists tr0, t, []; by rewrite app_nil_r).
  eapply wp_mono; [apply (IH _ (tr0 ++ t) (dn ++ [nf]))|].
  - set_solver.
  - intros He x [Hx|Hx]%elem_of_app.
    + apply ran_in_app_r, Hok; [|done]. destruct o; [by destruct errs0|done].
    + apply list_elem_of_singleton in Hx as ->. destruct o; [by destruct errs0|done].
  - intros err He.
    assert (err ∈ errs0 \/ o = Some err) as [Hin| ->].
    { destruct o; [|by left]. apply elem_of_app in He as [?|He]; [by left|right].
      apply list_elem_of_singleton in He. congruence. }
    + destruct (Herr err Hin) as (n & f & ? & ?). exists n, f. split; [done|]. by apply ran_in_app_r.
    + exists nf.1, nf.2. split; [apply Hsub; destruct nf; set_solver|done].
  - intros errs tr [H1 H2]. rewrite (app_assoc tr0 t tr). split; [|exact H2].
    intros He x Hx. apply H1; [done|]. rewrite <- app_assoc. exact Hx.
Qed.

Lemma runFilters_spec device :
  wp (runFilters filters device) (fun errs tr =>
    (errs = [] -> accepted device tr) /\
    (errs <> [] -> rejected (mkFilteredBlockDevice device errs) tr)).
Proof.
  unfold runFilters. eapply wp_mono; [apply (runFilters_loop device _ [] [] [])|].
  - intros nf. by rewrite map_range_elem.
  - set_solver.
  - set_solver.
  - intros errs tr [H1 H2]. simpl in *. split.
    + intros He name f Hf. apply (H1 He (name, f)). by rewrite map_range_elem.
    + intros Hne. split; [done|exact H2].
Qed.

Lemma classify_Inv Q tr c device errs :
  Inv Q tr c ->
  (errs = [] -> accepted device tr) -> (errs <> [] -> rejected (mkFilteredBlockDevice device errs) tr) ->
  Inv (fun d => Q d \/ d = device) tr (classify device errs c).
Proof.
  intros [Ha He Hc] Hacc Hrej. unfold classify. destruct errs as [|e errs]; simpl.
  - split; simpl.
    + intros k d. rewrite lookup_insert_Some. intros [[<- <-]|[_ Hd]]; [auto|].
      destruct (Ha k d Hd) as (? & ? & ?). auto.
    + intros k x Hx. destruct (He k x Hx) as (? & ? & ?). auto.
    + intros d [Hd| ->]; [|left; rewrite lookup_insert_eq; eauto].
      destruct (decide (bd_KName device = bd_KName d)) as [<-|?]; [left; rewrite lookup_insert_eq; eauto|].
      rewrite lookup_insert_ne by done. auto.
  - specialize (Hrej ltac:(done)). split; simpl.
    + intros k d Hd. destruct (Ha k d Hd) as (? & ? & ?). auto.
    + intros k x. pose proof (addExcluded_lookup [mkFilteredBlockDevice device (e :: errs)] (excludedByKName c) k) as Hl.
      simpl in Hl. rewrite Hl. destruct (excludedByKName c !! k) as [y|] eqn:Hy.
      * intros [= <-]. destruct (He k _ Hy) as (? & ? & ?). auto.
      * destruct (String.eqb_spec (fb_KName (mkFilteredBlockDevice device (e :: errs))) k) as [<-|]; [|done].
        intros [= <-]. auto.
    + intros d Hd. pose proof (addExcluded_lookup [mkFilteredBlockDevice device (e :: errs)]
        (excludedByKName c) (bd_KName d)) as Hl. simpl in Hl. rewrite Hl.
      destruct (excludedByKName c !! bd_KName d) eqn:Hx; [right; eauto|].
      destruct Hd as [Hd| ->]; [destruct (Hc d Hd) as [?|[? ?]]; [by left|congruence]|].
      right. unfold fb_KName. simpl. rewrite String.eqb_refl. eauto.
Qed.

Lemma filterDevice_fold ds :
  Forall (fun d => forall c Q tr0, Inv Q tr0 c ->
    wp (filterDevice filters d c) (fun c' tr => Inv (fun x => Q x \/ in_tree x d) (tr0 ++ tr) c')) ds ->
  forall c Q tr0, Inv Q tr0 c ->
    wp (fold_prog (filterDevice filters) ds c) (fun c' tr => Inv (fun x => Q x \/ in_forest x ds) (tr0 ++ tr) c').
Proof.
  induction 1 as [|d ds Hd _ IH]; simpl; intros c Q tr0 Hi.
  - apply (Inv_extend Q _ tr0 [] []); [done|]. intros d. split; [auto|]. intros [?|(x & Hx & _)]; [done|set_solver].
  - apply wp_bind. eapply wp_mono; [apply Hd, Hi|]. intros c1 t1 Hi1. simpl.
    eapply wp_mono; [apply IH, Hi1|]. intros c2 t2 Hi2. cbv beta in Hi2. rewrite <- app_assoc in Hi2.
    pose proof (Inv_extend _ (fun x => Q x \/ in_forest x (d :: ds)) _ [] [] _ Hi2) as Hf.
    simpl in Hf. rewrite !app_nil_r in Hf. apply Hf. intros x. rewrite in_forest_cons. tauto.
Qed.

Lemma filterDevice_spec d : forall c Q tr0, Inv Q tr0 c ->
  wp (filterDevice filters d c) (fun c' tr => Inv (fun x => Q x \/ in_tree x d) (tr0 ++ tr) c').
Proof.
  induction d as [d IH] using BlockDevice_tree_ind. intros c Q tr0 Hi.
  assert (Hstep : forall c' Q' t, Inv Q' (tr0 ++ t) c' ->
    (forall x, Q' x \/ x = d <-> Q x \/ in_tree x d) ->
    wp (errs <- runFilters filters d;; Ret (classify d errs c')) (fun c'' tr =>
      Inv (fun x => Q x \/ in_tree x d) (tr0 ++ (t ++ tr)) c'')).
  { intros c' Q' t Hi' HQ. apply wp_bind. eapply wp_mono; [apply runFilters_spec|].
    intros errs t' [Hacc Hrej]. simpl. rewrite app_nil_r.
    assert (H0 : Inv (fun x => Q' x \/ x = d) ((tr0 ++ t) ++ t') (classify d errs c')).
    { apply classify_Inv; [by apply Inv_extend_r| |].
      - intros He. pose proof (accepted_app d t' (tr0 ++ t) [] (Hacc He)) as H. by rewrite app_nil_r in H.
      - intros He. pose proof (rejected_app _ t' (tr0 ++ t) [] (Hrej He)) as H. by rewrite app_nil_r in H. }
    pose proof (Inv_extend _ _ _ [] [] _ H0 HQ) as H1. simpl in H1. by rewrite app_nil_r, <- app_assoc in H1. }
  assert (Heq : filterDevice filters d c =
    (c <- (if HasChildren d then
             child <- fold_prog (filterDevice filters) (bd_Children d) (mkClassified ∅ ∅);;
             Ret (mergeChildren (collect child) c)
           else Ret c);;
     filterErrs <- runFilters filters d;;
     Ret (classify d filterErrs c))) by (by destruct d).
  rewrite Heq. clear Heq. apply wp_bind. destruct (HasChildren d) eqn:Hch.
  - apply wp_bind. eapply wp_mono; [apply (filterDevice_fold _ IH _ (fun _ => False) tr0), Inv_empty|].
    intros child t Hi'. simpl. rewrite app_nil_r.
    apply (Hstep _ (fun x => Q x \/ (False \/ in_forest x (bd_Children d)))).
    + apply mergeChildren_Inv; [by apply Inv_extend_r|exact Hi'].
    + intros x. rewrite (in_tree_inv x d). tauto.
  - simpl. apply (Hstep c Q []); [by rewrite app_nil_r|]. intros x. apply HasChildren_false in Hch.
    rewrite (in_tree_inv x d), Hch. unfold in_forest. set_solver.
Qed.

(** Keys of the map are the names of its values, so the values have distinct names. *)
Lemma map_values_NoDup {A} (m : gmap string A) (name : A -> string) :
  (forall k x, m !! k = Some x -> name x = k) -> NoDup (name <$> (map_range (map_to_list m)).*2).
Proof.
  intros H. rewrite <- list_fmap_compose.
  rewrite (Permutation_map _ (map_range_perm (map_to_list m))).
  rewrite (list_fmap_ext (name ∘ snd) fst (map_to_list m)).
  - apply NoDup_fst_map_to_list.
  - intros i [k x] Hx. simpl. apply H. apply elem_of_map_to_list. by eapply list_elem_of_lookup_2.
Qed.

(** What filterDevices guarantees of its result. *)
Record filtered_ok (devices : list BlockDevice) (r : FilteredBlockDevices) (tr : list (ev resolveE)) : Prop := mkFilteredOk {
  fo_available_names : NoDup (bd_KName <$> Available r);
  fo_excluded_names : NoDup (fb_KName <$> Excluded r);
  fo_available d : d ∈ Available r -> in_forest d devices /\ accepted d tr;
  fo_excluded e : e ∈ Excluded r -> in_forest (fb_BlockDevice e) devices /\ rejected e tr;
  fo_cover d : in_forest d devices ->
    bd_KName d ∈ bd_KName <$> Available r \/ bd_KName d ∈ fb_KName <$> Excluded r;
}.

Lemma filterDevices_ok devices : wp (filterDevices filters devices) (filtered_ok devices).
Proof.
  unfold filterDevices. apply wp_bind. eapply wp_mono.
  { apply (filterDevice_fold devices) with (Q := fun _ => False) (tr0 := []); [|apply Inv_empty].
    apply Forall_forall. intros d _. apply filterDevice_spec. }
  intros c tr [Ha He Hc]. simpl. rewrite app_nil_r. split; simpl.
  - apply map_values_NoDup. intros k x Hx. by apply Ha in Hx as (? & _).
  - apply map_values_NoDup. intros k x Hx. by apply He in Hx as (? & _).
  - intros d [k Hd]%map_values_elem. apply Ha in Hd as (_ & [[]|?] & ?). done.
  - intros e [k Hd]%map_values_elem. apply He in Hd as (_ & [[]|?] & ?). done.
  - intros d Hd. destruct (Hc d (or_intror Hd)) as [[x Hx]|[x Hx]]; [left|right].
    + apply list_elem_of_fmap. exists x. rewrite map_values_elem. apply Ha in Hx as Hx'. naive_solver.
    + apply list_elem_of_fmap. exists x. rewrite map_values_elem. apply He in Hx as Hx'. naive_solver.
Qed.

(** C26: filterDevices classifies every device of the lsblk tree, at any depth: each is listed
    by its kernel name, at most once as available and at most once as excluded; a device is
    available only if every filter ran on it and accepted it, and excluded only with at
    least one error, each returned by some filter that ran on it. *)
Theorem filterDevices_correct devices :
  wp (filterDevices filters devices) (fun r tr =>
    NoDup (bd_KName <$> Available r) /\ NoDup (fb_KName <$> Excluded r) /\
    (forall d, d ∈ Available r -> in_forest d devices /\ accepted d tr) /\
    (forall e, e ∈ Excluded r -> in_forest (fb_BlockDevice e) devices /\ rejected e tr) /\
    (forall d, in_forest d devices ->
       bd_KName d ∈ bd_KName <$> Available r \/ bd_KName d ∈ fb_KName <$> Excluded r)).
Proof. eapply wp_mono; [apply filterDevices_ok|]. by intros r tr []. Qed.
End Filtered.

(** * Theorems on the other operations *)

(** A mandatory path is usable: it resolved to an available device, or to a device
    of the volume group. *)
Definition path_usable (f : FilteredBlockDevices) (path : string) (tr : list (ev resolveE)) : Prop :=
  exists target, Ev (Resolve path) (Ok target) ∈ tr /\
    (target ∈ bd_KName <$> Available f \/
     exists err, err ∈ FilterErrors f target /\ errors_Is err "ErrDeviceAlreadySetupCorrectly" = true).

Lemma IsAvailable_spec f dev : IsAvailable f dev = true <-> dev ∈ bd_KName <$> Available f.
Proof.
  unfold IsAvailable. rewrite existsb_exists, list_elem_of_fmap. split.
  - intros (x & Hx & He). bools. exists x. by rewrite list_elem_of_In.
  - intros (x & -> & Hx). exists x. by rewrite String.eqb_refl, <- list_elem_of_In.
Qed.

(** The first path that is not usable. *)
Definition path_unusable (f : FilteredBlockDevices) (path : string) (tr : list (ev resolveE)) : Prop :=
  (exists e, Ev (Resolve path) (Err e) ∈ tr) \/
  (exists target, Ev (Resolve path) (Ok target) ∈ tr /\ (target ∉ bd_KName <$> Available f) /\
     forall err, err ∈ FilterErrors f target -> errors_Is err "ErrDeviceAlreadySetupCorrectly" = false).

Lemma verifyPath_spec f path :
  wp (verifyPath f path tt) (fun r tr =>
    match r with
    | inl _ => path_usable f path tr
    | inr err => err <> None /\ path_unusable f path tr
    end).
Proof.
  unfold verifyPath. apply wp_call. intros [target|e]; [|split; [done|left; set_solver]].
  cbv zeta. destruct (IsAvailable f target) eqn:Ha; simpl.
  { exists target. split; [set_solver|]. left. by apply IsAvailable_spec. }
  destruct (alreadySetup (FilterErrors f target)) eqn:Hs; simpl.
  - exists target. split; [set_solver|right]. apply existsb_exists in Hs as (err & He & ?).
    exists err. by rewrite list_elem_of_In.
  - split; [done|right]. exists target. split; [set_solver|]. split; [|by apply existsb_false].
    intros Hin%IsAvailable_spec. congruence.
Qed.

(** VerifyMandatoryDevicePaths succeeds exactly when every mandatory path resolves to an
    available device or to one that already is set up in the volume group. *)
Theorem VerifyMandatoryDevicePaths_correct f paths :
  wp (VerifyMandatoryDevicePaths f paths) (fun r tr =>
    (r = None -> forall path, path ∈ paths -> path_usable f path tr) /\
    (r <> None -> exists path, path ∈ paths /\ path_unusable f path tr)).
Proof.
  unfold VerifyMandatoryDevicePaths. apply wp_bind.
  assert (Hgen : wp (for_each (verifyPath f) paths tt) (fun r tr =>
    match r with
    | inl _ => forall path, path ∈ paths -> path_usable f path tr
    | inr err => err <> None /\ exists path, path ∈ paths /\ path_unusable f path tr
    end)).
  { induction paths as [|p paths IH]; [simpl; set_solver|]. cbn [for_each]. apply wp_bind.
    eapply wp_mono; [apply verifyPath_spec|]. intros [[]|err] t Ht; simpl.
    - eapply wp_mono; [apply IH|]. intros [u|err] t' Ht'.
      + intros path [->|Hp]%elem_of_cons.
        * destruct Ht as (x & ? & ?). exists x. set_solver.
        * destruct (Ht' path Hp) as (x & ? & ?). exists x. set_solver.
      + destruct Ht' as (? & path & Hp & Hu). split; [done|]. exists path. split; [set_solver|].
        destruct Hu as [[e He]|(x & Hx & ?)]; [left; exists e; set_solver|right; exists x; set_solver].
    - destruct Ht as [? Hu]. split; [done|]. exists p. split; [set_solver|]. by rewrite app_nil_r. }
  eapply wp_mono; [exact Hgen|]. intros [u|err] tr H; simpl; rewrite app_nil_r; [done|].
  destruct H. split; [done|]. done.
Qed.
