(* ===== verification/Raid.v ===== *)
(** RAID support of vgmanager (raid.go) and its Prometheus gauges (raid_metrics.go). *)

From S2P Require Import Prelude GoStd Effects Api K8sDemo LvAttr Exec Lvm.
From Stdlib Require Import SpecFloat.

Section Raid.
Context `{K : K8s}.

(** * Options and device counts *)

(** [fmt.Sprintf("%dk", q.Value()/1024)] *)
Definition stripeOptions (rc : RAIDConfig) : list string :=
  match rc_Stripes rc with Some s => ["--stripes"; Itoa s] | None => [] end ++
  match rc_StripeSize rc with Some q => ["--stripesize"; Itoa (Z.quot (q_Value q) 1024) +:+ "k"] | None => [] end.

Definition buildRAIDLVCreateOptions (rc : RAIDConfig) : list string :=
  let opts := ["--type"; RAIDType_string (rc_Type rc)] in
  match rc_Type rc with
  | RAIDTypeRAID1 => opts ++ ["-m"; Itoa (EffectiveMirrors rc)]
  | RAIDTypeRAID10 => opts ++ ["-m"; Itoa (EffectiveMirrors rc)] ++ stripeOptions rc
  | RAIDTypeRAID4 | RAIDTypeRAID5 | RAIDTypeRAID6 => opts ++ stripeOptions rc
  | RAIDTypeOther _ => opts
  end.

Definition validateRAIDDeviceCount (rc : RAIDConfig) (deviceCount : Z) : option error :=
  let mirrors := EffectiveMirrors rc in
  let minDevices := MinDeviceCount (rc_Type rc) mirrors (rc_Stripes rc) in
  if (deviceCount <? minDevices)%Z then
    Some (EFmt (RAIDType_string (rc_Type rc) +:+ " requires at least " +:+ Itoa minDevices +:+
                " devices, got " +:+ Itoa deviceCount) [])
  else if bool_decide (rc_Type rc = RAIDTypeRAID10) then
    let groupSize := wrap64 (mirrors + 1) in
    match int_rem deviceCount groupSize with
    | None => Some (EPanic "integer divide by zero")
    | Some r =>
        if negb (r =? 0)%Z then
          if (mirrors =? 1)%Z then
            Some (EFmt ("raid10 with mirrors=1 requires an even number of devices, got " +:+ Itoa deviceCount) [])
          else
            Some (EFmt ("raid10 with mirrors=" +:+ Itoa mirrors +:+ " requires a device count divisible by " +:+
                        Itoa groupSize +:+ ", got " +:+ Itoa deviceCount) [])
        else None
    end
  else None.

Definition computeOverheadFactor (rc : RAIDConfig) (deviceCount : Z) : spec_float :=
  let mirrors := EffectiveMirrors rc in
  match rc_Type rc with
  | RAIDTypeRAID1 | RAIDTypeRAID10 => float64_of_int (wrap64 (mirrors + 1))
  | RAIDTypeRAID4 | RAIDTypeRAID5 =>
      match rc_Stripes rc with
      | Some s => float64_div (float64_of_int (wrap64 (s + 1))) (float64_of_int s)
      | None =>
          if (deviceCount <=? 1)%Z then float64_of_int 1
          else float64_div (float64_of_int deviceCount) (float64_of_int (deviceCount - 1))
      end
  | RAIDTypeRAID6 =>
      match rc_Stripes rc with
      | Some s => float64_div (float64_of_int (wrap64 (s + 2))) (float64_of_int s)
      | None =>
          if (deviceCount <=? 2)%Z then float64_of_int 1
          else float64_div (float64_of_int deviceCount) (float64_of_int (deviceCount - 2))
      end
  | RAIDTypeOther _ => float64_of_int 1
  end.

(** * buildRAIDStatus *)

Definition isRAIDLV (lv : LogicalVolume) : bool :=
  match ParsedLvAttr (lv_LvAttr lv) with
  | Ok a => is_raid_volume (la_VolumeType a)
  | Err _ => false
  end.

(** The internal image and metadata volumes of a RAID volume. *)
Definition isSubLV (lv : LogicalVolume) : bool :=
  Contains (lv_Name lv) "_rimage_" || Contains (lv_Name lv) "_rmeta_".

Definition syncPercentOf (lv : LogicalVolume) : Z :=
  if String.eqb (lv_RAIDSyncPercent lv) "" then 100
  else match ParseFloat (lv_RAIDSyncPercent lv) false with
       | Ok parsed => int_of_float64 parsed
       | Err _ => 100
       end.

(** The first loop. *)
Fixpoint collectHealth (raidType : RAIDType) (lvs : list LogicalVolume) (lvHealth : list RAIDLVHealth)
  : list RAIDLVHealth :=
  match lvs with
  | [] => lvHealth
  | lv :: lvs =>
      if negb (isRAIDLV lv) then collectHealth raidType lvs lvHealth
      else if isSubLV lv then collectHealth raidType lvs lvHealth
      else collectHealth raidType lvs
             (lvHealth ++ [mkRAIDLVHealth (lv_Name lv) raidType (syncPercentOf lv) (lv_LVHealthStatus lv)])
  end.

(** (failed, degraded) *)
Fixpoint countHealth (hs : list RAIDLVHealth) (failed degraded : nat) : nat * nat :=
  match hs with
  | [] => (failed, degraded)
  | h :: hs =>
      if String.eqb (lh_HealthStatus h) "" then countHealth hs failed degraded
      else if String.eqb (lh_HealthStatus h) "partial" then countHealth hs failed (S degraded)
      else countHealth hs (S failed) degraded
  end.

(** A RAID volume with the partial flag; the loop stops at the first. *)
Definition anyPartial (lvs : list LogicalVolume) : bool :=
  existsb (fun lv =>
    match ParsedLvAttr (lv_LvAttr lv) with
    | Ok a => is_raid_volume (la_VolumeType a) && bool_decide (la_Partial a = PartialTrue)
    | Err _ => false
    end) lvs.

Definition missingPVs (pvs : list PhysicalVolume) : list PhysicalVolume :=
  List.filter (fun pv => negb (String.eqb (PvMissing pv) "")) pvs.

Definition minSync (hs : list RAIDLVHealth) : Z :=
  foldl (fun m h => if (lh_SyncPercent h <? m)%Z then lh_SyncPercent h else m) 100%Z hs.

Definition buildRAIDStatus (lvs : list LogicalVolume) (pvs : list PhysicalVolume) (raidType : RAIDType)
  : option RAIDStatus :=
  let lvHealth := collectHealth raidType lvs [] in
  if ((length lvHealth =? 0) && (length pvs =? 0))%nat then None
  else
    let '(failedCount, degradedCount) := countHealth lvHealth 0 0 in
    let overallStatus :=
      if (0 <? length lvHealth)%nat then
        if (failedCount =? length lvHealth)%nat then RAIDHealthStatusFailed
        else if (0 <? failedCount)%nat || (0 <? degradedCount)%nat then RAIDHealthStatusDegraded
        else RAIDHealthStatusHealthy
      else RAIDHealthStatusHealthy in
    let overallStatus :=
      if bool_decide (overallStatus = RAIDHealthStatusHealthy) && anyPartial lvs
      then RAIDHealthStatusDegraded else overallStatus in
    let degradedMemberCount := Z.of_nat (length (missingPVs pvs)) in
    let overallStatus :=
      if (0 <? degradedMemberCount)%Z && bool_decide (overallStatus = RAIDHealthStatusHealthy)
      then RAIDHealthStatusDegraded else overallStatus in
    Some {| rs_Status := overallStatus;
            rs_MemberCount := Z.of_nat (length pvs);
            rs_DegradedMemberCount := degradedMemberCount;
            rs_MinSyncPercent := if (0 <? length lvHealth)%nat then Some (minSync lvHealth) else None;
            rs_LVHealth := lvHealth |}.

End Raid.

(** * Gauges *)

Inductive RAIDGauge :=
| raidHealthStatus | raidSyncInProgress | raidMemberCount | raidDegradedCount | raidSyncPercent.

#[export] Instance RAIDGauge_eq_dec : EqDecision RAIDGauge.
Proof. solve_decision. Defined.

Definition RAIDMetrics : list RAIDGauge :=
  [raidHealthStatus; raidSyncInProgress; raidMemberCount; raidDegradedCount; raidSyncPercent].

(** The values are the float64 conversions of the integers given here. *)
Inductive gaugeE : Type -> Type :=
| SetGauge (g : RAIDGauge) (node deviceClass : string) (value : Z) : gaugeE unit
| DeleteLabelValues (g : RAIDGauge) (node deviceClass : string) : gaugeE unit.

Definition healthValue (s : RAIDHealthStatus) : Z :=
  match s with RAIDHealthStatusHealthy => 0 | RAIDHealthStatusDegraded => 1 | RAIDHealthStatusFailed => 2 end.

Definition updateRAIDMetrics (nodeName deviceClassName : string) (raidStatus : option RAIDStatus) : prog gaugeE unit :=
  match raidStatus with
  | None =>
      call (SetGauge raidHealthStatus nodeName deviceClassName 0);;
      call (SetGauge raidSyncInProgress nodeName deviceClassName 0);;
      call (SetGauge raidMemberCount nodeName deviceClassName 0);;
      call (SetGauge raidDegradedCount nodeName deviceClassName 0);;
      call (SetGauge raidSyncPercent nodeName deviceClassName 100)
  | Some rs =>
      call (SetGauge raidHealthStatus nodeName deviceClassName (healthValue (rs_Status rs)));;
      call (SetGauge raidSyncInProgress nodeName deviceClassName
              (if existsb (fun lv => (lh_SyncPercent lv <? 100)%Z) (rs_LVHealth rs) then 1 else 0));;
      call (SetGauge raidMemberCount nodeName deviceClassName (rs_MemberCount rs));;
      call (SetGauge raidDegradedCount nodeName deviceClassName (rs_DegradedMemberCount rs));;
      call (SetGauge raidSyncPercent nodeName deviceClassName (Deref (rs_MinSyncPercent rs) 100%Z))
  end.

Definition deleteRAIDMetrics (nodeName deviceClassName : string) : prog gaugeE unit :=
  call (DeleteLabelValues raidHealthStatus nodeName deviceClassName);;
  call (DeleteLabelValues raidSyncInProgress nodeName deviceClassName);;
  call (DeleteLabelValues raidMemberCount nodeName deviceClassName);;
  call (DeleteLabelValues raidDegradedCount nodeName deviceClassName);;
  call (DeleteLabelValues raidSyncPercent nodeName deviceClassName).

(** * Theorems *)

Section Facts.
Context `{K : K8s}.

(** The number of devices the level needs. *)
Definition devices_needed (rc : RAIDConfig) : Z := min_devices_spec (rc_Type rc) (EffectiveMirrors rc) (rc_Stripes rc).

Lemma raid_schema_mirrors rc : raid_schema rc -> (1 <= EffectiveMirrors rc)%Z.
Proof. intros [H _]. unfold EffectiveMirrors. destruct (rc_Mirrors rc) eqn:E; [by apply H|done]. Qed.

Lemma raid_schema_stripes rc : raid_schema rc -> (0 <= Deref (rc_Stripes rc) 0)%Z.
Proof. intros [_ H]. destruct (rc_Stripes rc) eqn:E; simpl; [|done]. specialize (H _ eq_refl). lia. Qed.

(** C40: let the mirrors and stripes of a RAID configuration be 64-bit integers that satisfy the
    schema of the API. If the number of devices the level needs fits 64 bits, validateRAIDDeviceCount
    accepts a number of devices exactly when the level can be built on them: at least the number
    needed, and for raid10 a multiple of the mirror group. If it does not fit, the minimum wraps
    around, and for a level other than raid10 every number of devices is accepted. *)
Theorem validateRAIDDeviceCount_correct rc n :
  raid_schema rc -> (EffectiveMirrors rc <= max_int64)%Z -> (Deref (rc_Stripes rc) 0 <= max_int64)%Z -> (0 <= n)%Z ->
  (in_int64 (devices_needed rc) ->
   (validateRAIDDeviceCount rc n = None <->
    (devices_needed rc <= n)%Z /\ (rc_Type rc = RAIDTypeRAID10 -> (EffectiveMirrors rc + 1 | n)%Z))) /\
  (~ in_int64 (devices_needed rc) -> rc_Type rc <> RAIDTypeRAID10 -> validateRAIDDeviceCount rc n = None).
Proof.
  intros Hs Hmax Hsmax Hn. pose proof (raid_schema_mirrors rc Hs). pose proof (raid_schema_stripes rc Hs).
  unfold validateRAIDDeviceCount, devices_needed. split.
  - intros Hin. rewrite MinDeviceCount_exact by (done || lia).
    destruct (Z.ltb_spec n (min_devices_spec (rc_Type rc) (EffectiveMirrors rc) (rc_Stripes rc))) as [Hlt|Hge].
    { split; [done|lia]. }
    case_bool_decide as Ht; [|naive_solver].
    rewrite Ht in Hin. unfold in_int64, min_int64, max_int64 in Hin. simpl in Hin.
    rewrite wrap64_id by (unfold in_int64, min_int64, max_int64; lia).
    unfold int_rem. destruct (Z.eqb_spec (EffectiveMirrors rc + 1) 0) as [|Hnz]; [lia|].
    destruct (Z.eqb_spec (Z.rem n (EffectiveMirrors rc + 1)) 0) as [Hr|Hr]; simpl.
    + split; [|done]. intros _. split; [done|]. intros _. by apply Z.rem_divide.
    + split; [by case_match|]. intros [_ Hd]. destruct Hr. apply Z.rem_divide; auto.
  - intros Hout Ht. assert (Hle : (MinDeviceCount (rc_Type rc) (EffectiveMirrors rc) (rc_Stripes rc) <= 0)%Z)
      by (apply MinDeviceCount_wraps; [lia|lia|done]).
    destruct (Z.ltb_spec n (MinDeviceCount (rc_Type rc) (EffectiveMirrors rc) (rc_Stripes rc))) as [Hlt|Hge]; [lia|].
    by rewrite bool_decide_eq_false_2.
Qed.

Definition raidLVs (lvs : list LogicalVolume) : list LogicalVolume :=
  List.filter (fun lv => isRAIDLV lv && negb (isSubLV lv)) lvs.

Definition healthOf (raidType : RAIDType) (lv : LogicalVolume) : RAIDLVHealth :=
  mkRAIDLVHealth (lv_Name lv) raidType (syncPercentOf lv) (lv_LVHealthStatus lv).

Lemma collectHealth_spec rt lvs acc : collectHealth rt lvs acc = acc ++ map (healthOf rt) (raidLVs lvs).
Proof.
  revert acc. induction lvs as [|lv lvs IH]; intros acc; simpl; [by rewrite app_nil_r|].
  destruct (isRAIDLV lv), (isSubLV lv); simpl; rewrite IH; try done. by rewrite <- app_assoc.
Qed.

Definition lv_healthy (lv : LogicalVolume) : Prop := lv_LVHealthStatus lv = "".
Definition lv_failed (lv : LogicalVolume) : Prop :=
  lv_LVHealthStatus lv <> "" /\ lv_LVHealthStatus lv <> "partial".

(** A RAID volume whose attributes have the partial flag. *)
Definition lv_partial (lv : LogicalVolume) : Prop :=
  exists a, ParsedLvAttr (lv_LvAttr lv) = Ok a /\ is_raid_volume (la_VolumeType a) = true /\ la_Partial a = PartialTrue.

Lemma anyPartial_spec lvs : anyPartial lvs = true <-> exists lv, lv ∈ lvs /\ lv_partial lv.
Proof.
  unfold anyPartial, lv_partial. rewrite existsb_exists. split.
  - intros (lv & Hin & H). exists lv. rewrite list_elem_of_In. split; [done|].
    destruct (ParsedLvAttr (lv_LvAttr lv)) as [a|]; [|done]. bools. by exists a.
  - intros (lv & Hin & a & Ha & Hr & Hp). exists lv. rewrite <- list_elem_of_In. split; [done|]. rewrite Ha.
    rewrite Hr. by apply bool_decide_eq_true_2.
Qed.

(** The two counters: all failed, none failed or partial. *)
Lemma countHealth_spec rt lvs f d :
  let '(f', d') := countHealth (map (healthOf rt) lvs) f d in
  (f' <= f + length lvs)%nat /\
  (f' = (f + length lvs)%nat <-> Forall lv_failed lvs) /\
  (f' = f /\ d' = d <-> Forall lv_healthy lvs) /\ (f <= f')%nat /\ (d <= d')%nat.
Proof.
  revert f d. induction lvs as [|lv lvs IH]; intros f d; simpl.
  { rewrite Nat.add_0_r. repeat split; try constructor; lia. }
  assert (Hcons : forall P, Forall P (lv :: lvs) <-> P lv /\ Forall P lvs) by (intros P; apply Forall_cons).
  destruct (String.eqb_spec (lv_LVHealthStatus lv) "") as [He|Hne].
  { specialize (IH f d). destruct (countHealth _ _ _) as [f' d']. rewrite !Hcons. unfold lv_failed at 1, lv_healthy at 1.
    intuition (try lia; try done). }
  destruct (String.eqb_spec (lv_LVHealthStatus lv) "partial") as [He|Hnp].
  { specialize (IH f (S d)). destruct (countHealth _ _ _) as [f' d']. rewrite !Hcons. unfold lv_failed at 1, lv_healthy at 1.
    intuition (try lia; try done). }
  specialize (IH (S f) d). destruct (countHealth _ _ _) as [f' d'].
  destruct IH as (H1 & H2 & H3 & H4 & H5). rewrite !Hcons. split; [lia|]. split; [|split; [|lia]].
  - rewrite <- H2. unfold lv_failed. intuition lia.
  - split; [lia|]. intros [? _]. done.
Qed.

Lemma minSync_spec hs m0 :
  let m := foldl (fun m h => if (lh_SyncPercent h <? m)%Z then lh_SyncPercent h else m) m0 hs in
  (m <= m0)%Z /\ (forall h, h ∈ hs -> (m <= lh_SyncPercent h)%Z) /\
  (m = m0 \/ exists h, h ∈ hs /\ m = lh_SyncPercent h).
Proof.
  revert m0. induction hs as [|h hs IH]; intros m0; simpl; [split; [lia|split; [set_solver|by left]]|].
  specialize (IH (if (lh_SyncPercent h <? m0)%Z then lh_SyncPercent h else m0)). simpl in IH.
  destruct IH as (H1 & H2 & H3). destruct (Z.ltb_spec (lh_SyncPercent h) m0).
  - split; [lia|]. split; [intros x [->|Hx]%elem_of_cons; [lia|by apply H2]|].
    right. destruct H3 as [->|(x & Hx & ->)]; [exists h; set_solver|exists x; set_solver].
  - split; [lia|]. split; [intros x [->|Hx]%elem_of_cons; [lia|by apply H2]|].
    destruct H3 as [->|(x & Hx & ->)]; [by left|right; exists x; set_solver].
Qed.

Lemma missingPVs_nil pvs : (0 <? Z.of_nat (length (missingPVs pvs)))%Z = false <-> forall pv, pv ∈ pvs -> PvMissing pv = "".
Proof.
  rewrite Z.ltb_ge. unfold missingPVs. induction pvs as [|pv pvs IH]; simpl; [set_solver|].
  destruct (String.eqb_spec (PvMissing pv) "") as [He|He]; simpl.
  - rewrite IH. set_solver.
  - split; [lia|]. intros H. destruct He. apply H. set_solver.
Qed.

(** The documented meaning of a RAID status. *)
Record status_ok (lvs : list LogicalVolume) (pvs : list PhysicalVolume) (rt : RAIDType) (s : RAIDStatus) : Prop := mkStatusOk {
  so_health : rs_LVHealth s = map (healthOf rt) (raidLVs lvs);
  so_failed : rs_Status s = RAIDHealthStatusFailed <-> raidLVs lvs <> [] /\ Forall lv_failed (raidLVs lvs);
  so_healthy : rs_Status s = RAIDHealthStatusHealthy <->
    Forall lv_healthy (raidLVs lvs) /\ (forall lv, lv ∈ lvs -> ~ lv_partial lv) /\
    (forall pv, pv ∈ pvs -> PvMissing pv = "");
  so_members : rs_MemberCount s = Z.of_nat (length pvs) /\
               rs_DegradedMemberCount s = Z.of_nat (length (missingPVs pvs));
  so_minsync : match rs_MinSyncPercent s with
    | None => raidLVs lvs = []
    | Some m => raidLVs lvs <> [] /\ (m <= 100)%Z /\
        (forall lv, lv ∈ raidLVs lvs -> (m <= syncPercentOf lv)%Z) /\
        (m = 100%Z \/ exists lv, lv ∈ raidLVs lvs /\ m = syncPercentOf lv)
    end;
}.

Lemma minSync_raid rt lvs : lvs <> [] ->
  let m := minSync (map (healthOf rt) lvs) in
  lvs <> [] /\ (m <= 100)%Z /\ (forall lv, lv ∈ lvs -> (m <= syncPercentOf lv)%Z) /\
  (m = 100%Z \/ exists lv, lv ∈ lvs /\ m = syncPercentOf lv).
Proof.
  intros Hne. cbv zeta. destruct (minSync_spec (map (healthOf rt) lvs) 100) as (H1 & H2 & H3).
  split; [done|]. split; [exact H1|]. split.
  - intros lv Hlv. apply (H2 (healthOf rt lv)). apply list_elem_of_fmap. eauto.
  - destruct H3 as [?|(h & (lv & -> & Hlv)%list_elem_of_fmap & ?)]; [by left|right]. by exists lv.
Qed.

Lemma status_classification (P H Pa Mi : bool) (n : nat) (f d : nat) :
  n <> 0%nat -> (f <= n)%nat ->
  let st0 := if (f =? n)%nat then RAIDHealthStatusFailed
             else if (0 <? f)%nat || (0 <? d)%nat then RAIDHealthStatusDegraded else RAIDHealthStatusHealthy in
  let st1 := if bool_decide (st0 = RAIDHealthStatusHealthy) && Pa then RAIDHealthStatusDegraded else st0 in
  let st2 := if Mi && bool_decide (st1 = RAIDHealthStatusHealthy) then RAIDHealthStatusDegraded else st1 in
  (st2 = RAIDHealthStatusFailed <-> f = n) /\
  (st2 = RAIDHealthStatusHealthy <-> (f = 0%nat /\ d = 0%nat) /\ Pa = false /\ Mi = false).
Proof.
  intros Hn Hf. cbv zeta.
  destruct (Nat.eqb_spec f n); destruct (Nat.ltb_spec 0 f); destruct (Nat.ltb_spec 0 d); destruct Pa, Mi;
    simpl; repeat split; intros; try lia; try done; try (destruct_and!; (lia || done)).
Qed.

(** BuildRAIDStatus returns nil exactly when there is neither a RAID volume nor a physical
    volume; otherwise the status is Failed iff every RAID volume has failed, Healthy iff no
    volume is unhealthy or partial and no physical volume is missing, Degraded in all other
    cases, the counters are exact and the reported synchronisation is the minimum over the
    RAID volumes. *)
Theorem buildRAIDStatus_correct lvs pvs rt :
  match buildRAIDStatus lvs pvs rt with
  | None => raidLVs lvs = [] /\ pvs = []
  | Some s => (raidLVs lvs <> [] \/ pvs <> []) /\ status_ok lvs pvs rt s
  end.
Proof.
  unfold buildRAIDStatus. rewrite collectHealth_spec. simpl. rewrite length_map.
  destruct (raidLVs lvs) as [|lv0 lvs0] eqn:Hl.
  - destruct pvs as [|pv pvs]; simpl; [done|]. split; [by right|].
    assert (Hpart := anyPartial_spec lvs). assert (Hmiss := missingPVs_nil (pv :: pvs)).
    split; simpl; rewrite ?Hl; try done.
    + split; [|by intros []]. by destruct (anyPartial lvs), (0 <? _)%Z.
    + destruct (anyPartial lvs) eqn:Hp; simpl.
      * rewrite andb_false_r. split; [done|]. intros (_ & Hn & _).
        destruct (proj1 Hpart eq_refl) as (lv & Hin & Hlp). by destruct (Hn lv Hin).
      * destruct (0 <? _)%Z eqn:Hm; simpl.
        -- split; [done|]. intros (_ & _ & Hn). by apply Hmiss in Hn.
        -- split; [|done]. intros _. split; [done|]. split; [|by apply Hmiss].
           intros lv Hin Hlp. assert (false = true) by (apply Hpart; eauto). done.
  - rewrite <- Hl. assert (Hne : raidLVs lvs <> []) by (by rewrite Hl).
    assert (Hlen : length (raidLVs lvs) <> 0%nat) by (by rewrite Hl).
    pose proof (countHealth_spec rt (raidLVs lvs) 0 0) as Hc.
    destruct (length (raidLVs lvs)) as [|n] eqn:Hn; [done|]. cbn [Nat.eqb andb].
    destruct (countHealth _ _ _) as [f d]. destruct Hc as (Hle & Hall & Hnone & _).
    pose proof (status_classification true true (anyPartial lvs)
      (0 <? Z.of_nat (length (missingPVs pvs)))%Z (S n) f d ltac:(done) ltac:(lia)) as [Hf Hh].
    split; [by left|]. split; cbn [rs_LVHealth rs_Status rs_MemberCount rs_DegradedMemberCount rs_MinSyncPercent Nat.ltb Nat.leb] in *.
    + done.
    + rewrite Hf, <- Hall. split; [intros ->; split; [done|lia]|lia].
    + rewrite Hh, Hnone, missingPVs_nil. rewrite <- not_true_iff_false, anyPartial_spec. naive_solver.
    + done.
    + exact (minSync_raid rt (raidLVs lvs) Hne).
Qed.
End Facts.

Module Demo.
Definition demo_raid10 : @RAIDConfig demo_K8s := mkRAIDConfig RAIDTypeRAID10 (Some 2%Z) (Some 2%Z) None.

Lemma validateRAIDDeviceCount_correct_witness :
  raid_schema demo_raid10 /\ in_int64 (devices_needed demo_raid10) /\
  (validateRAIDDeviceCount demo_raid10 6 = None <->
   (devices_needed demo_raid10 <= 6)%Z /\ (rc_Type demo_raid10 = RAIDTypeRAID10 -> (EffectiveMirrors demo_raid10 + 1 | 6)%Z)).
Proof.
  assert (Hs : raid_schema demo_raid10) by (split; intros ? [= <-]; lia).
  assert (Hin : in_int64 (devices_needed demo_raid10)) by (split; vm_compute; discriminate).
  split; [exact Hs|]. split; [exact Hin|].
  apply (validateRAIDDeviceCount_correct demo_raid10 6 Hs); [vm_compute; discriminate|vm_compute; discriminate|lia|exact Hin].
Defined.
End Demo.
