(* ===== verification/VgEnv.v ===== *)
(** The environment of the volume group controller: the fields of its Reconciler
    (controller.go) and the interfaces it calls, as one family of events [vgE]. *)

From S2P Require Import Prelude GoStd Effects Api Exec Lvm HostTools Resolver Lvmd Raid.

Section VgEnv.
Context `{K : K8s}.

(** The configuration fields of Reconciler; its interfaces are the events below. *)
Record Reconciler := mkReconciler { NodeName : string; Namespace : string }.

(** The objects the controller reads and writes through the Kubernetes API. A
    StorageClass is its reclaim policy. [CreateOrUpdateNodeStatus] is
    controllerutil.CreateOrUpdate: it applies [mutate] to the stored object (or to a
    fresh one) and stores the result; it answers whether something was changed. *)
Inductive clientE : Type -> Type :=
| GetVolumeGroup (namespace name : string) : clientE (result error LVMVolumeGroup)
| GetNode (name : string) : clientE (result error Node)
| GetNodeStatus (namespace name : string) : clientE (result error LVMVolumeGroupNodeStatus)
| GetStorageClass (name : string) : clientE (result error (option ReclaimPolicy))
| UpdateVolumeGroup (vg : LVMVolumeGroup) : clientE (option error)
| CreateOrUpdateNodeStatus (namespace name : string)
    (mutate : LVMVolumeGroupNodeStatus -> LVMVolumeGroupNodeStatus) : clientE (bool * option error).

(** What an event is recorded on. *)
Inductive EventTarget :=
| OnNodeStatus (namespace name : string)
| OnOwner (ref : OwnerReference) (namespace : string)
| OnVolumeGroup (vg : LVMVolumeGroup).

Inductive recorderE : Type -> Type :=
| Eventf (target : EventTarget) (warning : bool) (reason action note : string) : recorderE unit.

(** The clock, as RFC 3339 text, and the verbosity of the logger. *)
Inductive processE : Type -> Type :=
| Now : processE string
| LogV1Enabled : processE bool.

Inductive vgE : Type -> Type :=
| OfLVM X (e : lvmE X) : vgE X
| OfLSBLK X (e : lsblkE X) : vgE X
| OfWipefs X (e : wipefsE X) : vgE X
| OfDmsetup X (e : dmsetupE X) : vgE X
| OfLVMD X (e : lvmdE X) : vgE X
| OfResolver X (e : resolveE X) : vgE X
| OfGauges X (e : gaugeE X) : vgE X
| OfClient X (e : clientE X) : vgE X
| OfRecorder X (e : recorderE X) : vgE X
| OfProcess X (e : processE X) : vgE X.

(** A call through one of the interfaces. *)
Definition lvm {X} (e : lvmE X) : prog vgE X := call (OfLVM X e).
Definition client {X} (e : clientE X) : prog vgE X := call (OfClient X e).

Definition with_vg_meta (vg : LVMVolumeGroup) (m : ObjectMeta) : LVMVolumeGroup :=
  {| lvg_meta := m; lvg_Spec := lvg_Spec vg |}.

Definition with_annotations (m : ObjectMeta) (a : option (gmap string string)) : ObjectMeta :=
  {| om_Name := om_Name m; om_Namespace := om_Namespace m; om_UID := om_UID m; om_Labels := om_Labels m;
     om_Annotations := a; om_Finalizers := om_Finalizers m; om_OwnerReferences := om_OwnerReferences m;
     om_DeletionTimestamp := om_DeletionTimestamp m |}.

Definition with_finalizers (m : ObjectMeta) (f : list string) : ObjectMeta :=
  {| om_Name := om_Name m; om_Namespace := om_Namespace m; om_UID := om_UID m; om_Labels := om_Labels m;
     om_Annotations := om_Annotations m; om_Finalizers := f; om_OwnerReferences := om_OwnerReferences m;
     om_DeletionTimestamp := om_DeletionTimestamp m |}.

Definition with_owners (m : ObjectMeta) (o : list OwnerReference) : ObjectMeta :=
  {| om_Name := om_Name m; om_Namespace := om_Namespace m; om_UID := om_UID m; om_Labels := om_Labels m;
     om_Annotations := om_Annotations m; om_Finalizers := om_Finalizers m; om_OwnerReferences := o;
     om_DeletionTimestamp := om_DeletionTimestamp m |}.
End VgEnv.

(** controllerutil (sigs.k8s.io/controller-runtime): finalizers and owner references. *)
Class ControllerUtil `{K : K8s} := {
  (** the new finalizers and whether they changed *)
  AddFinalizer : list string -> string -> list string * bool;
  RemoveFinalizer : list string -> string -> list string * bool;
  ContainsFinalizer : list string -> string -> bool;
  (** SetOwnerReference(owner, object): the new owner references of the object *)
  SetOwnerReference : LVMVolumeGroup -> ObjectMeta -> result error (list OwnerReference);
}.

(** Documented behaviour of the finalizer functions. *)
Class ControllerUtilLaws `{K : K8s} (C : ControllerUtil) := {
  AddFinalizer_spec : forall fs f, AddFinalizer fs f = if contains_str fs f then (fs, false) else (fs ++ [f], true);
  RemoveFinalizer_spec : forall fs f,
    (f ∉ (RemoveFinalizer fs f).1) /\ ((RemoveFinalizer fs f).2 = contains_str fs f) /\
    (forall g, g <> f -> (g ∈ (RemoveFinalizer fs f).1 <-> g ∈ fs));
  ContainsFinalizer_spec : forall fs f, ContainsFinalizer fs f = contains_str fs f;
}.

(** A concrete instance. *)
#[export] Instance demo_controller_util `{K : K8s} : ControllerUtil := {|
  AddFinalizer := fun fs f => if contains_str fs f then (fs, false) else (fs ++ [f], true);
  RemoveFinalizer := fun fs f => (List.filter (fun g => negb (String.eqb g f)) fs, contains_str fs f);
  ContainsFinalizer := contains_str;
  SetOwnerReference := fun vg m =>
    Ok (om_OwnerReferences m ++ [mkOwnerReference "lvm.topolvm.io/v1alpha1" "LVMVolumeGroup" (lvg_Name vg) (om_UID (lvg_meta vg))]) |}.

Lemma demo_controller_util_laws `{K : K8s} : ControllerUtilLaws demo_controller_util.
Proof.
  split; [done| |done]. intros fs f. simpl.
  assert (H : forall g, g ∈ List.filter (fun g => negb (String.eqb g f)) fs <-> g ∈ fs /\ g <> f).
  { intros g. rewrite !list_elem_of_In, filter_In, negb_true_iff, String.eqb_neq. done. }
  split; [rewrite H; naive_solver|]. split; [done|]. intros g Hg. rewrite H. naive_solver.
Qed.

(** * Classification of calls *)

Section Calls.
Context `{K : K8s}.

(** A call that changes neither the disks of the host nor the Kubernetes objects. *)
Definition read_only_lvm {X} (e : lvmE X) : bool :=
  match e with
  | GetVG _ | ListPVs _ | ListVGs _ | ListLVsByName _ | ListLVs _ | LVExists _ _ => true
  | _ => false
  end.
End Calls.
