(* ===== verification/Wipe.v ===== *)
(** Wiping of devices (internal/controllers/vgmanager/wipe_devices.go). *)

From S2P Require Import Prelude GoStd Effects Api K8sDemo Exec Lvm HostTools Resolver Lvmd Filter Raid VgEnv.

Definition DevicesWipedAnnotationPrefix := "wiped.devices.lvms.openshift.io/".

Section Wipe.
Context `{K : K8s}.
Variable r : Reconciler.

Definition wipedAnnotation : string := DevicesWipedAnnotationPrefix +:+ NodeName r.

Definition shouldWipeDevicesOnVolumeGroup (vg : LVMVolumeGroup) : bool :=
  match vgs_DeviceSelector (lvg_Spec vg) with
  | None => false
  | Some sel =>
      match ds_ForceWipeDevicesAndDestroyAllData sel with
      | None => false
      | Some force =>
          if negb force then false
          else
            let wipedBefore :=
              match om_Annotations (lvg_meta vg) with
              | Some annotations => bool_decide (is_Some (annotations !! wipedAnnotation))
              | None => false
              end in
            negb wipedBefore
      end
  end.

(** From the innermost child outwards; failures are logged only. *)
Fixpoint removeMapperReference (device : BlockDevice) : prog vgE unit :=
  (if HasChildren device
   then fold_prog (fun child _ => removeMapperReference child) (bd_Children device) tt
   else Ret tt);;
  if String.eqb (bd_Type device) "part" then Ret tt
  else
    call (OfDmsetup _ (Remove (bd_KName device)));;
    Ret tt.

(** One iteration of the loop of wipeDevice. [inr] leaves the loop: after the device
    was wiped ([break]) or with an error. *)
Fixpoint wipeTree (deviceName : string) (device : BlockDevice) (wiped : bool)
  : prog vgE (bool + (bool * option error)) :=
  if String.eqb (bd_KName device) deviceName then
    fold_prog (fun child _ => removeMapperReference child) (bd_Children device) tt;;
    guard call (OfWipefs _ (Wipe (bd_KName device))) catch err => Ret (inr (false, Some err)) in
    Ret (inr (true, None))
  else if HasChildren device then
    res <- for_each (wipeTree deviceName) (bd_Children device) false;;
    Ret match res with
        | inl childWiped | inr (childWiped, None) => inl (if childWiped then true else wiped)
        | inr (_, Some err) => inr (false, Some err)
        end
  else Ret (inl wiped).

Definition wipeDevice (deviceName : string) (blockDevices : list BlockDevice) : prog vgE (bool * option error) :=
  res <- for_each (wipeTree deviceName) blockDevices false;;
  Ret match res with inl wiped => (wiped, None) | inr v => v end.

Definition wipeRequired (blockDevices : list BlockDevice) (path : DevicePath) (updated : bool)
  : prog vgE (bool + error) :=
  let fail err := EFmt ("failed to wipe device " +:+ path +:+ ": " +:+ Error err) [err] in
  try pathResolved := call (OfResolver _ (Resolve (Unresolved path))) catch err => Ret (inr (fail err)) in
  ' (deviceWiped, err) <- wipeDevice pathResolved blockDevices;;
  Ret match err with
      | Some err => inr (fail err)
      | None => inl (if (deviceWiped : bool) then true else updated)
      end.

(** A path that does not resolve is looked up under the empty name. *)
Definition wipeOptional (blockDevices : list BlockDevice) (path : DevicePath) (updated : bool) : prog vgE bool :=
  res <- call (OfResolver _ (Resolve (Unresolved path)));;
  let pathResolved := match res with Ok p => p | Err _ => "" end in
  ' (deviceWiped, err) <- wipeDevice pathResolved blockDevices;;
  Ret match err with
      | Some _ => updated
      | None => if (deviceWiped : bool) then true else updated
      end.

Definition wipedMarker (now : string) : string :=
  "the devices of this volume group have been wiped at " +:+ now +:+
  " by lvms according to policy. This marker" +:+
  "serves as indicator that the devices have been wiped before and should not be wiped again." +:+
  "removal of this annotation is unsupported and may lead to data loss due to additional wiping.".

Definition markWiped (now : string) (vg : LVMVolumeGroup) : LVMVolumeGroup :=
  with_vg_meta vg (with_annotations (lvg_meta vg)
    (Some (<[wipedAnnotation := wipedMarker now]> (default ∅ (om_Annotations (lvg_meta vg)))))).

(** The volume group is returned as the function leaves it. *)
Definition wipeDevices (volumeGroup : LVMVolumeGroup) (blockDevices : list BlockDevice)
  : prog vgE (bool * option error * LVMVolumeGroup) :=
  if negb (shouldWipeDevicesOnVolumeGroup volumeGroup) then Ret (false, None, volumeGroup)
  else
    match vgs_DeviceSelector (lvg_Spec volumeGroup) with
    | None => Ret (false, Some (EPanic "nil pointer dereference"), volumeGroup)
    | Some sel =>
        res <- for_each (wipeRequired blockDevices) (ds_Paths sel) false;;
        match res with
        | inr err => Ret (false, Some err, volumeGroup)
        | inl updated =>
            updated <- fold_prog (wipeOptional blockDevices) (ds_OptionalPaths sel) updated;;
            if (updated : bool) then
              now <- call (OfProcess _ Now);;
              Ret (true, None, markWiped now volumeGroup)
            else Ret (false, None, volumeGroup)
        end
    end.

(** * Theorems *)

(** The destructive calls of a trace, and the answers of the resolver. *)
Definition wipe_of (v : ev vgE) : option string :=
  match v with
  | @Ev _ X e _ => match e with OfWipefs _ (Wipe d) => Some d | _ => None end
  end.
Definition mapper_of (v : ev vgE) : option string :=
  match v with
  | @Ev _ X e _ => match e with OfDmsetup _ (Remove d) => Some d | _ => None end
  end.
Definition resolve_of (v : ev vgE) : option (string * string) :=
  match v with
  | @Ev _ X e x =>
      match e in vgE X return X -> option (string * string) with
      | OfResolver X e => fun x =>
          match e in resolveE X return X -> option (string * string) with
          | Resolve path => fun res => match res with Ok t => Some (path, t) | Err _ => None end
          end x
      | _ => fun _ => None
      end x
  end.

(** What wiping the device called [name] may do: wipe exactly a listed device of that
    name, and remove mapper references of what lies below it. *)
Definition wipe_call (name : string) (bds : list BlockDevice) X (e : vgE X) : Prop :=
  match e with
  | OfWipefs _ (Wipe d) => d = name /\ exists dev, in_forest dev bds /\ bd_KName dev = d
  | OfDmsetup _ (Remove d) =>
      exists dev sub, in_forest dev bds /\ bd_KName dev = name /\
        in_forest sub (bd_Children dev) /\ bd_KName sub = d /\ bd_Type sub <> "part"
  | _ => False
  end.

Definition mapper_call (bds : list BlockDevice) X (e : vgE X) : Prop :=
  match e with
  | OfDmsetup _ (Remove d) => exists sub, in_forest sub bds /\ bd_KName sub = d /\ bd_Type sub <> "part"
  | _ => False
  end.

Lemma in_forest_child sub c d : in_tree sub c -> c ∈ bd_Children d -> in_forest sub (bd_Children d).
Proof. intros. by exists c. Qed.

Lemma removeMapperReference_emits d bds : d ∈ bds -> emits (mapper_call bds) (removeMapperReference d).
Proof.
  intros Hd.
  enough (H : emits (fun X (e : vgE X) => match e with
     | OfDmsetup _ (Remove k) => exists sub, in_tree sub d /\ bd_KName sub = k /\ bd_Type sub <> "part"
     | _ => False end) (removeMapperReference d)).
  { eapply emits_mono; [exact H|]. intros X [] He; try done. destruct e. simpl in *.
    destruct He as (sub & ? & ?). exists sub. split; [by exists d|done]. }
  clear bds Hd. induction d as [d IH] using BlockDevice_tree_ind.
  assert (Heq : removeMapperReference d =
    ((if HasChildren d then fold_prog (fun child _ => removeMapperReference child) (bd_Children d) tt else Ret tt);;
     if String.eqb (bd_Type d) "part" then Ret tt
     else (call (OfDmsetup _ (Remove (bd_KName d)));; Ret tt))) by (by destruct d).
  rewrite Heq. clear Heq. apply emits_bind.
  - destruct (HasChildren d); [|done]. apply emits_fold. intros c _ Hc. rewrite Forall_forall in IH.
    eapply emits_mono; [by apply IH|]. intros X [] He; try done. destruct e. simpl in *.
    destruct He as (sub & ? & ?). exists sub. split; [by eapply in_tree_child|done].
  - intros _. destruct (String.eqb_spec (bd_Type d) "part"); [done|]. split; [|done].
    exists d. split; [constructor|done].
Qed.

Lemma wipe_call_mono name bds bds' :
  (forall d, in_forest d bds -> in_forest d bds') -> forall X (e : vgE X), wipe_call name bds X e -> wipe_call name bds' X e.
Proof.
  intros H X [] He; try done; destruct e; simpl in *.
  - destruct He as (? & dev & ? & ?). split; [done|]. exists dev. auto.
  - destruct He as (dev & sub & ? & ?). exists dev, sub. auto.
Qed.

Lemma wipeTree_emits name d : forall wiped, emits (wipe_call name [d]) (wipeTree name d wiped).
Proof.
  induction d as [d IH] using BlockDevice_tree_ind. intros wiped.
  assert (Heq : wipeTree name d wiped =
    if String.eqb (bd_KName d) name then
      (fold_prog (fun child _ => removeMapperReference child) (bd_Children d) tt;;
       guard call (OfWipefs _ (Wipe (bd_KName d))) catch err => Ret (inr (false, Some err)) in
       Ret (inr (true, None)))
    else if HasChildren d then
      (res <- for_each (wipeTree name) (bd_Children d) false;;
       Ret match res with
           | inl childWiped | inr (childWiped, None) => inl (if childWiped then true else wiped)
           | inr (_, Some err) => inr (false, Some err)
           end)
    else Ret (inl wiped)) by (by destruct d).
  assert (Hself : in_forest d [d]) by (exists d; split; [set_solver|constructor]).
  rewrite Heq. clear Heq. destruct (String.eqb_spec (bd_KName d) name) as [<-|Hne].
  - apply emits_bind.
    + apply emits_fold. intros c _ Hc. eapply emits_mono; [by apply removeMapperReference_emits|].
      intros X [] He; try done. destruct e. destruct He as (sub & ? & ?). by exists d, sub.
    + intros _. simpl. split; [|by intros [err|]]. split; [done|]. by exists d.
  - destruct (HasChildren d); [|done]. apply emits_bind; [|done].
    apply emits_for_each. intros c w Hc. rewrite Forall_forall in IH. eapply emits_mono; [by apply IH|].
    apply wipe_call_mono. intros x (y & ->%list_elem_of_singleton & Hx). exists d. split; [set_solver|].
    by eapply in_tree_child.
Qed.

Lemma wipeDevice_emits name bds : emits (wipe_call name bds) (wipeDevice name bds).
Proof.
  unfold wipeDevice. apply emits_bind; [|done]. apply emits_for_each. intros d w Hd.
  eapply emits_mono; [apply wipeTree_emits|]. apply wipe_call_mono.
  intros x (y & ->%list_elem_of_singleton & Hx). by exists d.
Qed.

(** A trace in which every destructive call concerns a configured path. *)
Definition targets (paths : list DevicePath) (tr : list (ev vgE)) (d : string) : Prop :=
  d <> "" /\ exists path, path ∈ paths /\ (path, d) ∈ omap resolve_of tr.

Definition safe_trace (bds : list BlockDevice) (paths : list DevicePath) (tr : list (ev vgE)) : Prop :=
  (forall d, d ∈ omap wipe_of tr -> d <> "" ->
     targets paths tr d /\ exists dev, in_forest dev bds /\ bd_KName dev = d) /\
  (forall k, k ∈ omap mapper_of tr ->
     exists dev sub, in_forest dev bds /\ (bd_KName dev <> "" -> targets paths tr (bd_KName dev)) /\
       in_forest sub (bd_Children dev) /\ bd_KName sub = k /\ bd_Type sub <> "part").

Lemma safe_trace_nil bds paths : safe_trace bds paths [].
Proof. split; set_solver. Qed.

Lemma safe_trace_app bds paths t1 t2 : safe_trace bds paths t1 -> safe_trace bds paths t2 -> safe_trace bds paths (t1 ++ t2).
Proof.
  unfold safe_trace, targets. intros [H1 H1'] [H2 H2']. split.
  - intros d. rewrite omap_app. intros [Hd|Hd]%elem_of_app Hne.
    + destruct (H1 d Hd Hne) as ((? & p & ? & ?) & ?). split; [|done]. split; [done|]. exists p.
      rewrite omap_app. set_solver.
    + destruct (H2 d Hd Hne) as ((? & p & ? & ?) & ?). split; [|done]. split; [done|]. exists p.
      rewrite omap_app. set_solver.
  - intros k. rewrite omap_app. intros [Hk|Hk]%elem_of_app.
    + destruct (H1' k Hk) as (dev & sub & ? & Ht & ?). exists dev, sub. split; [done|]. split; [|done].
      intros Hne. destruct (Ht Hne) as (? & p & ? & ?). split; [done|]. exists p. rewrite omap_app. set_solver.
    + destruct (H2' k Hk) as (dev & sub & ? & Ht & ?). exists dev, sub. split; [done|]. split; [|done].
      intros Hne. destruct (Ht Hne) as (? & p & ? & ?). split; [done|]. exists p. rewrite omap_app. set_solver.
Qed.

(** Wiping [name] right after [path] resolved to it, or under the empty name. *)
Lemma wipe_calls_safe bds paths path name res tr :
  path ∈ paths -> (name <> "" -> res = Ok name) ->
  Forall (ev_sat (wipe_call name bds)) tr ->
  safe_trace bds paths (Ev (OfResolver _ (Resolve path)) res :: tr).
Proof.
  intros Hp Hres Hall. rewrite Forall_forall in Hall.
  assert (Ht : name <> "" -> targets paths (Ev (OfResolver _ (Resolve path)) res :: tr) name).
  { intros Hne. split; [done|]. exists path. rewrite (Hres Hne). split; [done|].
    apply omap_elem. eexists. split; [apply list_elem_of_here|done]. }
  split.
  - intros d (v & [->|Hv]%elem_of_cons & Hd)%omap_elem Hne; [done|].
    apply Hall in Hv. destruct v as [X [] x]; try done. destruct e. simpl in *. simplify_eq.
    destruct Hv as [-> Hdev]. auto.
  - intros k (v & [->|Hv]%elem_of_cons & Hd)%omap_elem; [done|].
    apply Hall in Hv. destruct v as [X [] x]; try done. destruct e. simpl in *. simplify_eq.
    destruct Hv as (dev & sub & ? & <- & ?). exists dev, sub. auto.
Qed.

Lemma wipeRequired_safe bds paths path updated : path ∈ paths ->
  wp (wipeRequired bds path updated) (fun _ tr => safe_trace bds paths tr).
Proof.
  intros Hp. unfold wipeRequired. apply wp_call. intros [name|e].
  - apply wp_bind. eapply wp_skip; [apply wipeDevice_emits|]. intros [w err] tr Htr. simpl.
    rewrite app_nil_r. apply (wipe_calls_safe _ _ _ name); [done|done|exact Htr].
  - apply (wipe_calls_safe _ _ _ ""); [done|done|constructor].
Qed.

Lemma wipeOptional_safe bds paths path updated : path ∈ paths ->
  wp (wipeOptional bds path updated) (fun _ tr => safe_trace bds paths tr).
Proof.
  intros Hp. unfold wipeOptional. apply wp_call. intros res. cbv zeta.
  apply wp_bind. eapply wp_skip; [apply wipeDevice_emits|]. intros [w err] tr Htr. simpl.
  rewrite app_nil_r. eapply wipe_calls_safe; [done| |exact Htr]. by destruct res.
Qed.

Lemma markWiped_stops now vg : shouldWipeDevicesOnVolumeGroup (markWiped now vg) = false.
Proof.
  unfold shouldWipeDevicesOnVolumeGroup, markWiped. simpl.
  destruct (vgs_DeviceSelector _) as [sel|]; [|done].
  destruct (ds_ForceWipeDevicesAndDestroyAllData sel) as [[]|]; [|done|done]. simpl.
  rewrite lookup_insert_eq, bool_decide_eq_true_2 by (by eexists). done.
Qed.

Lemma wipeDevices_safe_trace vg bds :
  wp (wipeDevices vg bds) (fun res tr =>
    (omap wipe_of tr <> [] \/ omap mapper_of tr <> [] -> shouldWipeDevicesOnVolumeGroup vg = true) /\
    (forall sel, vgs_DeviceSelector (lvg_Spec vg) = Some sel ->
       safe_trace bds (ds_Paths sel ++ ds_OptionalPaths sel) tr) /\
    (res.1.1 = true -> shouldWipeDevicesOnVolumeGroup vg = true /\ exists now, res.2 = markWiped now vg) /\
    (res.1.1 = false -> res.2 = vg)).
Proof.
  unfold wipeDevices. destruct (shouldWipeDevicesOnVolumeGroup vg) eqn:Hs; simpl.
  2:{ split; [by intros [[]|[]]|]. split; [intros; apply safe_trace_nil|done]. }
  destruct (vgs_DeviceSelector (lvg_Spec vg)) as [sel|] eqn:Hsel; [|done].
  set (paths := ds_Paths sel ++ ds_OptionalPaths sel).
  apply wp_bind. apply wp_for_each with (I := fun _ tr => safe_trace bds paths tr).
  - apply safe_trace_nil.
  - intros path s tr Hpath Htr. eapply wp_mono; [apply (wipeRequired_safe bds paths); set_solver|].
    intros [s'|err] tr' Htr'; [by apply safe_trace_app|]. simpl. rewrite app_nil_r.
    split; [done|]. split; [|done]. intros ? [= <-]. by apply safe_trace_app.
  - intros s tr Htr. apply wp_bind. apply wp_fold with (I := fun _ tr' => safe_trace bds paths (tr ++ tr')).
    + by rewrite app_nil_r.
    + intros path s' tr' Hpath Htr'. eapply wp_mono; [apply (wipeOptional_safe bds paths); set_solver|].
      intros s'' tr'' H. rewrite app_assoc. by apply safe_trace_app.
    + intros [] tr' Htr'; simpl.
      * intros now. split; [done|]. split; [|split; [|done]].
        -- intros ? [= <-]. rewrite app_assoc. apply safe_trace_app; [done|]. split; set_solver.
        -- intros _. split; [done|]. by exists now.
      * rewrite app_nil_r. split; [done|]. split; [|done]. by intros ? [= <-].
Qed.

(** C9: wipeDevices wipes a device or removes a mapper reference only when the user asked for it
    and the group does not carry the mark of this node; every device it wipes under a non-empty
    kernel name is present on the host and is what one of the configured paths resolved to during
    this very call, and only mapper references below such a device, never of a partition, are
    removed. When it reports that it wiped, the group it leaves differs from the given one in the
    mark of this node alone, and no call on the marked group wipes again; in every other case, an
    error after some devices were wiped included, it leaves the group as it was, unmarked, so that
    a later call may wipe again. *)
Theorem wipeDevices_safe vg bds :
  wp (wipeDevices vg bds) (fun res tr =>
    (omap wipe_of tr <> [] \/ omap mapper_of tr <> [] -> shouldWipeDevicesOnVolumeGroup vg = true) /\
    (forall sel, vgs_DeviceSelector (lvg_Spec vg) = Some sel ->
       safe_trace bds (ds_Paths sel ++ ds_OptionalPaths sel) tr) /\
    (res.1.1 = true ->
       (exists mark, res.2 = with_vg_meta vg (with_annotations (lvg_meta vg)
          (Some (<[wipedAnnotation := mark]> (default ∅ (om_Annotations (lvg_meta vg))))))) /\
       forall bds', wipeDevices res.2 bds' = Ret (false, None, res.2)) /\
    (res.1.1 = false -> res.2 = vg)).
Proof.
  eapply wp_mono; [apply wipeDevices_safe_trace|]. intros res tr (H1 & H2 & H3 & H4).
  split; [done|]. split; [done|]. split; [|done]. intros Hu. destruct (H3 Hu) as [_ [now ->]].
  split; [by exists (wipedMarker now)|]. intros bds'. unfold wipeDevices. by rewrite markWiped_stops.
Qed.
End Wipe.
