(* ===== verification/VgStatus.v ===== *)
(** Reporting of the volume group status of a node (internal/controllers/vgmanager/status.go). *)

From S2P Require Import Prelude GoStd Effects Api K8sDemo LvAttr Exec Lvm HostTools Resolver Lvmd Filter.
From S2P Require Import Devices Raid VgEnv Wipe.

Section Status.
Context `{R : GoRuntime} `{K : K8s} `{C : !ControllerUtil}.
Variable r : Reconciler.

(** [hasExplicitDevicePaths] of controller.go *)
Definition hasExplicitDevicePaths (vg : LVMVolumeGroup) : bool :=
  selector_has_paths (vgs_DeviceSelector (lvg_Spec vg)).

(** [&VGStatus{Name: ..., Status: ..., Reason: ...}] *)
Definition newVGStatus (name : string) (s : VGStatusType) (reason : string) : VGStatus :=
  mkVGStatus name s reason [] [] None None.

(** * setDevices *)

(** The devices of the last volume group of that name that has any. *)
Definition vgDevices (name : string) (vgs : list VolumeGroup) : option (list string) :=
  foldl (fun acc vg =>
    if String.eqb name (vg_Name vg) && (0 <? length (vg_PVs vg))%nat
    then Some (map PvName (vg_PVs vg)) else acc) None vgs.

(** The reasons of one excluded device; [None] when an error shows that the device is
    set up as expected. *)
Fixpoint exclusionReasons (errs : list error) : option (list string) :=
  match errs with
  | [] => Some []
  | err :: errs =>
      if IsExpectedDeviceErrorAfterSetup err then None
      else (fun rs => Error err :: rs) <$> exclusionReasons errs
  end.

Definition excludedDevice (excluded : FilteredBlockDevice) : option ExcludedDevice :=
  (fun reasons => mkExcludedDevice (bd_Name (fb_BlockDevice excluded)) (sort_Strings reasons)) <$>
  exclusionReasons (fb_FilterErrors excluded).

(** The error result of the source is always nil. *)
Definition setDevices (status : VGStatus) (vgs : list VolumeGroup) (devices : FilteredBlockDevices) : VGStatus * bool :=
  let found := vgDevices (vs_Name status) vgs in
  let excluded := sort_by (fun a b => String.leb (ed_Name a) (ed_Name b)) (omap excludedDevice (Excluded devices)) in
  (mkVGStatus (vs_Name status) (vs_Status status) (vs_Reason status) (default (vs_Devices status) found) excluded
     (vs_DeviceDiscoveryPolicy status) (vs_RAIDStatus status),
   match found with Some _ => true | None => false end).

(** * applyRAIDStatus *)

Definition with_raid_status (s : VGStatus) (st : VGStatusType) (rs : RAIDStatus) : VGStatus :=
  mkVGStatus (vs_Name s) st (vs_Reason s) (vs_Devices s) (vs_Excluded s) (vs_DeviceDiscoveryPolicy s) (Some rs).

(** The status is returned as the function leaves it. *)
Definition applyRAIDStatus (vg : LVMVolumeGroup) (rc : RAIDConfig) (vgs : list VolumeGroup) (status : VGStatus)
  : prog vgE (option error * VGStatus) :=
  try lvReport := lvm (ListLVs (lvg_Name vg))
    catch err => Ret (Some (EFmt ("failed to list logical volumes for RAID status: " +:+ Error err) [err]), status) in
  let allLVs := concat (map lri_Lv (lvr_Report lvReport)) in
  let pvs := match find_first (fun existingVG => String.eqb (vg_Name existingVG) (lvg_Name vg)) vgs with
             | Some existingVG => vg_PVs existingVG
             | None => []
             end in
  let raidStatus := buildRAIDStatus allLVs pvs (rc_Type rc) in
  let status :=
    match raidStatus with
    | Some rs =>
        with_raid_status status
          (match rs_Status rs with
           | RAIDHealthStatusDegraded | RAIDHealthStatusFailed => VGStatusDegraded
           | RAIDHealthStatusHealthy => vs_Status status
           end) rs
    | None => status
    end in
  translate OfGauges (updateRAIDMetrics (NodeName r) (lvg_Name vg) raidStatus);;
  Ret (None, status).

(** * setVolumeGroupStatus *)

Definition statusPolicy (vg : LVMVolumeGroup) : DeviceDiscoveryPolicyStatus :=
  if hasExplicitDevicePaths vg then DeviceDiscoveryPolicyPreconfigured
  else match vgs_DeviceDiscoveryPolicy (lvg_Spec vg) with
       | None | Some DeviceDiscoveryPolicyDynamic => DeviceDiscoveryPolicyRuntimeDynamic
       | Some _ => DeviceDiscoveryPolicyRuntimeStatic
       end.

Definition with_policy (s : VGStatus) (p : DeviceDiscoveryPolicyStatus) : VGStatus :=
  mkVGStatus (vs_Name s) (vs_Status s) (vs_Reason s) (vs_Devices s) (vs_Excluded s) (Some p) (vs_RAIDStatus s).

(** The entries of the same name are replaced; without one the status is appended. *)
Definition upsertStatus (status : VGStatus) (l : list VGStatus) : list VGStatus :=
  let replaced := map (fun e => if String.eqb (vs_Name e) (vs_Name status) then status else e) l in
  if existsb (fun e => String.eqb (vs_Name e) (vs_Name status)) l then replaced else replaced ++ [status].

(** The function given to CreateOrUpdate. A failing SetOwnerReference is logged. *)
Definition mutateSetStatus (vg : LVMVolumeGroup) (status : VGStatus) (ns : LVMVolumeGroupNodeStatus)
  : LVMVolumeGroupNodeStatus :=
  {| ns_meta := match SetOwnerReference vg (ns_meta ns) with
                | Ok owners => with_owners (ns_meta ns) owners
                | Err _ => ns_meta ns
                end;
     ns_LVMVGStatus := upsertStatus status (ns_LVMVGStatus ns) |}.

Definition setVolumeGroupStatus (vg : LVMVolumeGroup) (status : VGStatus) : prog vgE (bool * option error) :=
  let status := with_policy status (statusPolicy vg) in
  ' (updated, err) <- client (CreateOrUpdateNodeStatus (Namespace r) (NodeName r) (mutateSetStatus vg status));;
  Ret (updated, match err with
                | Some err => Some (EFmt ("LVMVolumeGroupNodeStatus could not be updated: " +:+ Error err) [err])
                | None => None
                end).

(** The common tail of the three entry points. *)
Definition reportStatus (vg : LVMVolumeGroup) (vgs : list VolumeGroup) (status : VGStatus)
  : prog vgE (bool * option error) :=
  match vgs_RAIDConfig (lvg_Spec vg) with
  | Some rc =>
      ' (err, status) <- applyRAIDStatus vg rc vgs status;;
      match err with
      | Some err => Ret (false, Some (EFmt ("failed to collect RAID status: " +:+ Error err) [err]))
      | None => setVolumeGroupStatus vg status
      end
  | None => setVolumeGroupStatus vg status
  end.

Definition setVolumeGroupProgressingStatus (vg : LVMVolumeGroup) (vgs : list VolumeGroup) (devices : FilteredBlockDevices)
  : prog vgE (bool * option error) :=
  let '(status, _) := setDevices (newVGStatus (lvg_Name vg) VGStatusProgressing "") vgs devices in
  reportStatus vg vgs status.

Definition setVolumeGroupReadyStatus (vg : LVMVolumeGroup) (vgs : list VolumeGroup) (devices : FilteredBlockDevices)
  : prog vgE (bool * option error) :=
  let '(status, _) := setDevices (newVGStatus (lvg_Name vg) VGStatusReady "") vgs devices in
  reportStatus vg vgs status.

Definition with_status_type (s : VGStatus) (t : VGStatusType) : VGStatus :=
  mkVGStatus (vs_Name s) t (vs_Reason s) (vs_Devices s) (vs_Excluded s) (vs_DeviceDiscoveryPolicy s) (vs_RAIDStatus s).

Definition setVolumeGroupFailedStatus (vg : LVMVolumeGroup) (vgs : list VolumeGroup) (devices : FilteredBlockDevices)
    (err : error) : prog vgE (bool * option error) :=
  let '(status, devicesExist) := setDevices (newVGStatus (lvg_Name vg) VGStatusFailed (Error err)) vgs devices in
  reportStatus vg vgs (if (devicesExist : bool) then with_status_type status VGStatusDegraded else status).

(** * removeVolumeGroupStatus *)

(** The index of the last entry of that name. *)
Fixpoint lastIndex (name : string) (l : list VGStatus) (i : nat) (found : option nat) : option nat :=
  match l with
  | [] => found
  | e :: l => lastIndex name l (S i) (if String.eqb (vs_Name e) name then Some i else found)
  end.

Definition removeAt {A} (i : nat) (l : list A) : list A := take i l ++ drop (S i) l.

Fixpoint removeOwner (uid : string) (owners : list OwnerReference) : list OwnerReference :=
  match owners with
  | [] => []
  | o :: owners => if String.eqb (or_UID o) uid then owners else o :: removeOwner uid owners
  end.

Definition mutateRemoveStatus (vg : LVMVolumeGroup) (ns : LVMVolumeGroupNodeStatus) : LVMVolumeGroupNodeStatus :=
  match lastIndex (lvg_Name vg) (ns_LVMVGStatus ns) 0 None with
  | Some index =>
      {| ns_meta := with_owners (ns_meta ns) (removeOwner (om_UID (lvg_meta vg)) (om_OwnerReferences (ns_meta ns)));
         ns_LVMVGStatus := removeAt index (ns_LVMVGStatus ns) |}
  | None => ns
  end.

Definition removeVolumeGroupStatus (vg : LVMVolumeGroup) : prog vgE (option error) :=
  (match vgs_RAIDConfig (lvg_Spec vg) with
   | Some _ => translate OfGauges (deleteRAIDMetrics (NodeName r) (lvg_Name vg))
   | None => Ret tt
   end);;
  ' (_, err) <- client (CreateOrUpdateNodeStatus (Namespace r) (NodeName r) (mutateRemoveStatus vg));;
  Ret match err with
      | Some err => Some (EFmt ("failed to create or update LVMVolumeGroupNodeStatus " +:+ NodeName r +:+ ", " +:+
                                Error err) [err])
      | None => None
      end.

(** * Theorems *)

Definition other_statuses (name : string) (l : list VGStatus) : list VGStatus :=
  List.filter (fun e => negb (String.eqb (vs_Name e) name)) l.

Lemma upsertStatus_others status l :
  other_statuses (vs_Name status) (upsertStatus status l) = other_statuses (vs_Name status) l.
Proof.
  unfold upsertStatus, other_statuses.
  assert (H : List.filter (fun e => negb (String.eqb (vs_Name e) (vs_Name status)))
     (map (fun e => if String.eqb (vs_Name e) (vs_Name status) then status else e) l) =
     List.filter (fun e => negb (String.eqb (vs_Name e) (vs_Name status))) l).
  { induction l as [|e l IH]; simpl; [done|]. destruct (String.eqb (vs_Name e) (vs_Name status)) eqn:He; simpl.
    - by rewrite String.eqb_refl.
    - rewrite He. simpl. by rewrite IH. }
  destruct (existsb _ _); [done|]. rewrite List.filter_app, H. simpl. by rewrite String.eqb_refl, app_nil_r.
Qed.

Lemma upsertStatus_elem status l e :
  e ∈ upsertStatus status l <-> e = status \/ (e ∈ l /\ vs_Name e <> vs_Name status).
Proof.
  assert (Hm : e ∈ map (fun e => if String.eqb (vs_Name e) (vs_Name status) then status else e) l <->
     (e = status /\ exists x, x ∈ l /\ vs_Name x = vs_Name status) \/ (e ∈ l /\ vs_Name e <> vs_Name status)).
  { rewrite list_elem_of_fmap. split.
    - intros (x & -> & Hx). destruct (String.eqb_spec (vs_Name x) (vs_Name status)); [left; eauto|by right].
    - intros [[-> (x & Hx & He)]|[He Hn]]; [exists x; by rewrite He, String.eqb_refl|].
      exists e. apply String.eqb_neq in Hn. by rewrite Hn. }
  unfold upsertStatus. destruct (existsb _ _) eqn:Hex.
  - rewrite Hm. apply existsb_exists in Hex as (x & Hx & He). bools. rewrite <- list_elem_of_In in Hx. naive_solver.
  - rewrite elem_of_app, Hm, list_elem_of_singleton. naive_solver.
Qed.

Lemma upsertStatus_names status l :
  vs_Name <$> upsertStatus status l =
  if existsb (fun e => String.eqb (vs_Name e) (vs_Name status)) l then vs_Name <$> l
  else (vs_Name <$> l) ++ [vs_Name status].
Proof.
  assert (H : vs_Name <$> map (fun e => if String.eqb (vs_Name e) (vs_Name status) then status else e) l = vs_Name <$> l).
  { induction l as [|e l IH]; simpl; [done|]. f_equal; [|exact IH].
    by destruct (String.eqb_spec (vs_Name e) (vs_Name status)). }
  unfold upsertStatus. cbv zeta. destruct (existsb _ _); [exact H|]. rewrite fmap_app. f_equal. exact H.
Qed.

(** Setting the status of a volume group on a node puts exactly that status under its name,
    leaves the statuses of the other volume groups and their order unchanged, and keeps the
    names unique. *)
Theorem upsertStatus_correct status l :
  (forall e, e ∈ upsertStatus status l -> vs_Name e = vs_Name status -> e = status) /\
  status ∈ upsertStatus status l /\
  other_statuses (vs_Name status) (upsertStatus status l) = other_statuses (vs_Name status) l /\
  (NoDup (vs_Name <$> l) -> NoDup (vs_Name <$> upsertStatus status l)).
Proof.
  split; [intros e He%upsertStatus_elem; naive_solver|]. split; [apply upsertStatus_elem; by left|].
  split; [apply upsertStatus_others|]. intros Hnd. rewrite upsertStatus_names.
  destruct (existsb _ _) eqn:Hex; [done|]. apply NoDup_app. split; [done|].
  split; [|apply NoDup_singleton]. intros x (e & -> & He)%list_elem_of_fmap Hx%list_elem_of_singleton.
  assert (Hf : String.eqb (vs_Name e) (vs_Name status) = false) by (by apply (proj1 (existsb_false _ _) Hex)).
  bools. congruence.
Qed.

Lemma lastIndex_spec name l i found :
  lastIndex name l i found =
  match lastIndex name l 0 None with Some j => Some (i + j)%nat | None => found end.
Proof.
  revert i found. induction l as [|e l IH]; intros i found; simpl; [done|].
  rewrite (IH (S i)), (IH 1%nat). destruct (String.eqb (vs_Name e) name);
    destruct (lastIndex name l 0 None); simpl; try done; f_equal; lia.
Qed.

Lemma removeStatus_others name l :
  NoDup (vs_Name <$> l) ->
  match lastIndex name l 0 None with Some i => removeAt i l | None => l end = other_statuses name l.
Proof.
  unfold other_statuses. induction l as [|e l IH]; simpl; [done|]. intros [Hni Hnd]%NoDup_cons.
  rewrite lastIndex_spec. specialize (IH Hnd).
  destruct (lastIndex name l 0 None) as [j|] eqn:Hj; simpl.
  - destruct (String.eqb_spec (vs_Name e) name) as [He|He]; simpl.
    + exfalso. apply Hni. rewrite He.
      assert (Hex : exists x, x ∈ l /\ vs_Name x = name).
      { clear -Hj. revert j Hj. induction l as [|x l IHl]; simpl; intros j Hj; [done|].
        rewrite lastIndex_spec in Hj. destruct (lastIndex name l 0 None) as [k|] eqn:Hk.
        - destruct (IHl k eq_refl) as (y & ? & ?). exists y. set_solver.
        - destruct (String.eqb_spec (vs_Name x) name); [|done]. exists x. set_solver. }
      destruct Hex as (x & Hx & <-). apply list_elem_of_fmap. eauto.
    + unfold removeAt in *. simpl. by rewrite <- IH.
  - destruct (String.eqb_spec (vs_Name e) name) as [He|He]; simpl.
    + unfold removeAt. simpl. rewrite <- IH. by rewrite drop_0.
    + by rewrite <- IH.
Qed.

(** Removing a volume group from the node status removes exactly its entry and keeps the
    others in order. *)
Theorem mutateRemoveStatus_correct vg ns :
  NoDup (vs_Name <$> ns_LVMVGStatus ns) ->
  ns_LVMVGStatus (mutateRemoveStatus vg ns) = other_statuses (lvg_Name vg) (ns_LVMVGStatus ns).
Proof.
  intros H. rewrite <- (removeStatus_others _ _ H). unfold mutateRemoveStatus.
  by destruct (lastIndex _ _ _ _).
Qed.

(** The status writes of a trace. *)
Definition status_write_of (v : ev vgE) : option (LVMVolumeGroupNodeStatus -> LVMVolumeGroupNodeStatus) :=
  match v with
  | @Ev _ X e _ => match e with OfClient _ (CreateOrUpdateNodeStatus _ _ m) => Some m | _ => None end
  end.

(** Every status written satisfies [Q]. *)
Definition writes_status (vg : LVMVolumeGroup) (Q : VGStatus -> Prop) X (e : vgE X) : Prop :=
  match e with
  | OfLVM _ e => read_only_lvm e = true
  | OfGauges _ _ => True
  | OfClient _ (CreateOrUpdateNodeStatus ns name m) =>
      ns = Namespace r /\ name = NodeName r /\
      exists s, m = mutateSetStatus vg s /\ vs_Name s = lvg_Name vg /\
                vs_DeviceDiscoveryPolicy s = Some (statusPolicy vg) /\ Q s
  | _ => False
  end.

Lemma setVolumeGroupStatus_emits vg s (Q : VGStatus -> Prop) :
  vs_Name s = lvg_Name vg -> Q (with_policy s (statusPolicy vg)) ->
  emits (writes_status vg Q) (setVolumeGroupStatus vg s).
Proof.
  intros Hn HQ. unfold setVolumeGroupStatus. apply emits_bind; [|by intros [? []]].
  apply emits_call. split; [done|]. split; [done|]. by eexists.
Qed.

(** RAID health can only lower a status to Degraded. *)
Lemma reportStatus_emits vg vgs s (Q : VGStatus -> Prop) :
  vs_Name s = lvg_Name vg ->
  Q (with_policy s (statusPolicy vg)) ->
  (forall rs, vgs_RAIDConfig (lvg_Spec vg) <> None -> rs_Status rs = RAIDHealthStatusHealthy ->
     Q (with_policy (with_raid_status s (vs_Status s) rs) (statusPolicy vg))) ->
  (forall rs, vgs_RAIDConfig (lvg_Spec vg) <> None -> rs_Status rs <> RAIDHealthStatusHealthy ->
     Q (with_policy (with_raid_status s VGStatusDegraded rs) (statusPolicy vg))) ->
  emits (writes_status vg Q) (reportStatus vg vgs s).
Proof.
  intros Hn H0 Hh Hd. unfold reportStatus. destruct (vgs_RAIDConfig (lvg_Spec vg)) as [rc|] eqn:Hrc.
  2:{ by apply setVolumeGroupStatus_emits. }
  apply emits_bind_post with (R := fun p => p.1 = None -> vs_Name p.2 = lvg_Name vg /\
    Q (with_policy p.2 (statusPolicy vg))).
  - unfold applyRAIDStatus, lvm. apply emits_bind; [by apply emits_call|]. intros [lvs|e]; [|done].
    cbv zeta. apply emits_bind; [by apply emits_translate|done].
  - unfold applyRAIDStatus, lvm. apply wp_call. intros [lvs|e]; [|done]. cbv zeta. apply wp_bind, wp_intro.
    intros _ _ _. cbn [fst snd]. destruct (buildRAIDStatus _ _ _) as [rs|]; [|done]. split; [done|].
    destruct (rs_Status rs) eqn:Hs; [by apply Hh|apply Hd; congruence..].
  - intros [[err|] s'] Hp; [done|]. destruct (Hp eq_refl). by apply setVolumeGroupStatus_emits.
Qed.

Lemma setDevices_name s vgs devices :
  vs_Name (setDevices s vgs devices).1 = vs_Name s /\ vs_Status (setDevices s vgs devices).1 = vs_Status s /\
  vs_Reason (setDevices s vgs devices).1 = vs_Reason s.
Proof. done. Qed.

(** The three ways of reporting: Ready is written only for a volume group whose RAID, if it
    has one, is not unhealthy; a failure is written as Failed or Degraded with the text of the
    error as its reason, never as Ready or Progressing; progress is written as Progressing,
    or Degraded for an unhealthy RAID. Nothing but the node status of this node is written. *)
Theorem status_reports_correct vg vgs devices err :
  emits (writes_status vg (fun s => vs_Reason s = "" /\
     (vs_Status s = VGStatusReady \/
      vs_Status s = VGStatusDegraded /\ exists rs, vs_RAIDStatus s = Some rs /\ rs_Status rs <> RAIDHealthStatusHealthy)))
    (setVolumeGroupReadyStatus vg vgs devices) /\
  emits (writes_status vg (fun s => vs_Reason s = "" /\
     (vs_Status s = VGStatusProgressing \/
      vs_Status s = VGStatusDegraded /\ exists rs, vs_RAIDStatus s = Some rs /\ rs_Status rs <> RAIDHealthStatusHealthy)))
    (setVolumeGroupProgressingStatus vg vgs devices) /\
  emits (writes_status vg (fun s => vs_Reason s = Error err /\
     (vs_Status s = VGStatusFailed \/ vs_Status s = VGStatusDegraded)))
    (setVolumeGroupFailedStatus vg vgs devices err).
Proof.
  split; [|split].
  - unfold setVolumeGroupReadyStatus, setDevices. apply reportStatus_emits; simpl; eauto 6.
  - unfold setVolumeGroupProgressingStatus, setDevices. apply reportStatus_emits; simpl; eauto 6.
  - unfold setVolumeGroupFailedStatus, setDevices.
    destruct (vgDevices _ _); apply reportStatus_emits; simpl; auto.
Qed.
End Status.
