(* ===== verification/VgController.v ===== *)
(** The volume group controller (internal/controllers/vgmanager/controller.go).

    Handlers are programs over [vgE]. Functions that change the volume group object
    they are given return it; functions that return a Go pair whose first part is
    used beside a non-nil error return both. Logging is not modelled. *)

From S2P Require Import Prelude GoStd Effects Api K8sDemo LvAttr Exec Lvm HostTools Resolver Lvmd Filter.
From S2P Require Import Devices Raid VgEnv Wipe VgStatus.
From Stdlib Require Import SpecFloat.

Definition metadataWarningPercentage : Z := 95.
Definition NodeCleanupFinalizer := "cleanup.vgmanager.node.topolvm.io".
Definition StorageClassPrefix := "lvms-".

Definition EventReasonErrorNoAvailableDevicesForVG := "NoAvailableDevicesForVG".
Definition EventReasonErrorInconsistentLVs := "InconsistentLVs".
Definition EventReasonErrorVGCreateOrExtendFailed := "VGCreateOrExtendFailed".
Definition EventReasonErrorThinPoolCreateOrExtendFailed := "ThinPoolCreateOrExtendFailed".
Definition EventReasonErrorDevicePathCheckFailed := "DevicePathCheckFailed".
Definition EventReasonErrorRAIDHealthCheckFailed := "RAIDHealthCheckFailed".
Definition EventReasonErrorDeviceRemovalFailed := "DeviceRemovalFailed".
Definition EventReasonLVMDConfigMissing := "LVMDConfigMissing".
Definition EventReasonLVMDConfigUpdated := "LVMDConfigUpdated".
Definition EventReasonLVMDConfigDeleted := "LVMDConfigDeleted".
Definition EventReasonVolumeGroupReady := "VolumeGroupReady".
Definition EventReasonDeviceRemoved := "DeviceRemoved".
Definition EventReasonErrorManualCleanupRequired := "ManualCleanupRequired".

(** ctrl.Result, the delay in seconds. *)
Record Result := mkResult { Requeue : bool; RequeueAfter : Z }.
Definition emptyResult : Result := mkResult false 0.
Definition reconcileInterval : Z := 30.
Definition raidReconcileInterval : Z := 60.
Definition reconcileAgain : Result := mkResult true reconcileInterval.

#[export] Instance Result_eq_dec : EqDecision Result.
Proof. solve_decision. Defined.

Section Controller.
Context `{R : GoRuntime} `{K : K8s} `{C : !ControllerUtil}.
Variable r : Reconciler.

Definition getFinalizer : string := NodeCleanupFinalizer +:+ "/" +:+ NodeName r.

(** * Events *)

Definition objectKey (namespace name : string) : string := namespace +:+ "/" +:+ name.

(** The event on the node status, the owners and the volume group. *)
Definition recordEvent (vg : LVMVolumeGroup) (warning : bool) (reason onStatus onOwner onVG : string) : prog vgE unit :=
  let action := "ReconcileVolumeGroup" in
  ns <- client (GetNodeStatus (Namespace r) (NodeName r));;
  (match ns with
   | Ok _ => call (OfRecorder _ (Eventf (OnNodeStatus (Namespace r) (NodeName r)) warning reason action onStatus))
   | Err _ => Ret tt
   end);;
  fold_prog (fun ref _ =>
    call (OfRecorder _ (Eventf (OnOwner ref (om_Namespace (lvg_meta vg))) warning reason action onOwner)))
    (om_OwnerReferences (lvg_meta vg)) tt;;
  call (OfRecorder _ (Eventf (OnVolumeGroup vg) warning reason action onVG)).

Definition WarningEvent (vg : LVMVolumeGroup) (reason : string) (errMsg : error) : prog vgE unit :=
  let node := objectKey (Namespace r) (NodeName r) in
  recordEvent vg true reason (Error errMsg)
    ("error on node " +:+ node +:+ " in volume group " +:+ objectKey (om_Namespace (lvg_meta vg)) (lvg_Name vg) +:+
     ": " +:+ Error errMsg)
    ("error on node " +:+ node +:+ ": " +:+ Error errMsg).

Definition NormalEvent (vg : LVMVolumeGroup) (reason message : string) : prog vgE unit :=
  enabled <- call (OfProcess _ LogV1Enabled);;
  if negb (enabled : bool) then Ret tt
  else
    let node := objectKey (Namespace r) (NodeName r) in
    recordEvent vg false reason message
      ("update on node " +:+ node +:+ " in volume group " +:+ objectKey (om_Namespace (lvg_meta vg)) (lvg_Name vg) +:+
       ": " +:+ message)
      ("update on node " +:+ node +:+ ": " +:+ message).

(** The status is set to failed; a failure to do so is logged. *)
Definition failStatus (vg : LVMVolumeGroup) (vgs : list VolumeGroup) (devices : FilteredBlockDevices) (err : error)
  : prog vgE unit :=
  setVolumeGroupFailedStatus r vg vgs devices err;; Ret tt.

(** The warning and the failed status the error branches share. *)
Definition warnAndFail (vg : LVMVolumeGroup) (vgs : list VolumeGroup) (devices : FilteredBlockDevices)
    (reason : string) (err : error) : prog vgE unit :=
  WarningEvent vg reason err;; failStatus vg vgs devices err.

Definition noDevices : FilteredBlockDevices := mkFilteredBlockDevices [] [].

(** * Small helpers *)

Definition matchesThisNode (selector : option NodeSelector) : prog vgE (result error bool) :=
  try node := client (GetNode (NodeName r)) catch err => Ret (Err err) in
  match selector with
  | None => Ret (Ok true)
  | Some sel => Ret (MatchNodeSelectorTerms node (NodeSelectorTerms sel))
  end.

Definition vgNamed (name : string) (vgs : list VolumeGroup) : option VolumeGroup :=
  find_first (fun vg => String.eqb name (vg_Name vg)) vgs.

Definition determineFinishedRequeue (vg : LVMVolumeGroup) (effectivePolicy : DeviceDiscoveryPolicySpec) : Result :=
  match vgs_RAIDConfig (lvg_Spec vg) with
  | Some _ => mkResult false raidReconcileInterval
  | None =>
      if hasExplicitDevicePaths vg then emptyResult
      else if bool_decide (effectivePolicy = DeviceDiscoveryPolicyDynamic) then reconcileAgain
      else emptyResult
  end.

Definition checkRAIDVGHealth (vgs : list VolumeGroup) (vg : LVMVolumeGroup) : option error :=
  match vgs_RAIDConfig (lvg_Spec vg) with
  | None => None
  | Some _ =>
      if existsb (fun v => String.eqb (vg_Name v) (lvg_Name vg) && IsMissingDevices v) vgs then
        Some (EFmt ("RAID VG " +:+ lvg_Name vg +:+ " on node " +:+ NodeName r +:+ " has missing physical volumes. " +:+
          "Repair the volume group on the node (replace the failed device, run 'pvcreate' and 'vgextend' " +:+
          "with the new device, then 'lvconvert --repair' for each degraded LV, and 'vgreduce --removemissing' " +:+
          "to clean up), and update the LVMCluster CR with the correct device paths") [])
      else None
  end.

(** -1 tells LVM to use the value of the host. *)
Definition convertChunkSize (config : ThinPoolConfig) : Z :=
  match tp_ChunkSizeCalculationPolicy config with
  | ChunkSizeCalculationPolicyHost => -1
  | _ => match tp_ChunkSize config with
         | None => q_Value ChunkSizeDefault
         | Some q => q_Value q
         end
  end.

Definition convertMetadataSize (config : ThinPoolConfig) : Z :=
  match tp_MetadataSizeCalculationPolicy config with
  | MetadataSizePolicyHost => -1
  | _ => match tp_MetadataSize config with
         | None => q_Value ThinPoolMetadataSizeDefault
         | Some q => q_Value q
         end
  end.

(** On a mismatch the source wraps the nil error of the parser. *)
Definition verifyChunkSizeForPolicy (config : ThinPoolConfig) (lv : LogicalVolume) : option error :=
  match tp_ChunkSizeCalculationPolicy config with
  | ChunkSizeCalculationPolicyHost => None
  | _ =>
      match ParseInt (lv_ChunkSize lv) with
      | Ok chunkSizeBytes =>
          if negb (chunkSizeBytes =? convertChunkSize config)%Z then
            Some (EFmt ("chunk size of logical volume " +:+ lv_Name lv +:+
                        " does not match the static policy: %!w(<nil>)") [])
          else None
      | Err err =>
          Some (EFmt ("could not parse chunk size from logical volume " +:+ lv_Name lv +:+
                      " to verify against static policy: " +:+ Error err) [err])
      end
  end.

Definition verifyMetadataSize (vgName lvName lvMetadataSize : string) (newMetadataSize : Z) : prog vgE (option error) :=
  if (newMetadataSize =? -1)%Z then Ret None
  else
    match ParseInt lvMetadataSize with
    | Err err => Ret (Some (EFmt ("failed to parse metadata size. " +:+ Error err) [err]))
    | Ok currentMetadataSize =>
        if (newMetadataSize <=? currentMetadataSize)%Z then Ret None
        else
          guard lvm (ExtendThinPoolMetadata lvName vgName newMetadataSize)
            catch err => Ret (Some (wrapErr "failed to extend thinpool metadata" err)) in
          Ret None
    end.

(** * Thin pools *)

Definition extendThinPool (vgName lvSize : string) (config : ThinPoolConfig) : prog vgE (option error) :=
  if String.eqb lvSize "" then Ret (Some (EFmt "lvSize is empty and cannot be used for extension" []))
  else
    match ParseFloat lvSize false with
    | Err err => Ret (Some (EFmt ("failed to parse lvSize. " +:+ Error err) []))
    | Ok thinPoolSize =>
        try vg := lvm (GetVG vgName)
          catch err => Ret (Some (EFmt ("failed to get volume group. " +:+ quote vgName +:+ ", " +:+ Error err) [])) in
        if String.eqb (VgSize vg) "" then Ret (Some (EFmt "VgSize is empty and cannot be used for extension" []))
        else
          match ParseFloat (VgSize vg) false with
          | Err err => Ret (Some (EFmt ("failed to parse vgSize. " +:+ Error err) []))
          | Ok vgSize =>
              if (tp_SizePercent config <=?
                  int_of_float64 (float64_mul (float64_div thinPoolSize vgSize) (float64_of_int 100)))%Z
              then Ret None
              else
                guard lvm (ExtendLV (tp_Name config) vgName (tp_SizePercent config))
                  catch err => Ret (Some (wrapErr "failed to extend thinpool" err)) in
                Ret None
          end
    end.

(** The first logical volume named like the thin pool, in the order of the reports. *)
Definition addThinPoolToVG (vgName : string) (config : option ThinPoolConfig) : prog vgE (option error) :=
  match config with
  | None => Ret (Some (EFmt "thin pool config is nil and cannot be added to volume group" []))
  | Some config =>
  try resp := lvm (ListLVs vgName)
    catch err => Ret (Some (EFmt ("failed to list logical volumes in the volume group " +:+ quote vgName +:+ ". " +:+
                                  Error err) [])) in
  match find_first (fun lv => String.eqb (lv_Name lv) (tp_Name config)) (concat (map lri_Lv (lvr_Report resp))) with
  | Some lv =>
      match ParsedLvAttr (lv_LvAttr lv) with
      | Err err => Ret (Some (wrapErr "could not parse lvattr to determine if thin pool exists" err))
      | Ok lvAttr =>
          if bool_decide (la_VolumeType lvAttr = VolumeTypeThinPool) then
            guard extendThinPool vgName (lv_LvSize lv) config
              catch err => Ret (Some (wrapErr ("failed to extend the lvm thinpool " +:+ tp_Name config +:+
                                               " in volume group " +:+ vgName) err)) in
            Ret None
          else
            Ret (Some (EFmt ("failed to create thin pool " +:+ quote (tp_Name config) +:+
              ", logical volume with same name already exists, but cannot be extended as its not a thinpool (" +:+
              LvAttr_String lvAttr +:+ ")") []))
      end
  | None =>
      guard lvm (CreateLV (tp_Name config) vgName (tp_SizePercent config) (convertChunkSize config) (convertMetadataSize config))
        catch err => Ret (Some (wrapErr "failed to create thinpool" err)) in
      Ret None
  end
  end.

(** One logical volume of a report; the state is [thinPoolExists]. *)
Definition validateLV (vgName : string) (config : ThinPoolConfig) (lv : LogicalVolume) (thinPoolExists : bool)
  : prog vgE (bool + error) :=
  if negb (String.eqb (lv_Name lv) (tp_Name config)) then Ret (inl thinPoolExists)
  else
    match ParsedLvAttr (lv_LvAttr lv) with
    | Err err => Ret (inr (wrapErr ("could not parse lv_attr from logical volume " +:+ lv_Name lv) err))
    | Ok lvAttr =>
        if negb (bool_decide (la_VolumeType lvAttr = VolumeTypeThinPool)) then
          Ret (inr (EFmt ("found logical volume in volume group that is not of type Thin-Pool, " +:+
            "even though there is a Thin-Pool configured: " +:+ fmt_rune (rune_of (la_VolumeType lvAttr)) +:+
            ", lv_attr: " +:+ LvAttr_String lvAttr +:+
            ",this is most likely a corruption of the thin pool or a setup gone wrong") []))
        else
          activated <- (if negb (bool_decide (la_State lvAttr = StateActive))
                        then lvm (ActivateLV (lv_Name lv) vgName) else Ret None);;
          match activated with
          | Some _ =>
              Ret (inr (EFmt ("could not activate the inactive logical volume, maybe external repairs are " +:+
                "necessary/already happening or there is another" +:+
                "entity conflicting with vg-manager, cannot proceed until volume is activated again: lv_attr: " +:+
                LvAttr_String lvAttr) []))
          | None =>
              match ParseFloat (lv_MetadataPercent lv) true with
              | Err err => Ret (inr (wrapErr "could not ensure metadata percentage of LV due to a parsing error" err))
              | Ok metadataPercentage =>
                  if float64_gtb metadataPercentage (float64_of_int metadataWarningPercentage) then
                    Ret (inr (EFmt ("metadata partition is over " +:+ format_float metadataPercentage +:+
                      " percent filled and LVM Metadata Overflows cannot be recovered" +:+
                      "you should manually extend the metadata_partition or you will risk data loss: metadata_percent: " +:+
                      lv_MetadataPercent lv) []))
                  else
                    match verifyChunkSizeForPolicy config lv with
                    | Some err => Ret (inr err)
                    | None =>
                        guard verifyMetadataSize vgName (lv_Name lv) (lv_MetadataSize lv) (convertMetadataSize config)
                          catch err => Ret (inr (wrapErr ("failed to verify metadata size for thinpool " +:+
                                              tp_Name config +:+ " in volume group " +:+ vgName) err)) in
                        Ret (inl true)
                    end
              end
          end
    end.

Definition validateReport (vgName : string) (config : ThinPoolConfig) (report : LVReportItem) (_ : unit)
  : prog vgE (unit + error) :=
  if (length (lri_Lv report) <? 1)%nat then
    Ret (inr (EFmt ("no LV was found in the report, meaning that the thin-pool LV is no longer found, " +:+
                    "but the volume group might still exist") []))
  else
    res <- for_each (validateLV vgName config) (lri_Lv report) false;;
    Ret match res with
        | inr err => inr err
        | inl false =>
            inr (EFmt "the thin-pool LV is no longer present, but the volume group might still exist" [])
        | inl true => inl tt
        end.

Definition validateLVs (vg : LVMVolumeGroup) : prog vgE (option error) :=
  match vgs_ThinPoolConfig (lvg_Spec vg) with
  | None => Ret None
  | Some config =>
      try resp := lvm (ListLVs (lvg_Name vg))
        catch err => Ret (Some (wrapErr ("could not get logical volumes found inside volume group, " +:+
                            "volume group content is degraded or corrupt") err)) in
      if (length (lvr_Report resp) <? 1)%nat then
        Ret (Some (EFmt ("LV report was empty, meaning that the thin-pool LV is no longer found, " +:+
                         "but the volume group might still exist") []))
      else
        res <- for_each (validateReport (lvg_Name vg) config) (lvr_Report resp) tt;;
        Ret match res with inl _ => None | inr err => Some err end
  end.

(** * lvmd configuration *)

Definition updateLVMDConfigAfterReconcile (vg : LVMVolumeGroup) (oldCFG newCFG : lvmd.Config) (wasMissing : bool)
  : prog vgE (option error) :=
  if negb (bool_decide (oldCFG = newCFG)) then
    (if wasMissing then NormalEvent vg EventReasonLVMDConfigMissing
       "lvmd config file doesn't exist, will attempt to create a fresh config" else Ret tt);;
    guard call (OfLVMD _ (Save newCFG))
      catch err => Ret (Some (wrapErr ("failed to update lvmd config file to update volume group " +:+ lvg_Name vg) err)) in
    NormalEvent vg EventReasonLVMDConfigUpdated "updated lvmd config with new deviceClasses";;
    Ret None
  else Ret None.

(** The device class of a volume group that has none yet. *)
Definition newLVMDClass (vg : LVMVolumeGroup) : lvmd.DeviceClass :=
  {| lvmd.dc_Name := lvg_Name vg;
     lvmd.dc_VolumeGroup := lvg_Name vg;
     lvmd.dc_Default := vgs_Default (lvg_Spec vg);
     lvmd.dc_SpareGB := match vgs_ThinPoolConfig (lvg_Spec vg) with Some _ => None | None => Some 0%N end;
     lvmd.dc_Stripe := None;
     lvmd.dc_StripeSize := "";
     lvmd.dc_LVCreateOptions :=
       match vgs_RAIDConfig (lvg_Spec vg) with Some rc => buildRAIDLVCreateOptions rc | None => [] end;
     lvmd.dc_Type := match vgs_ThinPoolConfig (lvg_Spec vg) with Some _ => lvmd.TypeThin | None => lvmd.TypeThick end;
     lvmd.dc_ThinPoolConfig :=
       match vgs_ThinPoolConfig (lvg_Spec vg) with
       | Some tp => Some {| lvmd.Name := tp_Name tp; lvmd.OverprovisionRatio := float64_of_int (tp_OverprovisionRatio tp) |}
       | None => None
       end |}.

(** The first class of that name, with its overprovision ratio replaced. *)
Fixpoint setRatio (name : string) (ratio : spec_float) (dcs : list lvmd.DeviceClass) : list lvmd.DeviceClass :=
  match dcs with
  | [] => []
  | dc :: dcs =>
      if String.eqb (lvmd.dc_Name dc) name then
        {| lvmd.dc_Name := lvmd.dc_Name dc; lvmd.dc_VolumeGroup := lvmd.dc_VolumeGroup dc;
           lvmd.dc_Default := lvmd.dc_Default dc; lvmd.dc_SpareGB := lvmd.dc_SpareGB dc;
           lvmd.dc_Stripe := lvmd.dc_Stripe dc; lvmd.dc_StripeSize := lvmd.dc_StripeSize dc;
           lvmd.dc_LVCreateOptions := lvmd.dc_LVCreateOptions dc; lvmd.dc_Type := lvmd.dc_Type dc;
           lvmd.dc_ThinPoolConfig :=
             match lvmd.dc_ThinPoolConfig dc with
             | Some tp => Some {| lvmd.Name := lvmd.Name tp; lvmd.OverprovisionRatio := ratio |}
             | None => None
             end |} :: dcs
      else dc :: setRatio name ratio dcs
  end.

Definition with_lvmd_classes (c : lvmd.Config) (dcs : list lvmd.DeviceClass) : lvmd.Config :=
  lvmd.mkConfig (lvmd.SocketName c) dcs (lvmd.LvcreateOptionClasses c).

(** The new configuration; [None] is the nil dereference of a thin class whose volume
    group or class has no thin pool. *)
Definition configureClass (vg : LVMVolumeGroup) (c : lvmd.Config) : option lvmd.Config :=
  match find_first (fun dc => String.eqb (lvmd.dc_Name dc) (lvg_Name vg)) (lvmd.DeviceClasses c) with
  | None => Some (with_lvmd_classes c (lvmd.DeviceClasses c ++ [newLVMDClass vg]))
  | Some dc =>
      if bool_decide (lvmd.dc_Type dc = lvmd.TypeThin) then
        match vgs_ThinPoolConfig (lvg_Spec vg), lvmd.dc_ThinPoolConfig dc with
        | Some tp, Some _ =>
            Some (with_lvmd_classes c
              (setRatio (lvg_Name vg) (float64_of_int (tp_OverprovisionRatio tp)) (lvmd.DeviceClasses c)))
        | _, _ => None
        end
      else Some c
  end.

Definition applyLVMDConfig (vg : LVMVolumeGroup) (vgs : list VolumeGroup) (devices : FilteredBlockDevices)
  : prog vgE (option error) :=
  try loaded := call (OfLVMD _ Load)
    catch err => (let err := wrapErr "failed to read the lvmd config file" err in
                  failStatus vg vgs devices err;; Ret (Some err)) in
  let lvmdConfigWasMissing := match loaded with None => true | Some _ => false end in
  let lvmdConfig := Deref loaded lvmd.emptyConfig in
  let oldConfig := Deref (DeepCopyConfig (Some lvmdConfig)) lvmdConfig in
  match configureClass vg lvmdConfig with
  | None => Ret (Some (EPanic "nil pointer dereference"))
  | Some lvmdConfig =>
      guard updateLVMDConfigAfterReconcile vg oldConfig lvmdConfig lvmdConfigWasMissing
        catch err => (failStatus vg vgs devices err;; Ret (Some err)) in
      Ret None
  end.

(** * Deletion *)

Definition isRetainPolicy (vg : LVMVolumeGroup) : prog vgE (bool * option error) :=
  let scName := StorageClassPrefix +:+ lvg_Name vg in
  try policy := client (GetStorageClass scName)
    catch err =>
      Ret (if IsNotFound err then (false, None)
           else (true, Some (wrapErr ("failed to get StorageClass " +:+ scName +:+ ", defaulting to Retain") err))) in
  Ret (bool_decide (policy = Some PersistentVolumeReclaimRetain), None).

(** The configuration without the first class of that name. *)
Fixpoint removeClass (name : string) (dcs : list lvmd.DeviceClass) : list lvmd.DeviceClass :=
  match dcs with
  | [] => []
  | dc :: dcs => if String.eqb (lvmd.dc_Name dc) name then dcs else dc :: removeClass name dcs
  end.

(** The logical volumes that are not the managed thin pool. *)
Definition userLVs (vg : LVMVolumeGroup) (lvs : list string) : list string :=
  List.filter (fun lv =>
    match vgs_ThinPoolConfig (lvg_Spec vg) with
    | Some tp => negb (String.eqb lv (tp_Name tp))
    | None => true
    end) lvs.

(** Under the retain policy the deletion stops while there are user volumes. *)
Definition checkUserLVs (vg : LVMVolumeGroup) : prog vgE (option error) :=
  try lvs := lvm (ListLVsByName (lvg_Name vg))
    catch err => Ret (Some (wrapErr ("failed to list LVs in volume group " +:+ lvg_Name vg) err)) in
  let user := userLVs vg lvs in
  if (0 <? length user)%nat then
    let err := EFmt ("volume group " +:+ lvg_Name vg +:+ " has retained logical volumes " +:+ fmt_strings user +:+
                     "; manual cleanup required before deletion can proceed") [] in
    WarningEvent vg EventReasonErrorManualCleanupRequired err;;
    Ret (Some err)
  else Ret None.

(** The retain check of an existing volume group; [Some] stops the deletion. *)
Definition checkRetain (vg : LVMVolumeGroup) : prog vgE (option error) :=
  ' (retain, _) <- isRetainPolicy vg;;
  if (retain : bool) then checkUserLVs vg else Ret None.

Definition deleteThinPool (vg : LVMVolumeGroup) (vgs : list VolumeGroup) : prog vgE (option error) :=
  match vgs_ThinPoolConfig (lvg_Spec vg) with
  | None => Ret None
  | Some tp =>
      let thinPoolName := tp_Name tp in
      try thinPoolExists := lvm (LVExists thinPoolName (lvg_Name vg))
        catch err => Ret (Some (EFmt ("failed to check existence of thin pool " +:+ quote thinPoolName +:+
                            " in volume group " +:+ quote (lvg_Name vg) +:+ ". " +:+ Error err) [])) in
      if (thinPoolExists : bool) then
        guard lvm (DeleteLV thinPoolName (lvg_Name vg))
          catch err =>
            (let err := wrapErr ("failed to delete thin pool " +:+ thinPoolName +:+ " in volume group " +:+ lvg_Name vg) err in
             failStatus vg vgs noDevices err;; Ret (Some err)) in
        Ret None
      else Ret None
  end.

(** Update or delete the configuration file after the class was removed. *)
Definition saveLVMDConfig (vg : LVMVolumeGroup) (lvmdConfig : option lvmd.Config) : prog vgE (option error) :=
  match lvmdConfig with
  | None => Ret None
  | Some cfg =>
      if (0 <? length (lvmd.DeviceClasses cfg))%nat then
        guard call (OfLVMD _ (Save cfg))
          catch err => Ret (Some (wrapErr ("failed to update lvmd.conf file for volume group " +:+ lvg_Name vg) err)) in
        NormalEvent vg EventReasonLVMDConfigUpdated "updated lvmd config after deviceClass was removed";;
        Ret None
      else
        guard call (OfLVMD _ Delete)
          catch err => Ret (Some (wrapErr ("failed to delete lvmd.conf file for volume group " +:+ lvg_Name vg) err)) in
        NormalEvent vg EventReasonLVMDConfigDeleted "removed lvmd config after last deviceClass was removed";;
        Ret None
  end.

(** The removal of an existing volume group with its thin pool. *)
Definition deleteVolumeGroup (vg : LVMVolumeGroup) (vgs : list VolumeGroup) (existingVG : VolumeGroup)
  : prog vgE (option error) :=
  guard checkRetain vg catch err => Ret (Some err) in
  guard deleteThinPool vg vgs catch err => Ret (Some err) in
  guard lvm (DeleteVG existingVG)
    catch err =>
      (let err := wrapErr ("failed to delete volume group " +:+ lvg_Name vg) err in
       failStatus vg vgs noDevices err;; Ret (Some err)) in
  Ret None.

Definition processDelete (vg : LVMVolumeGroup) : prog vgE (option error) :=
  try loaded := call (OfLVMD _ Load)
    catch err => Ret (Some (wrapErr "failed to read the lvmd config file" err)) in
  let lvmdConfig := match loaded with
                    | Some c => Some (with_lvmd_classes c (removeClass (lvg_Name vg) (lvmd.DeviceClasses c)))
                    | None => None
                    end in
  try vgs := lvm (ListVGs true)
    catch err => Ret (Some (EFmt ("failed to list volume groups, " +:+ Error err) [err])) in
  guard (match vgNamed (lvg_Name vg) vgs with
         | Some existingVG => deleteVolumeGroup vg vgs existingVG
         | None => Ret None
         end) catch err => Ret (Some err) in
  guard saveLVMDConfig vg lvmdConfig catch err => Ret (Some err) in
  guard removeVolumeGroupStatus r vg
    catch err => Ret (Some (wrapErr ("failed to remove status for volume group " +:+ lvg_Name vg) err)) in
  let '(finalizers, removed) := RemoveFinalizer (om_Finalizers (lvg_meta vg)) getFinalizer in
  if (removed : bool) then client (UpdateVolumeGroup (with_vg_meta vg (with_finalizers (lvg_meta vg) finalizers)))
  else Ret None.

(** * Removal of devices *)

(** Matched by its own name or by the name it resolves to. *)
Definition pvMatched (mappings : list string) (pv : PhysicalVolume) : prog vgE bool :=
  if contains_str mappings (PvName pv) then Ret true
  else
    resolved <- call (OfResolver _ (Resolve (PvName pv)));;
    Ret match resolved with Ok name => contains_str mappings name | Err _ => false end.

Definition unmatchedPVs (mappings : list string) (pvs : list PhysicalVolume) : prog vgE (list string) :=
  fold_prog (fun pv devicesToRemove =>
    matched <- pvMatched mappings pv;;
    Ret (if (matched : bool) then devicesToRemove else devicesToRemove ++ [PvName pv])) pvs [].

Definition removeDevice (vg : LVMVolumeGroup) (devicePath : string) (_ : unit) : prog vgE (unit + error) :=
  guard lvm (ReduceVG (lvg_Name vg) devicePath)
    catch err =>
      (WarningEvent vg EventReasonErrorDeviceRemovalFailed err;;
       Ret (inr (wrapErr ("failed to remove device " +:+ devicePath +:+ " from VG " +:+ lvg_Name vg) err))) in
  lvm (RemovePV devicePath);;
  Ret (inl tt).

Definition deleteRemovedDevices (currentVG : VolumeGroup) (vg : LVMVolumeGroup) : prog vgE (bool * option error) :=
  if negb (selector_has_paths (vgs_DeviceSelector (lvg_Spec vg))) then Ret (false, None)
  else if IsMissingDevices currentVG then
    Ret (false, Some (EFmt ("VG " +:+ lvg_Name vg +:+ " on node " +:+ NodeName r +:+
      " is missing one or more devices. Please fix the VG on the node first and update LVMCluster to reflect current state") []))
  else
    try mappings := translate OfResolver (buildDevicePathMappings vg) catch err => Ret (false, Some err) in
    devicesToRemove <- unmatchedPVs mappings (vg_PVs currentVG);;
    if (length devicesToRemove =? 0)%nat then Ret (false, None)
    else
      let remainingCount := (Z.of_nat (length (vg_PVs currentVG)) - Z.of_nat (length devicesToRemove))%Z in
      if (remainingCount <? 1)%Z then
        Ret (false, Some (EFmt ("devices can't be deleted from VG " +:+ lvg_Name vg +:+
               " because after deletion there will be less than 1 device in VG") []))
      else
        match (match vgs_RAIDConfig (lvg_Spec vg) with
               | Some rc => validateRAIDDeviceCount rc remainingCount
               | None => None
               end) with
        | Some err => Ret (false, Some (wrapErr ("devices can't be deleted from VG " +:+ lvg_Name vg) err))
        | None =>
            res <- for_each (removeDevice vg) devicesToRemove tt;;
            match res with
            | inr err => Ret (false, Some err)
            | inl _ =>
                NormalEvent vg EventReasonDeviceRemoved
                  ("successfully removed " +:+ fmt_strings devicesToRemove +:+ " device(s) from volume group");;
                Ret (true, None)
            end
        end.

(** * reconcile *)

Variable FilterSetup : Options -> Filters.

Definition effectivePolicyOf (vg : LVMVolumeGroup) : DeviceDiscoveryPolicySpec :=
  match vgs_RAIDConfig (lvg_Spec vg) with
  | Some _ => DeviceDiscoveryPolicyStatic
  | None => Deref (vgs_DeviceDiscoveryPolicy (lvg_Spec vg)) DeviceDiscoveryPolicyDynamic
  end.

(** Static discovery: new devices of an existing volume group are excluded. *)
Definition excludeNewDevices (vg : LVMVolumeGroup) (vgs : list VolumeGroup) (devices : FilteredBlockDevices)
  : FilteredBlockDevices :=
  let vgExists := match vgNamed (lvg_Name vg) vgs with Some _ => true | None => false end in
  if negb (hasExplicitDevicePaths vg) && bool_decide (effectivePolicyOf vg = DeviceDiscoveryPolicyStatic) &&
     vgExists && (0 <? length (Available devices))%nat
  then mkFilteredBlockDevices []
         (Excluded devices ++ map (fun dev => mkFilteredBlockDevice dev
            [EFmt (bd_KName dev +:+ " was not part of " +:+ lvg_Name vg +:+
                   " at creation (static device discovery enabled)") []]) (Available devices))
  else devices.

Definition readyMessage := "all the available devices are attached to the volume group".

(** The thin pool check shared by both branches. *)
Definition checkLVs (vg : LVMVolumeGroup) (vgs : list VolumeGroup) (devices : FilteredBlockDevices)
  : prog vgE (option error) :=
  guard validateLVs vg
    catch err =>
      (let err := wrapErr "error while validating logical volumes in existing volume group" err in
       warnAndFail vg vgs devices EventReasonErrorInconsistentLVs err;; Ret (Some err)) in
  Ret None.

Definition setReady (vg : LVMVolumeGroup) (vgs : list VolumeGroup) (devices : FilteredBlockDevices)
  : prog vgE (option error) :=
  ' (updated, err) <- setVolumeGroupReadyStatus r vg vgs devices;;
  match err with
  | Some err => Ret (Some (wrapErr ("failed to set status for volume group " +:+ lvg_Name vg +:+ " to ready") err))
  | None => (if (updated : bool) then NormalEvent vg EventReasonVolumeGroupReady readyMessage else Ret tt);; Ret None
  end.

(** No device is available: verify and update what exists. *)
Definition reconcileExisting (vg : LVMVolumeGroup) (vgs : list VolumeGroup) (devices : FilteredBlockDevices)
  : prog vgE (Result * option error) :=
  match vgNamed (lvg_Name vg) vgs with
  | None =>
      let err := EFmt ("the volume group " +:+ lvg_Name vg +:+ " does not exist (or was not tagged properly with " +:+
        quote DefaultTag +:+ "), and there were no available devices to create it") [] in
      warnAndFail vg vgs devices EventReasonErrorNoAvailableDevicesForVG err;;
      Ret (emptyResult, Some err)
  | Some lvmVG =>
      ' (deleted, err) <- deleteRemovedDevices lvmVG vg;;
      match err with
      | Some err => failStatus vg vgs devices err;; Ret (emptyResult, Some (wrapErr "failed to remove devices" err))
      | None =>
          try vgs := (if (deleted : bool) then lvm (ListVGs true) else Ret (Ok vgs))
            catch err => Ret (emptyResult, Some (wrapErr "failed to list volume groups" err)) in
          guard (match vgs_ThinPoolConfig (lvg_Spec vg) with Some _ => checkLVs vg vgs devices | None => Ret None end)
            catch err => Ret (emptyResult, Some err) in
          guard applyLVMDConfig vg vgs devices catch err => Ret (emptyResult, Some err) in
          guard setReady vg vgs devices catch err => Ret (emptyResult, Some err) in
          Ret (determineFinishedRequeue vg (effectivePolicyOf vg), None)
      end
  end.

Definition totalDevices (vg : LVMVolumeGroup) (vgs : list VolumeGroup) (devices : FilteredBlockDevices) : Z :=
  Z.of_nat (length (Available devices)) +
  match vgNamed (lvg_Name vg) vgs with Some v => Z.of_nat (length (vg_PVs v)) | None => 0 end.

Definition setupThinPool (vg : LVMVolumeGroup) (vgs : list VolumeGroup) (devices : FilteredBlockDevices)
  : prog vgE (option error) :=
  match vgs_ThinPoolConfig (lvg_Spec vg) with
  | None => Ret None
  | Some tp =>
      guard addThinPoolToVG (lvg_Name vg) (Some tp)
        catch err =>
          (let err := wrapErr ("failed to create thin pool " +:+ tp_Name tp +:+ " for volume group " +:+ lvg_Name vg) err in
           warnAndFail vg vgs devices EventReasonErrorThinPoolCreateOrExtendFailed err;; Ret (Some err)) in
      checkLVs vg vgs devices
  end.

(** Devices are available: create or extend the volume group. *)
Definition reconcileNew (vg : LVMVolumeGroup) (vgs : list VolumeGroup) (devices : FilteredBlockDevices)
  : prog vgE (Result * option error) :=
  match (match vgs_RAIDConfig (lvg_Spec vg) with
         | Some rc => validateRAIDDeviceCount rc (totalDevices vg vgs devices)
         | None => None
         end) with
  | Some err =>
      warnAndFail vg vgs devices EventReasonErrorNoAvailableDevicesForVG err;; Ret (emptyResult, Some err)
  | None =>
      guard translate OfLVM (addDevicesToVG vgs (lvg_Name vg) (Available devices) (shouldWipeDevicesOnVolumeGroup r vg))
        catch err =>
          (let err := wrapErr ("failed to create/extend volume group " +:+ lvg_Name vg) err in
           warnAndFail vg vgs devices EventReasonErrorVGCreateOrExtendFailed err;; Ret (emptyResult, Some err)) in
      guard setupThinPool vg vgs devices catch err => Ret (emptyResult, Some err) in
      try vgs := lvm (ListVGs true)
        catch err => Ret (emptyResult, Some (wrapErr "failed to list volume groups" err)) in
      guard applyLVMDConfig vg vgs devices catch err => Ret (reconcileAgain, Some err) in
      guard setReady vg vgs devices catch err => Ret (emptyResult, Some err) in
      Ret (reconcileAgain, None)
  end.

(** From the filtered devices on. *)
Definition reconcileDevices (vg : LVMVolumeGroup) (vgs : list VolumeGroup) (devices : FilteredBlockDevices)
  : prog vgE (Result * option error) :=
  guard (match vgs_DeviceSelector (lvg_Spec vg) with
         | Some sel => translate OfResolver (VerifyMandatoryDevicePaths devices (ds_Paths sel))
         | None => Ret None
         end)
    catch err => (warnAndFail vg vgs devices EventReasonErrorDevicePathCheckFailed err;; Ret (emptyResult, Some err)) in
  let devices := excludeNewDevices vg vgs devices in
  if (length (Available devices) =? 0)%nat then reconcileExisting vg vgs devices
  else
    ' (updated, err) <- setVolumeGroupProgressingStatus r vg vgs devices;;
    match err, (updated : bool) with
    | None, true => Ret (mkResult true 0, None)
    | _, _ => reconcileNew vg vgs devices
    end.

Definition reconcile (vg : LVMVolumeGroup) : prog vgE (Result * option error) :=
  match om_DeletionTimestamp (lvg_meta vg) with
  | Some _ => err <- processDelete vg;; Ret (emptyResult, err)
  | None =>
      let '(finalizers, added) := AddFinalizer (om_Finalizers (lvg_meta vg)) getFinalizer in
      if (added : bool) then
        err <- client (UpdateVolumeGroup (with_vg_meta vg (with_finalizers (lvg_meta vg) finalizers)));;
        Ret (emptyResult, err)
      else
        try blockDevices := call (OfLSBLK _ ListBlockDevices)
          catch err => Ret (emptyResult, Some (wrapErr "failed to list block devices" err)) in
        try vgs := lvm (ListVGs true)
          catch err => Ret (emptyResult, Some (wrapErr "failed to list volume groups" err)) in
        match checkRAIDVGHealth vgs vg with
        | Some err =>
            warnAndFail vg vgs noDevices EventReasonErrorRAIDHealthCheckFailed err;;
            Ret (mkResult false raidReconcileInterval, None)
        | None =>
            ' (updated, err, vg) <- wipeDevices r vg blockDevices;;
            match err with
            | Some err => Ret (emptyResult, Some (wrapErr "failed to wipe devices" err))
            | None =>
                if (updated : bool) then err <- client (UpdateVolumeGroup vg);; Ret (emptyResult, err)
                else
                  try pvs := lvm (ListPVs "")
                    catch err => Ret (emptyResult, Some (wrapErr "physical volumes could not be fetched" err)) in
                  try bdi := call (OfLSBLK _ (BlockDeviceInfos blockDevices))
                    catch err => Ret (emptyResult, Some (wrapErr "failed to get block device infos" err)) in
                  devices <- translate OfResolver (filterDevices (FilterSetup (mkOptions vg bdi pvs)) blockDevices);;
                  reconcileDevices vg vgs devices
            end
        end
  end.

Definition Reconcile (namespace name : string) : prog vgE (Result * option error) :=
  try volumeGroup := client (GetVolumeGroup namespace name)
    catch err => Ret (emptyResult, IgnoreNotFound err) in
  try nodeMatches := matchesThisNode (vgs_NodeSelector (lvg_Spec volumeGroup))
    catch err => Ret (emptyResult, Some (wrapErr "failed to match nodeSelector to node labels" err)) in
  if negb (nodeMatches : bool) then Ret (emptyResult, None)
  else
    try _ := client (GetNodeStatus (Namespace r) (NodeName r))
      catch err => Ret (emptyResult, Some (wrapErr "could not get LVMVolumeGroupNodeStatus" err)) in
    reconcile volumeGroup.
End Controller.
