(* ===== verification/VgFacts.v ===== *)
(** What the volume group controller may do: confinement, deletion and device safety. *)

From S2P Require Import Prelude GoStd Effects Api K8sDemo LvAttr Exec Lvm HostTools Resolver Lvmd Filter.
From S2P Require Import Devices Raid VgEnv Wipe VgStatus VgController.
From Stdlib Require Import SpecFloat.

Section Confinement.
Context `{R : GoRuntime} `{K : K8s} `{C : !ControllerUtil}.
Variable r : Reconciler.

Definition deleting (vg : LVMVolumeGroup) : Prop := om_DeletionTimestamp (lvg_meta vg) <> None.
Definition owns_pool (vg : LVMVolumeGroup) (lv : string) : Prop :=
  exists tp, vgs_ThinPoolConfig (lvg_Spec vg) = Some tp /\ tp_Name tp = lv.

(** Permissions: whether the object is being deleted, the devices a volume group may be
    created with or extended by, what may be written back to the object, and the devices that
    may be taken out of the volume group and lose their label. *)
Record perms := mkPerms {
  p_del : Prop; p_create : list string -> Prop; p_extend : list string -> Prop; p_update : LVMVolumeGroup -> Prop;
  p_reduce : string -> Prop; p_pvremove : string -> Prop;
}.

(** The calls reconciling [vg] may make: those that change the host concern this volume
    group, its thin pool and its devices only; what destroys data is tied to the deletion of the
    object ([p_del]), to the force-wipe option or to a list of device paths. *)
Definition allowed_lvm (p : perms) (vg : LVMVolumeGroup) {X} (e : lvmE X) : Prop :=
  match e with
  | CreateVG v w => vg_Name v = lvg_Name vg /\ ~ p_del p /\ w = shouldWipeDevicesOnVolumeGroup r vg /\
      p_create p (map PvName (vg_PVs v))
  | ExtendVG v pvs => vg_Name v = lvg_Name vg /\ ~ p_del p /\ p_extend p pvs
  | AddTagToVG _ => False
  | DeleteVG v => vg_Name v = lvg_Name vg /\ p_del p
  | DeleteLV lv v => v = lvg_Name vg /\ p_del p /\ owns_pool vg lv
  | ReduceVG v d => v = lvg_Name vg /\ ~ p_del p /\ hasExplicitDevicePaths vg = true /\ p_reduce p d
  | RemovePV d => ~ p_del p /\ hasExplicitDevicePaths vg = true /\ p_pvremove p d
  | CreateLV lv v _ _ _ | ExtendLV lv v _ | ExtendThinPoolMetadata lv v _ | ActivateLV lv v =>
      v = lvg_Name vg /\ ~ p_del p /\ owns_pool vg lv
  | _ => True
  end.

(** What is written back: a live object with the finalizer of this node added, one that is being
    deleted with it removed, or a live one with the mark of this node after it wiped devices;
    nothing else differs. *)
Definition written_back (vg vg' : LVMVolumeGroup) : Prop :=
  (~ deleting vg /\ vg' = with_vg_meta vg (with_finalizers (lvg_meta vg) (AddFinalizer (om_Finalizers (lvg_meta vg)) (getFinalizer r)).1)) \/
  (deleting vg /\ vg' = with_vg_meta vg (with_finalizers (lvg_meta vg) (RemoveFinalizer (om_Finalizers (lvg_meta vg)) (getFinalizer r)).1)) \/
  (~ deleting vg /\ shouldWipeDevicesOnVolumeGroup r vg = true /\ exists mark,
     vg' = with_vg_meta vg (with_annotations (lvg_meta vg)
       (Some (<[wipedAnnotation r := mark]> (default ∅ (om_Annotations (lvg_meta vg))))))).

Definition allowed (p : perms) (vg : LVMVolumeGroup) X (e : vgE X) : Prop :=
  match e with
  | OfLVM _ e => allowed_lvm p vg e
  | OfWipefs _ _ | OfDmsetup _ _ => ~ p_del p /\ shouldWipeDevicesOnVolumeGroup r vg = true
  | OfLVMD _ Delete => p_del p
  | OfClient _ (GetVolumeGroup _ _) => False
  | OfClient _ (UpdateVolumeGroup vg') => p_update p vg'
  | OfClient _ (CreateOrUpdateNodeStatus ns name _) => ns = Namespace r /\ name = NodeName r
  | _ => True
  end.

Ltac calls := repeat (solve [eauto 4 with lvms] || emits_step); try done; auto.

Lemma allowed_WarningEvent p vg vg' reason err : emits (allowed p vg) (WarningEvent r vg' reason err).
Proof. unfold WarningEvent, recordEvent, client. calls. Qed.
Lemma allowed_NormalEvent p vg vg' reason msg : emits (allowed p vg) (NormalEvent r vg' reason msg).
Proof. unfold NormalEvent, recordEvent, client. calls. Qed.
#[local] Hint Resolve allowed_WarningEvent allowed_NormalEvent : lvms.

Lemma allowed_gauges p vg A (q : prog gaugeE A) : emits (allowed p vg) (translate OfGauges q).
Proof. by apply emits_translate. Qed.
Lemma allowed_resolver p vg A (q : prog resolveE A) : emits (allowed p vg) (translate OfResolver q).
Proof. by apply emits_translate. Qed.
#[local] Hint Resolve allowed_gauges allowed_resolver : lvms.

Lemma allowed_reportStatus p vg vg' vgs s : emits (allowed p vg) (reportStatus r vg' vgs s).
Proof. unfold reportStatus, applyRAIDStatus, setVolumeGroupStatus, lvm, client. calls. Qed.
#[local] Hint Resolve allowed_reportStatus : lvms.

Lemma allowed_Ready p vg vgs devices : emits (allowed p vg) (setVolumeGroupReadyStatus r vg vgs devices).
Proof. unfold setVolumeGroupReadyStatus. calls. Qed.
Lemma allowed_Progressing p vg vgs devices : emits (allowed p vg) (setVolumeGroupProgressingStatus r vg vgs devices).
Proof. unfold setVolumeGroupProgressingStatus. calls. Qed.
Lemma allowed_failStatus p vg vgs devices err : emits (allowed p vg) (failStatus r vg vgs devices err).
Proof. unfold failStatus, setVolumeGroupFailedStatus. calls. Qed.
#[local] Hint Resolve allowed_Ready allowed_Progressing allowed_failStatus : lvms.
Lemma allowed_warnAndFail p vg vgs devices reason err : emits (allowed p vg) (warnAndFail r vg vgs devices reason err).
Proof. unfold warnAndFail. calls. Qed.
#[local] Hint Resolve allowed_warnAndFail : lvms.

Lemma allowed_removeStatus p vg : emits (allowed p vg) (removeVolumeGroupStatus r vg).
Proof. unfold removeVolumeGroupStatus, client. calls. Qed.
#[local] Hint Resolve allowed_removeStatus : lvms.

Section NotDeleting.
Variables (p : perms) (vg : LVMVolumeGroup).
Hypothesis Hdel : ~ p_del p.

Lemma allowed_verifyMetadataSize tp s n : vgs_ThinPoolConfig (lvg_Spec vg) = Some tp ->
  emits (allowed p vg) (verifyMetadataSize (lvg_Name vg) (tp_Name tp) s n).
Proof. intros. unfold verifyMetadataSize, lvm. calls. split; [done|]. split; [done|]. by exists tp. Qed.

Lemma allowed_extendThinPool tp s : vgs_ThinPoolConfig (lvg_Spec vg) = Some tp ->
  emits (allowed p vg) (extendThinPool (lvg_Name vg) s tp).
Proof. intros. unfold extendThinPool, lvm. calls. split; [done|]. split; [done|]. by exists tp. Qed.
#[local] Hint Resolve allowed_verifyMetadataSize allowed_extendThinPool : lvms.

Lemma allowed_addThinPool tp : vgs_ThinPoolConfig (lvg_Spec vg) = Some tp ->
  emits (allowed p vg) (addThinPoolToVG (lvg_Name vg) (Some tp)).
Proof. intros. unfold addThinPoolToVG, lvm. calls. split; [done|]. split; [done|]. by exists tp. Qed.

Lemma allowed_validateLV tp lv b : vgs_ThinPoolConfig (lvg_Spec vg) = Some tp ->
  emits (allowed p vg) (validateLV (lvg_Name vg) tp lv b).
Proof.
  intros Htp. unfold validateLV, lvm. destruct (String.eqb_spec (lv_Name lv) (tp_Name tp)) as [->|]; simpl; [|done].
  calls. split; [done|]. split; [done|]. by exists tp.
Qed.
#[local] Hint Resolve allowed_validateLV : lvms.

Lemma allowed_validateLVs : emits (allowed p vg) (validateLVs vg).
Proof. unfold validateLVs, validateReport, lvm. calls. Qed.
#[local] Hint Resolve allowed_addThinPool allowed_validateLVs : lvms.

Lemma allowed_checkLVs vgs devices : emits (allowed p vg) (checkLVs r vg vgs devices).
Proof. unfold checkLVs. calls. Qed.
#[local] Hint Resolve allowed_checkLVs : lvms.

Lemma allowed_setupThinPool vgs devices : emits (allowed p vg) (setupThinPool r vg vgs devices).
Proof. unfold setupThinPool. calls. Qed.

Lemma allowed_applyLVMD vgs devices : emits (allowed p vg) (applyLVMDConfig r vg vgs devices).
Proof. unfold applyLVMDConfig, updateLVMDConfigAfterReconcile. calls. Qed.

Lemma allowed_setReady vgs devices : emits (allowed p vg) (setReady r vg vgs devices).
Proof. unfold setReady. calls. Qed.

Hypothesis Htake : forall d, p_reduce p d /\ p_pvremove p d.

Lemma allowed_deleteRemoved v : emits (allowed p vg) (deleteRemovedDevices r v vg).
Proof.
  unfold deleteRemovedDevices, removeDevice, unmatchedPVs, pvMatched, lvm.
  destruct (selector_has_paths (vgs_DeviceSelector (lvg_Spec vg))) eqn:Hp; simpl negb; [|done]. calls.
  - split_and!; [done..|apply Htake].
  - split_and!; [done..|apply Htake].
Qed.
#[local] Hint Resolve allowed_setupThinPool allowed_applyLVMD allowed_setReady allowed_deleteRemoved : lvms.

Lemma allowed_reconcileExisting vgs devices : emits (allowed p vg) (reconcileExisting r vg vgs devices).
Proof. unfold reconcileExisting, lvm. calls. Qed.

Lemma lastVGNamed_name name vgs v : lastVGNamed name vgs = Some v -> vg_Name v = name.
Proof.
  unfold lastVGNamed.
  assert (H : forall acc, (forall v, acc = Some v -> vg_Name v = name) ->
    foldl (fun found vg => if String.eqb (vg_Name vg) name then Some vg else found) acc vgs = Some v -> vg_Name v = name).
  { induction vgs as [|x vgs IH]; simpl; intros acc Hacc; [apply Hacc|]. apply IH. intros y.
    destruct (String.eqb_spec (vg_Name x) name) as [He|]; [|apply Hacc]. by intros [= <-]. }
  by apply H.
Qed.

Lemma map_pv_named args : map PvName (map pv_named args) = args.
Proof. induction args; simpl; congruence. Qed.

Lemma allowed_addDevices vgs devs :
  (lastVGNamed (lvg_Name vg) vgs = None -> p_create p (map bd_KName devs)) ->
  (lastVGNamed (lvg_Name vg) vgs <> None -> p_extend p (map bd_KName devs)) ->
  emits (allowed p vg) (translate OfLVM (addDevicesToVG vgs (lvg_Name vg) devs (shouldWipeDevicesOnVolumeGroup r vg))).
Proof.
  intros Hc He. unfold addDevicesToVG. destruct (length devs <? 1)%nat; [done|]. cbv zeta.
  destruct (lastVGNamed (lvg_Name vg) vgs) as [v|] eqn:Hv; simpl.
  - split; [|by intros []]. split; [by eapply lastVGNamed_name|]. split; [done|]. by apply He.
  - split; [|by intros []]. rewrite map_pv_named. auto.
Qed.
#[local] Hint Resolve allowed_reconcileExisting allowed_addDevices : lvms.

(** The devices that would be added are permitted. *)
Definition permitted (vgs : list VolumeGroup) (devices : FilteredBlockDevices) : Prop :=
  Available devices <> [] ->
  (lastVGNamed (lvg_Name vg) vgs = None -> p_create p (map bd_KName (Available devices))) /\
  (lastVGNamed (lvg_Name vg) vgs <> None -> p_extend p (map bd_KName (Available devices))).

Lemma allowed_reconcileNew vgs devices :
  Available devices <> [] -> permitted vgs devices -> emits (allowed p vg) (reconcileNew r vg vgs devices).
Proof. intros Hne Hp. destruct (Hp Hne). unfold reconcileNew, lvm. calls. Qed.

Lemma allowed_reconcileDevices vgs devices :
  permitted vgs (excludeNewDevices vg vgs devices) -> emits (allowed p vg) (reconcileDevices r vg vgs devices).
Proof.
  intros Hp. unfold reconcileDevices. apply emits_bind; [calls|]. intros [err|]; [calls|]. cbv zeta.
  destruct (Nat.eqb_spec (length (Available (excludeNewDevices vg vgs devices))) 0) as [H0|H0]; [calls|].
  apply emits_bind; [calls|]. intros [u err].
  assert (Available (excludeNewDevices vg vgs devices) <> []) by (by destruct (Available _)).
  destruct err, u; try done; by apply allowed_reconcileNew.
Qed.
End NotDeleting.

Lemma vgNamed_name name vgs v : vgNamed name vgs = Some v -> vg_Name v = name /\ v ∈ vgs.
Proof. unfold vgNamed. intros [? H]%find_first_Some. bools. done. Qed.

Lemma allowed_processDelete (p : perms) vg :
  p_del p -> p_update p (with_vg_meta vg (with_finalizers (lvg_meta vg) (RemoveFinalizer (om_Finalizers (lvg_meta vg)) (getFinalizer r)).1)) ->
  emits (allowed p vg) (processDelete r vg).
Proof.
  intros Hd Hu. unfold processDelete, lvm, client.
  assert (Hdv : forall vgs v, vgNamed (lvg_Name vg) vgs = Some v -> emits (allowed p vg) (deleteVolumeGroup r vg vgs v)).
  { intros vgs v [Hn _]%vgNamed_name. unfold deleteVolumeGroup, checkRetain, checkUserLVs, isRetainPolicy, deleteThinPool, lvm, client.
    calls. split; [done|]. split; [done|]. by eexists. }
  assert (Hsave : forall o, emits (allowed p vg) (saveLVMDConfig r vg o)) by (intros; unfold saveLVMDConfig; calls).
  destruct (RemoveFinalizer _ _) as [fs removed]. calls.
Qed.

(** * The whole handler *)

Variable FilterSetup : Options -> Filters.

Lemma allowed_wipeDevices (p : perms) vg bds : ~ p_del p -> emits (allowed p vg) (wipeDevices r vg bds).
Proof.
  intros Hd. unfold wipeDevices. destruct (shouldWipeDevicesOnVolumeGroup r vg) eqn:Hs; simpl negb; [|done].
  assert (Hw : forall name, emits (allowed p vg) (wipeDevice name bds)).
  { intros name. eapply emits_mono; [apply wipeDevice_emits|]. by intros X []. }
  unfold wipeRequired, wipeOptional. calls.
Qed.

(** What wipeDevices leaves of the volume group. *)
Definition wiped_result (vg : LVMVolumeGroup) (res : bool * option error * LVMVolumeGroup) : Prop :=
  (res.1.1 = true -> shouldWipeDevicesOnVolumeGroup r vg = true /\ exists now, res.2 = markWiped r now vg) /\
  (res.1.1 = false -> res.2 = vg).

Lemma wipeDevices_result vg bds : wp (wipeDevices r vg bds) (fun res _ => wiped_result vg res).
Proof.
  eapply wp_mono; [apply wipeDevices_safe_trace|]. intros res tr (_ & _ & Ht & Hf).
  by split.
Qed.

(** The steps of a reconciliation up to the filtered devices. *)
Lemma allowed_reconcile (p : perms) vg :
  (p_del p <-> deleting vg) -> (forall vg', written_back vg vg' -> p_update p vg') ->
  (forall d, p_reduce p d /\ p_pvremove p d) ->
  (forall vgs devices, permitted p vg vgs (excludeNewDevices vg vgs devices)) ->
  emits (allowed p vg) (reconcile r FilterSetup vg).
Proof.
  intros Hdel Hupd Htake Hperm. unfold reconcile, lvm, client.
  destruct (om_DeletionTimestamp (lvg_meta vg)) as [ts|] eqn:Hts.
  { apply emits_bind; [|done]. assert (deleting vg) by (unfold deleting; by rewrite Hts).
    apply allowed_processDelete; [by apply Hdel|]. apply Hupd. right. by left. }
  assert (Hd : ~ p_del p) by (rewrite Hdel; unfold deleting; rewrite Hts; auto).
  destruct (AddFinalizer _ _) as [fs []] eqn:Hadd.
  { apply emits_bind; [|done]. apply emits_call, Hupd. left. rewrite Hadd.
    split; [|done]. unfold deleting. rewrite Hts. auto. }
  do 2 (apply emits_bind; [apply emits_call; exact I|]; intros [?|?]; [|done]).
  destruct (checkRAIDVGHealth r _ vg) as [err|]; [calls|].
  apply emits_bind_post with (R := wiped_result vg); [by apply allowed_wipeDevices|apply wipeDevices_result|].
  intros [[[] err] vg'] [Ht Hf]; simpl in Ht, Hf.
  - destruct (Ht eq_refl) as [Hs [now ->]]. destruct err; [done|]. apply emits_bind; [|done].
    apply emits_call, Hupd. right. right. split_and!; [by rewrite <- Hdel|done|]. by exists (wipedMarker now).
  - rewrite (Hf eq_refl). destruct err; [done|].
    do 2 (apply emits_bind; [apply emits_call; exact I|]; intros [?|?]; [|done]).
    apply emits_bind; [calls|]. intros devices. apply allowed_reconcileDevices; auto.
Qed.

Lemma lastVGNamed_vgNamed name vgs : lastVGNamed name vgs <> None -> vgNamed name vgs <> None.
Proof.
  unfold lastVGNamed, vgNamed. intros H Hn. apply H. clear H. rewrite find_first_None in Hn.
  assert (Hg : forall acc, foldl (fun found vg => if String.eqb (vg_Name vg) name then Some vg else found) acc vgs = acc).
  { induction Hn as [|v vgs Hv _ IH]; simpl; [done|]. intros acc. rewrite String.eqb_sym in Hv. by rewrite Hv, IH. }
  apply Hg.
Qed.

Lemma excludeNewDevices_static vg vgs devices :
  effectivePolicyOf vg = DeviceDiscoveryPolicyStatic -> hasExplicitDevicePaths vg = false ->
  vgNamed (lvg_Name vg) vgs <> None -> Available (excludeNewDevices vg vgs devices) = [].
Proof.
  intros Hp Hx Hv. unfold excludeNewDevices. rewrite Hx, bool_decide_eq_true_2 by done.
  destruct (vgNamed (lvg_Name vg) vgs); [|done]. simpl.
  destruct (Nat.ltb_spec 0 (length (Available devices))); [done|].
  by destruct (Available devices); [|simpl in *; lia].
Qed.

(** Under static device discovery (or RAID) without explicit paths an existing volume group
    is never extended: whatever devices appear on the host, reconciling makes no vgextend. *)
Theorem static_never_extends vg :
  effectivePolicyOf vg = DeviceDiscoveryPolicyStatic -> hasExplicitDevicePaths vg = false ->
  emits (allowed (mkPerms (deleting vg) (fun _ => True) (fun _ => False) (written_back vg) (fun _ => True) (fun _ => True)) vg) (reconcile r FilterSetup vg).
Proof.
  intros Hp Hx. apply allowed_reconcile; [done|done|done|]. intros vgs devices Hne. split; [done|]. simpl.
  intros Hl%lastVGNamed_vgNamed. by apply (excludeNewDevices_static _ _ devices Hp Hx) in Hl.
Qed.

(** * Which devices are used *)

(** The devices given to vgcreate or vgextend. *)
Definition added_of (v : ev vgE) : option (list string) :=
  match v with
  | @Ev _ X e _ =>
      match e with
      | OfLVM _ (CreateVG v _) => Some (map PvName (vg_PVs v))
      | OfLVM _ (ExtendVG _ pvs) => Some pvs
      | _ => None
      end
  end.

(** The resolver calls of a trace. *)
Definition resolver_event (v : ev vgE) : option (ev resolveE) :=
  match v with
  | @Ev _ X e x =>
      match e in vgE X return X -> option (ev resolveE) with
      | OfResolver _ e => fun x => Some (Ev e x)
      | _ => fun _ => None
      end x
  end.

(** The answers of lsblk, losetup and pvs. *)
Definition ok_answer {A} (x : result error A) : option A := match x with Ok a => Some a | Err _ => None end.
Definition block_devices_of (v : ev vgE) : option (list BlockDevice) :=
  match v with
  | @Ev _ X e x =>
      match e in vgE X return X -> option (list BlockDevice) with
      | OfLSBLK X e => match e in lsblkE X return X -> option (list BlockDevice) with
                       | ListBlockDevices => ok_answer
                       | _ => fun _ => None
                       end
      | _ => fun _ => None
      end x
  end.
Definition infos_of (v : ev vgE) : option (gmap string bool) :=
  match v with
  | @Ev _ X e x =>
      match e in vgE X return X -> option (gmap string bool) with
      | OfLSBLK X e => match e in lsblkE X return X -> option (gmap string bool) with
                       | BlockDeviceInfos _ => ok_answer
                       | _ => fun _ => None
                       end
      | _ => fun _ => None
      end x
  end.
Definition pvs_of (v : ev vgE) : option (list PhysicalVolume) :=
  match v with
  | @Ev _ X e x =>
      match e in vgE X return X -> option (list PhysicalVolume) with
      | OfLVM X e => match e in lvmE X return X -> option (list PhysicalVolume) with
                     | ListPVs _ => ok_answer
                     | _ => fun _ => None
                     end
      | _ => fun _ => None
      end x
  end.

Lemma added_permitted p vg tr ds :
  Forall (ev_sat (allowed p vg)) tr -> ds ∈ omap added_of tr -> p_create p ds \/ p_extend p ds.
Proof.
  intros Hall (v & Hv & Hd)%omap_elem. rewrite Forall_forall in Hall. apply Hall in Hv.
  destruct v as [X [X' e|X' e|X' e|X' e|X' e|X' e|X' e|X' e|X' e|X' e] x]; try done.
  destruct e; try done; simpl in *; simplify_eq; naive_solver.
Qed.

(** No device is added. *)
Definition no_adds (d : Prop) : perms := mkPerms d (fun _ => False) (fun _ => False) (fun _ => True) (fun _ => True) (fun _ => True).

Lemma wp_no_adds {A} d vg (q : prog vgE A) :
  emits (allowed (no_adds d) vg) q -> wp q (fun _ tr => omap added_of tr = []).
Proof.
  intros H. eapply wp_skip; [exact H|]. intros a tr Hall.
  destruct (omap added_of tr) as [|ds l] eqn:E; [done|].
  destruct (added_permitted _ _ _ ds Hall) as [[]|[]]. rewrite E. set_solver.
Qed.

(** The devices [ds] were seen by lsblk and accepted by every filter of this run. *)
Definition chosen_from (vg : LVMVolumeGroup) (ds : list string) (tr : list (ev vgE)) : Prop :=
  exists bds bdi pvs,
    bds ∈ omap block_devices_of tr /\ bdi ∈ omap infos_of tr /\ pvs ∈ omap pvs_of tr /\
    forall k, k ∈ ds -> exists dev, in_forest dev bds /\ bd_KName dev = k /\
      accepted (FilterSetup (mkOptions vg bdi pvs)) dev (omap resolver_event tr).

Lemma resolver_event_translate tr : omap resolver_event (map (translate_ev OfResolver) tr) = tr.
Proof. induction tr as [|[X e x] tr IH]; simpl; [done|]. f_equal. exact IH. Qed.

Lemma added_translate tr : omap added_of (map (translate_ev OfResolver) tr) = [].
Proof. induction tr as [|[X e x] tr IH]; simpl; [done|]. exact IH. Qed.

Lemma excludeNewDevices_available vg vgs devices d :
  d ∈ Available (excludeNewDevices vg vgs devices) -> d ∈ Available devices.
Proof. unfold excludeNewDevices. case_match; [|done]. simpl. set_solver. Qed.

Lemma reconcileDevices_added vg vgs devices : ~ deleting vg ->
  wp (reconcileDevices r vg vgs devices) (fun _ tr =>
    forall ds k, ds ∈ omap added_of tr -> k ∈ ds -> k ∈ bd_KName <$> Available devices).
Proof.
  intros Hd. set (Q := fun ds : list string => forall k, k ∈ ds -> k ∈ bd_KName <$> Available devices).
  eapply (wp_skip (allowed (mkPerms False Q Q (fun _ => True) (fun _ => True) (fun _ => True)) vg)).
  - apply allowed_reconcileDevices; [tauto|done|]. intros _.
    assert (HQ : Q (map bd_KName (Available (excludeNewDevices vg vgs devices)))).
    { intros k (d & -> & Hin)%list_elem_of_fmap. apply list_elem_of_fmap. exists d. split; [done|].
      by eapply excludeNewDevices_available. }
    split; intros _; exact HQ.
  - intros a tr Hall ds k Hds Hk. destruct (added_permitted _ _ _ ds Hall Hds) as [H|H]; by apply H.
Qed.

(** From lsblk to the end of the reconciliation. *)
Lemma filter_and_use vg vgs bds bdi pvs : ~ deleting vg ->
  wp (devices <- translate OfResolver (filterDevices (FilterSetup (mkOptions vg bdi pvs)) bds);;
      reconcileDevices r vg vgs devices) (fun _ tr =>
    forall ds k, ds ∈ omap added_of tr -> k ∈ ds ->
      exists dev, in_forest dev bds /\ bd_KName dev = k /\
        accepted (FilterSetup (mkOptions vg bdi pvs)) dev (omap resolver_event tr)).
Proof.
  intros Hd. apply wp_bind, wp_translate. eapply wp_mono; [apply filterDevices_ok|].
  intros devices tf [_ _ Hav _ _]. eapply wp_mono; [by apply reconcileDevices_added|].
  intros a tr Hin ds k. rewrite !omap_app, added_translate, resolver_event_translate. simpl.
  intros Hds Hk. destruct (proj1 (list_elem_of_fmap _ _ _) (Hin ds k Hds Hk)) as (dev & -> & Hdev).
  destruct (Hav dev Hdev) as [Hf Hacc]. exists dev. split; [done|]. split; [done|].
  apply (accepted_app _ dev tf [] _ Hacc).
Qed.

(** Removes the calls of a trace that add no device. *)
Ltac no_adds_left := cbn [wp]; rewrite ?app_nil_r; repeat (rewrite omap_skip by done); rewrite ?omap_app;
  repeat (rewrite omap_skip by done); rewrite ?omap_nil.

(** The devices [ds], with the lsblk answer they were taken from and the part of the trace in which
    devices were to be wiped. *)
Definition added_after (vg : LVMVolumeGroup) (Wiped : list BlockDevice -> list (ev vgE) -> Prop)
    (ds : list string) (tr : list (ev vgE)) : Prop :=
  exists bds bdi pvs tw,
    bds ∈ omap block_devices_of tr /\ bdi ∈ omap infos_of tr /\ pvs ∈ omap pvs_of tr /\
    tw ⊆ tr /\ Wiped bds tw /\
    forall k, k ∈ ds -> exists dev, in_forest dev bds /\ bd_KName dev = k /\
      accepted (FilterSetup (mkOptions vg bdi pvs)) dev (omap resolver_event tr).

Lemma reconcile_adds_after vg Wiped :
  (forall bds, wp (wipeDevices r vg bds) (fun res tw => res.1 = (false, None) -> Wiped bds tw)) ->
  wp (reconcile r FilterSetup vg) (fun _ tr => forall ds, ds ∈ omap added_of tr -> added_after vg Wiped ds tr).
Proof.
  intros HW. unfold reconcile, lvm, client. destruct (om_DeletionTimestamp (lvg_meta vg)) as [ts|] eqn:Hts.
  { apply wp_bind. eapply wp_mono; [apply (wp_no_adds True vg), allowed_processDelete; done|].
    intros err tr Hn. no_adds_left. rewrite Hn. set_solver. }
  assert (Hd : ~ deleting vg) by (unfold deleting; rewrite Hts; auto).
  destruct (AddFinalizer _ _) as [fs []].
  { apply wp_call. intros x. no_adds_left. set_solver. }
  apply wp_call. intros [bds|e]; [|no_adds_left; set_solver].
  apply wp_call. intros [vgs|e]; [|no_adds_left; set_solver].
  destruct (checkRAIDVGHealth r vgs vg) as [err|].
  { apply wp_bind. eapply wp_mono; [apply (wp_no_adds True vg), allowed_warnAndFail|].
    intros u tr Hn. no_adds_left. rewrite Hn. set_solver. }
  apply wp_bind. eapply wp_mono.
  { apply wp_conj; [apply (wp_no_adds False vg), allowed_wipeDevices; tauto|].
    apply wp_conj; [apply wipeDevices_result|apply HW]. }
  intros [[u err] vg'] tw (Hn & [_ Hsame] & Hwiped). cbn [fst snd] in Hsame, Hwiped.
  destruct err; [no_adds_left; rewrite Hn; set_solver|].
  destruct u; [apply wp_call; intros x; no_adds_left; rewrite Hn; set_solver|].
  rewrite (Hsame eq_refl).
  apply wp_call. intros [pvs|e]; [|no_adds_left; rewrite Hn; set_solver].
  apply wp_call. intros [bdi|e]; [|no_adds_left; rewrite Hn; set_solver].
  eapply wp_mono; [by apply (filter_and_use vg vgs bds bdi pvs)|].
  intros a tr Hin ds. no_adds_left. rewrite Hn. intros Hds.
  exists bds, bdi, pvs, tw.
  split; [apply omap_elem; exists (Ev (OfLSBLK _ ListBlockDevices) (Ok bds)); split; [set_solver|done]|].
  split; [apply omap_elem; exists (Ev (OfLSBLK _ (BlockDeviceInfos bds)) (Ok bdi)); split; [set_solver|done]|].
  split; [apply omap_elem; exists (Ev (OfLVM _ (ListPVs "")) (Ok pvs)); split; [set_solver|done]|].
  split; [set_solver|]. split; [auto|].
  intros k Hk. destruct (Hin ds k Hds Hk) as (dev & ? & ? & Hacc).
  exists dev. split; [done|]. split; [done|]. no_adds_left.
  pose proof (accepted_app _ dev _ (omap resolver_event tw) [] Hacc) as Hfin. by rewrite app_nil_r in Hfin.
Qed.

Lemma reconcile_adds vg :
  wp (reconcile r FilterSetup vg) (fun _ tr => forall ds, ds ∈ omap added_of tr -> chosen_from vg ds tr).
Proof.
  eapply wp_mono; [apply (reconcile_adds_after vg (fun _ _ => True)); intros; by apply wp_intro|].
  intros a tr H ds Hds. destruct (H ds Hds) as (bds & bdi & pvs & tw & ? & ? & ? & _ & _ & ?). by exists bds, bdi, pvs.
Qed.

(** C7: a volume group is only ever created from or extended by devices that lsblk listed in this
    very reconciliation (at any depth of its tree) and that every filter, run in this
    reconciliation on what pvs and losetup reported, accepted. *)
Theorem reconcile_uses_accepted_devices vg :
  wp (reconcile r FilterSetup vg) (fun _ tr => forall ds, ds ∈ omap added_of tr -> chosen_from vg ds tr).
Proof. apply reconcile_adds. Qed.
End Confinement.
