(* ===== verification/VgDeleteFacts.v ===== *)
(** Deletion of a volume group and removal of devices from it: what controller.go
    guarantees about data and finalizers. *)

From S2P Require Import Prelude GoStd Effects Api K8sDemo LvAttr Exec Lvm HostTools Resolver Lvmd Filter.
From S2P Require Import Devices Raid VgEnv Wipe VgStatus VgController.

Section Deletion.
Context `{R : GoRuntime} `{K : K8s} `{C : !ControllerUtil}.
Variable r : Reconciler.

(** * Reading a trace *)

Definition ok_of {A} (x : result error A) : option A := match x with Ok a => Some a | Err _ => None end.

(** The answers of [ListVGs]. *)
Definition vgs_of (v : ev vgE) : option (list VolumeGroup) :=
  match v with
  | @Ev _ X e x =>
      match e in vgE X return X -> option (list VolumeGroup) with
      | OfLVM X e => match e in lvmE X return X -> option (list VolumeGroup) with
                     | ListVGs true => ok_of
                     | _ => fun _ => None
                     end
      | _ => fun _ => None
      end x
  end.

(** The volume groups successfully deleted. *)
Definition deleted_of (v : ev vgE) : option VolumeGroup :=
  match v with
  | @Ev _ X e x =>
      match e in vgE X return X -> option VolumeGroup with
      | OfLVM X e => match e in lvmE X return X -> option VolumeGroup with
                     | DeleteVG vg => fun err => match err with None => Some vg | Some _ => None end
                     | _ => fun _ => None
                     end
      | _ => fun _ => None
      end x
  end.

(** The attempts to delete a volume group or logical volume. *)
Definition destroy_of (v : ev vgE) : option unit :=
  match v with
  | @Ev _ X e _ => match e with OfLVM _ (DeleteVG _) | OfLVM _ (DeleteLV _ _) => Some tt | _ => None end
  end.

(** The objects written back. *)
Definition update_of (v : ev vgE) : option LVMVolumeGroup :=
  match v with
  | @Ev _ X e _ => match e with OfClient _ (UpdateVolumeGroup vg) => Some vg | _ => None end
  end.

(** The answers about the storage class of the volume group, which is named after it, and the names
    of the logical volumes listed in it; answers about any other class or group do not count. *)
Definition storage_class_of (vg : LVMVolumeGroup) (v : ev vgE) : option (result error (option ReclaimPolicy)) :=
  match v with
  | @Ev _ X e x =>
      match e in vgE X return X -> option (result error (option ReclaimPolicy)) with
      | OfClient X e => match e in clientE X return X -> option (result error (option ReclaimPolicy)) with
                        | GetStorageClass name => fun a => if String.eqb name ("lvms-" +:+ lvg_Name vg) then Some a else None
                        | _ => fun _ => None
                        end
      | _ => fun _ => None
      end x
  end.
Definition lv_names_of (vg : LVMVolumeGroup) (v : ev vgE) : option (list string) :=
  match v with
  | @Ev _ X e x =>
      match e in vgE X return X -> option (list string) with
      | OfLVM X e => match e in lvmE X return X -> option (list string) with
                     | ListLVsByName name => fun a => if String.eqb name (lvg_Name vg) then ok_of a else None
                     | _ => fun _ => None
                     end
      | _ => fun _ => None
      end x
  end.

(** The storage class is known not to retain volumes. *)
Definition not_retained (a : result error (option ReclaimPolicy)) : Prop :=
  match a with
  | Ok p => p <> Some PersistentVolumeReclaimRetain
  | Err e => IsNotFound e = true
  end.

(** Deleting data is safe: the storage class does not retain it, or there is none of the user. *)
Definition may_destroy (vg : LVMVolumeGroup) (tr : list (ev vgE)) : Prop :=
  (exists a, a ∈ omap (storage_class_of vg) tr /\ not_retained a) \/
  (exists lvs, lvs ∈ omap (lv_names_of vg) tr /\ userLVs vg lvs = []).

(** The volume group is gone from the node. *)
Definition gone (vg : LVMVolumeGroup) (tr : list (ev vgE)) : Prop :=
  exists vgs, vgs ∈ omap vgs_of tr /\
    forall v, vgNamed (lvg_Name vg) vgs = Some v -> v ∈ omap deleted_of tr.

Lemma may_destroy_app vg t t' tr : may_destroy vg tr -> may_destroy vg (t ++ tr ++ t').
Proof.
  intros [(a & Ha & ?)|(l & Hl & ?)]; [left; exists a|right; exists l]; (split; [|done]);
    rewrite !omap_app; set_solver.
Qed.

Lemma gone_app vg t t' tr : gone vg tr -> gone vg (t ++ tr ++ t').
Proof.
  intros (vgs & Hv & Hd). exists vgs. split; [rewrite !omap_app; set_solver|].
  intros v Hv'. specialize (Hd v Hv'). rewrite !omap_app. set_solver.
Qed.

(** * Parts that neither change or list volume groups nor write back *)

Definition harmless X (e : vgE X) : Prop :=
  match e with
  | OfLVM _ (DeleteVG _) | OfLVM _ (DeleteLV _ _) | OfLVM _ (CreateVG _ _) | OfLVM _ (AddTagToVG _) | OfLVM _ (ListVGs _) => False
  | OfClient _ (UpdateVolumeGroup _) | OfClient _ (GetVolumeGroup _ _) => False
  | _ => True
  end.

(** The object without the finalizer of this node. *)
Definition unguarded (vg : LVMVolumeGroup) : LVMVolumeGroup :=
  with_vg_meta vg (with_finalizers (lvg_meta vg) (RemoveFinalizer (om_Finalizers (lvg_meta vg)) (getFinalizer r)).1).

(** What must have happened before a call of the deletion: data is destroyed once that is known to
    be safe, and the object is written, without the finalizer, once the volume group is gone. *)
Definition deletion_step (vg : LVMVolumeGroup) (before : list (ev vgE)) (v : ev vgE) : Prop :=
  (destroy_of v <> None -> may_destroy vg before) /\
  (forall vg', update_of v = Some vg' -> gone vg before /\ vg' = unguarded vg).

(** The calls after [t0] come in that order. *)
Definition safely (vg : LVMVolumeGroup) (t0 tr : list (ev vgE)) : Prop :=
  ordered (fun before => deletion_step vg (t0 ++ before)) tr.

Lemma safely_app vg t0 t1 t2 : safely vg t0 t1 -> safely vg (t0 ++ t1) t2 -> safely vg t0 (t1 ++ t2).
Proof.
  intros H1 H2. unfold safely. rewrite ordered_app. split; [exact H1|].
  eapply ordered_mono; [exact H2|]. intros before v _. by rewrite app_assoc.
Qed.

Lemma harmless_trace vg t0 tr : Forall (ev_sat harmless) tr -> safely vg t0 tr.
Proof.
  intros H. apply ordered_Forall. eapply Forall_impl; [exact H|]. intros v Hv before.
  destruct v as [X [X' e|X' e|X' e|X' e|X' e|X' e|X' e|X' e|X' e|X' e] x]; try by split.
  all: by destruct e; split.
Qed.

Ltac quiet := repeat (solve [eauto 4 with lvms] || emits_step); try done.

Lemma harmless_WarningEvent vg reason err : emits harmless (WarningEvent r vg reason err).
Proof. unfold WarningEvent, recordEvent, client. quiet. Qed.
Lemma harmless_NormalEvent vg reason msg : emits harmless (NormalEvent r vg reason msg).
Proof. unfold NormalEvent, recordEvent, client. quiet. Qed.
Lemma harmless_gauges A (q : prog gaugeE A) : emits harmless (translate OfGauges q).
Proof. by apply emits_translate. Qed.
#[local] Hint Resolve harmless_WarningEvent harmless_NormalEvent harmless_gauges : lvms.

Lemma harmless_failStatus vg vgs devices err : emits harmless (failStatus r vg vgs devices err).
Proof.
  unfold failStatus, setVolumeGroupFailedStatus, reportStatus, applyRAIDStatus, setVolumeGroupStatus, lvm, client.
  quiet.
Qed.
Lemma harmless_removeStatus vg : emits harmless (removeVolumeGroupStatus r vg).
Proof. unfold removeVolumeGroupStatus, client. quiet. Qed.
Lemma harmless_saveLVMD vg o : emits harmless (saveLVMDConfig r vg o).
Proof. unfold saveLVMDConfig. quiet. Qed.
Lemma harmless_checkRetain vg : emits harmless (checkRetain r vg).
Proof. unfold checkRetain, checkUserLVs, isRetainPolicy, lvm, client. quiet. Qed.
#[local] Hint Resolve harmless_failStatus harmless_removeStatus harmless_saveLVMD harmless_checkRetain : lvms.

(** * The deletion *)

Lemma checkUserLVs_spec vg t :
  wp (checkUserLVs r vg) (fun err tr => err = None -> may_destroy vg (t ++ tr)).
Proof.
  unfold checkUserLVs, lvm. apply wp_call. intros [lvs|e]; [|done]. cbv zeta.
  destruct (Nat.ltb_spec 0 (length (userLVs vg lvs))) as [Hl|Hl]; [by apply wp_bind, wp_intro|].
  cbn [wp]. intros _. right. exists lvs. rewrite omap_app, (omap_hit _ _ lvs) by (simpl; by rewrite String.eqb_refl).
  split; [set_solver|]. apply length_zero_iff_nil. lia.
Qed.

Lemma checkRetain_spec vg : wp (checkRetain r vg) (fun err tr => err = None -> may_destroy vg tr).
Proof.
  unfold checkRetain, isRetainPolicy, client. apply wp_bind, wp_call. intros a.
  set (v := Ev (OfClient _ (GetStorageClass (StorageClassPrefix +:+ lvg_Name vg))) a).
  assert (Hno : not_retained a -> may_destroy vg [v]).
  { intros Hn. left. exists a. unfold v, StorageClassPrefix. rewrite (omap_hit _ _ a) by (cbn; by rewrite String.eqb_refl).
    split; [set_solver|done]. }
  destruct a as [p|e]; cbn [wp].
  - case_bool_decide as Hp; [apply (checkUserLVs_spec vg [v])|]. cbn [wp]. auto.
  - destruct (IsNotFound e) eqn:He; [cbn [wp]; auto|apply (checkUserLVs_spec vg [v])].
Qed.

(** The end of the removal never writes the object back. *)
Definition no_update X (e : vgE X) : Prop := match e with OfClient _ (UpdateVolumeGroup _) => False | _ => True end.

Lemma no_update_removal vg vgs v :
  emits no_update (guard deleteThinPool r vg vgs catch err => Ret (Some err) in
    guard lvm (DeleteVG v)
      catch err =>
        (let err := wrapErr ("failed to delete volume group " +:+ lvg_Name vg) err in
         failStatus r vg vgs noDevices err;; Ret (Some err)) in
    Ret None).
Proof.
  assert (Hg : forall A (q : prog gaugeE A), emits no_update (translate OfGauges q)) by (intros; by apply emits_translate).
  unfold deleteThinPool, failStatus, setVolumeGroupFailedStatus, reportStatus, applyRAIDStatus, setVolumeGroupStatus, lvm, client.
  quiet.
Qed.

Lemma no_update_trace vg t0 tr : may_destroy vg t0 -> Forall (ev_sat no_update) tr -> safely vg t0 tr.
Proof.
  intros Hm H. apply ordered_Forall. eapply Forall_impl; [exact H|]. intros v Hv before. split.
  - intros _. apply (may_destroy_app vg [] before), Hm.
  - destruct v as [X [X' e|X' e|X' e|X' e|X' e|X' e|X' e|X' e|X' e|X' e] x]; try done. by destruct e.
Qed.

(** The removal of an existing volume group. *)
Lemma deleteVolumeGroup_spec vg vgs v t0 :
  wp (deleteVolumeGroup r vg vgs v) (fun err tr => safely vg t0 tr /\ (err = None -> v ∈ omap deleted_of tr)).
Proof.
  unfold deleteVolumeGroup. apply wp_bind. eapply wp_mono.
  { apply wp_conj; [apply checkRetain_spec|apply emits_wp, harmless_checkRetain]. }
  intros [err|] t1 [Hm Hh].
  { cbn [wp]. rewrite app_nil_r. by split; [apply harmless_trace|]. }
  specialize (Hm eq_refl). eapply wp_mono.
  { apply wp_conj; [apply emits_wp, no_update_removal|]. instantiate (1 := fun err tr => err = None -> v ∈ omap deleted_of tr).
    apply wp_bind, wp_intro. intros [err|] t2; [done|]. unfold lvm. apply wp_call. intros [err|].
    - by apply wp_bind, wp_intro.
    - cbn [wp]. intros _. rewrite omap_app, (omap_hit _ _ v) by done. set_solver. }
  intros err t2 [Hn Hd]. split.
  - apply safely_app; [by apply harmless_trace|]. apply no_update_trace; [|done].
    pose proof (may_destroy_app vg t0 [] t1 Hm) as H. by rewrite app_nil_r in H.
  - intros ->. rewrite omap_app. specialize (Hd eq_refl). set_solver.
Qed.

(** The steps after the volume group is gone. *)
Lemma finish_deletion vg cfg t0 :
  gone vg t0 ->
  wp (guard saveLVMDConfig r vg cfg catch err => Ret (Some err) in
      guard removeVolumeGroupStatus r vg
        catch err => Ret (Some (wrapErr ("failed to remove status for volume group " +:+ lvg_Name vg) err)) in
      let '(finalizers, removed) := RemoveFinalizer (om_Finalizers (lvg_meta vg)) (getFinalizer r) in
      if (removed : bool) then client (UpdateVolumeGroup (with_vg_meta vg (with_finalizers (lvg_meta vg) finalizers)))
      else Ret None) (fun _ tr => safely vg t0 tr).
Proof.
  intros Hg. apply wp_bind. eapply wp_skip; [apply harmless_saveLVMD|]. intros [err|] t1 Ht1.
  { cbn [wp]. rewrite app_nil_r. by apply harmless_trace. }
  apply wp_bind. eapply wp_skip; [apply harmless_removeStatus|]. intros [err|] t2 Ht2.
  { cbn [wp]. rewrite app_nil_r. apply harmless_trace. by apply Forall_app. }
  destruct (RemoveFinalizer _ _) as [fs []] eqn:Hrf; cbn [wp client call]; [intros err|];
    (apply safely_app; [by apply harmless_trace|apply safely_app; [by apply harmless_trace|]]); [|apply ordered_nil].
  unfold safely. rewrite ordered_cons. split; [|apply ordered_nil]. split; [done|]. intros vg' [= <-].
  split; [|by unfold unguarded; rewrite Hrf]. rewrite !app_nil_r, <- app_assoc. apply (gone_app vg [] (t1 ++ t2) _ Hg).
Qed.

Lemma processDelete_ok vg : wp (processDelete r vg) (fun err tr => safely vg [] tr /\ (err = None -> gone vg tr)).
Proof.
  unfold processDelete, lvm. apply wp_call. intros [loaded|e]; [|by split; [apply harmless_trace; repeat constructor|]]. cbv zeta.
  apply wp_call. intros [vgs|e].
  2: { split; [|done]. unfold safely. rewrite !ordered_cons. by split_and!; [split..|apply ordered_nil]. }
  set (t0 := [Ev (OfLVMD _ Load) (Ok loaded); Ev (OfLVM _ (ListVGs true)) (Ok vgs)]).
  assert (Ht0 : safely vg [] t0) by (unfold safely, t0; rewrite !ordered_cons; by split_and!; [split..|apply ordered_nil]).
  assert (Hgone : forall t, (forall v, vgNamed (lvg_Name vg) vgs = Some v -> v ∈ omap deleted_of t) -> gone vg (t0 ++ t)).
  { intros t Hd. exists vgs. unfold t0. split.
    - rewrite omap_app, omap_skip, (omap_hit _ _ vgs) by done. set_solver.
    - intros v Hv. rewrite omap_app. specialize (Hd v Hv). set_solver. }
  eapply wp_mono with (Q := fun err tr => safely vg t0 tr /\ (err = None -> gone vg (t0 ++ tr))).
  2: { intros err tr [Hs Hg]. split; [|exact Hg]. by apply (safely_app vg [] t0). }
  apply wp_bind. eapply wp_mono.
  { instantiate (1 := fun err tr => safely vg t0 tr /\ (err = None -> gone vg (t0 ++ tr))).
    destruct (vgNamed (lvg_Name vg) vgs) as [v|] eqn:Hv.
    - eapply wp_mono; [apply deleteVolumeGroup_spec|]. intros err t [Hs Hd]. split; [exact Hs|].
      intros ->. apply Hgone. intros v' [= <-]. by apply Hd.
    - split; [apply ordered_nil|]. intros _. by apply Hgone. }
  intros [err|] t [Hs Hg]; [cbn [wp]; by rewrite app_nil_r|]. specialize (Hg eq_refl).
  eapply wp_mono; [apply finish_deletion, Hg|]. intros err t' Ht'. split; [by apply safely_app|].
  intros _. rewrite app_assoc. apply (gone_app vg [] t' _ Hg).
Qed.

(** C6: while an object is being deleted, its volume group or thin pool is destroyed only after
    the storage class named after the group (with the prefix lvms-) was looked up and seen not to
    retain volumes or not to exist, or the logical volumes of this group were listed and found to
    be none but the managed thin pool; success is reported only when LVM did not list the volume
    group or its removal succeeded, and the finalizer of this node is removed from the object, with
    nothing else changed in it, only after that. *)
Theorem processDelete_safe vg :
  wp (processDelete r vg) (fun err tr =>
    ordered (fun before v =>
      (destroy_of v <> None -> may_destroy vg before) /\
      (forall vg', update_of v = Some vg' -> gone vg before /\ vg' = unguarded vg)) tr /\
    (err = None -> gone vg tr)).
Proof. apply processDelete_ok. Qed.
End Deletion.

(** * Removal of devices *)

Section Devices.
Context `{R : GoRuntime} `{K : K8s} `{C : !ControllerUtil}.
Variable r : Reconciler.

(** The devices vgreduce was asked to remove. *)
Definition reduced_of (v : ev vgE) : option string :=
  match v with
  | @Ev _ X e _ => match e with OfLVM _ (ReduceVG _ d) => Some d | _ => None end
  end.

Definition no_reduce X (e : vgE X) : Prop := match e with OfLVM _ (ReduceVG _ _) => False | _ => True end.

Lemma no_reduce_trace tr : Forall (ev_sat no_reduce) tr -> omap reduced_of tr = [].
Proof.
  induction 1 as [|v tr Hv _ IH]; [done|].
  destruct v as [X [X' e|X' e|X' e|X' e|X' e|X' e|X' e|X' e|X' e|X' e] x]; simpl in *;
    rewrite ?omap_skip by done; try done; destruct e; simpl in *; done.
Qed.

Lemma no_reduce_translate tr : omap reduced_of (map (translate_ev OfResolver) tr) = [].
Proof. induction tr as [|[X e x] tr IH]; [done|exact IH]. Qed.

(** Every mapping is the target of a configured path, and every required path has one. *)
Definition mappings_ok (sel : DeviceSelector) (m : list string) (t : list (ev resolveE)) : Prop :=
  (forall path, path ∈ ds_Paths sel -> exists target, Ev (Resolve path) (Ok target) ∈ t /\ target ∈ m) /\
  (forall path, path ∈ ds_OptionalPaths sel ->
     (exists target, Ev (Resolve path) (Ok target) ∈ t /\ target ∈ m) \/ exists e, Ev (Resolve path) (Err e) ∈ t) /\
  (forall target, target ∈ m -> exists path, path ∈ ds_Paths sel ++ ds_OptionalPaths sel /\
     Ev (Resolve path) (Ok target) ∈ t).

Lemma requiredMapping_loop paths acc :
  wp (for_each requiredMapping paths acc) (fun res t =>
    match res with
    | inl m => (forall x, x ∈ acc -> x ∈ m) /\
        (forall path, path ∈ paths -> exists target, Ev (Resolve path) (Ok target) ∈ t /\ target ∈ m) /\
        (forall x, x ∈ m -> x ∈ acc \/ exists path, path ∈ paths /\ Ev (Resolve path) (Ok x) ∈ t)
    | inr _ => True
    end).
Proof.
  revert acc. induction paths as [|p paths IH]; intros acc; [simpl; set_solver|].
  cbn [for_each]. unfold requiredMapping at 1. apply wp_bind, wp_call. intros [target|e]; [|done]. cbn [wp].
  eapply wp_mono; [apply IH|]. intros [m|] t; [|done]. intros (H1 & H2 & H3). split; [set_solver|]. split.
  - intros path [->|Hp]%elem_of_cons; [exists target; set_solver|].
    destruct (H2 path Hp) as (x & ? & ?). exists x. set_solver.
  - intros x Hx. destruct (H3 x Hx) as [[?|Hl%list_elem_of_singleton]%elem_of_app|(path & ? & ?)]; [by left| |].
    + right. exists p. subst. set_solver.
    + right. exists path. set_solver.
Qed.

Lemma optionalMapping_loop paths acc :
  wp (fold_prog optionalMapping paths acc) (fun m t =>
    (forall x, x ∈ acc -> x ∈ m) /\
    (forall path, path ∈ paths ->
       (exists target, Ev (Resolve path) (Ok target) ∈ t /\ target ∈ m) \/ exists e, Ev (Resolve path) (Err e) ∈ t) /\
    (forall x, x ∈ m -> x ∈ acc \/ exists path, path ∈ paths /\ Ev (Resolve path) (Ok x) ∈ t)).
Proof.
  revert acc. induction paths as [|p paths IH]; intros acc; [simpl; set_solver|].
  cbn [fold_prog]. unfold optionalMapping at 1. apply wp_bind, wp_call.
  intros [target|e]; cbn [wp]; (eapply wp_mono; [apply IH|]); intros m t (H1 & H2 & H3).
  - split; [set_solver|]. split.
    + intros path [->|Hp]%elem_of_cons; [left; exists target; set_solver|].
      destruct (H2 path Hp) as [(x & ? & ?)|(e & ?)]; [left; exists x; set_solver|right; exists e; set_solver].
    + intros x Hx. destruct (H3 x Hx) as [[?|Hl%list_elem_of_singleton]%elem_of_app|(path & ? & ?)]; [by left| |].
      * right. exists p. subst. set_solver.
      * right. exists path. set_solver.
  - split; [done|]. split.
    + intros path [->|Hp]%elem_of_cons; [right; exists e; set_solver|].
      destruct (H2 path Hp) as [(x & ? & ?)|(e' & ?)]; [left; exists x; set_solver|right; exists e'; set_solver].
    + intros x Hx. destruct (H3 x Hx) as [?|(path & ? & ?)]; [by left|]. right. exists path. set_solver.
Qed.

Lemma buildDevicePathMappings_ok vg sel : vgs_DeviceSelector (lvg_Spec vg) = Some sel ->
  wp (buildDevicePathMappings vg) (fun res t => forall m, res = Ok m -> mappings_ok sel m t).
Proof.
  intros Hsel. unfold buildDevicePathMappings. rewrite Hsel. apply wp_bind.
  eapply wp_mono; [apply requiredMapping_loop|]. intros [m1|e] t1; [|done]. intros (_ & H2 & H3).
  apply wp_bind. eapply wp_mono; [apply optionalMapping_loop|]. intros m2 t2 (G1 & G2 & G3).
  cbn [wp]. intros ? [= <-]. rewrite app_nil_r. split; [|split].
  - intros path Hp. destruct (H2 path Hp) as (x & ? & ?). exists x. set_solver.
  - intros path Hp. destruct (G2 path Hp) as [(x & ? & ?)|(e & ?)]; [left; exists x|right; exists e]; set_solver.
  - intros x Hx. destruct (G3 x Hx) as [Hx1|(path & ? & ?)]; [|exists path; set_solver].
    destruct (H3 x Hx1) as [?|(path & ? & ?)]; [set_solver|]. exists path. set_solver.
Qed.

(** [d] is not the device of a mapping, neither by name nor by what it resolves to. *)
Definition unselected (m : list string) (t : list (ev vgE)) (d : string) : Prop :=
  (d ∉ m) /\ exists a, Ev (OfResolver _ (Resolve d)) a ∈ t /\ forall target, a = Ok target -> target ∉ m.

Lemma unmatchedPVs_loop m pvs acc :
  wp (fold_prog (fun pv devicesToRemove =>
        matched <- pvMatched m pv;;
        Ret (if (matched : bool) then devicesToRemove else devicesToRemove ++ [PvName pv])) pvs acc) (fun ds t =>
    (length ds <= length acc + length pvs)%nat /\ omap reduced_of t = [] /\
    forall d, d ∈ ds -> d ∈ acc \/ (d ∈ PvName <$> pvs /\ unselected m t d)).
Proof.
  revert acc. induction pvs as [|pv pvs IH]; intros acc; [simpl; split; [lia|]; set_solver|].
  assert (Hskip : forall t t' d, unselected m t d -> unselected m (t' ++ t) d).
  { intros t t' d (H & a & ? & ?). split; [done|]. exists a. set_solver. }
  assert (Hnext : forall acc' t', (length acc' <= S (length acc))%nat -> omap reduced_of t' = [] ->
    (forall d, d ∈ acc' -> d ∈ acc \/ (d = PvName pv /\ unselected m t' d)) ->
    wp (fold_prog (fun pv devicesToRemove =>
        matched <- pvMatched m pv;;
        Ret (if (matched : bool) then devicesToRemove else devicesToRemove ++ [PvName pv])) pvs acc') (fun ds t =>
      (length ds <= length acc + length (pv :: pvs))%nat /\ omap reduced_of (t' ++ t) = [] /\
      forall d, d ∈ ds -> d ∈ acc \/ (d ∈ PvName <$> pv :: pvs /\ unselected m (t' ++ t) d))).
  { intros acc' t' Hlen Hred Hacc. eapply wp_mono; [apply IH|]. intros ds t (Hl & Hn & Hd).
    split; [simpl; lia|]. split; [by rewrite omap_app, Hred, Hn|]. intros d Hds.
    destruct (Hd d Hds) as [Ha|[Hp Hu]].
    - destruct (Hacc d Ha) as [?|[-> Hu]]; [by left|right]. split; [set_solver|].
      destruct Hu as (? & a & ? & ?). split; [done|]. exists a. set_solver.
    - right. split; [set_solver|]. by apply Hskip. }
  cbn [fold_prog]. apply wp_bind, wp_bind. unfold pvMatched.
  destruct (contains_str m (PvName pv)) eqn:Hc; cbn [wp].
  { apply (Hnext acc []); [lia|done|auto]. }
  apply wp_call. intros a. cbn [wp].
  destruct (match a with Ok name => contains_str m name | Err _ => false end) eqn:Ha.
  - apply (Hnext acc [Ev (OfResolver _ (Resolve (PvName pv))) a]); [lia|by rewrite omap_skip|auto].
  - apply (Hnext (acc ++ [PvName pv]) [Ev (OfResolver _ (Resolve (PvName pv))) a]);
      [rewrite length_app; simpl; lia|by rewrite omap_skip|].
    intros d [?|Hd%list_elem_of_singleton]%elem_of_app; [by left|right]. split; [done|]. subst d.
    split; [by apply contains_str_false|]. exists a. split; [set_solver|].
    intros target ->. by apply contains_str_false.
Qed.

Lemma removeDevice_loop vg ds :
  wp (for_each (removeDevice r vg) ds tt) (fun _ t => omap reduced_of t `prefix_of` ds).
Proof.
  induction ds as [|d ds IH]; [apply prefix_nil|]. cbn [for_each]. unfold removeDevice at 1, lvm.
  apply wp_bind, wp_call. intros [err|].
  - apply wp_bind. eapply (wp_skip no_reduce).
    + unfold WarningEvent, recordEvent, client. repeat (solve [eauto] || emits_step); done.
    + intros u t Hn%no_reduce_trace. cbn [wp]. rewrite ?app_nil_r, (omap_hit _ _ d), Hn by done.
      by exists ds.
  - apply wp_call. intros o. cbn [wp]. eapply wp_mono; [apply IH|]. intros u t Ht. simpl app.
    rewrite (omap_hit _ _ d), omap_skip by done. destruct Ht as [k ->]. by exists k.
Qed.

(** What a run of deleteRemovedDevices may remove. *)
Definition removal_safe (cur : VolumeGroup) (vg : LVMVolumeGroup) (tr : list (ev vgE)) : Prop :=
  omap reduced_of tr = [] \/
  exists sel m t1 t2,
    vgs_DeviceSelector (lvg_Spec vg) = Some sel /\ selector_has_paths (Some sel) = true /\
    IsMissingDevices cur = false /\
    tr = map (translate_ev OfResolver) t1 ++ t2 /\ mappings_ok sel m t1 /\
    (forall d, d ∈ omap reduced_of tr -> d ∈ PvName <$> vg_PVs cur /\ unselected m t2 d) /\
    (length (omap reduced_of tr) < length (vg_PVs cur))%nat.

Lemma deleteRemovedDevices_ok cur vg :
  wp (deleteRemovedDevices r cur vg) (fun _ tr => removal_safe cur vg tr).
Proof.
  unfold deleteRemovedDevices, removal_safe.
  destruct (vgs_DeviceSelector (lvg_Spec vg)) as [sel|] eqn:Hsel; [|by left].
  destruct (selector_has_paths (Some sel)) eqn:Hp; simpl negb; cbv iota; [|by left].
  destruct (IsMissingDevices cur) eqn:Hmiss; [by left|].
  apply wp_bind, wp_translate. eapply wp_mono; [by apply (buildDevicePathMappings_ok vg sel)|].
  intros [m|e] t1 Hm; [|left; cbn [wp]; rewrite app_nil_r; apply no_reduce_translate].
  specialize (Hm m eq_refl). apply wp_bind. eapply wp_mono; [apply unmatchedPVs_loop|].
  intros ds t2 (Hlen & Hn & Hds). cbv beta in Hds. simpl in Hlen.
  assert (Hnone : forall A (x : A), wp (Ret x : prog vgE A) (fun _ t =>
     omap reduced_of (map (translate_ev OfResolver) t1 ++ t2 ++ t) = [])).
  { intros A x. cbn [wp]. by rewrite app_nil_r, omap_app, no_reduce_translate, Hn. }
  destruct (length ds =? 0)%nat; [left; apply (Hnone _ tt)|]. cbv zeta.
  destruct (Z.ltb_spec (Z.of_nat (length (vg_PVs cur)) - Z.of_nat (length ds)) 1) as [|Hrem];
    [left; apply (Hnone _ tt)|].
  destruct (match vgs_RAIDConfig (lvg_Spec vg) with Some rc => _ | None => None end);
    [left; apply (Hnone _ tt)|].
  apply wp_bind. eapply wp_mono; [apply removeDevice_loop|]. intros res t3 Hpre.
  eapply (wp_skip no_reduce).
  { destruct res as [u|err]; [|done]. unfold NormalEvent, recordEvent, client.
    repeat (solve [eauto] || emits_step); done. }
  intros a t4 Hn4%no_reduce_trace. right. exists sel, m, t1, (t2 ++ t3 ++ t4).
  assert (Hred : omap reduced_of (map (translate_ev OfResolver) t1 ++ t2 ++ t3 ++ t4) = omap reduced_of t3)
    by (by rewrite !omap_app, no_reduce_translate, Hn, Hn4, app_nil_r).
  rewrite Hred. do 5 (split; [done|]). split.
  - intros d Hd. destruct Hpre as [rest ->].
    destruct (Hds d) as [?|[? (? & x & ? & ?)]]; [set_solver|set_solver|]. split; [done|].
    split; [done|]. exists x. set_solver.
  - apply prefix_length in Hpre. lia.
Qed.

(** C11: deleteRemovedDevices takes a physical volume out of the volume group only when device
    paths are configured, no device of the volume group is missing, and the device is none of
    those the configured paths resolved to in this call, neither under its own name nor under
    the name it resolves to; at least one physical volume always stays. *)
Theorem deleteRemovedDevices_safe cur vg :
  wp (deleteRemovedDevices r cur vg) (fun _ tr => removal_safe cur vg tr).
Proof. apply deleteRemovedDevices_ok. Qed.
End Devices.
