(* ===== verification/VgConfined.v ===== *)
(** What one reconciliation of a volume group may change, call by call: every call is confined to
    this volume group, its thin pool and its devices, given the calls before it. *)

From S2P Require Import Prelude GoStd Effects Api K8sDemo LvAttr Exec Lvm HostTools Resolver Lvmd Filter.
From S2P Require Import Devices Raid VgEnv Wipe VgStatus VgController VgFacts VgDeleteFacts.

Section Confined.
Context `{R : GoRuntime} `{K : K8s} `{C : !ControllerUtil}.
Variables (r : Reconciler) (FilterSetup : Options -> Filters).

(** [d] is a physical volume of the group of this name, as LVM listed it before. *)
Definition listed_pv (vg : LVMVolumeGroup) (before : list (ev vgE)) (d : string) : Prop :=
  exists vgs v, vgs ∈ omap vgs_of before /\ vgNamed (lvg_Name vg) vgs = Some v /\ d ∈ PvName <$> vg_PVs v.

(** [d] was taken out of the group before. *)
Definition taken_out (vg : LVMVolumeGroup) (before : list (ev vgE)) (d : string) : Prop :=
  Ev (OfLVM _ (ReduceVG (lvg_Name vg) d)) None ∈ before.

Definition perms_after (vg : LVMVolumeGroup) (before : list (ev vgE)) : perms :=
  mkPerms (deleting vg) (fun _ => True) (fun _ => True) (written_back r vg) (listed_pv vg before) (taken_out vg before).

(** The call [v] is allowed after the calls [before]. *)
Definition confined (vg : LVMVolumeGroup) (before : list (ev vgE)) (v : ev vgE) : Prop :=
  ev_sat (allowed r (perms_after vg before) vg) v.

(** The calls after [t0] are. *)
Definition confined_after (vg : LVMVolumeGroup) (t0 tr : list (ev vgE)) : Prop :=
  ordered (fun before => confined vg (t0 ++ before)) tr.

Lemma confined_bind {A B} vg t0 (p : prog vgE A) (f : A -> prog vgE B) Q :
  wp p (fun a tr => confined_after vg t0 tr /\ Q a tr) ->
  (forall a tr, Q a tr -> wp (f a) (fun _ tr' => confined_after vg (t0 ++ tr) tr')) ->
  wp (pbind p f) (fun _ tr => confined_after vg t0 tr).
Proof.
  intros Hp Hf. apply wp_bind. eapply wp_mono; [exact Hp|]. intros a tr [Hc HQ].
  eapply wp_mono; [by apply Hf|]. intros b tr' Hc'. unfold confined_after. rewrite ordered_app. split; [exact Hc|].
  eapply ordered_mono; [exact Hc'|]. intros before v _. by rewrite app_assoc.
Qed.

(** Parts that take no device out of the group. *)
Definition no_removal (vg : LVMVolumeGroup) : perms :=
  mkPerms (deleting vg) (fun _ => True) (fun _ => True) (written_back r vg) (fun _ => False) (fun _ => False).

Lemma no_removal_allowed vg before X (e : vgE X) :
  allowed r (no_removal vg) vg X e -> allowed r (perms_after vg before) vg X e.
Proof. destruct e as [? []| | | | | | | | |]; simpl; tauto. Qed.

Lemma no_removal_confined {A} vg t0 (p : prog vgE A) :
  emits (allowed r (no_removal vg) vg) p -> wp p (fun _ tr => confined_after vg t0 tr).
Proof.
  intros H. eapply wp_skip; [exact H|]. intros a tr Hall. apply ordered_Forall.
  eapply Forall_impl; [exact Hall|]. intros [X e x] He before. by apply no_removal_allowed.
Qed.

Lemma no_removal_then {A B} vg t0 (p : prog vgE A) (f : A -> prog vgE B) :
  emits (allowed r (no_removal vg) vg) p ->
  (forall a tr, wp (f a) (fun _ tr' => confined_after vg (t0 ++ tr) tr')) ->
  wp (pbind p f) (fun _ tr => confined_after vg t0 tr).
Proof.
  intros Hp Hf. eapply (confined_bind _ _ _ _ (fun _ _ => True)); [|auto].
  eapply wp_mono; [by apply no_removal_confined|]. by split.
Qed.

(** * Removal of devices *)

Lemma unmatchedPVs_subset m pvs : wp (unmatchedPVs m pvs) (fun ds _ => forall d, d ∈ ds -> d ∈ PvName <$> pvs).
Proof.
  eapply wp_mono; [apply unmatchedPVs_loop|]. intros ds t (_ & _ & H) d Hd. by destruct (H d Hd) as [?%elem_of_nil|[? _]].
Qed.

Lemma listed_pv_app vg t t' d : listed_pv vg t d -> listed_pv vg (t ++ t') d.
Proof. intros (vgs & v & Hv & Hn & Hd). exists vgs, v. rewrite omap_app. split; [set_solver|done]. Qed.

Section Live.
Variable vg : LVMVolumeGroup.
Hypothesis Hlive : ~ deleting vg.

Lemma removeDevice_confined ds t0 :
  hasExplicitDevicePaths vg = true -> (forall d, d ∈ ds -> listed_pv vg t0 d) ->
  wp (for_each (removeDevice r vg) ds tt) (fun _ tr => confined_after vg t0 tr).
Proof.
  intros Hp. revert t0. induction ds as [|d ds IH]; intros t0 Hl; [apply ordered_nil|].
  cbn [for_each]. eapply (confined_bind _ _ _ _ (fun _ _ => True)).
  2: { intros [[]|err] tr _; [|apply ordered_nil]. apply IH. intros d' Hd'. apply listed_pv_app, Hl. by right. }
  unfold removeDevice, lvm.
  assert (Hred : forall x before, confined vg (t0 ++ before) (Ev (OfLVM _ (ReduceVG (lvg_Name vg) d)) x)).
  { intros x before. split_and!; [done..|]. apply listed_pv_app, Hl. left. }
  apply wp_call. intros [err|].
  - apply wp_bind. eapply wp_mono; [apply (no_removal_confined vg (t0 ++ [Ev (OfLVM _ (ReduceVG (lvg_Name vg) d)) (Some err)])), allowed_WarningEvent|].
    intros [] tr Hc. cbn [wp]. rewrite app_nil_r. split; [|done]. unfold confined_after. rewrite ordered_cons.
    split; [apply Hred|]. eapply ordered_mono; [exact Hc|]. intros before v _ Hv. cbv beta in Hv. by rewrite <- app_assoc in Hv.
  - apply wp_call. intros x. cbn [wp]. split; [|done]. unfold confined_after. rewrite !ordered_cons.
    split_and!; [apply Hred| |apply ordered_nil]. split_and!; [done..|]. unfold taken_out. cbn. set_solver.
Qed.

Lemma deleteRemoved_confined v t0 :
  (forall d, d ∈ PvName <$> vg_PVs v -> listed_pv vg t0 d) ->
  wp (deleteRemovedDevices r v vg) (fun _ tr => confined_after vg t0 tr).
Proof.
  intros Hl. unfold deleteRemovedDevices. destruct (selector_has_paths (vgs_DeviceSelector (lvg_Spec vg))) eqn:Hp;
    cbn [negb]; [|apply ordered_nil].
  destruct (IsMissingDevices v); [apply ordered_nil|].
  apply no_removal_then; [apply allowed_resolver|]. intros [m|err] t1; [|apply ordered_nil].
  eapply (confined_bind _ _ _ _ (fun ds _ => forall d, d ∈ ds -> d ∈ PvName <$> vg_PVs v)).
  { apply wp_conj; [|apply unmatchedPVs_subset]. apply no_removal_confined. apply emits_fold. intros pv acc _.
    apply emits_bind; [|done]. unfold pvMatched. destruct (contains_str m (PvName pv)); [done|]. by split. }
  intros ds t2 Hds. destruct (length ds =? 0)%nat; [apply ordered_nil|]. cbv zeta.
  destruct (_ <? 1)%Z; [apply ordered_nil|].
  destruct (match vgs_RAIDConfig (lvg_Spec vg) with Some rc => _ | None => None end); [apply ordered_nil|].
  eapply (confined_bind _ _ _ _ (fun _ _ => True)).
  { eapply wp_mono; [apply removeDevice_confined; [exact Hp|]|by split].
    intros d Hd. by apply listed_pv_app, listed_pv_app, Hl, Hds. }
  intros [[]|err] t3 _; [|apply ordered_nil]. apply no_removal_confined.
  apply emits_bind; [apply allowed_NormalEvent|done].
Qed.

(** * The handler *)

Ltac rest := apply no_removal_confined;
  repeat first [ solve [eauto using allowed_warnAndFail, allowed_failStatus, allowed_checkLVs, allowed_applyLVMD, allowed_setReady] | emits_step ];
  try done.

Lemma reconcileExisting_confined vgs devices t0 :
  vgs ∈ omap vgs_of t0 -> wp (reconcileExisting r vg vgs devices) (fun _ tr => confined_after vg t0 tr).
Proof.
  intros Hvgs. unfold reconcileExisting. destruct (vgNamed (lvg_Name vg) vgs) as [v|] eqn:Hv; [|rest].
  eapply (confined_bind _ _ _ _ (fun _ _ => True)).
  { eapply wp_mono; [apply deleteRemoved_confined|by split]. intros d Hd. by exists vgs, v. }
  intros [deleted [err|]] t1 _; unfold lvm; rest.
Qed.

Lemma reconcileDevices_confined vgs devices t0 :
  vgs ∈ omap vgs_of t0 -> wp (reconcileDevices r vg vgs devices) (fun _ tr => confined_after vg t0 tr).
Proof.
  intros Hvgs. unfold reconcileDevices. apply no_removal_then.
  { destruct (vgs_DeviceSelector (lvg_Spec vg)); [apply allowed_resolver|done]. }
  intros [err|] t1; [rest|]. cbv zeta. destruct (_ =? 0)%nat eqn:Hn.
  - apply reconcileExisting_confined. rewrite omap_app. set_solver.
  - apply no_removal_then; [apply allowed_Progressing|]. intros [updated err] t2.
    destruct err, updated; try apply ordered_nil; apply no_removal_confined, allowed_reconcileNew; try done;
      intros H; by rewrite H in Hn.
Qed.
End Live.

(** C5: every call of a reconciliation, whatever the environment answers, is confined to this
    volume group. A volume group is created, extended, reduced or removed only under the name of
    this one, and logical volumes are created, extended, activated or removed only in it and only
    if they are its thin pool. The group and its thin pool are removed only while the object is
    being deleted; they are created or extended, and physical volumes taken out of the group, only
    while it is not. A device is taken out only if device paths are configured and LVM listed it
    before, in this run, as a physical volume of this group, and pvremove is run only on a device
    that was taken out of this group before. Devices are wiped only under the force-wipe option and
    without the mark of this node. The object is written back with nothing changed but the
    finalizer of this node (added when live, removed when being deleted) or the mark of this node,
    and of the node statuses only that of this node is written. *)
Theorem reconcile_confined vg :
  wp (reconcile r FilterSetup vg) (fun _ tr => ordered (confined vg) tr).
Proof.
  change (ordered (confined vg)) with (confined_after vg []). unfold reconcile, lvm, client.
  destruct (om_DeletionTimestamp (lvg_meta vg)) as [ts|] eqn:Hts.
  { apply no_removal_confined, emits_bind; [|done]. assert (deleting vg) by (unfold deleting; by rewrite Hts).
    apply allowed_processDelete; [done|]. right. by left. }
  assert (Hd : ~ deleting vg) by (unfold deleting; rewrite Hts; auto).
  destruct (AddFinalizer _ _) as [fs []] eqn:Hadd.
  { apply no_removal_confined, emits_bind; [|done]. apply emits_call. left. by rewrite Hadd. }
  apply no_removal_then; [by apply emits_call|]. intros [bds|err] t1; [|apply ordered_nil].
  eapply (confined_bind _ _ _ _ (fun res tr => forall vgs, res = Ok vgs -> vgs ∈ omap vgs_of tr)).
  { apply wp_conj; [by apply no_removal_confined|]. intros x vgs ->. cbn. set_solver. }
  intros [vgs|err] t2 Hvgs; [|apply ordered_nil]. specialize (Hvgs vgs eq_refl).
  destruct (checkRAIDVGHealth r vgs vg) as [err|].
  { apply no_removal_confined, emits_bind; [apply allowed_warnAndFail|done]. }
  eapply (confined_bind _ _ _ _ (fun res _ => wiped_result r vg res)).
  { apply wp_conj; [|apply wipeDevices_result]. by apply no_removal_confined, allowed_wipeDevices. }
  intros [[[] err] vg'] t3 [Ht Hf]; simpl in Ht, Hf; (destruct err as [err|]; [apply ordered_nil|]).
  - destruct (Ht eq_refl) as [Hs [now ->]]. apply no_removal_confined, emits_bind; [|done].
    apply emits_call. right. right. split_and!; [done..|]. by exists (wipedMarker now).
  - rewrite (Hf eq_refl).
    do 2 (apply no_removal_then; [by apply emits_call|]; intros [?|?] ?; [|apply ordered_nil]).
    apply no_removal_then; [apply allowed_resolver|]. intros devices t6.
    apply reconcileDevices_confined; [done|]. rewrite !omap_app. set_solver.
Qed.
End Confined.
