(* ===== verification/GroupContract.v ===== *)
(** What vgmanager promises to the rest of the cluster about one volume group, as a monitor of its
    calls ([in_order]), and that the reconciler keeps the promise.

    A volume group is created on the node only after an object was read that is not being
    deleted and carries the finalizer of the node, and never taken over by tagging it. An object
    is written at most once per read; everything in it that others keep there is written back as it
    was read ([kept]), and the finalizer of this node is taken away only from an object that is
    being deleted, after LVM was seen without the volume group. *)

From S2P Require Import Prelude GoStd Effects Monitor Api K8sDemo LvAttr Exec Lvm HostTools Resolver Lvmd Filter.
From S2P Require Import Devices Raid VgEnv Wipe VgStatus VgController VgFacts VgDeleteFacts.

Section Contract.
Context `{R : GoRuntime} `{K : K8s} `{C : !ControllerUtil}.
Variables (group : string) (r : Reconciler).

(** * The monitor *)

(** [Void]: the API server answered with another object than the one asked for. Otherwise the
    object that was read last, whether it was written since, and whether LVM is known not to
    have the volume group. *)
Inductive Mon :=
| Void
| Watch (read : option LVMVolumeGroup) (written clean : bool).

Definition start : Mon := Watch None false false.

Definition mon_client (m : Mon) {X} (e : clientE X) : X -> Mon :=
  match m with
  | Void => fun _ => Void
  | Watch read written clean =>
      match e in clientE X return X -> Mon with
      | GetVolumeGroup _ name => fun res =>
          match res with
          | Ok o => if negb (String.eqb (lvg_Name o) name) then Void
                    else if String.eqb name group then Watch (Some o) false clean else m
          | Err _ => if String.eqb name group then Watch None false clean else m
          end
      | UpdateVolumeGroup o => fun _ => if String.eqb (lvg_Name o) group then Watch read true clean else m
      | _ => fun _ => m
      end
  end.

Definition mon_lvm (m : Mon) {X} (e : lvmE X) : X -> Mon :=
  match m with
  | Void => fun _ => Void
  | Watch read written clean =>
      match e in lvmE X return X -> Mon with
      | ListVGs true => fun res =>
          match res with
          | Ok vgs => Watch read written (match vgNamed group vgs with None => true | Some _ => false end)
          | Err _ => m
          end
      | CreateVG v _ => fun _ => if String.eqb (vg_Name v) group then Watch read written false else m
      | DeleteVG v => fun err =>
          match err with
          | None => if String.eqb (vg_Name v) group then Watch read written true else m
          | Some _ => m
          end
      | _ => fun _ => m
      end
  end.

Definition delta (m : Mon) (v : ev vgE) : Mon :=
  match v with
  | @Ev _ X e x =>
      match e in vgE X return X -> Mon with
      | OfClient _ e => mon_client m e
      | OfLVM _ e => mon_lvm m e
      | _ => fun _ => m
      end x
  end.

Definition guarded (o : LVMVolumeGroup) : Prop := ~ deleting o /\ getFinalizer r ∈ om_Finalizers (lvg_meta o).

Definition annotations (o : LVMVolumeGroup) : gmap string string := default ∅ (om_Annotations (lvg_meta o)).

(** [o'] may be written for [o]: the spec, the labels, the owners, the identity and the deletion
    timestamp are the same, and so are the annotations but for the mark of this node, which may be
    set where there is none, and the finalizers but for that of this node. That one is added to
    a live object only, and taken from an object that is being deleted only, once LVM is known not
    to have the volume group. *)
Definition kept (clean : bool) (o o' : LVMVolumeGroup) : Prop :=
  lvg_Spec o' = lvg_Spec o /\
  lvg_meta o' = with_annotations (with_finalizers (lvg_meta o) (om_Finalizers (lvg_meta o'))) (om_Annotations (lvg_meta o')) /\
  (forall k, k <> wipedAnnotation r \/ is_Some (annotations o !! k) -> annotations o' !! k = annotations o !! k) /\
  (forall f, f <> getFinalizer r -> (f ∈ om_Finalizers (lvg_meta o') <-> f ∈ om_Finalizers (lvg_meta o))) /\
  (getFinalizer r ∈ om_Finalizers (lvg_meta o') -> getFinalizer r ∈ om_Finalizers (lvg_meta o) \/ ~ deleting o) /\
  (getFinalizer r ∈ om_Finalizers (lvg_meta o) ->
   getFinalizer r ∈ om_Finalizers (lvg_meta o') \/ deleting o /\ clean = true).

Definition in_order (m : Mon) (X : Type) (e : vgE X) : Prop :=
  match m with
  | Void => True
  | Watch read written clean =>
      match e with
      | OfLVM _ (CreateVG v _) => vg_Name v = group -> exists o, read = Some o /\ guarded o
      | OfLVM _ (AddTagToVG name) => name <> group
      | OfClient _ (UpdateVolumeGroup o') =>
          lvg_Name o' = group -> written = false /\ exists o, read = Some o /\ kept clean o o'
      | _ => True
      end
  end.

(** * The reconciler *)

Variable FilterSetup : Options -> Filters.
Context `{L : !ControllerUtilLaws C}.

Abbreviation keeps_promise := (follows delta in_order).

(** The reconciliation of another volume group. *)
Lemma other_group vg m : lvg_Name vg <> group -> keeps_promise m (reconcile r FilterSetup vg).
Proof.
  intros Hn. eapply (follows_closed _ _ (fun _ => True)); [|done|apply (allowed_reconcile r FilterSetup
    (mkPerms (deleting vg) (fun _ => True) (fun _ => True) (fun o => lvg_Name o = lvg_Name vg) (fun _ => True) (fun _ => True))); try done].
  - split; [|done]. intros [|read written clean] X e _; [done|]. destruct e as [? []| | | | | | |? []| |]; simpl; try done.
    + intros [-> _]. by intros ?.
    + intros -> ?. done.
  - by intros vg' [[_ ->]|[[_ ->]|(_ & _ & mark & ->)]].
Qed.

(** While the object is live and carries the finalizer, calls that do not write it are in order. *)
Definition live_perms : perms := mkPerms False (fun _ => True) (fun _ => True) (fun _ => False) (fun _ => True) (fun _ => True).
Definition has_read (vg : LVMVolumeGroup) (m : Mon) : Prop := exists clean, m = Watch (Some vg) false clean.

Lemma live_closed vg : guarded vg -> closed delta in_order (has_read vg) (allowed r live_perms vg).
Proof.
  intros Hg. split.
  - intros m X e [clean ->]. destruct e as [? []| | | | | | |? []| |]; simpl; try done. intros _ _. by exists vg.
  - intros m X e x [clean ->]. unfold has_read.
    destruct e as [? []| | | | | | |? []| |]; simpl; try (by intros []); try (intros; by eexists).
    + intros _. destruct (String.eqb _ _); by eexists.
    + intros _. destruct tagged; [|by eexists]. destruct x; by eexists.
Qed.

(** Calls that tell the monitor nothing. *)
Definition neutral (X : Type) (e : vgE X) : Prop :=
  match e with OfLVM _ (DeleteLV _ _) => True | _ => harmless X e end.

Lemma neutral_closed m : closed delta in_order (eq m) neutral.
Proof.
  split.
  - intros m' X e <-. destruct m; [done|]. by destruct e as [? []| | | | | | |? []| |].
  - intros m' X e x <-. destruct m; destruct e as [? []| | | | | | |? []| |]; done.
Qed.

Lemma harmless_neutral A (p : prog vgE A) : emits harmless p -> emits neutral p.
Proof. intros H. eapply emits_mono; [exact H|]. intros X e. by destruct e as [? []| | | | | | |? []| |]. Qed.

Lemma neutral_deleteThinPool vg vgs : emits neutral (deleteThinPool r vg vgs).
Proof.
  unfold deleteThinPool, lvm.
  assert (forall err, emits neutral (failStatus r vg vgs noDevices err)) by (intros; apply harmless_neutral, harmless_failStatus).
  emits_auto; done.
Qed.

(** The end of a deletion, once LVM is known not to have the volume group. *)
Lemma finish_follows vg lvmdConfig : lvg_Name vg = group -> deleting vg ->
  keeps_promise (Watch (Some vg) false true)
    (guard saveLVMDConfig r vg lvmdConfig catch err => Ret (Some err) in
     guard removeVolumeGroupStatus r vg
       catch err => Ret (Some (wrapErr ("failed to remove status for volume group " +:+ lvg_Name vg) err)) in
     let '(finalizers, removed) := RemoveFinalizer (om_Finalizers (lvg_meta vg)) (getFinalizer r) in
     if (removed : bool) then client (UpdateVolumeGroup (with_vg_meta vg (with_finalizers (lvg_meta vg) finalizers)))
     else Ret None).
Proof.
  intros Hn Hd. eapply follows_then; [apply neutral_closed|reflexivity|apply harmless_neutral, harmless_saveLVMD|].
  intros m [err|] <-; [done|].
  eapply follows_then; [apply neutral_closed|reflexivity|apply harmless_neutral, harmless_removeStatus|].
  intros m [err|] <-; [done|].
  destruct (RemoveFinalizer_spec (om_Finalizers (lvg_meta vg)) (getFinalizer r)) as (Hout & _ & Hkeep).
  destruct (RemoveFinalizer _ _) as [fs []]; [|done]. split; [|done]. intros _. split; [done|]. exists vg. split; [done|].
  split_and!; [done..|exact Hkeep| |].
  - by intros ?%Hout.
  - intros _. by right.
Qed.

(** Neutral calls leave the monitor where it is. *)
Lemma neutral_trace m tr : Forall (ev_sat neutral) tr -> foldl delta m tr = m.
Proof.
  induction 1 as [|[X e x] tr Hv _ IH]; [done|]. cbn [foldl].
  by rewrite <- (closed_step _ _ _ _ (neutral_closed m) m X e x eq_refl Hv).
Qed.

Lemma deleteVolumeGroup_follows vg vgs v m : vg_Name v = group ->
  m = Watch (Some vg) false false ->
  keeps_promise m (deleteVolumeGroup r vg vgs v) /\
  wp (deleteVolumeGroup r vg vgs v) (fun err tr => err = None -> foldl delta m tr = Watch (Some vg) false true).
Proof.
  intros Hn ->. unfold deleteVolumeGroup, lvm. split.
  - eapply follows_then; [apply neutral_closed|reflexivity|apply harmless_neutral, harmless_checkRetain|].
    intros m [err|] <-; [done|]. eapply follows_then; [apply neutral_closed|reflexivity|apply neutral_deleteThinPool|].
    intros m [err|] <-; [done|]. split; [done|]. intros [err|]; [|done]. cbn [delta mon_lvm pbind]. cbv zeta.
    eapply follows_then; [apply neutral_closed|reflexivity|apply harmless_neutral, harmless_failStatus|]. by intros.
  - apply wp_bind. eapply wp_skip; [apply harmless_neutral, harmless_checkRetain|]. intros [err|] t0 Ht0; [done|].
    apply wp_bind. eapply wp_skip; [apply neutral_deleteThinPool|]. intros [err|] t1 Ht1; [done|].
    intros [err|]; cbn [pbind wp]; [apply wp_bind, wp_intro; by intros|]. intros _.
    rewrite !foldl_app, (neutral_trace _ _ Ht0), (neutral_trace _ _ Ht1). simpl. by rewrite Hn, String.eqb_refl.
Qed.

Lemma deletion_follows vg clean : lvg_Name vg = group -> deleting vg ->
  keeps_promise (Watch (Some vg) false clean) (processDelete r vg).
Proof.
  intros Hn Hd. unfold processDelete, lvm. split; [done|]. intros [loaded|err]; [|done]. cbv zeta.
  split; [done|]. intros [vgs|err]; [|done]. cbn [delta mon_lvm pbind].
  replace (vgNamed (lvg_Name vg) vgs) with (vgNamed group vgs) by (by rewrite Hn).
  destruct (vgNamed group vgs) as [v|] eqn:Hv; [|by apply finish_follows].
  apply vgNamed_name in Hv as [Hvn _].
  destruct (deleteVolumeGroup_follows vg vgs v _ Hvn eq_refl) as [Hf Hw].
  apply follows_bind; [exact Hf|]. intros tr [err|] Hr; [done|].
  rewrite (wp_runs _ _ _ _ Hw Hr eq_refl). by apply finish_follows.
Qed.

(** Marking a group that has to be wiped touches no other annotation and no mark there is. *)
Lemma markWiped_keeps now vg k :
  shouldWipeDevicesOnVolumeGroup r vg = true -> k <> wipedAnnotation r \/ is_Some (annotations vg !! k) ->
  annotations (markWiped r now vg) !! k = annotations vg !! k.
Proof.
  intros Hs Hk. unfold annotations. cbn. apply lookup_insert_ne. intros <-. destruct Hk as [?|Hk]; [done|].
  revert Hs Hk. unfold shouldWipeDevicesOnVolumeGroup, annotations. destruct (vgs_DeviceSelector _) as [sel|]; [|done].
  destruct (ds_ForceWipeDevicesAndDestroyAllData sel) as [[]|]; [|done..]. cbn.
  destruct (om_Annotations (lvg_meta vg)) as [a|]; cbn; [|intros _ [x Hx]; by rewrite lookup_empty in Hx].
  intros Hs Hk. by rewrite bool_decide_eq_true_2 in Hs.
Qed.

Lemma reconcile_follows vg clean : lvg_Name vg = group ->
  keeps_promise (Watch (Some vg) false clean) (reconcile r FilterSetup vg).
Proof.
  intros Hn. unfold reconcile. destruct (om_DeletionTimestamp (lvg_meta vg)) as [ts|] eqn:Hts.
  { apply follows_bind; [|by intros]. apply deletion_follows; [done|]. unfold deleting. by rewrite Hts. }
  assert (Hlive : ~ deleting vg) by (unfold deleting; rewrite Hts; auto).
  rewrite AddFinalizer_spec. destruct (contains_str (om_Finalizers (lvg_meta vg)) (getFinalizer r)) eqn:Hin; cbv zeta iota beta.
  2: { split; [|done]. intros _. split; [done|]. exists vg. split; [done|]. split_and!; [done..| | |]; simpl.
       - intros f Hf. rewrite elem_of_app, list_elem_of_singleton. tauto.
       - by right.
       - intros _. left. rewrite elem_of_app. right. apply list_elem_of_here. }
  rewrite contains_str_spec in Hin.
  pose proof (live_closed vg (conj Hlive Hin)) as Hc. pose proof (ex_intro _ clean eq_refl : has_read vg (Watch (Some vg) false clean)) as Hm.
  assert (Hdel : ~ p_del live_perms) by auto.
  eapply follows_then; [exact Hc|exact Hm|by apply emits_call|]. intros m1 [bds|err] Hm1; [|done].
  eapply follows_then; [exact Hc|exact Hm1|by apply emits_call|]. intros m2 [vgs|err] Hm2; [|done].
  destruct (checkRAIDVGHealth r vgs vg) as [err|].
  { eapply follows_closed; [exact Hc|exact Hm2|]. apply emits_bind; [apply allowed_warnAndFail|done]. }
  eapply follows_part; [exact Hc|exact Hm2|by apply allowed_wipeDevices|apply wipeDevices_result|].
  intros m3 [[[] err] vg'] Hm3 [Ht Hf]; simpl in Ht, Hf.
  - destruct (Ht eq_refl) as [Hs [now ->]]. destruct err; [done|]. destruct Hm3 as [c ->]. split; [|done].
    intros _. split; [done|]. exists vg. split; [done|]. split_and!; [done..| |done|by left|by left].
    intros k. by apply markWiped_keeps.
  - rewrite (Hf eq_refl). destruct err; [done|].
    eapply follows_closed; [exact Hc|exact Hm3|].
    do 2 (apply emits_bind; [by apply emits_call|]; intros [?|?]; [|done]).
    apply emits_bind; [apply allowed_resolver|]. intros devices. by apply allowed_reconcileDevices.
Qed.

Lemma Reconcile_follows namespace name : keeps_promise start (Reconcile r FilterSetup namespace name).
Proof.
  unfold Reconcile, client. split; [done|]. intros [vg|err]; [|done]. cbn [pbind delta mon_client start].
  assert (Hvoid : forall A (p : prog vgE A), keeps_promise Void p).
  { intros A p. eapply (follows_closed _ _ (eq Void) (fun _ _ => True)); [|done|].
    - split; [by intros m X e <-|]. intros m X e x <- _. by destruct e.
    - induction p as [a|X e k IH]; [done|]. by split. }
  destruct (String.eqb_spec (lvg_Name vg) name) as [<-|Hname]; simpl negb; cbn iota; [|apply Hvoid].
  assert (Hmatch : emits neutral (matchesThisNode r (vgs_NodeSelector (lvg_Spec vg)))).
  { split; [done|]. intros [node|err]; [|done]. by destruct (vgs_NodeSelector (lvg_Spec vg)). }
  eapply follows_then; [apply neutral_closed|reflexivity|exact Hmatch|].
  intros m [matches|err] <-; [|done]. destruct matches; [|done].
  destruct (String.eqb_spec (lvg_Name vg) group) as [Hg|Hg]; (split; [done|]); intros [nodeStatus|err]; try done.
  - by apply reconcile_follows.
  - by apply other_group.
Qed.

(** C4: whatever the environment answers, reconciling keeps the contract of every volume group:
    at every point of its run the next call is in order, so that it creates the group only after
    a live object was read that carries the finalizer of this node, never adopts one by tagging it,
    and writes the object at most once per read; what it writes differs from what was read only in
    the finalizer of this node and in the mark of this node that its devices were wiped (the spec,
    the labels, the owners, every other annotation and every other finalizer are the same, and a
    mark that is there stays), and the finalizer is given up only on an object that is being deleted
    when LVM no longer has the group. *)
Theorem Reconcile_keeps_contract namespace name : keeps_promise start (Reconcile r FilterSetup namespace name).
Proof. exact (Reconcile_follows namespace name). Qed.
End Contract.

Module Demo.
#[local] Existing Instance listed_order_runtime.
#[local] Existing Instance demo_K8s.
#[local] Existing Instance demo_controller_util.
#[local] Existing Instance demo_controller_util_laws.

Definition node1 : Reconciler := mkReconciler "node1" "openshift-lvm-storage".

(** The contract forbids something, and the reconciler with the default filters keeps it. *)
Lemma Reconcile_keeps_contract_witness :
  ~ in_order "vg1" node1 start _ (OfLVM _ (CreateVG (mkVolumeGroup "vg1" "" [] []) false)) /\
  follows (delta "vg1") (in_order "vg1" node1) start (Reconcile node1 DefaultFilters "openshift-lvm-storage" "vg1").
Proof.
  split; [intros H; destruct (H eq_refl) as (o & Ho & _); discriminate|].
  apply (Reconcile_keeps_contract "vg1" node1 DefaultFilters).
Defined.
End Demo.
