(* ===== verification/GroupSystem.v ===== *)
(** One volume group in the whole cluster: the API server with all versions of its object, the
    agents (vgmanager) of all nodes, LVM on every node, and the other writers of the object.

    An agent is any program that keeps the contract of GroupContract.v; the calls of all agents
    are interleaved, and every call is answered by [answers]. Reads come from a cache that may
    lag behind but never goes back; a write is refused when the object has changed since it was
    read, and may be reported as failed although it took place; commands of LVM may fail after
    they took effect. *)

From stdpp Require Import relations.
From S2P Require Import Prelude GoStd Effects Monitor Api K8sDemo LvAttr Exec Lvm HostTools Resolver Lvmd Filter.
From S2P Require Import Devices Raid VgEnv Wipe VgStatus VgController VgFacts VgDeleteFacts GroupContract.

(** * The interface between agents and cluster *)

(** The agents of the nodes of a namespace: what runs on a node for a request. *)
Class KeepsContract `{K : K8s} `{C : !ControllerUtil} {A} (namespace : string) (agent : string -> string -> prog vgE A) :=
  keeps_contract : forall group node name,
    follows (delta group) (in_order group (mkReconciler node namespace)) start (agent node name).

#[export] Instance vgmanager_keeps_contract `{R : GoRuntime} `{K : K8s} `{C : !ControllerUtil} `{L : !ControllerUtilLaws C}
    namespace FilterSetup :
  KeepsContract namespace (fun node name => Reconcile (mkReconciler node namespace) FilterSetup namespace name).
Proof. intros group node name. by apply Reconcile_follows. Qed.

(** What runs on each node, with the monitor of its calls. *)
Abbreviation Agents A := (gmap string (Mon * prog vgE A)).

Section World.
Context `{K : K8s} `{C : !ControllerUtil} {A : Type}.
(** The node objects, with their labels. *)
Variables (namespace group : string) (node_object : string -> Node) (agent : string -> string -> prog vgE A).

Definition finalizer (node : string) : string := getFinalizer (mkReconciler node namespace).
Definition guarded_by (node : string) (o : LVMVolumeGroup) : Prop := finalizer node ∈ om_Finalizers (lvg_meta o).

(** * State *)

(** All versions of the object (oldest first), the nodes on which LVM has the volume group, the
    nodes of the cluster, and the newest version each node has read. *)
Record Store := mkStore {
  history : list (option LVMVolumeGroup);
  holders : gset string;
  members : gset string;
  seen : gmap string nat;
}.

Definition initial : Store := mkStore [None] ∅ ∅ ∅.
Definition current (w : Store) : option LVMVolumeGroup := default None (last (history w)).
Definition view (w : Store) (node : string) : nat := default 0%nat (seen w !! node).

Definition with_history (w : Store) h := mkStore h (holders w) (members w) (seen w).
Definition with_holders (w : Store) s := mkStore (history w) s (members w) (seen w).
Definition with_seen (w : Store) s := mkStore (history w) (holders w) (members w) s.

(** * Answers *)

(** The API server removes an object that is being deleted with its last finalizer, and keeps the
    deletion timestamp of the stored object. *)
Definition settle (o : LVMVolumeGroup) : option LVMVolumeGroup :=
  match om_DeletionTimestamp (lvg_meta o), om_Finalizers (lvg_meta o) with
  | Some _, [] => None
  | _, _ => Some o
  end.
Definition with_timestamp (o : LVMVolumeGroup) (ts : option string) : LVMVolumeGroup :=
  with_vg_meta o {| om_Name := om_Name (lvg_meta o); om_Namespace := om_Namespace (lvg_meta o); om_UID := om_UID (lvg_meta o);
    om_Labels := om_Labels (lvg_meta o); om_Annotations := om_Annotations (lvg_meta o);
    om_Finalizers := om_Finalizers (lvg_meta o); om_OwnerReferences := om_OwnerReferences (lvg_meta o);
    om_DeletionTimestamp := ts |}.

Definition append (w : Store) (v : option LVMVolumeGroup) : Store := with_history w (history w ++ [v]).

(** The write of [o] by [node], which has read the newest version. *)
Definition committed (w : Store) (node : string) (o : LVMVolumeGroup) (w' : Store) : Prop :=
  exists cur, current w = Some cur /\ view w node = pred (length (history w)) /\
    w' = append w (settle (with_timestamp o (om_DeletionTimestamp (lvg_meta cur)))).

Definition client_answers (w : Store) (node : string) {X} (e : clientE X) : X -> Store -> Prop :=
  match e in clientE X return X -> Store -> Prop with
  | GetVolumeGroup _ name => fun res w' =>
      if String.eqb name group then
        (exists err, res = Err err /\ w' = w) \/
        (exists i v, (view w node <= i)%nat /\ history w !! i = Some v /\ w' = with_seen w (<[node := i]> (seen w)) /\
           match v with
           | Some o => res = Ok o
           | None => exists err, res = Err err /\ IsNotFound err = true
           end)
      else w' = w /\ forall o, res = Ok o -> lvg_Name o = name
  | UpdateVolumeGroup o => fun err w' =>
      if String.eqb (lvg_Name o) group then
        match err with
        | None => committed w node o w'
        | Some _ => w' = w \/ committed w node o w'
        end
      else w' = w
  | GetNode name => fun res w' => w' = w /\ forall nd, res = Ok nd -> nd = node_object name
  | GetNodeStatus _ _ | GetStorageClass _ | CreateOrUpdateNodeStatus _ _ _ => fun _ w' => w' = w
  end.

Definition lvm_answers (w : Store) (node : string) {X} (e : lvmE X) : X -> Store -> Prop :=
  match e in lvmE X return X -> Store -> Prop with
  | ListVGs true => fun res w' =>
      w' = w /\ match res with Ok vgs => vgNamed group vgs <> None <-> node ∈ holders w | Err _ => True end
  | CreateVG v _ => fun err w' =>
      if String.eqb (vg_Name v) group then
        w' = with_holders w (holders w ∪ {[node]}) \/ (is_Some err /\ w' = w)
      else w' = w
  | AddTagToVG name => fun _ w' => w' = w \/ name = group /\ w' = with_holders w (holders w ∪ {[node]})
  | DeleteVG v => fun err w' =>
      if String.eqb (vg_Name v) group then
        w' = with_holders w (holders w ∖ {[node]}) \/ (is_Some err /\ w' = w)
      else w' = w
  | _ => fun _ w' => w' = w
  end.

Definition answers (w : Store) (node : string) {X} (e : vgE X) : X -> Store -> Prop :=
  match e in vgE X return X -> Store -> Prop with
  | OfClient _ e => client_answers w node e
  | OfLVM _ e => lvm_answers w node e
  | _ => fun _ w' => w' = w
  end.

(** * Steps *)

(** What the other writers (the operator, the node removal controller, the migration, users) may
    make of the object, given the nodes of the cluster: they create it, request its deletion,
    or change it and keep the finalizers of the nodes that exist. *)
Inductive peer (nodes : gset string) : option LVMVolumeGroup -> option LVMVolumeGroup -> Prop :=
| peer_create o : lvg_Name o = group -> om_DeletionTimestamp (lvg_meta o) = None -> peer nodes None (Some o)
| peer_delete o ts : peer nodes (Some o) (settle (with_timestamp o (Some ts)))
| peer_update o o' :
    lvg_Name o' = lvg_Name o -> om_DeletionTimestamp (lvg_meta o') = om_DeletionTimestamp (lvg_meta o) ->
    (forall n, n ∈ nodes -> guarded_by n o -> guarded_by n o') -> peer nodes (Some o) (settle o').

(** One agent runs at a time on a node; it may be killed at any point. *)
Inductive agent_step : Store * Agents A -> Store * Agents A -> Prop :=
| step_start w running node name :
    node ∈ members w -> running !! node = None ->
    agent_step (w, running) (w, <[node := (start, agent node name)]> running)
| step_call w running node m X (e : vgE X) k x w' :
    running !! node = Some (m, Vis e k) -> answers w node e x w' ->
    agent_step (w, running) (w', <[node := (delta group m (Ev e x), k x)]> running)
| step_end w running node : agent_step (w, running) (w, delete node running).

(** A node that joins is new; the volume group of a node may be lost, and a node that leaves takes
    its disks along. *)
Inductive world_step : Store * Agents A -> Store * Agents A -> Prop :=
| step_agent s s' : agent_step s s' -> world_step s s'
| step_peer w running v : peer (members w) (current w) v -> world_step (w, running) (append w v, running)
| step_lost w running node : world_step (w, running) (with_holders w (holders w ∖ {[node]}), running)
| step_join w running node :
    (forall o, Some o ∈ history w -> ~ guarded_by node o) ->
    world_step (w, running) (mkStore (history w) (holders w) (members w ∪ {[node]}) (seen w), running)
| step_leave w running node :
    world_step (w, running)
      (mkStore (history w) (holders w ∖ {[node]}) (members w ∖ {[node]}) (seen w), delete node running).

Definition reachable (w : Store) : Prop := exists running, rtc world_step (initial, ∅) (w, running).

(** * Invariant *)

(** If the version [i] is live and carries the finalizer of the node, so do all later ones. *)
Definition persists (h : list (option LVMVolumeGroup)) (node : string) (i : nat) : Prop :=
  forall o, h !! i = Some (Some o) -> ~ deleting o -> guarded_by node o ->
  forall j v, (i <= j)%nat -> h !! j = Some v -> exists o', v = Some o' /\ guarded_by node o'.

(** What the monitor of a node says is true. *)
Definition agrees (w : Store) (node : string) (m : Mon) : Prop :=
  match m with
  | Void => False
  | Watch read _ clean =>
      (forall o, read = Some o -> history w !! view w node = Some (Some o)) /\ (clean = true -> node ∉ holders w)
  end.

Record store_ok (w : Store) : Prop := {
  ok_names : forall o, Some o ∈ history w -> lvg_Name o = group /\ settle o = Some o;
  ok_view : forall node, (view w node < length (history w))%nat;
  ok_holders : holders w ⊆ members w;
  ok_held : forall node, node ∈ holders w -> exists o, current w = Some o /\ guarded_by node o;
  ok_stable : forall node i, node ∈ members w -> (view w node <= i)%nat -> persists (history w) node i;
}.

Definition agents_ok (w : Store) (running : Agents A) : Prop := forall node m p, running !! node = Some (m, p) ->
  node ∈ members w /\ follows (delta group) (in_order group (mkReconciler node namespace)) m p /\ agrees w node m.

Lemma finalizer_inj n1 n2 : finalizer n1 = finalizer n2 -> n1 = n2.
Proof. unfold finalizer, getFinalizer. simpl. intros H. by repeat apply (inj (String.app _)) in H. Qed.

Lemma current_lookup w : (0 < length (history w))%nat -> history w !! pred (length (history w)) = Some (current w).
Proof.
  intros H. unfold current. rewrite last_lookup. by destruct (lookup_lt_is_Some_2 (history w) (pred (length (history w)))) as [v ->]; [lia|].
Qed.

Lemma settle_guarded n o : guarded_by n o -> settle o = Some o.
Proof.
  unfold guarded_by, settle. destruct (om_DeletionTimestamp (lvg_meta o)), (om_Finalizers (lvg_meta o)); try done. by intros ?%elem_of_nil.
Qed.

Lemma settle_Some o o' : settle o = Some o' -> o' = o /\ settle o' = Some o'.
Proof. intros H. assert (o' = o) as ->; [|done]. revert H. unfold settle. repeat case_match; congruence. Qed.

(** A new version is fine if it keeps the finalizers of the nodes, but for a node that does not
    hold the group and has just read that the object is being deleted. *)
Lemma append_ok w v :
  store_ok w -> (forall o, v = Some o -> lvg_Name o = group /\ settle o = Some o) ->
  (forall n, n ∈ members w ->
     (forall o, current w = Some o -> guarded_by n o -> exists o', v = Some o' /\ guarded_by n o') \/
     ((n ∉ holders w) /\ view w n = pred (length (history w)) /\ forall o, current w = Some o -> deleting o)) ->
  store_ok (append w v).
Proof.
  intros Hok Hname Hkeep. destruct w as [h hold mem sn]. unfold append, with_history. cbn [history holders members seen].
  set (w := mkStore h hold mem sn) in *.
  assert (Hlen : (0 < length h)%nat) by (pose proof (ok_view w Hok "") as H; simpl in H; lia).
  assert (Hcur : h !! pred (length h) = Some (current w)) by (by apply (current_lookup w)).
  assert (Hlast : forall i x, (h ++ [v]) !! i = Some x -> (i < length h)%nat /\ h !! i = Some x \/ i = length h /\ x = v).
  { intros i x Hx. destruct (decide (i < length h)%nat) as [Hi|Hi].
    - left. by rewrite lookup_app_l in Hx.
    - right. rewrite lookup_app_r in Hx by lia. apply list_lookup_singleton_Some in Hx as [? <-]. split; [lia|done]. }
  constructor; cbn [history holders members seen].
  - intros o [Ho|Ho%list_elem_of_singleton]%elem_of_app; [by apply (ok_names w Hok)|by apply Hname].
  - intros n. rewrite length_app. pose proof (ok_view w Hok n) as H. unfold view in *. simpl in *. lia.
  - apply (ok_holders w Hok).
  - intros n Hn. unfold current. cbn [history]. rewrite last_snoc. simpl.
    destruct (Hkeep n) as [Hk|[Hk _]]; [by apply (ok_holders w Hok)| |done].
    destruct (ok_held w Hok n Hn) as (o & Ho & Hg). by apply (Hk o).
  - intros n i Hn Hi o Ho Hlive Hg j x Hj Hx. apply Hlast in Ho as [[Hil Ho]|[-> Ho]].
    2: { apply Hlast in Hx as [[Hjl _]|[_ ->]]; [lia|]. by exists o. }
    apply Hlast in Hx as [[Hjl Hx]|[-> ->]]; [by eapply (ok_stable w Hok n i)|].
    destruct (ok_stable w Hok n i Hn Hi o Ho Hlive Hg (pred (length h)) (current w)) as (o' & Ho' & Hg'); [lia|done|].
    destruct (Hkeep n Hn) as [Hk|(_ & Hv & Hd)]; [by apply (Hk o')|]. exfalso.
    assert (i = pred (length h)) as -> by (cbn in Hv; unfold view in *; cbn in *; lia).
    apply Hlive, Hd. congruence.
Qed.

(** What leaves the view of a node alone and does not give it the group, leaves its monitor right. *)
Lemma agrees_frame w w' n m :
  store_ok w -> history w `prefix_of` history w' -> view w' n = view w n -> (n ∈ holders w' -> n ∈ holders w) ->
  agrees w n m -> agrees w' n m.
Proof.
  intros Hok [h Hh] Hv Hd. destruct m as [|read written clean]; [done|]. intros [Hr Hc]. split.
  - intros o Ho. rewrite Hv, Hh, lookup_app_l; [by apply Hr|]. by apply ok_view.
  - intros Hcl Hin. by apply Hc, Hd.
Qed.

(** LVM has the group on fewer nodes, or on one more whose finalizer the object carries. *)
Lemma holders_ok w s :
  store_ok w -> s ⊆ members w -> (forall n, n ∈ s -> exists o, current w = Some o /\ guarded_by n o) -> store_ok (with_holders w s).
Proof. intros [] Hs Hg. by constructor. Qed.

Lemma read_ok w n i : store_ok w -> (view w n <= i)%nat -> (i < length (history w))%nat -> store_ok (with_seen w (<[n := i]> (seen w))).
Proof.
  intros [Hn Hv Hh Hheld Hs] Hi Hl.
  assert (Hview : forall n', (view w n' <= view (with_seen w (<[n := i]> (seen w))) n')%nat).
  { intros n'. unfold view in *. cbn. destruct (decide (n = n')) as [->|]; [by rewrite lookup_insert_eq|by rewrite lookup_insert_ne]. }
  constructor; try done.
  - intros n'. unfold view. cbn. destruct (decide (n = n')) as [->|]; [by rewrite lookup_insert_eq|].
    rewrite lookup_insert_ne by done. apply Hv.
  - intros n' j Hm Hj. apply (Hs n'); [done|]. specialize (Hview n'). lia.
Qed.

Lemma view_same w n i n' : n <> n' -> view (with_seen w (<[n := i]> (seen w))) n' = view w n'.
Proof. intros H. unfold view. cbn. by rewrite lookup_insert_ne. Qed.
Lemma view_read w n i : view (with_seen w (<[n := i]> (seen w))) n = i.
Proof. unfold view. cbn. by rewrite lookup_insert_eq. Qed.

(** What an answer to the agent of [node] must leave intact. *)
Definition answered (w : Store) (node : string) (m : Mon) (w' : Store) : Prop :=
  store_ok w' /\ members w' = members w /\ history w `prefix_of` history w' /\ agrees w' node m /\
  forall n, n <> node -> view w' n = view w n /\ (n ∈ holders w' -> n ∈ holders w).

Lemma answered_same w node m : store_ok w -> agrees w node m -> answered w node m w.
Proof. intros. split_and!; done. Qed.

(** A committed write that is in order. *)
Lemma commit_ok w node o' w' m :
  store_ok w -> node ∈ members w -> agrees w node m -> lvg_Name o' = group ->
  in_order group (mkReconciler node namespace) m _ (OfClient _ (UpdateVolumeGroup o')) ->
  committed w node o' w' -> answered w node m w'.
Proof.
  intros Hok Hmem Ha Hname Hin (cur & Hcur & Hview & ->). destruct m as [|read written clean]; [done|].
  destruct (Hin Hname) as (_ & o & -> & _ & _ & _ & Hothers & _ & Hown). destruct Ha as [Hread Hclean].
  assert (o = cur) as ->.
  { specialize (Hread o eq_refl). rewrite Hview, current_lookup, Hcur in Hread; [congruence|].
    pose proof (ok_view w Hok node). lia. }
  assert (Hfin : om_Finalizers (lvg_meta (with_timestamp o' (om_DeletionTimestamp (lvg_meta cur)))) = om_Finalizers (lvg_meta o')) by done.
  assert (Hstored : forall n, guarded_by n o' -> exists o'', settle (with_timestamp o' (om_DeletionTimestamp (lvg_meta cur))) = Some o'' /\ guarded_by n o'').
  { intros n Hn. eexists. split; [by apply (settle_guarded n)|done]. }
  split_and!; try done.
  - apply append_ok; [done| |].
    + intros o'' [-> ?]%settle_Some. by split.
    + intros n Hn. destruct (decide (n = node)) as [->|Hne].
      * destruct (decide (finalizer node ∈ om_Finalizers (lvg_meta cur))) as [Hg|Hg].
        -- destruct (Hown Hg) as [Hg'|[Hd Hc]]; [left; intros o _ _; by apply Hstored|].
           right. split_and!; [by apply Hclean|done|]. intros o Ho. congruence.
        -- left. intros o Ho Hgo. rewrite Hcur in Ho. by injection Ho as <-.
      * left. intros o Ho Hgo. rewrite Hcur in Ho. injection Ho as <-. apply Hstored, Hothers; [|done].
        intros ?%finalizer_inj. done.
  - by exists [settle (with_timestamp o' (om_DeletionTimestamp (lvg_meta cur)))].
  - apply (agrees_frame w); [done| |done|done|done]. by eexists.
Qed.

Lemma client_answered w node m X (e : clientE X) x w' :
  store_ok w -> node ∈ members w -> agrees w node m -> in_order group (mkReconciler node namespace) m _ (OfClient _ e) ->
  client_answers w node e x w' -> answered w node (mon_client group m e x) w'.
Proof.
  intros Hok Hmem Ha Hin Hans. destruct m as [|read written clean]; [done|].
  destruct e as [ns name| | | |o|]; cbn [client_answers] in Hans; try (subst w'; by apply answered_same);
    try (destruct Hans as [-> _]; by apply answered_same).
  - cbn [mon_client]. destruct (String.eqb_spec name group) as [->|Hne].
    2: { destruct Hans as [-> Hname]. destruct x as [o|err]; [|by apply answered_same].
         rewrite (Hname o eq_refl), String.eqb_refl. by apply answered_same. }
    destruct Ha as [Hread Hclean].
    destruct Hans as [(err & -> & ->)|(i & v & Hi & Hv & -> & Hres)]; [by apply answered_same|].
    assert (Hl : (i < length (history w))%nat) by (by eapply lookup_lt_Some).
    assert (Hsame : forall n, n <> node -> view (with_seen w (<[node:=i]> (seen w))) n = view w n) by (intros; by apply view_same).
    destruct v as [o|].
    + subst x. destruct (ok_names w Hok o) as [Hname _]; [by eapply list_elem_of_lookup_2|]. rewrite Hname. rewrite String.eqb_refl. cbn iota.
      split_and!; try done; [by apply read_ok| |by intros n ?%Hsame]. split; [|done]. intros o' [= <-]. by rewrite view_read.
    + destruct Hres as (err & -> & _). split_and!; try done; [by apply read_ok|by intros n ?%Hsame].
  - cbn [mon_client]. destruct (String.eqb_spec (lvg_Name o) group) as [Hn|Hne]; [|subst w'; by apply answered_same].
    assert (Hw : answered w node (Watch read written clean) w'); [|done].
    destruct x as [err|]; [destruct Hans as [->|Hc]; [by apply answered_same|]|]; by eapply commit_ok.
Qed.

Lemma lvm_answered w node m X (e : lvmE X) x w' :
  store_ok w -> node ∈ members w -> agrees w node m -> in_order group (mkReconciler node namespace) m _ (OfLVM _ e) ->
  lvm_answers w node e x w' -> answered w node (mon_lvm group m e x) w'.
Proof.
  intros Hok Hmem Ha Hin Hans. destruct m as [|read written clean]; [done|].
  destruct e; cbn [lvm_answers] in Hans; try (subst w'; by apply answered_same); cbn [mon_lvm].
  - destruct (String.eqb_spec (vg_Name vg) group) as [Hn|Hne]; [|subst w'; by apply answered_same].
    destruct (Hin Hn) as (o & -> & Hlive & Hg). destruct Ha as [Hread Hclean].
    assert (Hcur : exists o', current w = Some o' /\ guarded_by node o').
    { apply (ok_stable w Hok node (view w node) Hmem (le_n _) o (Hread o eq_refl) Hlive Hg (pred (length (history w)))).
      - pose proof (ok_view w Hok node). lia.
      - apply current_lookup. pose proof (ok_view w Hok node). lia. }
    destruct Hans as [-> |[_ ->]]; [|by apply answered_same]. split_and!; try done.
    + pose proof (ok_holders w Hok). apply holders_ok; [done|set_solver|].
      intros n [Hn'| ->%elem_of_singleton]%elem_of_union; [by apply ok_held|done].
    + intros n Hne. split; [done|]. set_solver.
  - destruct Hans as [-> |[Heq _]]; [by apply answered_same|by destruct (Hin Heq)].
  - assert (Hlose : answered w node (Watch read written true) (with_holders w (holders w ∖ {[node]}))).
    { pose proof (ok_holders w Hok). destruct Ha as [Hread _]. split_and!; try done.
      - apply holders_ok; [done|set_solver|]. intros n [Hn _]%elem_of_difference. by apply ok_held.
      - split; [done|]. cbn. set_solver.
      - intros n _. split; [done|]. cbn. set_solver. }
    destruct (String.eqb_spec (vg_Name vg) group) as [Hn|Hne].
    2: { subst w'. destruct x; by apply answered_same. }
    destruct x as [err|]; [|destruct Hans as [-> |[[err Herr] _]]; done].
    destruct Hans as [-> |[_ ->]]; [|by apply answered_same].
    destruct Hlose as (H1 & H2 & H3 & [H5 H6] & H7). split_and!; try done. split; [done|]. by intros _; apply H6.
  - destruct tagged; [|subst w'; by apply answered_same]. destruct Hans as [-> Hans].
    destruct x as [vgs|err]; [|by apply answered_same]. apply answered_same; [done|]. destruct Ha as [Hread _]. split; [done|].
    destruct (vgNamed group vgs) eqn:Hv; [done|]. intros _ Hh. by apply Hans in Hh.
Qed.

Lemma call_answered w node m X (e : vgE X) x w' :
  store_ok w -> node ∈ members w -> agrees w node m -> in_order group (mkReconciler node namespace) m _ e ->
  answers w node e x w' -> answered w node (delta group m (Ev e x)) w'.
Proof.
  intros Hok Hmem Ha Hin Hans. destruct e; cbn [answers] in Hans; try (subst w'; by apply answered_same).
  - by apply lvm_answered.
  - by apply client_answered.
Qed.

(** * Every step keeps the invariant *)

Definition world_ok (s : Store * Agents A) : Prop := store_ok s.1 /\ agents_ok s.1 s.2.

Lemma initial_ok : world_ok (initial, ∅).
Proof.
  split; [constructor; cbn|by intros n m p].
  - by intros o ?%list_elem_of_singleton.
  - intros n. unfold view. cbn. rewrite lookup_empty. simpl. lia.
  - done.
  - set_solver.
  - set_solver.
Qed.

Lemma peer_ok w v : store_ok w -> peer (members w) (current w) v -> store_ok (append w v).
Proof.
  intros Hok Hp.
  assert (Hcur : forall o, current w = Some o -> lvg_Name o = group).
  { intros o Ho. apply (ok_names w Hok o). eapply list_elem_of_lookup_2. rewrite <- Ho. apply current_lookup.
    pose proof (ok_view w Hok ""). lia. }
  apply append_ok; [done| |]; inversion Hp as [o Hn Hts Ho|o ts Ho|o o' Hn Hts Hk Ho]; subst v; symmetry in Ho.
  - intros o' [= <-]. split; [done|]. unfold settle. by rewrite Hts.
  - intros o' [-> ?]%settle_Some. split; [exact (Hcur o Ho)|done].
  - intros o'' [-> ?]%settle_Some. split; [rewrite Hn; by apply Hcur|done].
  - intros n _. left. intros o' Ho'. congruence.
  - intros n _. left. intros o' Ho' Hg. injection Ho' as <-. exists (with_timestamp o (Some ts)). split; [by apply (settle_guarded n)|done].
  - intros n Hmem. left. intros o'' Ho' Hg. injection Ho' as <-. specialize (Hk n Hmem Hg). exists o'. split; [by apply (settle_guarded n)|done].
Qed.

Context `{KC : !KeepsContract namespace agent}.

Lemma call_ok w running node m X (e : vgE X) k x w' :
  world_ok (w, running) -> running !! node = Some (m, Vis e k) -> answers w node e x w' ->
  world_ok (w', <[node := (delta group m (Ev e x), k x)]> running).
Proof.
  intros [Hok Hag] Hrun Hans. destruct (Hag _ _ _ Hrun) as (Hmem & [Hin Hf] & Ha).
  destruct (call_answered w node m X e x w' Hok Hmem Ha Hin Hans) as (Hok' & Hmem' & Hpre & Ha' & Hframe).
  split; [done|]. intros n m' p. cbn. intros [[<- Hnew]|[Hne Hold]]%lookup_insert_Some.
  - injection Hnew as <- <-. rewrite Hmem'. split_and!; [done|apply Hf|done].
  - destruct (Hag _ _ _ Hold) as (Hm' & Hf' & Ha''). rewrite Hmem'. split_and!; [done..|].
    destruct (Hframe n) as [Hv Hh]; [done|]. by apply (agrees_frame w w').
Qed.

(** A change of the store that concerns no running agent. *)
Lemma agents_frame w w' running :
  store_ok w -> agents_ok w running -> history w `prefix_of` history w' -> (forall n, view w' n = view w n) ->
  holders w' ⊆ holders w -> (forall n, is_Some (running !! n) -> n ∈ members w -> n ∈ members w') -> agents_ok w' running.
Proof.
  intros Hok Hag Hpre Hv Hh Hm n m p Hn. destruct (Hag n m p Hn) as (? & ? & ?). split_and!; [by apply Hm|done|].
  apply (agrees_frame w); auto.
Qed.

Lemma step_ok s s' : world_ok s -> world_step s s' -> world_ok s'.
Proof.
  intros Hw Hstep.
  destruct Hstep as [? ? [w run node name Hmem Hidle|w run node m X e k x w' Hrun Hans|w run node]|w run v Hp|w run node|w run node Hnew|w run node];
    [|by eapply call_ok|..]; destruct Hw as [Hok Hag]; cbn in Hok, Hag; pose proof (ok_holders w Hok) as Hsub.
  - split; [done|]. intros n m p. cbn. intros [[<- Hn]|[_ Hn]]%lookup_insert_Some; [|by apply Hag].
    injection Hn as <- <-. split_and!; [done|apply keeps_contract|by split].
  - split; [done|]. intros n m p. cbn. intros [_ Hn]%lookup_delete_Some. by apply Hag.
  - split; [by apply peer_ok|]. apply (agents_frame w); try done. by exists [v].
  - split.
    + apply holders_ok; [done|set_solver|]. intros n [Hn _]%elem_of_difference. by apply ok_held.
    + apply (agents_frame w); try done. cbn. set_solver.
  - split; [|apply (agents_frame w); try done; cbn; set_solver].
    destruct Hok as [Hn Hv Hh Hheld Hs]. constructor; try done; cbn; [set_solver|].
    intros n i [Hin| ->%elem_of_singleton]%elem_of_union; [by apply Hs|]. intros _ o Ho _ Hg. exfalso.
    apply (Hnew o); [by eapply list_elem_of_lookup_2|done].
  - split.
    + destruct Hok as [Hn Hv Hh Hheld Hs]. constructor; try done; cbn.
      * set_solver.
      * intros n [Hin _]%elem_of_difference. by apply Hheld.
      * intros n i [Hin _]%elem_of_difference. by apply Hs.
    + apply (agents_frame w); try done; cbn; [|set_solver|].
      * intros n m p [_ Hn]%lookup_delete_Some. by apply Hag.
      * intros n [? [Hne _]%lookup_delete_Some]. set_solver.
Qed.

Lemma steps_ok s s' : world_ok s -> rtc world_step s s' -> world_ok s'.
Proof. intros Hs H. apply (rtc_ind_r world_ok s) in H; [done..|]. intros s1 s2 _ Hstep Hw. by eapply step_ok. Qed.

Lemma reachable_ok w : reachable w -> store_ok w.
Proof. intros [running H]. apply (steps_ok _ _ initial_ok H). Qed.

(** The volume group is on a node only as long as the object carries the finalizer of the node. *)
Lemma held_guarded w node : reachable w -> node ∈ holders w -> exists o, current w = Some o /\ guarded_by node o.
Proof. intros Hok%reachable_ok. by apply ok_held. Qed.
End World.
