(* ===== verification/GroupHealth.v ===== *)
(** A healthy cluster in which a volume group is being deleted: no call fails without a reason, reads
    are up to date, and LVM does what its manual says with the logical volumes that are in the
    group. [healthy] is a relation, so it has every behaviour of such a cluster; what is proved of a
    run in it (with [must]) holds for all of them, and [healthy_runs] shows that there is one.

    Beside the store of GroupSystem.v the state has the logical volumes of the group on each node
    and what the API server says about the storage class of the group. *)

From stdpp Require Import relations.
From S2P Require Import Prelude GoStd Effects Monitor Api K8sDemo LvAttr Exec Lvm HostTools Resolver Lvmd Filter.
From S2P Require Import Devices Raid VgEnv Wipe VgStatus VgController VgFacts VgDeleteFacts GroupContract GroupSystem.

Section Healthy.
Context `{R : GoRuntime} `{K : K8s} `{C : !ControllerUtil} `{L : !ControllerUtilLaws C}.
Variables (namespace group : string) (node_object : string -> Node) (FilterSetup : Options -> Filters).

Abbreviation vgmanager := (fun node name => Reconcile (mkReconciler node namespace) FilterSetup namespace name).
Abbreviation guarded_by := (guarded_by namespace).

(** * The environment *)

Record Cluster := mkCluster {
  store : Store;
  volumes : gmap string (gset string);
  class : result error (option ReclaimPolicy);
}.

Definition volumes_on (s : Cluster) (node : string) : gset string := default ∅ (volumes s !! node).
Definition with_store (s : Cluster) (w : Store) : Cluster := mkCluster w (volumes s) (class s).
Definition with_volumes (s : Cluster) (node : string) (lvs : gset string) : Cluster :=
  mkCluster (store s) (<[node := lvs]> (volumes s)) (class s).
Definition newest (w : Store) : nat := pred (length (history w)).

(** Reads are of the newest version; a write is refused only if it is not based on that. *)
Definition healthy_client (node : string) {X} (e : clientE X) (s : Cluster) : X -> Cluster -> Prop :=
  match e in clientE X return X -> Cluster -> Prop with
  | GetVolumeGroup _ name => fun x s' =>
      if String.eqb name group then
        s' = with_store s (with_seen (store s) (<[node := newest (store s)]> (seen (store s)))) /\
        match current (store s) with
        | Some o => x = Ok o
        | None => exists err, x = Err err /\ IsNotFound err = true
        end
      else s' = s /\ forall o, x = Ok o -> lvg_Name o = name
  | GetNode name => fun x s' => s' = s /\ x = Ok (node_object name)
  | GetNodeStatus _ _ => fun x s' => s' = s /\ is_Ok x = true
  | GetStorageClass name => fun x s' => s' = s /\ (name = "lvms-" +:+ group -> x = class s)
  | UpdateVolumeGroup o => fun x s' =>
      if String.eqb (lvg_Name o) group then
        (x = None /\ exists w', committed (store s) node o w' /\ s' = with_store s w') \/
        (is_Some x /\ s' = s /\ ~ exists w', committed (store s) node o w')
      else s' = s
  | CreateOrUpdateNodeStatus _ _ _ => fun x s' => s' = s /\ x.2 = None
  end.

(** A logical volume can be removed unless others may depend on it, and a volume group once it has
    no logical volume. *)
Definition healthy_lvm (node : string) {X} (e : lvmE X) (s : Cluster) : X -> Cluster -> Prop :=
  match e in lvmE X return X -> Cluster -> Prop with
  | ListVGs true => fun x s' =>
      s' = s /\ exists vgs, x = Ok vgs /\ (vgNamed group vgs <> None <-> node ∈ holders (store s))
  | ListLVsByName v => fun x s' =>
      s' = s /\ (v = group -> exists lvs, x = Ok lvs /\ forall lv, lv ∈ lvs <-> lv ∈ volumes_on s node)
  | LVExists lv v => fun x s' => s' = s /\ (v = group -> x = Ok (bool_decide (lv ∈ volumes_on s node)))
  | DeleteLV lv v => fun x s' =>
      if String.eqb v group then
        (x = None /\ s' = with_volumes s node (volumes_on s node ∖ {[lv]})) \/
        (is_Some x /\ s' = s /\ volumes_on s node <> {[lv]})
      else s' = s
  | DeleteVG v => fun x s' =>
      if String.eqb (vg_Name v) group then
        if decide (volumes_on s node = ∅)
        then x = None /\ s' = with_store s (with_holders (store s) (holders (store s) ∖ {[node]}))
        else is_Some x /\ s' = s
      else s' = s
  | e => fun x s' => exists w', lvm_answers group (store s) node e x w' /\ s' = with_store s w'
  end.

Definition healthy (node : string) (X : Type) (e : vgE X) (s : Cluster) : X -> Cluster -> Prop :=
  match e in vgE X return X -> Cluster -> Prop with
  | OfClient _ e => healthy_client node e s
  | OfLVM _ e => healthy_lvm node e s
  | OfLVMD X e => fun x s' =>
      s' = s /\ match e in lvmdE X return X -> Prop with
                | Load => fun x => is_Ok x = true
                | Save _ | Delete => fun x => x = None
                end x
  | _ => fun _ s' => s' = s
  end.

Lemma with_store_same s : with_store s (store s) = s.
Proof. by destruct s. Qed.

(** The cache of the node is not ahead of the API server. *)
Definition cached (node : string) (w : Store) : Prop := (view w node < length (history w))%nat.

(** It is one of the environments of GroupSystem.v. *)
Lemma healthy_answers node X (e : vgE X) s x s' :
  cached node (store s) -> healthy node X e s x s' ->
  answers group node_object (store s) node e x (store s') /\ cached node (store s').
Proof.
  intros Hv. unfold cached in *. destruct e as [X e|X e|X e|X e|X e|X e|X e|X e|X e|X e]; cbn [healthy answers]; try by intros ->.
  - destruct e; cbn [healthy_lvm lvm_answers]; try (by intros (w' & -> & ->)).
    + intros (w' & Hw & ->). split; [done|]. destruct (String.eqb _ _); [destruct Hw as [->|[_ ->]]|subst w']; done.
    + intros (w' & Hw & ->). split; [done|]. by destruct Hw as [->|[_ ->]].
    + destruct (String.eqb _ _); [|by intros ->]. case_decide; [intros [_ ->]; by split; [left|]|intros [? ->]; by split; [right|]].
    + destruct tagged; [|by intros (w' & -> & ->)]. by intros (-> & vgs & -> & H).
    + by intros [-> _].
    + by intros [-> _].
    + destruct (String.eqb _ _); [intros [[_ ->]|(_ & -> & _)]; done|by intros ->].
  - by intros [-> _].
  - destruct e as [ns name|name| | |o|]; cbn [healthy_client client_answers]; try by intros [-> _].
    + destruct (String.eqb name group); [|by intros [-> ?]]. intros [-> H]. split; [|unfold view, newest; cbn; rewrite lookup_insert_eq; cbn; lia].
      right. exists (newest (store s)), (current (store s)). split_and!; [unfold newest; lia|apply current_lookup; lia|done..].
    + intros [-> ->]. split; [|done]. split; [done|]. by intros nd [= <-].
    + destruct (String.eqb _ _); [|by intros ->]. intros [(-> & w' & Hw & ->)|(H & -> & _)].
      * split; [done|]. destruct Hw as (cur & _ & _ & ->). cbn. rewrite length_app. unfold view in *. cbn. lia.
      * split; [|done]. destruct x; [by left|]. by destruct H as [? [=]].
Qed.

Lemma healthy_may {A} node (p : prog vgE A) s a s' :
  cached node (store s) -> may (healthy node) p s a s' ->
  may (fun X (e : vgE X) w x w' => answers group node_object w node e x w') p (store s) a (store s').
Proof.
  revert s. induction p as [b|X e k IH]; intros s Hc; cbn [may]; [by intros [-> ->]|].
  intros (x & s1 & Hx & Hmay). destruct (healthy_answers node X e s x s1 Hc Hx) as [Ha Hc1]. by exists x, (store s1); auto.
Qed.

Lemma healthy_members node X (e : vgE X) s x s' : healthy node X e s x s' -> members (store s') = members (store s).
Proof.
  destruct e as [X e|X e|X e|X e|X e|X e|X e|X e|X e|X e]; cbn [healthy]; try by intros ->.
  - destruct e; cbn [healthy_lvm lvm_answers]; try (by intros (w' & -> & ->)); try by intros [-> _].
    + intros (w' & Hw & ->). destruct (String.eqb _ _); [destruct Hw as [->|[_ ->]]|subst w']; done.
    + intros (w' & Hw & ->). by destruct Hw as [->|[_ ->]].
    + destruct (String.eqb _ _); [|by intros ->]. case_decide; by intros [_ ->].
    + destruct tagged; [by intros [-> _]|by intros (w' & -> & ->)].
    + destruct (String.eqb _ _); [intros [[_ ->]|(_ & -> & _)]; done|by intros ->].
  - by intros [-> _].
  - destruct e; cbn [healthy_client]; try by intros [-> _].
    + destruct (String.eqb _ _); by intros [-> _].
    + destruct (String.eqb _ _); [|by intros ->]. intros [(-> & w' & (cur & _ & _ & ->) & ->)|(_ & -> & _)]; done.
Qed.

Lemma healthy_may_members {A} node (p : prog vgE A) s a s' :
  may (healthy node) p s a s' -> members (store s') = members (store s).
Proof.
  revert s. induction p as [b|X e k IH]; intros s; cbn [may]; [by intros [_ ->]|].
  intros (x & s2 & Hx & Hm). rewrite (IH x s2 Hm). by eapply healthy_members.
Qed.

Definition presented (w : Store) (node : string) : list VolumeGroup :=
  if decide (node ∈ holders w) then [mkVolumeGroup group "" [] []] else [].

Lemma presented_spec w node : vgNamed group (presented w node) <> None <-> node ∈ holders w.
Proof. unfold presented. case_decide; cbn; [by rewrite String.eqb_refl|done]. Qed.

(** Every call has an answer. *)
Lemma healthy_total node X (e : vgE X) s : exists x s', healthy node X e s x s'.
Proof.
  destruct e as [X e|X e|X e|X e|X e|X e|X e|X e|X e|X e]; cbn [healthy].
  - destruct e; cbn [healthy_lvm lvm_answers];
      try (by exists None, (with_store s (store s)), (store s)); try (by exists (Err (EExt "")), (with_store s (store s)), (store s)).
    + destruct (String.eqb (vg_Name vg) group) eqn:Hg.
      * exists None, (with_store s (with_holders (store s) (holders (store s) ∪ {[node]}))). eexists. split; [|done]. by left.
      * exists None, (with_store s (store s)). by eexists.
    + exists None, (with_store s (store s)), (store s). split; [by left|done].
    + destruct (String.eqb (vg_Name vg) group); [|by exists None, s]. case_decide; [by eexists None, _|by exists (Some (EExt "")), s].
    + destruct tagged; [|by exists (Ok []), (with_store s (store s)), (store s)].
      exists (Ok (presented (store s) node)), s. split; [done|]. eexists. split; [done|apply presented_spec].
    + exists (Ok (elements (volumes_on s node))), s. split; [done|]. intros _. eexists. split; [done|]. intros lv. by rewrite elem_of_elements.
    + by exists (Ok (bool_decide (lvName ∈ volumes_on s node))), s.
    + destruct (String.eqb vgName group); [|by exists None, s]. eexists None, _. by left.
  - destruct e; [by exists (Ok []), s|by exists (Ok ∅), s].
  - destruct e. by exists None, s.
  - destruct e. by exists None, s.
  - destruct e; [by exists (Ok None), s|by exists None, s..].
  - destruct e. by exists (Err (EExt "")), s.
  - destruct e; by exists tt, s.
  - destruct e as [ns name|name| | |o|]; cbn [healthy_client].
    + destruct (String.eqb name group); [|by exists (Err (EExt "")), s].
      destruct (current (store s)) as [o|]; [by eexists (Ok o), _|]. eexists (Err (EApi StatusReasonNotFound "")), _. split; [done|]. by eexists.
    + by exists (Ok (node_object name)), s.
    + by exists (Ok (mkLVMVolumeGroupNodeStatus (mkObjectMeta node "" "" ∅ None [] [] None) [])), s.
    + by exists (class s), s.
    + destruct (String.eqb (lvg_Name o) group); [|by exists None, s].
      destruct (current (store s)) as [cur|] eqn:Hcur, (decide (view (store s) node = newest (store s))) as [Hv|Hv].
      * eexists None, _. left. split; [done|]. eexists. split; [|reflexivity]. by exists cur.
      * exists (Some (EExt "conflict")), s. right. split_and!; [done..|]. by intros (w' & cur' & _ & ? & _).
      * exists (Some (EExt "conflict")), s. right. split_and!; [done..|]. intros (w' & cur' & ? & _). congruence.
      * exists (Some (EExt "conflict")), s. right. split_and!; [done..|]. intros (w' & cur' & ? & _). congruence.
    + by exists (false, None), s.
  - destruct e. by exists tt, s.
  - destruct e; [by exists "", s|by exists false, s].
Qed.

Lemma healthy_runs {A} node (p : prog vgE A) s : exists a s', may (healthy node) p s a s'.
Proof.
  revert s. induction p as [a|X e k IH]; intros s; [by exists a, s|].
  destruct (healthy_total node X e s) as (x & s1 & H). destruct (IH x s1) as (a & s' & H'). by exists a, s', x, s1.
Qed.

(** * One run of the reconciler *)

(** Calls that neither touch the group nor read or write the object leave the cluster as it is. *)
Lemma harmless_still {A} node (p : prog vgE A) s :
  emits harmless p -> must (healthy node) p s (fun _ s' => s' = s).
Proof.
  revert s. induction p as [a|X e k IH]; intros s; [done|]. intros [He Hk] x s' Hs.
  assert (s' = s) as ->; [|by apply IH].
  destruct e as [X e|X e|X e|X e|X e|X e|X e|X e|X e|X e]; cbn [healthy] in Hs; try done; try by destruct Hs.
  - destruct e; cbn in He, Hs; try done; try (destruct Hs as (w' & -> & ->); apply with_store_same); by destruct Hs.
  - destruct e; cbn in He, Hs; try done; by destruct Hs.
Qed.

Lemma must_conj {E : Type -> Type} {A S} step (p : prog E A) (s : S) Q1 Q2 :
  must step p s Q1 -> must step p s Q2 -> must step p s (fun a s' => Q1 a s' /\ Q2 a s').
Proof. revert s. induction p as [a|X e k IH]; simpl; intros s H1 H2; [done|]. auto. Qed.

Section Turn.
Variable node : string.
Abbreviation r := (mkReconciler node namespace).

Lemma save_succeeds o cfg s : must (healthy node) (saveLVMDConfig r o cfg) s (fun err s' => err = None /\ s' = s).
Proof.
  apply must_conj; [|apply harmless_still, harmless_saveLVMD].
  unfold saveLVMDConfig. destruct cfg as [cfg|]; [|done]. destruct (0 <? _)%nat; intros x s' [-> ->]; cbn [pbind]; apply must_bind.
  - eapply must_mono; [apply harmless_still, harmless_NormalEvent|]. by intros [] ? _.
  - eapply must_mono; [apply harmless_still, harmless_NormalEvent|]. by intros [] ? _.
Qed.

Lemma remove_status_succeeds o s : must (healthy node) (removeVolumeGroupStatus r o) s (fun err s' => err = None /\ s' = s).
Proof.
  apply must_conj; [|apply harmless_still, harmless_removeStatus].
  unfold removeVolumeGroupStatus. apply must_bind.
  eapply must_mono with (Q := fun _ _ => True).
  - destruct (vgs_RAIDConfig (lvg_Spec o)); [|done]. eapply must_mono; [apply harmless_still, harmless_gauges|done].
  - intros _ s1 _ [u err] s' [-> Herr]. cbn in Herr. by subst err.
Qed.

Variables (o : LVMVolumeGroup) (s : Cluster).
Hypothesis Hname : lvg_Name o = group.

(** The logical volumes of the group on this node that are not its thin pool. *)
Definition user_volume (s : Cluster) (o : LVMVolumeGroup) (lv : string) : Prop := lv ∈ volumes_on s node /\ ~ owns_pool o lv.

Lemma userLVs_spec lvs lv : lv ∈ userLVs o lvs <-> lv ∈ lvs /\ ~ owns_pool o lv.
Proof.
  unfold userLVs, owns_pool. rewrite !list_elem_of_In, filter_In. destruct (vgs_ThinPoolConfig (lvg_Spec o)) as [tp|].
  - destruct (String.eqb_spec lv (tp_Name tp)) as [->|Hne]; cbn; naive_solver.
  - naive_solver.
Qed.

(** The retain check: it stops exactly if the storage class keeps volumes and there is one. *)
Lemma checkRetain_decides :
  must (healthy node) (checkRetain r o) s (fun err s' => s' = s /\
    ((forall lv, ~ user_volume s o lv) -> err = None) /\
    (~ not_retained (class s) -> (exists lv, user_volume s o lv) -> is_Some err)).
Proof.
  apply (must_conj _ _ _ (fun _ s' => s' = s)); [apply harmless_still, harmless_checkRetain|].
  assert (Hlist : must (healthy node) (checkUserLVs r o) s (fun err _ =>
    ((forall lv, ~ user_volume s o lv) -> err = None) /\ ((exists lv, user_volume s o lv) -> is_Some err))).
  { unfold checkUserLVs, lvm. intros x s' [-> Hx]. destruct (Hx Hname) as (lvs & -> & Hlvs). cbn [pbind]. cbv zeta.
    destruct (userLVs o lvs) as [|lv l] eqn:Hu; cbn [length Nat.ltb Nat.leb].
    - split; [done|]. intros (lv & Hin & Hno). assert (Hl : lv ∈ userLVs o lvs) by (apply userLVs_spec; split; [by apply Hlvs|done]).
      rewrite Hu in Hl. by apply elem_of_nil in Hl.
    - apply must_bind. eapply must_mono; [apply harmless_still, harmless_WarningEvent|]. intros _ s' _. split; [|done].
      intros Hno. destruct (Hno lv). assert (Hl : lv ∈ userLVs o lvs) by (rewrite Hu; left).
      apply userLVs_spec in Hl as [Hl ?]. split; [by apply Hlvs|done]. }
  unfold checkRetain, isRetainPolicy, client. apply must_bind. intros x s' [-> Hx].
  rewrite (Hx (f_equal (String.app "lvms-") Hname)). destruct (class s) as [p|e]; cbn [must pbind fst snd not_retained].
  - case_bool_decide as Hp; [|by split; [|intros H; destruct (H Hp)]].
    eapply must_mono; [exact Hlist|]. intros err s' [H1 H2]. split; [done|]. by intros _.
  - destruct (IsNotFound e); [by split; [|intros H; destruct (H eq_refl)]|].
    eapply must_mono; [exact Hlist|]. intros err s' [H1 H2]. split; [done|]. by intros _.
Qed.

Lemma deleteThinPool_empties vgs :
  (forall lv, ~ user_volume s o lv) ->
  must (healthy node) (deleteThinPool r o vgs) s (fun err s' => err = None /\
    (s' = s \/ s' = with_volumes s node (volumes_on s' node)) /\ volumes_on s' node = ∅).
Proof.
  intros Hno. assert (Hall : forall lv, lv ∈ volumes_on s node -> ~ ~ owns_pool o lv) by (intros lv H1 H2; by apply (Hno lv)).
  unfold deleteThinPool, lvm. unfold owns_pool in Hall. destruct (vgs_ThinPoolConfig (lvg_Spec o)) as [tp|].
  2: { split_and!; [done|by left|]. apply elem_of_equiv_empty_L. intros lv Hlv. apply (Hall lv Hlv). by intros (tp & [=] & _). }
  assert (Hsub : forall lv, lv ∈ volumes_on s node -> lv = tp_Name tp).
  { intros lv Hlv. destruct (decide (lv = tp_Name tp)) as [|Hne]; [done|]. destruct (Hall lv Hlv). by intros (tp' & [= <-] & <-). }
  intros x s1 [-> Hx]. rewrite (Hx Hname). cbn [pbind]. case_bool_decide as Hin.
  - intros y s2 Hy. cbn [healthy healthy_lvm] in Hy. rewrite Hname, String.eqb_refl in Hy.
    assert (Heq : volumes_on s node = {[tp_Name tp]}) by (apply set_eq; intros lv; rewrite elem_of_singleton; split; [apply Hsub|by intros ->]).
    destruct Hy as [[-> ->]|(_ & _ & Hne)]; [|done]. cbn [pbind must]. rewrite Heq, difference_diag_L. split; [done|].
    assert (Hv : volumes_on (with_volumes s node ∅) node = ∅) by (unfold volumes_on; cbn; by rewrite lookup_insert_eq).
    rewrite Hv. by split; [right|].
  - split_and!; [done|by left|]. apply elem_of_equiv_empty_L. intros lv Hlv. by rewrite (Hsub lv Hlv) in Hlv.
Qed.

(** The cluster after the group was removed from this node. *)
Definition removed_from (s s' : Cluster) : Prop :=
  store s' = with_holders (store s) (holders (store s) ∖ {[node]}) /\ forall n, volumes_on s' n ⊆ volumes_on s n.

Lemma deleteVolumeGroup_removes vgs v :
  vg_Name v = group -> (forall lv, ~ user_volume s o lv) ->
  must (healthy node) (deleteVolumeGroup r o vgs v) s (fun err s' => err = None /\ removed_from s s').
Proof.
  intros Hv Hno. unfold deleteVolumeGroup. apply must_bind. eapply must_mono; [apply checkRetain_decides|].
  intros err s1 (-> & Hnone & _). rewrite (Hnone Hno). apply must_bind. eapply must_mono; [by apply deleteThinPool_empties|].
  intros err' s1 (-> & Hs1 & Hempty) x s2 Hx. cbn [healthy healthy_lvm] in Hx. rewrite Hv, String.eqb_refl, decide_True in Hx by done.
  destruct Hx as [-> ->]. cbn [pbind must]. split; [done|]. unfold removed_from. cbn.
  assert (Hstore : store s1 = store s) by (destruct Hs1 as [->|Hs1]; [done|by rewrite Hs1]).
  rewrite Hstore. split; [done|]. change (forall n, volumes_on s1 n ⊆ volumes_on s n). intros n.
  destruct (decide (n = node)) as [->|Hne]; [rewrite Hempty; set_solver|].
  destruct Hs1 as [->|Hs1]; [done|]. rewrite Hs1. unfold volumes_on at 1. cbn. by rewrite lookup_insert_ne.
Qed.

Lemma deleteVolumeGroup_refuses vgs v :
  ~ not_retained (class s) -> (exists lv, user_volume s o lv) ->
  must (healthy node) (deleteVolumeGroup r o vgs v) s (fun err s' => is_Some err /\ s' = s).
Proof.
  intros Hr Hu. unfold deleteVolumeGroup. apply must_bind. eapply must_mono; [apply checkRetain_decides|].
  intros err s1 (-> & _ & Herr). destruct (Herr Hr Hu) as [e ->]. by split.
Qed.

(** The object without the finalizer of this node, as the API server stores it. *)
Definition released : option LVMVolumeGroup :=
  settle (with_timestamp (unguarded r o) (om_DeletionTimestamp (lvg_meta o))).

(** This node does not have the group any more, and the object does not carry its finalizer. *)
Definition gave_up (s s' : Cluster) : Prop :=
  members (store s') = members (store s) /\ (forall n, volumes_on s' n ⊆ volumes_on s n) /\
  holders (store s') = holders (store s) ∖ {[node]} /\
  history (store s') = history (store s) ++ (if contains_str (om_Finalizers (lvg_meta o)) (finalizer namespace node) then [released] else []).

Lemma processDelete_gives_up :
  current (store s) = Some o -> view (store s) node = newest (store s) -> (forall lv, ~ user_volume s o lv) ->
  must (healthy node) (processDelete r o) s (fun err s' => err = None /\ gave_up s s').
Proof.
  intros Hcur Hview Hno. unfold processDelete, lvm. intros x s1 [-> Hx]. apply is_Ok_spec in Hx as [loaded ->]. cbn [pbind]. cbv zeta.
  intros x s1 [-> (vgs & -> & Hvgs)]. cbn [pbind]. apply must_bind.
  eapply must_mono with (Q := fun err s' => err = None /\ removed_from s s').
  { rewrite Hname. destruct (vgNamed group vgs) as [v|] eqn:Hv.
    - apply deleteVolumeGroup_removes; [by apply vgNamed_name in Hv as [? _]|done].
    - split; [done|]. split; [|done]. destruct (store s) as [h hd m sn] eqn:Hst. unfold with_holders. cbn. f_equal.
      assert (node ∉ hd) by (intros Hin; by apply (proj2 Hvgs)). set_solver. }
  intros err s1 (-> & Hst & Hvol). apply must_bind. eapply must_mono; [apply save_succeeds|]. intros err s1' [-> ->].
  apply must_bind. eapply must_mono; [apply remove_status_succeeds|]. intros err s1' [-> ->].
  destruct (RemoveFinalizer_spec (om_Finalizers (lvg_meta o)) (getFinalizer r)) as (_ & Hrem & _).
  destruct (RemoveFinalizer _ _) as [fs removed] eqn:Hrf. cbn in Hrem. subst removed.
  assert (Hrel : with_vg_meta o (with_finalizers (lvg_meta o) fs) = unguarded r o) by (unfold unguarded; by rewrite Hrf).
  rewrite Hrel. unfold gave_up.
  unfold finalizer. destruct (contains_str (om_Finalizers (lvg_meta o)) (getFinalizer r)).
  - intros x s2 Hx. cbn [healthy healthy_client] in Hx.
    change (lvg_Name (unguarded r o)) with (lvg_Name o) in Hx. rewrite Hname, String.eqb_refl in Hx.
    assert (Hcom : committed (store s1) node (unguarded r o) (append (store s1) released)).
    { exists o. rewrite Hst. split_and!; [exact Hcur|exact Hview|done]. }
    destruct Hx as [(-> & w' & (cur & Hcur' & _ & ->) & ->)|(_ & _ & Hnot)]; [|destruct Hnot; by eexists].
    rewrite Hst in Hcur'. rewrite Hst. cbn. split; [done|]. split_and!; [done|done|done|].
    assert (cur = o) as -> by (unfold current in *; cbn in Hcur'; congruence). done.
  - cbn [must]. rewrite app_nil_r, Hst. by split_and!.
Qed.

Lemma processDelete_refuses :
  node ∈ holders (store s) -> ~ not_retained (class s) -> (exists lv, user_volume s o lv) ->
  must (healthy node) (processDelete r o) s (fun err s' => is_Some err /\ s' = s).
Proof.
  intros Hin Hr Hu. unfold processDelete, lvm. intros x s1 [-> Hx]. apply is_Ok_spec in Hx as [loaded ->]. cbn [pbind]. cbv zeta.
  intros x s1 [-> (vgs & -> & Hvgs)]. cbn [pbind]. apply must_bind. rewrite Hname.
  destruct (vgNamed group vgs) as [v|] eqn:Hv; [|by destruct (proj2 Hvgs Hin)].
  eapply must_mono; [by apply deleteVolumeGroup_refuses|]. intros err s1 [[e ->] ->]. by split.
Qed.
End Turn.

(** The labels of the node match the selector of the group. *)
Definition selects (o : LVMVolumeGroup) (node : string) : Prop :=
  match vgs_NodeSelector (lvg_Spec o) with
  | None => True
  | Some sel => MatchNodeSelectorTerms (node_object node) (NodeSelectorTerms sel) = Ok true
  end.

(** Nothing but the cache of a node differs. *)
Definition unchanged (s s' : Cluster) : Prop :=
  history (store s') = history (store s) /\ holders (store s') = holders (store s) /\
  members (store s') = members (store s) /\ volumes s' = volumes s /\ class s' = class s.

(** Up to the deletion: the object is read, the node matches. *)
Lemma turn_starts node o s Q :
  store_ok namespace group (store s) -> current (store s) = Some o -> deleting o -> selects o node ->
  (forall s1, unchanged s s1 -> view (store s1) node = newest (store s1) -> lvg_Name o = group ->
     must (healthy node) (processDelete (mkReconciler node namespace) o) s1 (fun err => Q (emptyResult, err))) ->
  must (healthy node) (vgmanager node group) s Q.
Proof.
  intros Hok Hcur Hdel Hsel Hrest.
  assert (Hname : lvg_Name o = group).
  { apply (ok_names _ _ _ Hok). eapply list_elem_of_lookup_2. rewrite <- Hcur. apply current_lookup.
    pose proof (ok_view _ _ _ Hok ""). lia. }
  unfold Reconcile, client. intros x s1 Hx. cbn [healthy healthy_client] in Hx. rewrite String.eqb_refl, Hcur in Hx.
  destruct Hx as [-> ->]. cbn [pbind]. set (s1 := with_store s _). apply must_bind. intros x s2 [-> ->]. cbn [pbind].
  eapply must_mono with (Q := fun res s' => res = Ok true /\ s' = s1).
  { unfold selects in Hsel. destruct (vgs_NodeSelector (lvg_Spec o)); [|done]. cbn. by rewrite Hsel. }
  intros res s2 [-> ->]. cbn [negb]. intros x s2 [-> Hx]. apply is_Ok_spec in Hx as [st ->]. cbn [pbind].
  unfold reconcile. unfold deleting in Hdel. destruct (om_DeletionTimestamp (lvg_meta o)) as [ts|]; [|done]. apply must_bind.
  apply Hrest; [by split_and!|unfold s1, view, newest; cbn; by rewrite lookup_insert_eq|done].
Qed.

(** A node without volumes of users releases the object. *)
Lemma turn_gives_up node o s :
  store_ok namespace group (store s) -> current (store s) = Some o -> deleting o -> selects o node ->
  (forall lv, ~ user_volume node s o lv) ->
  must (healthy node) (vgmanager node group) s (fun a s' => a.2 = None /\ gave_up node o s s').
Proof.
  intros Hok Hcur Hdel Hsel Hno. refine (turn_starts node o s _ Hok Hcur Hdel Hsel _). intros s1 (Hh & Hhold & Hm & Hvol & _) Hv Hname.
  assert (Hcur1 : current (store s1) = Some o) by (unfold current; by rewrite Hh).
  assert (Hno1 : forall lv, ~ user_volume node s1 o lv).
  { intros lv [Hlv Hp]. apply (Hno lv). split; [|done]. unfold volumes_on in *. by rewrite <- Hvol. }
  eapply must_mono; [exact (processDelete_gives_up node o s1 Hname Hcur1 Hv Hno1)|].
  intros err s' [-> (H1 & H2 & H3 & H4)]. split; [done|]. unfold gave_up. rewrite H1, H3, H4, Hm, Hhold, Hh.
  split_and!; [done| |done..]. intros n. specialize (H2 n). unfold volumes_on in *. by rewrite <- Hvol.
Qed.

(** A node with volumes of users that the storage class retains changes nothing. *)
Lemma turn_refuses node o s :
  store_ok namespace group (store s) -> current (store s) = Some o -> deleting o -> selects o node ->
  node ∈ holders (store s) -> ~ not_retained (class s) -> (exists lv, user_volume node s o lv) ->
  must (healthy node) (vgmanager node group) s (fun a s' => is_Some a.2 /\ unchanged s s').
Proof.
  intros Hok Hcur Hdel Hsel Hin Hr (lv & Hlv & Hp). refine (turn_starts node o s _ Hok Hcur Hdel Hsel _). intros s1 Hun Hv Hname.
  pose proof Hun as (Hh & Hhold & Hm & Hvol & Hcl).
  assert (Hu : exists lv, user_volume node s1 o lv).
  { exists lv. split; [|done]. unfold volumes_on in *. by rewrite Hvol. }
  rewrite <- Hhold in Hin. rewrite <- Hcl in Hr.
  eapply must_mono; [exact (processDelete_refuses node o s1 Hname Hin Hr Hu)|]. intros err s' [Herr ->]. by split.
Qed.

(** Once the object is gone there is nothing to do. *)
Lemma turn_idle node s :
  current (store s) = None -> must (healthy node) (vgmanager node group) s (fun _ s' => unchanged s s').
Proof.
  intros Hcur. unfold Reconcile, client. intros x s1 Hx. cbn [healthy healthy_client] in Hx. rewrite String.eqb_refl, Hcur in Hx.
  destruct Hx as [-> (err & -> & _)]. by split_and!.
Qed.
End Healthy.
