(* ===== verification/GroupRelease.v ===== *)
(** The deletion of a volume group in the whole cluster (GroupSystem.v): it is safe, for LVM has
    the group on no node when the object is gone, and in a healthy cluster (GroupHealth.v) it
    completes, for every sequence of runs of the reconcilers that covers the nodes with a finalizer
    ends without the object, unless there are volumes of users.

    A run of a reconciler in a healthy cluster is a sequence of steps of the system ([drive],
    [agent_once]), so it keeps the invariant of GroupSystem.v. *)

From stdpp Require Import relations.
From S2P Require Import Prelude GoStd Effects Monitor Api K8sDemo LvAttr Exec Lvm HostTools Resolver Lvmd Filter.
From S2P Require Import Devices Raid VgEnv Wipe VgStatus VgController VgFacts VgDeleteFacts GroupContract GroupSystem GroupHealth.

Section Drive.
Context `{K : K8s} {A : Type}.
Variables (group : string) (node_object : string -> Node) (agent : string -> string -> prog vgE A).

(** The environment of the agent of one node. *)
Definition env (node : string) (X : Type) (e : vgE X) (w : Store) (x : X) (w' : Store) : Prop :=
  answers group node_object w node e x w'.

(** A possible run of what is left of an agent is a sequence of steps. *)
Lemma drive node m (p : prog vgE A) w a w' (running : Agents A) :
  running !! node = Some (m, p) -> may (env node) p w a w' ->
  exists m', rtc (agent_step group node_object agent) (w, running) (w', <[node := (m', Ret a)]> running).
Proof.
  revert m w running. induction p as [b|X e k IH]; intros m w running Hrun; cbn [may].
  - intros [-> ->]. exists m. by rewrite (insert_id).
  - intros (x & w1 & Hans & Hmay).
    destruct (IH x _ w1 (<[node := (delta group m (Ev e x), k x)]> running) (lookup_insert_eq _ _ _) Hmay) as [m' Hm'].
    exists m'. rewrite insert_insert_eq in Hm'. eapply rtc_l; [|exact Hm']. by econstructor.
Qed.

(** The agent of a node is started afresh, runs and ends. *)
Lemma agent_once node name w a w' (running : Agents A) :
  node ∈ members w -> may (env node) (agent node name) w a w' ->
  rtc (agent_step group node_object agent) (w, running) (w', delete node running).
Proof.
  intros Hmem Hmay. eapply rtc_l; [by apply (step_end _ _ _ w running node)|].
  eapply rtc_l; [apply (step_start _ _ _ w _ node name); [done|apply (lookup_delete_eq)]|].
  destruct (drive node start (agent node name) w a w' (<[node := (start, agent node name)]> (delete node running))) as [m Hm];
    [apply lookup_insert_eq|done|].
  rewrite insert_insert_eq in Hm. eapply rtc_r; [exact Hm|].
  rewrite <- (delete_id (delete node running) node) at 2 by apply (lookup_delete_eq).
  rewrite <- (delete_insert_eq (delete node running) node (m, Ret a)). constructor.
Qed.
End Drive.

Section Release.
Context `{R : GoRuntime} `{K : K8s} `{C : !ControllerUtil} `{L : !ControllerUtilLaws C}.
Variables (namespace group : string) (node_object : string -> Node) (FilterSetup : Options -> Filters).

Abbreviation vgmanager := (fun node name => Reconcile (mkReconciler node namespace) FilterSetup namespace name).
Abbreviation healthy := (healthy group node_object).
Abbreviation selects := (selects node_object).

(** On a node whose labels no longer match the selector the reconciliation ends after two reads,
    with success and without asking to be called again, although the object is being deleted
    and carries the finalizer of the node: the hypothesis of [deletion_completes] on the
    selector cannot be dropped. *)
Lemma unmatched_node_keeps_finalizer node o nd sel :
  deleting o -> guarded_by namespace node o -> vgs_NodeSelector (lvg_Spec o) = Some sel ->
  MatchNodeSelectorTerms nd (NodeSelectorTerms sel) = Ok false ->
  runs (vgmanager node group)
    [Ev (OfClient _ (GetVolumeGroup namespace group)) (Ok o); Ev (OfClient _ (GetNode node)) (Ok nd)] (emptyResult, None).
Proof. intros _ _ Hsel Hm. constructor. cbn. rewrite Hsel. constructor. cbn. rewrite Hm. constructor. Qed.

(** * Turns *)

(** The agents of the nodes [ns] reconcile the group one after the other, each in a healthy cluster. *)
Inductive turns : list string -> Cluster -> Cluster -> Prop :=
| turns_nil s : turns [] s s
| turns_cons n ns s a s1 s' : may (healthy n) (vgmanager n group) s a s1 -> turns ns s1 s' -> turns (n :: ns) s s'.

Lemma turns_exist ns s : exists s', turns ns s s'.
Proof.
  revert s. induction ns as [|n ns IH]; intros s; [exists s; constructor|].
  destruct (healthy_runs group node_object n (vgmanager n group) s) as (a & s1 & H). destruct (IH s1) as [s' H'].
  exists s'. by econstructor.
Qed.

(** A turn is a run of the agent of the system, so it keeps the invariant. *)
Lemma turn_ok n s a s' (running : Agents (Result * option error)) :
  world_ok namespace group (store s, running) -> n ∈ members (store s) -> may (healthy n) (vgmanager n group) s a s' ->
  world_ok namespace group (store s', delete n running).
Proof.
  intros Hw Hmem Hmay. eapply (steps_ok namespace group node_object vgmanager); [exact Hw|].
  eapply rtc_subrel; [intros s1 s2; apply step_agent|].
  eapply agent_once; [exact Hmem|]. eapply healthy_may; [|exact Hmay]. apply (ok_view _ _ _ (proj1 Hw)).
Qed.

Lemma turns_idle ns s s' : turns ns s s' -> current (store s) = None -> current (store s') = None.
Proof.
  induction 1 as [s|n ns s a s1 s' Hmay _ IH]; [done|]. intros Hcur. apply IH.
  destruct (must_may _ _ _ _ _ _ (turn_idle namespace group node_object FilterSetup n s Hcur) Hmay) as [Hh _].
  unfold current in *. by rewrite Hh.
Qed.

(** The nodes release the object one after the other. *)
Lemma all_released ns s s' : turns ns s s' -> forall (running : Agents (Result * option error)) o,
  world_ok namespace group (store s, running) -> current (store s) = Some o -> deleting o ->
  (forall f, f ∈ om_Finalizers (lvg_meta o) -> exists n, n ∈ ns /\ f = finalizer namespace n) ->
  (forall n, n ∈ ns -> n ∈ members (store s) /\ selects o n /\ forall lv, ~ user_volume n s o lv) ->
  current (store s') = None.
Proof.
  induction 1 as [s|n ns s a s1 s' Hmay Hturns IH]; intros running o Hw Hcur Hdel Hfin Hns.
  - exfalso. assert (Hset : settle o = Some o).
    { eapply (ok_names namespace group _ (proj1 Hw)), list_elem_of_lookup_2. rewrite <- Hcur. apply current_lookup.
      pose proof (ok_view _ _ _ (proj1 Hw) "") as Hv. cbn in Hv. lia. }
    unfold settle in Hset. unfold deleting in Hdel. destruct (om_DeletionTimestamp (lvg_meta o)); [|done].
    destruct (om_Finalizers (lvg_meta o)) as [|f fs]; [done|]. destruct (Hfin f) as (n & Hn & _); [left|]. by apply elem_of_nil in Hn.
  - destruct (Hns n) as (Hmem & Hsel & Hno); [left|].
    destruct (must_may _ _ _ _ _ _ (turn_gives_up namespace group node_object FilterSetup n o s (proj1 Hw) Hcur Hdel Hsel Hno) Hmay)
      as (_ & Hmem' & Hvol & _ & Hh).
    pose proof (turn_ok n s a s1 running Hw Hmem Hmay) as Hw1.
    assert (Hnext : forall o', current (store s1) = Some o' -> lvg_Spec o' = lvg_Spec o -> deleting o' ->
      (forall f, f ∈ om_Finalizers (lvg_meta o') -> f ∈ om_Finalizers (lvg_meta o) /\ f <> finalizer namespace n) ->
      current (store s') = None).
    { intros o' Hcur' Hspec Hdel' Hf'. apply (IH (delete n running) o' Hw1 Hcur' Hdel').
      - intros f Hf. destruct (Hf' f Hf) as [Hf1 Hne]. destruct (Hfin f Hf1) as (n' & [-> |Hin]%elem_of_cons & ->); [done|by exists n'].
      - intros n' Hn'. destruct (Hns n') as (H1 & H2 & H3); [by right|]. rewrite Hmem'. split_and!; [done| |].
        + unfold selects in *. by rewrite Hspec.
        + intros lv [Hlv Hp]. apply (H3 lv). split; [by apply (Hvol n')|]. unfold owns_pool in *. by rewrite <- Hspec. }
    destruct (contains_str (om_Finalizers (lvg_meta o)) (finalizer namespace n)) eqn:Hc.
    + destruct (released namespace n o) as [o'|] eqn:Hrel.
      * assert (Hcur' : current (store s1) = Some o') by (unfold current; by rewrite Hh, last_snoc).
        unfold released in Hrel. apply settle_Some in Hrel as [-> _]. apply (Hnext _ Hcur'); [done|done|].
        destruct (RemoveFinalizer_spec (om_Finalizers (lvg_meta o)) (finalizer namespace n)) as (Hout & _ & Hothers).
        intros f Hf. assert (Hne : f <> finalizer namespace n) by (intros ->; by apply Hout). split; [|done]. by apply Hothers.
      * apply (turns_idle ns s1 s' Hturns). unfold current. by rewrite Hh, last_snoc.
    + rewrite app_nil_r in Hh. apply (Hnext o); [unfold current in *; by rewrite Hh|done|done|].
      intros f Hf. split; [done|]. intros ->. apply contains_str_spec in Hf. congruence.
Qed.

Lemma turns_ok ns s s' : turns ns s s' -> forall running : Agents (Result * option error), world_ok namespace group (store s, running) ->
  (forall n, n ∈ ns -> n ∈ members (store s)) -> exists running' : Agents (Result * option error), world_ok namespace group (store s', running').
Proof.
  induction 1 as [s|n ns s a s1 s' Hmay _ IH]; intros running Hw Hns; [by exists running|].
  assert (Hmem : n ∈ members (store s)) by (apply Hns; left).
  apply (IH (delete n running)); [by eapply turn_ok|]. intros n' Hn'.
  assert (Hm : members (store s1) = members (store s)); [|rewrite Hm; apply Hns; by right].
  by eapply healthy_may_members.
Qed.

(** * The contract of the finalizers *)

(** C1: in every reachable state of the cluster, whatever is read from lagging caches, refused,
    lost or killed half way, a node on which LVM has the volume group is named by a finalizer of
    the object as it is now; so the object is never gone while a node still has the group. *)
Theorem no_orphaned_group w :
  reachable namespace group node_object vgmanager w ->
  (forall node, node ∈ holders w -> exists o, current w = Some o /\ guarded_by namespace node o) /\
  (current w = None -> holders w = ∅).
Proof.
  intros Hreach. assert (Hheld := fun n => held_guarded namespace group node_object vgmanager w n Hreach).
  split; [done|]. intros Hnone. apply elem_of_equiv_empty_L. intros n (o & Ho & _)%Hheld. congruence.
Qed.

(** C3: from every reachable state in which the object is being deleted, in a healthy cluster
    ([healthy]: reads are up to date, no call fails without a reason, LVM refuses to remove a
    volume group that has logical volumes), whatever else the calls answer:
    (1) as long as the storage class of the group keeps volumes, or cannot be read, a run of the
    reconciler on a matching node on which the group has a logical volume other than its thin pool
    ends with an error and changes nothing: the group, its volumes and the finalizer stay;
    (2) when the reconcilers of matching nodes that have no such volume run one after the other, in
    any order and as often as wanted, and among them are all the nodes whose finalizers the object
    carries, then the object is gone in the end and no node has the group, and such runs exist. *)
Theorem deletion_completes s o :
  reachable namespace group node_object vgmanager (store s) -> current (store s) = Some o -> deleting o ->
  (forall n a s', n ∈ holders (store s) -> selects o n -> ~ not_retained (class s) -> (exists lv, user_volume n s o lv) ->
     may (healthy n) (vgmanager n group) s a s' -> is_Some a.2 /\ unchanged s s') /\
  (forall ns, (forall f, f ∈ om_Finalizers (lvg_meta o) -> exists n, n ∈ ns /\ f = finalizer namespace n) ->
     (forall n, n ∈ ns -> n ∈ members (store s) /\ selects o n /\ forall lv, ~ user_volume n s o lv) ->
     (exists s', turns ns s s') /\
     forall s', turns ns s s' -> current (store s') = None /\ holders (store s') = ∅).
Proof.
  intros [running Hreach] Hcur Hdel.
  assert (Hw : world_ok namespace group (store s, running)).
  { eapply steps_ok; [apply vgmanager_keeps_contract|apply initial_ok|exact Hreach]. }
  split.
  - intros n a s' Hin Hsel Hret Hu Hmay.
    exact (must_may _ _ _ _ _ _ (turn_refuses namespace group node_object FilterSetup n o s (proj1 Hw) Hcur Hdel Hsel Hin Hret Hu) Hmay).
  - intros ns Hfin Hns. split; [apply turns_exist|]. intros s' Hturns.
    assert (Hnone : current (store s') = None) by exact (all_released ns s s' Hturns running o Hw Hcur Hdel Hfin Hns). split; [done|].
    destruct (turns_ok ns s s' Hturns running Hw) as [running' [Hok _]]; [by intros n [? _]%Hns|].
    apply elem_of_equiv_empty_L. intros n Hn. destruct (ok_held _ _ _ Hok n Hn) as (o' & Ho' & _). cbn in Ho'. congruence.
Qed.
End Release.

(** * A cluster that runs *)

(** An environment in which nothing fails: reads are up to date and every node has one free disk. *)
Module Demo.
#[local] Existing Instance listed_order_runtime.
#[local] Existing Instance demo_K8s.
#[local] Existing Instance demo_controller_util.
#[local] Existing Instance demo_controller_util_laws.

Definition demo_disk : BlockDevice := mkBlockDevice "/dev/sda" "/dev/sda" "disk" "" "" "" "" "100G" [] false "" "".
Definition demo_object (node : string) : Node := (node, ["storage"], []).

Section Perfect.
Variables (group node : string).

Definition perfect_client {X} (e : clientE X) (w : Store) : X * Store :=
  let i := pred (length (history w)) in
  match e in clientE X return X * Store with
  | GetVolumeGroup _ name =>
      match history w !! i with
      | Some v =>
          if String.eqb name group && (view w node <=? i)%nat then
            (match v with Some o => Ok o | None => Err (EApi StatusReasonNotFound "") end,
             with_seen w (<[node := i]> (seen w)))
          else (Err (EExt ""), w)
      | None => (Err (EExt ""), w)
      end
  | GetNode name => (Ok (demo_object name), w)
  | GetNodeStatus _ _ => (Ok (mkLVMVolumeGroupNodeStatus (mkObjectMeta node "" "" ∅ None [] [] None) []), w)
  | GetStorageClass _ => (Ok None, w)
  | UpdateVolumeGroup o =>
      match current w with
      | Some cur =>
          if (view w node =? i)%nat && String.eqb (lvg_Name o) group
          then (None, append w (settle (with_timestamp o (om_DeletionTimestamp (lvg_meta cur)))))
          else (Some (EExt "conflict"), w)
      | None => (Some (EExt "conflict"), w)
      end
  | CreateOrUpdateNodeStatus _ _ _ => (false, None, w)
  end.

Definition perfect_lvm {X} (e : lvmE X) (w : Store) : X * Store :=
  match e in lvmE X return X * Store with
  | CreateVG v _ => (None, if String.eqb (vg_Name v) group then with_holders w (holders w ∪ {[node]}) else w)
  | DeleteVG v => (None, if String.eqb (vg_Name v) group then with_holders w (holders w ∖ {[node]}) else w)
  | ListVGs _ => (Ok (presented group w node), w)
  | GetVG n => (Ok (mkVolumeGroup n "" [] []), w)
  | ExtendVG v _ => (Ok v, w)
  | ListPVs _ => (Ok [], w)
  | ListLVsByName _ => (Ok [], w)
  | ListLVs _ => (Ok (mkLVReport []), w)
  | LVExists _ _ => (Ok false, w)
  | _ => (None, w)
  end.

Definition perfect (X : Type) (e : vgE X) (w : Store) : X * Store :=
  match e in vgE X return X * Store with
  | OfLVM X e => perfect_lvm e w
  | OfClient X e => perfect_client e w
  | OfLSBLK X e => (match e in lsblkE X return X with ListBlockDevices => Ok [demo_disk] | BlockDeviceInfos _ => Ok ∅ end, w)
  | OfWipefs X e => (match e in wipefsE X return X with Wipe _ => None end, w)
  | OfDmsetup X e => (match e in dmsetupE X return X with Remove _ => None end, w)
  | OfLVMD X e => (match e in lvmdE X return X with Load => Ok None | Save _ | Delete => None end, w)
  | OfResolver X e => (match e in resolveE X return X with Resolve p => Ok p end, w)
  | OfGauges X e => (match e in gaugeE X return X with SetGauge _ _ _ _ | DeleteLabelValues _ _ _ => tt end, w)
  | OfRecorder X e => (match e in recorderE X return X with Eventf _ _ _ _ _ => tt end, w)
  | OfProcess X e => (match e in processE X return X with Now => "now" | LogV1Enabled => false end, w)
  end.

Lemma perfect_answers X (e : vgE X) w : env group demo_object node X e w (perfect X e w).1 (perfect X e w).2.
Proof.
  destruct e as [X e|X e|X e|X e|X e|X e|X e|X e|X e|X e]; try by destruct e; cbn.
  - destruct e; cbn; try done; try (destruct (String.eqb _ _); by auto).
    1: by left.
    destruct tagged; [|done]. split; [done|]. unfold presented. case_decide; cbn; [by rewrite String.eqb_refl|done].
  - destruct e as [ns name| | | |o|]; cbn; try done.
    + destruct (history w !! pred (length (history w))) as [v|] eqn:Hv; cbn; [|destruct (String.eqb _ _); [left; by eexists|done]].
      destruct (String.eqb_spec name group) as [->|Hne]; cbn; [|done].
      destruct (Nat.leb_spec (view w node) (pred (length (history w)))) as [Hle|Hlt]; cbn; [|left; by eexists].
      right. exists (pred (length (history w))), v. split_and!; try done. destruct v; [done|]. by eexists.
    + split; [done|]. by intros nd [= <-].
    + destruct (current w) as [cur|] eqn:Hcur; cbn; [|by destruct (String.eqb _ _); [left|]].
      destruct (Nat.eqb_spec (view w node) (pred (length (history w)))) as [He|]; cbn; [|by destruct (String.eqb _ _); [left|]].
      unfold lvg_Name in *. destruct (String.eqb (om_Name (lvg_meta o)) group); [|done]. by exists cur.
Qed.

Lemma perfect_may {A} (p : prog vgE A) w : may (env group demo_object node) p w (run perfect p w).1.1 (run perfect p w).1.2.
Proof.
  revert w. induction p as [a|X e k IH]; intros w; cbn [run may]; [done|].
  exists (perfect X e w).1, (perfect X e w).2. split; [apply perfect_answers|].
  destruct (perfect X e w) as [x w'] eqn:He. cbn. specialize (IH x w'). by destruct (run perfect (k x) w') as [[a s] tr].
Qed.
End Perfect.

(** ** The life of a group on two nodes *)

Definition ns := "openshift-lvm-storage".
Definition manager (node name : string) := Reconcile (mkReconciler node ns) DefaultFilters ns name.
Definition turn (node : string) (w : Store) : Store := (run (perfect "vg1" node) (manager node "vg1") w).1.2.

Definition new_vg : LVMVolumeGroup :=
  mkLVMVolumeGroup (mkObjectMeta "vg1" ns "uid" ∅ None [] [] None)
    (mkLVMVolumeGroupSpec None (Some (mkNodeSelector _ (["storage"] : list (@NodeSelectorTerm demo_K8s))))
      (Some (mkThinPoolConfig "thin-pool-1" 90 10 ChunkSizeCalculationPolicyHost None None MetadataSizePolicyHost)) None true None).

(** Both nodes join, the object is created, each node adds its finalizer and then makes the group. *)
Definition joined : Store := mkStore [None] ∅ ({["node1"]} ∪ {["node2"]}) ∅.
Definition created : Store := append joined (Some new_vg).
Definition built : Store := turn "node2" (turn "node1" (turn "node2" (turn "node1" created))).
Definition requested : Store := append built (settle (with_timestamp (default new_vg (current built)) (Some "now"))).

Definition steps : relation (Store * Agents _) := rtc (world_step ns "vg1" demo_object manager).

Lemma turn_steps node w : node ∈ members w -> steps (w, ∅) (turn node w, ∅).
Proof.
  intros Hmem. apply (rtc_subrel (agent_step "vg1" demo_object manager)); [intros s1 s2; apply step_agent|].
  rewrite <- (delete_empty node) at 2. eapply agent_once; [done|]. apply (perfect_may "vg1" node (manager node "vg1") w).
Qed.

Lemma built_steps : steps (initial, ∅) (built, ∅).
Proof.
  unfold built, steps. do 4 (etrans; [|apply turn_steps; apply (bool_decide_unpack _); vm_compute; reflexivity]).
  eapply rtc_l; [apply (step_join _ _ _ _ _ _ "node1"); by intros o ?%list_elem_of_singleton|].
  eapply rtc_l; [apply (step_join _ _ _ _ _ _ "node2"); by intros o ?%list_elem_of_singleton|].
  eapply rtc_l; [apply (step_peer _ _ _ _ _ _ (Some new_vg)); by constructor|].
  unfold created, joined, append, with_history, initial. cbn. rewrite union_empty_l_L. reflexivity.
Qed.

Lemma known {X} (o : option X) d : bool_decide (is_Some o) = true -> o = Some (default d o).
Proof. intros [x ->]%bool_decide_eq_true. done. Qed.

Lemma requested_steps : steps (initial, ∅) (requested, ∅).
Proof.
  eapply rtc_r; [exact built_steps|]. apply step_peer.
  rewrite (known (current built) new_vg) by (vm_compute; reflexivity). apply peer_delete.
Qed.

Lemma no_orphaned_group_witness :
  "node1" ∈ holders built /\ exists o, current built = Some o /\ guarded_by ns "node1" o.
Proof.
  assert (H : "node1" ∈ holders built) by (apply (bool_decide_unpack _); vm_compute; reflexivity). split; [exact H|].
  apply (no_orphaned_group ns "vg1" demo_object DefaultFilters built); [|exact H]. exists ∅. exact built_steps.
Defined.

(** The group of [requested] has its thin pool on the first node, and the class retains volumes. *)
Definition settled : Cluster := mkCluster requested {["node1" := {["thin-pool-1"]}]} (Ok (Some PersistentVolumeReclaimRetain)).

Lemma deletion_completes_witness :
  holders requested <> ∅ /\ (exists s', turns ns "vg1" demo_object DefaultFilters ["node2"; "node1"] settled s') /\
  forall s', turns ns "vg1" demo_object DefaultFilters ["node2"; "node1"] settled s' ->
    current (store s') = None /\ holders (store s') = ∅.
Proof.
  split; [apply (bool_decide_unpack _); vm_compute; reflexivity|].
  assert (Hfin : om_Finalizers (lvg_meta (default new_vg (current requested))) = [finalizer ns "node1"; finalizer ns "node2"])
    by (vm_compute; reflexivity).
  assert (Hcur : current requested = Some (default new_vg (current requested))) by (apply known; vm_compute; reflexivity).
  assert (Hdel : deleting (default new_vg (current requested))) by (vm_compute; discriminate).
  assert (Hpool : owns_pool (default new_vg (current requested)) "thin-pool-1") by (eexists; split; vm_compute; reflexivity).
  assert (Hreach : reachable ns "vg1" demo_object manager requested) by (exists ∅; exact requested_steps).
  refine (proj2 (deletion_completes ns "vg1" demo_object DefaultFilters settled _ Hreach Hcur Hdel) ["node2"; "node1"] _ _).
  - rewrite Hfin. intros f [-> |[-> |[]%elem_of_nil]%elem_of_cons]%elem_of_cons; [exists "node1"|exists "node2"]; (split; [|reflexivity]).
    + right. left.
    + left.
  - intros n [-> |[-> |[]%elem_of_nil]%elem_of_cons]%elem_of_cons;
      (split_and!; [apply (bool_decide_unpack _); vm_compute; reflexivity|vm_compute; reflexivity|]).
    + intros lv [Hlv _]. unfold volumes_on in Hlv. cbn in Hlv. by apply elem_of_empty in Hlv.
    + intros lv [Hlv Hp]. apply Hp. unfold volumes_on in Hlv. cbn in Hlv. rewrite lookup_singleton_eq in Hlv. cbn in Hlv.
      apply elem_of_singleton in Hlv. subst lv. exact Hpool.
Defined.
End Demo.
