(* ===== verification/VgConfigFacts.v ===== *)
(** The lvmd configuration and the thin pool checks of the volume group controller. *)

From S2P Require Import Prelude GoStd Effects Api K8sDemo LvAttr Exec Lvm HostTools Resolver Lvmd Filter.
From S2P Require Import Devices Raid VgEnv Wipe VgStatus VgController.
From Stdlib Require Import SpecFloat.

(** * The lvmd configuration *)

Section Config.
Context `{K : K8s}.

Definition class_named (name : string) (dc : lvmd.DeviceClass) : bool := String.eqb (lvmd.dc_Name dc) name.
Definition other_classes (name : string) (dcs : list lvmd.DeviceClass) : list lvmd.DeviceClass :=
  List.filter (fun dc => negb (class_named name dc)) dcs.

(** A class that carries the settings of the volume group that can change. *)
Definition class_up_to_date (vg : LVMVolumeGroup) (dc : lvmd.DeviceClass) : Prop :=
  lvmd.dc_Name dc = lvg_Name vg /\
  (lvmd.dc_Type dc = lvmd.TypeThin ->
   exists tp ltp, vgs_ThinPoolConfig (lvg_Spec vg) = Some tp /\ lvmd.dc_ThinPoolConfig dc = Some ltp /\
     lvmd.OverprovisionRatio ltp = float64_of_int (tp_OverprovisionRatio tp)).

Lemma other_classes_app name l l' : other_classes name (l ++ l') = other_classes name l ++ other_classes name l'.
Proof. apply List.filter_app. Qed.

Lemma find_first_app_None {A} (f : A -> bool) l l' : find_first f l = None -> find_first f (l ++ l') = find_first f l'.
Proof. induction l as [|x l IH]; simpl; [done|]. by destruct (f x). Qed.

Lemma setRatio_others name ratio dcs : other_classes name (setRatio name ratio dcs) = other_classes name dcs.
Proof.
  unfold other_classes, class_named. induction dcs as [|dc dcs IH]; simpl; [done|].
  destruct (String.eqb (lvmd.dc_Name dc) name) eqn:He; simpl; rewrite He; simpl; [done|]. by rewrite IH.
Qed.

Lemma setRatio_find name ratio dcs dc :
  find_first (class_named name) dcs = Some dc ->
  find_first (class_named name) (setRatio name ratio dcs) =
    Some {| lvmd.dc_Name := lvmd.dc_Name dc; lvmd.dc_VolumeGroup := lvmd.dc_VolumeGroup dc;
            lvmd.dc_Default := lvmd.dc_Default dc; lvmd.dc_SpareGB := lvmd.dc_SpareGB dc;
            lvmd.dc_Stripe := lvmd.dc_Stripe dc; lvmd.dc_StripeSize := lvmd.dc_StripeSize dc;
            lvmd.dc_LVCreateOptions := lvmd.dc_LVCreateOptions dc; lvmd.dc_Type := lvmd.dc_Type dc;
            lvmd.dc_ThinPoolConfig :=
              (fun tp => {| lvmd.Name := lvmd.Name tp; lvmd.OverprovisionRatio := ratio |}) <$> lvmd.dc_ThinPoolConfig dc |}.
Proof.
  unfold class_named. induction dcs as [|x dcs IH]; simpl; [done|].
  destruct (String.eqb (lvmd.dc_Name x) name) eqn:He; simpl.
  - intros [= <-]. rewrite He. by destruct (lvmd.dc_ThinPoolConfig x).
  - rewrite He. exact IH.
Qed.

Lemma setRatio_idem name ratio dcs : setRatio name ratio (setRatio name ratio dcs) = setRatio name ratio dcs.
Proof.
  induction dcs as [|x dcs IH]; simpl; [done|]. destruct (String.eqb (lvmd.dc_Name x) name) eqn:He; simpl; rewrite He.
  - by destruct (lvmd.dc_ThinPoolConfig x).
  - by rewrite IH.
Qed.

Lemma newLVMDClass_up_to_date vg : class_up_to_date vg (newLVMDClass vg).
Proof. split; [done|]. simpl. destruct (vgs_ThinPoolConfig (lvg_Spec vg)) as [tp|]; [eauto|done]. Qed.

(** What configuring a class guarantees. *)
Record config_ok (vg : LVMVolumeGroup) (c c' : lvmd.Config) : Prop := mkConfigOk {
  co_socket : lvmd.SocketName c' = lvmd.SocketName c;
  co_options : lvmd.LvcreateOptionClasses c' = lvmd.LvcreateOptionClasses c;
  co_others : other_classes (lvg_Name vg) (lvmd.DeviceClasses c') = other_classes (lvg_Name vg) (lvmd.DeviceClasses c);
  co_class : exists dc, find_first (class_named (lvg_Name vg)) (lvmd.DeviceClasses c') = Some dc /\ class_up_to_date vg dc;
  co_stable : configureClass vg c' = Some c';
}.

Lemma configureClass_new vg c :
  find_first (class_named (lvg_Name vg)) (lvmd.DeviceClasses c) = None ->
  config_ok vg c (with_lvmd_classes c (lvmd.DeviceClasses c ++ [newLVMDClass vg])).
Proof.
  intros Hf.
  assert (Hname : class_named (lvg_Name vg) (newLVMDClass vg) = true) by apply String.eqb_refl.
  assert (Hfind : find_first (class_named (lvg_Name vg)) (lvmd.DeviceClasses c ++ [newLVMDClass vg]) = Some (newLVMDClass vg)).
  { rewrite find_first_app_None by done. simpl. by rewrite Hname. }
  split; try done; simpl.
  - rewrite other_classes_app. unfold other_classes at 2. simpl. by rewrite Hname, app_nil_r.
  - eexists. split; [exact Hfind|apply newLVMDClass_up_to_date].
  - unfold configureClass. cbn [lvmd.DeviceClasses with_lvmd_classes]. fold (class_named (lvg_Name vg)).
    rewrite Hfind. cbn [lvmd.dc_Type lvmd.dc_ThinPoolConfig newLVMDClass].
    destruct (vgs_ThinPoolConfig (lvg_Spec vg)) as [tp|] eqn:Htp; simpl; [|done].
    f_equal. unfold with_lvmd_classes. simpl. f_equal. clear Hfind.
    induction (lvmd.DeviceClasses c) as [|x l IH]; simpl in *.
    + rewrite String.eqb_refl. unfold newLVMDClass. by rewrite Htp.
    + destruct (String.eqb (lvmd.dc_Name x) (lvg_Name vg)) eqn:He; unfold class_named in Hf; rewrite He in Hf; [done|].
      by rewrite IH.
Qed.

(** Configuring the lvmd class of a volume group keeps every other class, in order, and the
    rest of the file; afterwards the class of the volume group exists and a thin class has the
    overprovision ratio of the spec; and configuring again changes nothing. *)
Theorem configureClass_correct vg c c' : configureClass vg c = Some c' -> config_ok vg c c'.
Proof.
  unfold configureClass. fold (class_named (lvg_Name vg)).
  destruct (find_first (class_named (lvg_Name vg)) (lvmd.DeviceClasses c)) as [dc|] eqn:Hf.
  2:{ intros [= <-]. by apply configureClass_new. }
  destruct (find_first_Some _ _ _ Hf) as [_ Hn%String.eqb_eq].
  case_bool_decide as Ht.
  - destruct (vgs_ThinPoolConfig (lvg_Spec vg)) as [tp|] eqn:Htp; [|done].
    destruct (lvmd.dc_ThinPoolConfig dc) as [ltp|] eqn:Hl; [|done]. intros [= <-].
    pose proof (setRatio_find _ (float64_of_int (tp_OverprovisionRatio tp)) _ _ Hf) as Hf'.
    split; try done; simpl.
    + apply setRatio_others.
    + eexists. split; [exact Hf'|]. split; [done|]. simpl. rewrite Hl. intros _. eauto.
    + unfold configureClass. cbn [lvmd.DeviceClasses with_lvmd_classes]. fold (class_named (lvg_Name vg)).
      rewrite Hf'. cbn [lvmd.dc_Type lvmd.dc_ThinPoolConfig]. rewrite bool_decide_eq_true_2, Htp, Hl by done. simpl.
      f_equal. unfold with_lvmd_classes. simpl. by rewrite setRatio_idem.
  - intros [= <-]. split; try done.
    + exists dc. split; [done|]. split; [done|]. intros H. done.
    + unfold configureClass. fold (class_named (lvg_Name vg)). rewrite Hf. by rewrite bool_decide_eq_false_2.
Qed.
End Config.

(** * Thin pool checks *)

Section ThinPool.
Context `{R : GoRuntime} `{K : K8s} `{C : !ControllerUtil}.

(** A thin pool volume that passed every check, given the calls made. *)
Definition pool_valid (vgName : string) (config : ThinPoolConfig) (lv : LogicalVolume) (tr : list (ev vgE)) : Prop :=
  (exists a, ParsedLvAttr (lv_LvAttr lv) = Ok a /\ la_VolumeType a = VolumeTypeThinPool /\
     (la_State a = StateActive \/ Ev (OfLVM _ (ActivateLV (lv_Name lv) vgName)) None ∈ tr)) /\
  (exists pct, ParseFloat (lv_MetadataPercent lv) true = Ok pct /\
     float64_gtb pct (float64_of_int metadataWarningPercentage) = false) /\
  (tp_ChunkSizeCalculationPolicy config <> ChunkSizeCalculationPolicyHost ->
     ParseInt (lv_ChunkSize lv) = Ok (convertChunkSize config)) /\
  (convertMetadataSize config <> (-1)%Z ->
     exists size, ParseInt (lv_MetadataSize lv) = Ok size /\
       ((convertMetadataSize config <= size)%Z \/
        Ev (OfLVM _ (ExtendThinPoolMetadata (lv_Name lv) vgName (convertMetadataSize config))) None ∈ tr)).

Lemma pool_valid_app vgName config lv t t' tr : pool_valid vgName config lv tr -> pool_valid vgName config lv (t ++ tr ++ t').
Proof.
  intros ((a & ? & ? & Ha) & Hp & Hc & Hm). split; [|split; [done|split; [done|]]].
  - exists a. split; [done|]. split; [done|]. destruct Ha; [by left|right; set_solver].
  - intros Hne. destruct (Hm Hne) as (size & ? & [?|?]); exists size; (split; [done|]); [by left|right; set_solver].
Qed.

Lemma verifyMetadataSize_spec vgName lvName s n :
  wp (verifyMetadataSize vgName lvName s n) (fun err tr => err = None -> n <> (-1)%Z ->
    exists size, ParseInt s = Ok size /\
      ((n <= size)%Z \/ Ev (OfLVM _ (ExtendThinPoolMetadata lvName vgName n)) None ∈ tr)).
Proof.
  unfold verifyMetadataSize, lvm. destruct (Z.eqb_spec n (-1)) as [->|Hn]; [by simpl|].
  destruct (ParseInt s) as [size|e]; [|done]. destruct (Z.leb_spec n size).
  - cbn [wp]. eauto.
  - apply wp_call. intros [e|]; [done|]. cbn [wp]. intros _ _. exists size. split; [done|]. right. set_solver.
Qed.

Lemma verifyChunkSize_spec config lv :
  verifyChunkSizeForPolicy config lv = None -> tp_ChunkSizeCalculationPolicy config <> ChunkSizeCalculationPolicyHost ->
  ParseInt (lv_ChunkSize lv) = Ok (convertChunkSize config).
Proof.
  unfold verifyChunkSizeForPolicy. intros H Hp.
  destruct (tp_ChunkSizeCalculationPolicy config); [done|..];
    (destruct (ParseInt (lv_ChunkSize lv)) as [z|]; [|done]);
    destruct (Z.eqb_spec z (convertChunkSize config)); by subst.
Qed.

Lemma validateLV_spec vgName config lv b :
  wp (validateLV vgName config lv b) (fun res tr => forall b', res = inl b' ->
    (lv_Name lv = tp_Name config -> b' = true /\ pool_valid vgName config lv tr) /\
    (lv_Name lv <> tp_Name config -> b' = b)).
Proof.
  unfold validateLV. destruct (String.eqb_spec (lv_Name lv) (tp_Name config)) as [Hn|Hn]; simpl negb; cbv iota.
  2:{ cbn [wp]. by intros ? [= <-]. }
  destruct (ParsedLvAttr (lv_LvAttr lv)) as [a|e] eqn:Ha; [|done].
  case_bool_decide as Ht; simpl negb; cbv iota; [|done].
  apply wp_bind. eapply wp_mono with (Q := fun o tr => o = None ->
    la_State a = StateActive \/ Ev (OfLVM _ (ActivateLV (lv_Name lv) vgName)) None ∈ tr).
  { case_bool_decide as Hs; simpl negb; cbv iota; [by left|]. cbn [wp lvm call]. intros o ->. right. set_solver. }
  intros [e|] t0 Hact; [done|]. specialize (Hact eq_refl).
  destruct (ParseFloat (lv_MetadataPercent lv) true) as [pct|e] eqn:Hpct; [|done].
  destruct (float64_gtb pct _) eqn:Hgt; [done|].
  destruct (verifyChunkSizeForPolicy config lv) eqn:Hc; [done|].
  apply wp_bind. eapply wp_mono; [apply verifyMetadataSize_spec|]. intros [e|] t1 Hm; [done|].
  cbn [wp]. intros ? [= <-]. split; [|done]. intros _. split; [done|]. split; [|split; [|split]].
  - exists a. split; [done|]. split; [done|]. destruct Hact; [by left|right; set_solver].
  - eauto.
  - by apply verifyChunkSize_spec.
  - intros Hne. destruct (Hm eq_refl Hne) as (size & ? & [?|?]); exists size; (split; [done|]); [by left|right; set_solver].
Qed.

Lemma validateLV_loop vgName config lvs b :
  wp (for_each (validateLV vgName config) lvs b) (fun res tr => forall b', res = inl b' ->
    (forall lv, lv ∈ lvs -> lv_Name lv = tp_Name config -> pool_valid vgName config lv tr) /\
    (b' = true -> b = true \/ exists lv, lv ∈ lvs /\ lv_Name lv = tp_Name config)).
Proof.
  revert b. induction lvs as [|lv lvs IH]; intros b; [simpl; intros ? [= <-]; split; [set_solver|by left]|].
  cbn [for_each]. apply wp_bind. eapply wp_mono; [apply validateLV_spec|]. intros [b1|e] t0 H0; [|done].
  destruct (H0 b1 eq_refl) as [Hpool Hskip]. eapply wp_mono; [apply IH|]. intros res t1 H1 b' Hres.
  destruct (H1 b' Hres) as [Hall Hex]. split.
  - intros x [->|Hx]%elem_of_cons Hname.
    + apply (pool_valid_app _ _ _ [] t1), Hpool, Hname.
    + pose proof (pool_valid_app _ _ _ t0 [] _ (Hall x Hx Hname)) as Hf. by rewrite app_nil_r in Hf.
  - intros Hb'. destruct (Hex Hb') as [->|(x & Hx & ?)]; [|right; exists x; set_solver].
    destruct (decide (lv_Name lv = tp_Name config)) as [Hn|Hn]; [right; exists lv; set_solver|].
    left. symmetry. by apply Hskip.
Qed.

(** The logical volume reports of a trace. *)
Definition lv_report_of (v : ev vgE) : option LVReport :=
  match v with
  | @Ev _ X e x =>
      match e in vgE X return X -> option LVReport with
      | OfLVM X e => match e in lvmE X return X -> option LVReport with
                     | ListLVs _ => fun a => match a with Ok rep => Some rep | Err _ => None end
                     | _ => fun _ => None
                     end
      | _ => fun _ => None
      end x
  end.

(** Every report shows the thin pool, and every volume of its name is a valid thin pool. *)
Definition reports_valid (vgName : string) (config : ThinPoolConfig) (reports : list LVReportItem) (tr : list (ev vgE)) : Prop :=
  forall rep, rep ∈ reports ->
    (exists lv, lv ∈ lri_Lv rep /\ lv_Name lv = tp_Name config) /\
    (forall lv, lv ∈ lri_Lv rep -> lv_Name lv = tp_Name config -> pool_valid vgName config lv tr).

Lemma validateReport_loop vgName config reports :
  wp (for_each (validateReport vgName config) reports tt) (fun res tr => forall u, res = inl u ->
    reports_valid vgName config reports tr).
Proof.
  induction reports as [|rep reports IH]; [simpl; intros [] _ x; set_solver|].
  cbn [for_each]. apply wp_bind. unfold validateReport at 1.
  destruct (length (lri_Lv rep) <? 1)%nat; [done|]. apply wp_bind.
  eapply wp_mono; [apply validateLV_loop|]. intros [[]|e] t0 H0; [|done|done].
  destruct (H0 true eq_refl) as [Hall Hex]. cbn [wp].
  eapply wp_mono; [apply IH|]. intros res t1 H1 u Hres x Hx. rewrite app_nil_r.
  apply elem_of_cons in Hx as [->|Hx].
  - split; [destruct (Hex eq_refl) as [[=]|?]; done|]. intros lv Hlv Hn.
    apply (pool_valid_app _ _ _ [] t1), Hall; done.
  - destruct (H1 u Hres x Hx) as [? Hv]. split; [done|]. intros lv Hlv Hn.
    pose proof (pool_valid_app _ _ _ t0 [] _ (Hv lv Hlv Hn)) as Hf. by rewrite app_nil_r in Hf.
Qed.

(** C25: when validateLVs reports no error for a volume group with a thin pool, LVM reported the
    pool in every report, each volume of its name is a thin pool that is active or was
    activated, its metadata is reported not more than 95 percent full, its chunk size is the configured one
    under the static policy, and its metadata size is at least the configured one or was
    extended to it. *)
Theorem validateLVs_correct vg config :
  vgs_ThinPoolConfig (lvg_Spec vg) = Some config ->
  wp (validateLVs vg) (fun err tr => err = None ->
    exists rep, rep ∈ omap lv_report_of tr /\ lvr_Report rep <> [] /\
      reports_valid (lvg_Name vg) config (lvr_Report rep) tr).
Proof.
  intros Hc. unfold validateLVs, lvm. rewrite Hc. apply wp_call. intros [rep|e]; [|done].
  destruct (Nat.ltb_spec (length (lvr_Report rep)) 1) as [|Hl]; [done|].
  apply wp_bind. eapply wp_mono; [apply validateReport_loop|]. intros [u|e] tr H; [|done].
  cbn [wp]. intros _. rewrite app_nil_r. exists rep. split; [rewrite (omap_hit _ _ rep) by done; set_solver|].
  split; [by destruct (lvr_Report rep); [simpl in Hl; lia|]|].
  intros x Hx. destruct (H u eq_refl x Hx) as [? Hv]. split; [done|]. intros lv Hlv Hn.
  pose proof (pool_valid_app _ _ _ [Ev (OfLVM _ (ListLVs (lvg_Name vg))) (Ok rep)] [] _ (Hv lv Hlv Hn)) as Hf.
  by rewrite app_nil_r in Hf.
Qed.
End ThinPool.
