(* ===== verification/Host.v ===== *)
(** The volume group controller on the host: every interface of the controller with the
    implementation cmd/vgmanager gives it (HostLVM, HostLSBLK, HostWipefs, HostDmsetup,
    CachedFileConfig, and a symlink resolver created per reconciliation). *)

From S2P Require Import Prelude GoStd Effects Api K8sDemo LvAttr Exec Lvm HostTools Resolver Lvmd Filter.
From S2P Require Import Devices Raid VgEnv Wipe VgStatus VgController VgFacts.

Section Host.
Context `{R : GoRuntime} `{K : K8s} `{C : !ControllerUtil} `{Y : Yaml}.

(** What is left below the implementations. *)
Inductive hostE : Type -> Type :=
| HExec X (e : execE X) : hostE X
| HFile X (e : fileE X) : hostE X
| HResolveFn X (e : resolveFnE X) : hostE X
| HGauges X (e : gaugeE X) : hostE X
| HClient X (e : clientE X) : hostE X
| HRecorder X (e : recorderE X) : hostE X
| HProcess X (e : processE X) : hostE X.

(** The cache of the resolver and the cached lvmd configuration. *)
Abbreviation hostState := (resolver_cache * option lvmd.Config)%type.

Definition stateless {X} (p : prog execE X) (s : hostState) : prog hostE (X * hostState) :=
  x <- translate HExec p;; Ret (x, s).

Definition host (X : Type) (e : vgE X) (s : hostState) : prog hostE (X * hostState) :=
  match e with
  | OfLVM X e => stateless (HostLVM.lvm_handle X e) s
  | OfLSBLK X e => stateless (HostLSBLK.lsblk_handle DefaultLsblk DefaultLosetup X e) s
  | OfWipefs X e =>
      match e in wipefsE X return prog hostE (X * hostState) with
      | Wipe d => stateless (HostWipefs_Wipe DefaultWipefs d) s
      end
  | OfDmsetup X e =>
      match e in dmsetupE X return prog hostE (X * hostState) with
      | Remove d => stateless (HostDmsetup_Remove DefaultDMSetup d) s
      end
  | OfLVMD X e =>
      ' (x, cache) <- translate HFile (CachedFileConfig DefaultFileConfigPath X e s.2);;
      Ret (x, (s.1, cache))
  | OfResolver X e =>
      ' (x, cache) <- translate HResolveFn (Resolver X e s.1);;
      Ret (x, (cache, s.2))
  | OfGauges X e => x <- call (HGauges X e);; Ret (x, s)
  | OfClient X e => x <- call (HClient X e);; Ret (x, s)
  | OfRecorder X e => x <- call (HRecorder X e);; Ret (x, s)
  | OfProcess X e => x <- call (HProcess X e);; Ret (x, s)
  end.

(** One reconciliation: a fresh resolver, the lvmd cache kept between reconciliations. *)
Definition HostReconcile (r : Reconciler) (namespace name : string) (cache : option lvmd.Config)
  : prog hostE (Result * option error * option lvmd.Config) :=
  ' (res, s) <- interp host (Reconcile r DefaultFilters namespace name) (∅, cache);;
  Ret (res, s.2).

(** * Commands *)

Definition query_commands : list string := [vgsCmd; pvsCmd; lvsCmd; DefaultLsblk; DefaultLosetup].
Definition live_commands : list string := [vgCreateCmd; vgExtendCmd; lvCreateCmd; lvExtendCmd; lvChangeCmd].
Definition delete_commands : list string := [vgChangeCmd; vgRemoveCmd; pvRemoveCmd; lvmDevicesCmd; lvChangeCmd; lvRemoveCmd].

(** The commands a reconciliation of [vg] may run on the host. *)
Definition host_command (r : Reconciler) (vg : LVMVolumeGroup) (c : string) : Prop :=
  c ∈ query_commands \/
  (deleting vg /\ c ∈ delete_commands) \/
  (~ deleting vg /\ (c ∈ live_commands \/
     (hasExplicitDevicePaths vg = true /\ c ∈ [vgReduceCmd; pvRemoveCmd]) \/
     (shouldWipeDevicesOnVolumeGroup r vg = true /\ c ∈ [DefaultWipefs; DefaultDMSetup]))).

Definition host_call (r : Reconciler) (vg : LVMVolumeGroup) X (e : hostE X) : Prop :=
  match e with
  | HExec _ e => host_command r vg (command_of e).1
  | HFile _ (RemoveFile _) => deleting vg
  | _ => True
  end.

Lemma translate_exec r vg cmds A (p : prog execE A) :
  emits (runs_one_of cmds) p -> (forall c, c ∈ cmds -> host_command r vg c) ->
  emits (host_call r vg) (translate HExec p).
Proof.
  intros Hp Hc. induction p as [a|X e k IH]; simpl in *; [done|]. destruct Hp as [He Hk].
  split; [by apply Hc|auto].
Qed.

Lemma stateless_emits r vg cmds A (p : prog execE A) s :
  emits (runs_one_of cmds) p -> (forall c, c ∈ cmds -> host_command r vg c) ->
  emits (host_call r vg) (stateless p s).
Proof. intros Hp Hc. apply emits_bind; [by eapply translate_exec|done]. Qed.

Definition live_perms (vg : LVMVolumeGroup) : perms := mkPerms (deleting vg) (fun _ => True) (fun _ => True) (fun _ => True) (fun _ => True) (fun _ => True).

Lemma host_command_lvm r vg X (e : lvmE X) :
  allowed_lvm r (live_perms vg) vg e -> forall c, c ∈ lvm_commands e -> host_command r vg c.
Proof.
  unfold host_command, query_commands, delete_commands, live_commands.
  destruct e; simpl; intros Ha c Hc; try done;
    first [ left; set_solver
          | destruct_and?; right; left; split; [done|set_solver]
          | destruct_and?; right; right; split; [done|]; left; set_solver
          | destruct_and?; right; right; split; [done|]; right; left; split; [done|set_solver] ].
Qed.

Lemma file_emits r vg X (e : lvmdE X) cache :
  (match e with Delete => deleting vg | _ => True end) ->
  emits (host_call r vg) (translate HFile (CachedFileConfig DefaultFileConfigPath X e cache)).
Proof.
  destruct e; intros Hd; cbn [CachedFileConfig];
    unfold Cached_Load, Cached_Save, Cached_Delete, FileConfig_Load, FileConfig_Save, FileConfig_Delete;
    repeat (case_match; simpl; try done; try (split; [done|intros])).
  split; [done|]. by intros [].
Qed.

Lemma host_emits r vg X (e : vgE X) s :
  allowed r (live_perms vg) vg X e -> emits (host_call r vg) (host X e s).
Proof.
  destruct e as [X e|X e|X e|X e|X e|X e|X e|X e|X e|X e]; intros Ha; cbn [host].
  - eapply stateless_emits; [apply HostLVM_commands|by apply host_command_lvm].
  - eapply stateless_emits; [apply HostLSBLK_commands|]. intros c Hc. left. unfold query_commands. set_solver.
  - destruct e. destruct Ha as [Hd Hs]. eapply (stateless_emits _ _ [DefaultWipefs]).
    + unfold HostWipefs_Wipe. case_match; [done|]. simpl. split; [unfold runs_one_of; simpl; set_solver|].
      by intros [? []].
    + intros c Hc. right. right. split; [done|]. right. right. split; [done|set_solver].
  - destruct e. destruct Ha as [Hd Hs]. eapply (stateless_emits _ _ [DefaultDMSetup]).
    + unfold HostDmsetup_Remove. case_match; [done|]. simpl. split; [unfold runs_one_of; simpl; set_solver|].
      intros [? []]; [|done]. by case_match.
    + intros c Hc. right. right. split; [done|]. right. right. split; [done|set_solver].
  - apply emits_bind; [apply file_emits; by destruct e|by intros []].
  - apply emits_bind; [by apply emits_translate|by intros []].
  - by split.
  - by split.
  - by split.
  - by split.
Qed.

End Host.
