(* ===== verification/Findings.v ===== *)
(** Behaviours of the volume group controller that differ from what its comments and names say,
    and concrete instances for the theorems with hypotheses. *)

From S2P Require Import Prelude GoStd Effects Api K8sDemo LvAttr Exec Lvm HostTools Resolver Lvmd Filter.
From S2P Require Import Devices Raid VgEnv Wipe VgStatus VgController VgFacts VgConfigFacts.
From Stdlib Require Import SpecFloat.

Section Wiped.
Context `{R : GoRuntime} `{K : K8s} `{C : !ControllerUtil}.
Variables (r : Reconciler) (FilterSetup : Options -> Filters).

(** Once the devices of a volume group have been wiped by this node, the volume group is
    created without the flag that confirms the overwriting of leftover signatures: the flag
    is set exactly when the devices have not been wiped. *)
Theorem wiped_group_created_unconfirmed vg annotations :
  om_Annotations (lvg_meta vg) = Some annotations -> is_Some (annotations !! wipedAnnotation r) ->
  emits (fun X (e : vgE X) => match e with OfLVM _ (CreateVG _ isWiped) => isWiped = false | _ => True end)
    (reconcile r FilterSetup vg).
Proof.
  intros Ha Hs.
  assert (Hw : shouldWipeDevicesOnVolumeGroup r vg = false).
  { unfold shouldWipeDevicesOnVolumeGroup. rewrite Ha, bool_decide_eq_true_2 by done.
    by destruct (vgs_DeviceSelector _) as [[? ? [[]|]]|]. }
  eapply emits_mono; [apply (allowed_reconcile r FilterSetup (mkPerms (deleting vg) (fun _ => True) (fun _ => True) (fun _ => True) (fun _ => True) (fun _ => True))); done|].
  intros X [X' e|X' e|X' e|X' e|X' e|X' e|X' e|X' e|X' e|X' e]; try done.
  destruct e; try done. simpl. intros (_ & _ & -> & _). exact Hw.
Qed.

(** A thin class in the lvmd configuration whose volume group has no thin pool in its spec makes
    the reconciliation dereference nil: nothing guards the branch that refreshes the
    overprovision ratio. *)
Theorem applyLVMDConfig_thin_class_panics vg vgs devices c dc :
  find_first (class_named (lvg_Name vg)) (lvmd.DeviceClasses c) = Some dc ->
  lvmd.dc_Type dc = lvmd.TypeThin -> vgs_ThinPoolConfig (lvg_Spec vg) = None ->
  runs (applyLVMDConfig r vg vgs devices) [Ev (OfLVMD _ Load) (Ok (Some c))] (Some (EPanic "nil pointer dereference")).
Proof.
  intros Hf Ht Hn. unfold applyLVMDConfig. constructor. cbv zeta. simpl default.
  unfold configureClass. fold (class_named (lvg_Name vg)). rewrite Hf, bool_decide_eq_true_2, Hn by done. constructor.
Qed.
End Wiped.

Module Demo.
#[local] Existing Instance listed_order_runtime.
#[local] Existing Instance demo_K8s.

Definition demo_reconciler : Reconciler := mkReconciler "node1" "openshift-lvm-storage".

(** A volume group whose devices this node has wiped. *)
Definition wiped_meta : ObjectMeta :=
  mkObjectMeta "vg1" "openshift-lvm-storage" "uid" ∅ (Some {[ wipedAnnotation demo_reconciler := "wiped" ]})
    [getFinalizer demo_reconciler] [] None.
Definition wiped_vg : LVMVolumeGroup :=
  mkLVMVolumeGroup wiped_meta
    (mkLVMVolumeGroupSpec (Some (mkDeviceSelector ["/dev/sda"] [] (Some true))) None None None true None).

Lemma wiped_group_created_unconfirmed_witness :
  om_Annotations (lvg_meta wiped_vg) = Some {[ wipedAnnotation demo_reconciler := "wiped" ]} /\
  emits (fun X (e : vgE X) => match e with OfLVM _ (CreateVG _ isWiped) => isWiped = false | _ => True end)
    (reconcile demo_reconciler DefaultFilters wiped_vg).
Proof.
  split; [reflexivity|].
  apply (wiped_group_created_unconfirmed demo_reconciler DefaultFilters wiped_vg
           {[ wipedAnnotation demo_reconciler := "wiped" ]}).
  - reflexivity.
  - exists "wiped". vm_compute. reflexivity.
Defined.

(** A thick volume group of the same name as a thin class. *)
Definition thin_class : lvmd.DeviceClass :=
  lvmd.mkDeviceClass "vg1" "vg1" true None None "" [] lvmd.TypeThin
    (Some (lvmd.mkThinPoolConfig "pool" (float64_of_int 10))).
Definition thin_config : lvmd.Config := lvmd.mkConfig "" [thin_class] [].

Lemma applyLVMDConfig_thin_class_panics_witness :
  runs (applyLVMDConfig demo_reconciler wiped_vg [] noDevices)
    [Ev (OfLVMD _ Load) (Ok (Some thin_config))] (Some (EPanic "nil pointer dereference")).
Proof. apply (applyLVMDConfig_thin_class_panics demo_reconciler wiped_vg [] noDevices thin_config thin_class); reflexivity. Defined.

(** An environment with a volume group of 100 bytes in which every command succeeds. *)
Definition demo_lvm (X : Type) (e : lvmE X) : X :=
  match e with
  | GetVG n => Ok (mkVolumeGroup n "100" [] [])
  | ExtendVG v _ => Ok v
  | ListPVs _ => Ok []
  | ListVGs _ => Ok []
  | ListLVsByName _ => Ok []
  | ListLVs _ => Ok (mkLVReport [])
  | LVExists _ _ => Ok false
  | _ => None
  end.
Definition demo_env (X : Type) (e : vgE X) (_ : unit) : X * unit :=
  (match e in vgE X return X with
   | OfLVM X e => demo_lvm X e
   | OfLSBLK X e => match e in lsblkE X return X with ListBlockDevices => Ok [] | BlockDeviceInfos _ => Ok ∅ end
   | OfWipefs X e => match e in wipefsE X return X with Wipe _ => None end
   | OfDmsetup X e => match e in dmsetupE X return X with Remove _ => None end
   | OfLVMD X e => match e in lvmdE X return X with Load => Ok None | Save _ | Delete => None end
   | OfResolver X e => match e in resolveE X return X with Resolve p => Ok p end
   | OfGauges X e => match e in gaugeE X return X with SetGauge _ _ _ _ | DeleteLabelValues _ _ _ => tt end
   | OfClient X e =>
       match e in clientE X return X with
       | GetVolumeGroup _ _ => Ok wiped_vg
       | GetNode _ => Err (EExt "no node")
       | GetNodeStatus _ _ => Err (EExt "no status")
       | GetStorageClass _ => Ok None
       | UpdateVolumeGroup _ => None
       | CreateOrUpdateNodeStatus _ _ _ => (false, None)
       end
   | OfRecorder X e => match e in recorderE X return X with Eventf _ _ _ _ _ => tt end
   | OfProcess X e => match e in processE X return X with Now => "now" | LogV1Enabled => false end
   end, tt).

Definition demo_pool (percent : Z) : ThinPoolConfig :=
  mkThinPoolConfig "pool" percent 10 ChunkSizeCalculationPolicyHost None None MetadataSizePolicyHost.

Definition extended_of (v : ev vgE) : option Z :=
  match v with @Ev _ X e _ => match e with OfLVM _ (ExtendLV _ _ p) => Some p | _ => None end end.

(** The fill degree of a thin pool is truncated in binary floating point: a pool that holds
    exactly 29 percent of its volume group is taken for 28 percent and extended to the 29
    percent it already has, while one of exactly 28 percent configured to 28 is left alone. *)
Theorem extendThinPool_truncates :
  omap extended_of (run demo_env (extendThinPool "vg1" "29" (demo_pool 29)) tt).2 = [29%Z] /\
  omap extended_of (run demo_env (extendThinPool "vg1" "28" (demo_pool 28)) tt).2 = [].
Proof. split; vm_compute; reflexivity. Qed.

(** Two paths to the same disk, as a multipath device appears in lsblk. *)
Definition mpath (name : string) (ro : bool) (state : string) : BlockDevice :=
  mkBlockDevice name "/dev/dm-0" "mpath" "" "" state "" "10G" [] ro "" "".
Definition two_paths : list BlockDevice :=
  [mkBlockDevice "/dev/sda" "/dev/sda" "disk" "" "" "" "" "10G" [mpath "/dev/mapper/a" true ""] false "" "";
   mkBlockDevice "/dev/sdb" "/dev/sdb" "disk" "" "" "" "" "10G" [mpath "/dev/mapper/a" false "suspended"] false "" ""].

Definition demo_resolve (X : Type) (e : resolveE X) (_ : unit) : X * unit :=
  (match e in resolveE X return X with Resolve p => Ok p end, tt).

(** A device that occurs twice in the lsblk tree keeps the exclusion reasons of its first
    occurrence only: the reasons the second one adds are appended to a copy of the map entry. *)
Theorem filterDevices_drops_reasons :
  let filters := [(notReadOnly, notReadOnly_filter); (notSuspended, notSuspended_filter)] in
  let '(res, _, _) := run demo_resolve (filterDevices filters two_paths) tt in
  map Error (FilterErrors res "/dev/dm-0") = ["/dev/mapper/a cannot be read-only"].
Proof. vm_compute. reflexivity. Qed.

(** * Instances of theorems with hypotheses *)

Definition static_vg : LVMVolumeGroup :=
  mkLVMVolumeGroup (mkObjectMeta "vg1" "ns" "uid" ∅ None [getFinalizer demo_reconciler] [] None)
    (mkLVMVolumeGroupSpec None None (Some (demo_pool 90)) None true (Some DeviceDiscoveryPolicyStatic)).

Lemma static_never_extends_witness :
  effectivePolicyOf static_vg = DeviceDiscoveryPolicyStatic /\
  emits (allowed demo_reconciler (mkPerms (deleting static_vg) (fun _ => True) (fun _ => False) (written_back demo_reconciler static_vg) (fun _ => True) (fun _ => True)) static_vg)
    (reconcile demo_reconciler DefaultFilters static_vg).
Proof.
  split; [reflexivity|]. apply (static_never_extends demo_reconciler DefaultFilters static_vg); reflexivity.
Defined.

Lemma configureClass_correct_witness :
  configureClass static_vg thin_config =
    Some (with_lvmd_classes thin_config (setRatio "vg1" (float64_of_int 10) [thin_class])) /\
  config_ok static_vg thin_config
    (with_lvmd_classes thin_config (setRatio "vg1" (float64_of_int 10) [thin_class])).
Proof.
  split; [reflexivity|]. apply (configureClass_correct static_vg thin_config). reflexivity.
Defined.

Lemma validateLVs_correct_witness :
  wp (validateLVs static_vg) (fun err tr => err = None ->
    exists rep, rep ∈ omap lv_report_of tr /\ lvr_Report rep <> [] /\
      reports_valid "vg1" (demo_pool 90) (lvr_Report rep) tr).
Proof. apply (validateLVs_correct static_vg (demo_pool 90)). reflexivity. Defined.

Definition demo_statuses : list VGStatus :=
  [newVGStatus "vg1" VGStatusReady ""; newVGStatus "vg2" VGStatusReady ""].

Lemma mutateRemoveStatus_correct_witness :
  NoDup (vs_Name <$> demo_statuses) /\
  ns_LVMVGStatus (mutateRemoveStatus static_vg (mkLVMVolumeGroupNodeStatus wiped_meta demo_statuses)) =
    other_statuses "vg1" demo_statuses.
Proof.
  assert (H : NoDup (vs_Name <$> demo_statuses)) by (vm_compute; repeat constructor; set_solver).
  split; [exact H|].
  apply (mutateRemoveStatus_correct static_vg (mkLVMVolumeGroupNodeStatus wiped_meta demo_statuses) H).
Defined.
End Demo.
