(* ===== verification/WipeRetry.v ===== *)
(** What may happen while wiping is requested and not yet done: a device enters the volume group only
    if an attempt to wipe it failed, or its path did not resolve then, in the same reconciliation.
    Wiping is retried for as long as the mark is missing, also on a volume group that was created
    in the meantime: a run of two reconciliations against a host on which the first attempt to
    wipe an optional device fails. *)

From S2P Require Import Prelude GoStd Effects Api K8sDemo LvAttr Exec Lvm HostTools Resolver Lvmd Filter.
From S2P Require Import Devices Raid VgEnv Wipe VgStatus VgController VgFacts VgDeleteFacts.

(** * Devices used while wiping is pending *)

Definition listed (name : string) (bds : list BlockDevice) : Prop := exists dev, in_forest dev bds /\ bd_KName dev = name.

Lemma omap_mono {A B} (f : A -> option B) (l l' : list A) x : l ⊆ l' -> x ∈ omap f l -> x ∈ omap f l'.
Proof. intros H (v & Hv & Hx)%omap_elem. apply omap_elem. exists v. auto. Qed.

Section Pending.
Context `{K : K8s}.

(** Attempts to wipe that failed, and paths that did not resolve. *)
Definition failed_wipe_of (v : ev vgE) : option string :=
  match v with
  | @Ev _ X e x =>
      match e in vgE X return X -> option string with
      | OfWipefs _ e => match e in wipefsE X return X -> option string with
                        | Wipe dev => fun err => match err with None => None | Some _ => Some dev end
                        end
      | _ => fun _ => None
      end x
  end.
Definition unresolved_of (v : ev vgE) : option string :=
  match v with
  | @Ev _ X e x =>
      match e in vgE X return X -> option string with
      | OfResolver _ e => match e in resolveE X return X -> option string with
                          | Resolve path => fun res => match res with Ok _ => None | Err _ => Some path end
                          end
      | _ => fun _ => None
      end x
  end.

(** What the loop over devices found out, starting with the flag [w]: without an error and with the
    flag down, no device of the name; with an error, a failed attempt. *)
Definition searched (name : string) (w : bool) (absent : Prop) (res : bool + (bool * option error)) (tr : list (ev vgE)) : Prop :=
  match res with
  | inl true => True
  | inl false => w = false /\ absent
  | inr (done, None) => done = true
  | inr (_, Some _) => name ∈ omap failed_wipe_of tr
  end.

Lemma wipeTrees_searched name ds w :
  (forall d w, d ∈ ds -> wp (wipeTree name d w) (searched name w (~ listed name [d]))) ->
  wp (for_each (wipeTree name) ds w) (searched name w (~ listed name ds)).
Proof.
  intros H. apply wp_for_each_visited with (I := fun visited s _ => s = false -> w = false /\ ~ listed name visited).
  - intros ->. split; [done|]. intros (dev & (b & Hb & _) & _). set_solver.
  - intros visited d rest s tr -> Hv. eapply wp_mono; [apply H; set_solver|].
    intros [[]|[x [err|]]] tr' Hs; simpl in *; try done.
    + intros _. destruct Hs as [-> Hd]. destruct (Hv eq_refl) as [-> Ha]. split; [done|].
      intros (dev & (b & [Hb|Hb]%elem_of_app & Ht) & He); [apply Ha|apply Hd]; exists dev; (split; [by exists b|done]).
    + rewrite omap_app. set_solver.
  - intros [] tr Hs; [done|]. by apply Hs.
Qed.

Lemma wipeTree_searched name d : forall w, wp (wipeTree name d w) (searched name w (~ listed name [d])).
Proof.
  induction d as [d IH] using BlockDevice_tree_ind. intros w. rewrite Forall_forall in IH.
  assert (Heq : wipeTree name d w =
    if String.eqb (bd_KName d) name then
      (fold_prog (fun child _ => removeMapperReference child) (bd_Children d) tt;;
       guard call (OfWipefs _ (Wipe (bd_KName d))) catch err => Ret (inr (false, Some err)) in
       Ret (inr (true, None)))
    else if HasChildren d then
      (res <- for_each (wipeTree name) (bd_Children d) false;;
       Ret match res with
           | inl childWiped | inr (childWiped, None) => inl (if childWiped then true else w)
           | inr (_, Some err) => inr (false, Some err)
           end)
    else Ret (inl w)) by (by destruct d).
  rewrite Heq. clear Heq. destruct (String.eqb_spec (bd_KName d) name) as [<-|Hne].
  - apply wp_bind, wp_intro. intros _ tr. apply wp_call. intros [err|]; simpl; [|done].
    rewrite omap_app. set_solver.
  - assert (Hself : ~ listed name (bd_Children d) -> ~ listed name [d]).
    { intros Ha (dev & (b & ->%list_elem_of_singleton & Ht) & He). inversion Ht; subst; [done|].
      apply Ha. exists dev. split; [by eexists|done]. }
    destruct (HasChildren d) eqn:Hc.
    + apply wp_bind. eapply wp_mono; [apply wipeTrees_searched; intros; by apply IH|].
      intros [[]|[x [err|]]] tr Hs; simpl in *; rewrite ?app_nil_r; try done.
      * destruct w; [done|]. split; [done|]. apply Hself, Hs.
      * by subst x.
    + simpl. destruct w; [done|]. split; [done|]. apply Hself. apply HasChildren_spec in Hc. rewrite Hc.
      intros (dev & (b & Hb & _) & _). set_solver.
Qed.

Lemma wipeDevice_searched name bds :
  wp (wipeDevice name bds) (fun res tr =>
    match res with
    | (true, None) => True
    | (false, None) => ~ listed name bds
    | (_, Some _) => name ∈ omap failed_wipe_of tr
    end).
Proof.
  unfold wipeDevice. apply wp_bind. eapply wp_mono; [apply wipeTrees_searched; intros; apply wipeTree_searched|].
  intros [[]|[x [err|]]] tr Hs; simpl in *; rewrite ?app_nil_r; try done; [by destruct Hs|by destruct x|by subst x].
Qed.

(** Why the devices behind the paths were not wiped in the part [tr] of a run that went on to use
    devices: a required path led to no listed device; neither did an optional one, or the attempt
    failed, or the path did not resolve. *)
Definition not_wiped_because (sel : DeviceSelector) (bds : list BlockDevice) (tr : list (ev vgE)) : Prop :=
  (forall path, path ∈ ds_Paths sel -> exists name, (path, name) ∈ omap resolve_of tr /\ ~ listed name bds) /\
  (forall path, path ∈ ds_OptionalPaths sel ->
     path ∈ omap unresolved_of tr \/
     exists name, (path, name) ∈ omap resolve_of tr /\ (~ listed name bds \/ name ∈ omap failed_wipe_of tr)).

Lemma wipeRequired_searched bds path w :
  wp (wipeRequired bds path w) (fun res tr => res = inl false ->
    w = false /\ exists name, (path, name) ∈ omap resolve_of tr /\ ~ listed name bds).
Proof.
  unfold wipeRequired. apply wp_call. intros [name|e]; [|done]. apply wp_bind.
  eapply wp_mono; [apply wipeDevice_searched|]. intros [[] [err|]] tr Hs; try done. simpl. intros [= ->].
  split; [done|]. exists name. split; [|done]. simpl. set_solver.
Qed.

Lemma wipeOptional_searched bds path w :
  wp (wipeOptional bds path w) (fun res tr => res = false ->
    w = false /\ (path ∈ omap unresolved_of tr \/
      exists name, (path, name) ∈ omap resolve_of tr /\ (~ listed name bds \/ name ∈ omap failed_wipe_of tr))).
Proof.
  unfold wipeOptional. apply wp_call. intros res. cbv zeta. apply wp_bind.
  eapply wp_mono; [apply wipeDevice_searched|]. intros [x err] tr Hs. simpl. rewrite app_nil_r. intros Hw.
  assert (w = false) as -> by (destruct err; [done|by destruct x]). split; [done|].
  destruct res as [name|e]; [|left; unfold Unresolved; set_solver]. right. exists name. simpl. split; [set_solver|].
  destruct err; [right; by destruct x|]. left. by destruct x.
Qed.

Variable r : Reconciler.

Lemma wipeDevices_searched vg bds sel : shouldWipeDevicesOnVolumeGroup r vg = true ->
  vgs_DeviceSelector (lvg_Spec vg) = Some sel ->
  wp (wipeDevices r vg bds) (fun res tr => res.1 = (false, None) -> not_wiped_because sel bds tr).
Proof.
  intros Hs Hsel. unfold wipeDevices. rewrite Hs, Hsel. cbn [negb]. apply wp_bind.
  apply wp_for_each_visited with (I := fun visited s tr => s = false ->
    forall path, path ∈ visited -> exists name, (path, name) ∈ omap resolve_of tr /\ ~ listed name bds).
  - set_solver.
  - intros visited path rest s tr _ Hv. eapply wp_mono; [apply wipeRequired_searched|].
    intros [[]|err] tr' Hr; try done. intros _ q [Hq|Hq%list_elem_of_singleton]%elem_of_app.
    + destruct (Hr eq_refl) as [-> _]. destruct (Hv eq_refl q Hq) as (name & ? & ?). exists name. rewrite omap_app. set_solver.
    + subst q. destruct (Hr eq_refl) as [_ (name & ? & ?)]. exists name. rewrite omap_app. set_solver.
  - intros s tr Hreq. apply wp_bind. apply wp_fold_visited with (I := fun visited s' tr' => s' = false -> s = false /\
      forall path, path ∈ visited -> path ∈ omap unresolved_of tr' \/
        exists name, (path, name) ∈ omap resolve_of tr' /\ (~ listed name bds \/ name ∈ omap failed_wipe_of tr')).
    + set_solver.
    + intros visited path rest s' tr' _ Hv. eapply wp_mono; [apply wipeOptional_searched|].
      intros s'' tr'' Hr Hf. destruct (Hr Hf) as [-> Hp]. destruct (Hv eq_refl) as [-> Hv']. split; [done|].
      rewrite !omap_app. intros q [Hq|Hq%list_elem_of_singleton]%elem_of_app; [|subst q].
      * destruct (Hv' q Hq) as [?|(name & ? & ?)]; [left; set_solver|right; exists name; set_solver].
      * destruct Hp as [?|(name & ? & ?)]; [left; set_solver|right; exists name; set_solver].
    + intros [] tr' Hopt; [by intros now|]. simpl. rewrite app_nil_r. intros _. destruct (Hopt eq_refl) as [-> Ho].
      split; intros path Hp; rewrite !omap_app.
      * destruct (Hreq eq_refl path Hp) as (name & ? & ?). exists name. set_solver.
      * destruct (Ho path Hp) as [?|(name & ? & ?)]; [left; set_solver|right; exists name; set_solver].
Qed.

(** The resolver gives one answer per path, as the cached resolver of a reconciliation does. *)
Definition consistent (tr : list (ev vgE)) : Prop :=
  forall path v w, (path, v) ∈ omap resolve_of tr -> (path, w) ∈ omap resolve_of tr -> v = w.

Lemma resolve_of_event (v : ev vgE) : resolve_of v = resolver_event v ≫= client_answer.
Proof. by destruct v as [X [X' e|X' e|X' e|X' e|X' e|X' [path]|X' e|X' e|X' e|X' e] x]. Qed.

Lemma resolver_event_resolve path v (tr : list (ev vgE)) : Ev (Resolve path) (Ok v) ∈ omap resolver_event tr -> (path, v) ∈ omap resolve_of tr.
Proof.
  intros (e & He & Hr)%omap_elem. apply omap_elem. exists e. split; [done|]. by rewrite resolve_of_event, Hr.
Qed.

Lemma not_wiped_mono sel bds tr tr' : tr ⊆ tr' -> not_wiped_because sel bds tr -> not_wiped_because sel bds tr'.
Proof.
  intros Hs [Hr Ho]. split; intros path Hp.
  - destruct (Hr path Hp) as (name & ? & ?). exists name. split; [by eapply omap_mono|done].
  - destruct (Ho path Hp) as [?|(name & ? & [?|?])]; [left; by eapply omap_mono|right; exists name..];
      (split; [by eapply omap_mono|]); [by left|right; by eapply omap_mono].
Qed.

Context `{R : GoRuntime} `{CU : !ControllerUtil}.

(** C10: while wiping is requested and not yet recorded, a device never enters the volume group
    unwiped through a required path: when a reconciliation creates or extends the volume group
    with a device, only an optional path leads to it, and in this very reconciliation either an
    attempt to wipe the device failed or the path did not resolve when it was to be wiped. (For a
    resolver that answers consistently, as the cached one does.) *)
Theorem used_only_if_not_wipeable vg :
  wp (reconcile r DefaultFilters vg) (fun _ tr =>
    shouldWipeDevicesOnVolumeGroup r vg = true -> consistent tr ->
    forall ds k, ds ∈ omap added_of tr -> k ∈ ds -> k <> "" ->
    exists sel, vgs_DeviceSelector (lvg_Spec vg) = Some sel /\
      (forall path, path ∈ ds_Paths sel -> (path, k) ∉ omap resolve_of tr) /\
      exists path, path ∈ ds_OptionalPaths sel /\ (path, k) ∈ omap resolve_of tr /\
        (k ∈ omap failed_wipe_of tr \/ path ∈ omap unresolved_of tr)).
Proof.
  destruct (shouldWipeDevicesOnVolumeGroup r vg) eqn:Hs; [|by apply wp_intro].
  destruct (vgs_DeviceSelector (lvg_Spec vg)) as [sel|] eqn:Hsel.
  2:{ unfold shouldWipeDevicesOnVolumeGroup in Hs. by rewrite Hsel in Hs. }
  eapply wp_mono.
  { apply (reconcile_adds_after r DefaultFilters vg (not_wiped_because sel)). intros bds. by apply wipeDevices_searched. }
  intros a tr H _ Hcons ds k Hds Hk Hne. exists sel. split; [done|].
  destruct (H ds Hds) as (bds & bdi & pvs & tw & _ & _ & _ & Hsub & Hnw & Hdev).
  destruct (Hdev k Hk) as (dev & Hf & <- & Hacc).
  assert (listed (bd_KName dev) bds) as Hl by by exists dev.
  destruct (not_wiped_mono _ _ _ _ Hsub Hnw) as [Hreq Hopt].
  assert (Hno : forall path, path ∈ ds_Paths sel -> (path, bd_KName dev) ∉ omap resolve_of tr).
  { intros path Hp Hin. destruct (Hreq path Hp) as (name & Hn & Hnl). by rewrite (Hcons _ _ _ Hn Hin) in Hnl. }
  split; [done|].
  destruct (passed_selected (mkOptions vg bdi pvs) dev (omap resolver_event tr) Hne) with (sel := sel) as (path & Hp & Hres); [|done|].
  { apply (Hacc partOfDeviceSelector). unfold DefaultFilters. set_solver. }
  apply resolver_event_resolve in Hres. apply elem_of_app in Hp as [Hp|Hp]; [by destruct (Hno path Hp)|].
  exists path. split; [done|]. split; [done|].
  destruct (Hopt path Hp) as [Hu|(name & Hn & Hor)]; [by right|]. left.
  rewrite (Hcons _ _ _ Hn Hres) in Hor. by destruct Hor.
Qed.

End Pending.

Module RetryDemo.
#[local] Existing Instance listed_order_runtime.
#[local] Existing Instance demo_K8s.
#[local] Existing Instance demo_controller_util.

Definition node1 : Reconciler := mkReconciler "node1" "openshift-lvm-storage".

(** A volume group on one optional device, to be wiped once. *)
Definition pending_vg : LVMVolumeGroup :=
  mkLVMVolumeGroup (mkObjectMeta "vg1" "openshift-lvm-storage" "uid" ∅ None [getFinalizer node1] [] None)
    (mkLVMVolumeGroupSpec (Some (mkDeviceSelector [] ["/dev/sda"] (Some true))) None None None true None).

(** The disk, with the logical volumes of the group once it exists. *)
Definition volume : BlockDevice := mkBlockDevice "vg1-data" "/dev/dm-0" "lvm" "" "" "" "" "10G" [] false "" "".
Definition disk (fstype : string) (children : list BlockDevice) : BlockDevice :=
  mkBlockDevice "/dev/sda" "/dev/sda" "disk" "" fstype "" "" "100G" children false "" "".

(** The host: whether the group exists, and how many attempts to wipe fail. *)
Record Disk := mkDisk { group_exists : bool; busy : nat }.

Definition disk_lvm (X : Type) (e : lvmE X) (s : Disk) : X * Disk :=
  match e in lvmE X return X * Disk with
  | CreateVG _ _ => (None, mkDisk true (busy s))
  | ListVGs _ => (Ok (if group_exists s then [mkVolumeGroup "vg1" "100g" [] []] else []), s)
  | GetVG n => (Ok (mkVolumeGroup n "100g" [] []), s)
  | ExtendVG v _ => (Ok v, s)
  | ListPVs _ => (Ok [], s)
  | ListLVsByName _ => (Ok [], s)
  | ListLVs _ => (Ok (mkLVReport []), s)
  | LVExists _ _ => (Ok false, s)
  | _ => (None, s)
  end.

Definition host (X : Type) (e : vgE X) (s : Disk) : X * Disk :=
  match e in vgE X return X * Disk with
  | OfLVM X e => disk_lvm X e s
  | OfLSBLK X e =>
      (match e in lsblkE X return X with
       | ListBlockDevices => Ok [if group_exists s then disk "LVM2_member" [volume] else disk "" []]
       | BlockDeviceInfos _ => Ok ∅
       end, s)
  | OfWipefs X e =>
      match e in wipefsE X return X * Disk with
      | Wipe _ => match busy s with
                  | O => (None, s)
                  | S n => (Some (EExt "probing initialization failed: Device or resource busy"), mkDisk (group_exists s) n)
                  end
      end
  | OfDmsetup X e => (match e in dmsetupE X return X with Remove _ => None end, s)
  | OfLVMD X e => (match e in lvmdE X return X with Load => Ok None | Save _ | Delete => None end, s)
  | OfResolver X e => (match e in resolveE X return X with Resolve p => Ok p end, s)
  | OfGauges X e => (match e in gaugeE X return X with SetGauge _ _ _ _ | DeleteLabelValues _ _ _ => tt end, s)
  | OfClient X e =>
      (match e in clientE X return X with
       | GetVolumeGroup _ _ => Ok pending_vg
       | GetNode name => Ok (name, [], [])
       | GetNodeStatus _ _ => Ok (mkLVMVolumeGroupNodeStatus (mkObjectMeta "node1" "" "" ∅ None [] [] None) [])
       | GetStorageClass _ => Ok None
       | UpdateVolumeGroup _ => None
       | CreateOrUpdateNodeStatus _ _ _ => (false, None)
       end, s)
  | OfRecorder X e => (match e in recorderE X return X with Eventf _ _ _ _ _ => tt end, s)
  | OfProcess X e => (match e in processE X return X with Now => "now" | LogV1Enabled => false end, s)
  end.

Definition reconcile_vg1 : prog vgE (Result * option error) := Reconcile node1 DefaultFilters "openshift-lvm-storage" "vg1".
Definition first_run := run host reconcile_vg1 (mkDisk false 1).
Definition second_run := run host reconcile_vg1 first_run.1.2.

(** Wipes that succeeded. *)
Definition wiped_of (v : ev vgE) : option string :=
  match v with
  | @Ev _ X e x =>
      match e in vgE X return X -> option string with
      | OfWipefs _ e => match e in wipefsE X return X -> option string with
                        | Wipe dev => fun err => match err with None => Some dev | Some _ => None end
                        end
      | _ => fun _ => None
      end x
  end.

(** Force-wiping is not confined to the time before the volume group exists. When the one attempt
    to wipe an optional device fails, the reconciliation goes on, creates the volume group on that
    device and reports success without setting the mark; the next reconciliation then removes
    the device-mapper reference of the logical volume on it and wipes the physical volume of the
    existing volume group, and reports success again. *)
Theorem group_wiped_after_creation :
  snd first_run.1.1 = None /\ omap wiped_of first_run.2 = [] /\ omap added_of first_run.2 = [["/dev/sda"]] /\
  group_exists first_run.1.2 = true /\ shouldWipeDevicesOnVolumeGroup node1 pending_vg = true /\
  omap mapper_of second_run.2 = ["/dev/dm-0"] /\ omap wiped_of second_run.2 = ["/dev/sda"] /\ snd second_run.1.1 = None.
Proof. repeat split; vm_compute; reflexivity. Qed.
End RetryDemo.
