(* ===== verification/Webhook.v ===== *)
(** The LVMCluster admission webhook (api/v1alpha1/lvmcluster_webhook.go): the
    defaulter, the create/update/delete validators and every check they call.

    A check returns its Go result: an error ([option error], nil is [None]) or
    warnings and an error. Where the source writes through a pointer
    (MetadataSize defaulting) the definition returns the updated objects. *)

From S2P Require Import Prelude GoStd Effects Api.

Definition ThinPoolConfigMaxRecommendedSizePercent : Z := 90.

Definition ErrDeviceClassNotFound := ENew "ErrDeviceClassNotFound" "DeviceClass not found in the LVMCluster".
Definition ErrThinPoolConfigNotSet := ENew "ErrThinPoolConfigNotSet" "ThinPoolConfig is not set for the DeviceClass".
Definition ErrNodeSelectorNotSet := ENew "ErrNodeSelectorNotSet" "NodeSelector is not set for the DeviceClass".
Definition ErrInvalidNamespace := ENew "ErrInvalidNamespace" "invalid namespace was supplied".
Definition ErrOnlyOneDefaultDeviceClassAllowed :=
  ENew "ErrOnlyOneDefaultDeviceClassAllowed" "only one default deviceClass is allowed".
Definition ErrPathsOrOptionalPathsMandatoryWithNonNilDeviceSelector :=
  ENew "ErrPathsOrOptionalPathsMandatoryWithNonNilDeviceSelector"
    "either paths or optionalPaths must be specified when DeviceSelector is specified".
Definition ErrEmptyPathsWithMultipleDeviceClasses :=
  ENew "ErrEmptyPathsWithMultipleDeviceClasses"
    "path list should not be empty when there are multiple deviceClasses".
Definition ErrDuplicateLVMCluster :=
  ENew "ErrDuplicateLVMCluster"
    "duplicate LVMClusters are not allowed, remove the old LVMCluster or work with the existing instance".
Definition ErrThinPoolConfigCannotBeChanged :=
  ENew "ErrThinPoolConfigCannotBeChanged" "ThinPoolConfig can not be changed".
Definition ErrThinPoolMetadataSizeCanOnlyBeIncreased :=
  ENew "ErrThinPoolMetadataSizeCanOnlyBeIncreased" "thin pool metadata size can only be increased".
Definition ErrNodeSelectorCannotBeChanged :=
  ENew "ErrNodeSelectorCannotBeChanged" "NodeSelector can not be changed".
Definition ErrDevicePathsCannotBeAddedInUpdate :=
  ENew "ErrDevicePathsCannotBeAddedInUpdate"
    "device paths can not be added after a device class has been initialized".
Definition ErrForceWipeOptionCannotBeChanged :=
  ENew "ErrForceWipeOptionCannotBeChanged" "ForceWipeDevicesAndDestroyAllData can not be changed".
Definition ErrRAIDAndThinPoolMutuallyExclusive :=
  ENew "ErrRAIDAndThinPoolMutuallyExclusive" "raidConfig and thinPoolConfig are mutually exclusive".
Definition ErrRAIDMirrorsOnlyForRAID1AndRAID10 :=
  ENew "ErrRAIDMirrorsOnlyForRAID1AndRAID10" "mirrors is only valid for raid1 and raid10".
Definition ErrRAIDStripesNotForRAID1 :=
  ENew "ErrRAIDStripesNotForRAID1" "stripes is only valid for raid4, raid5, raid6, and raid10".
Definition ErrRAIDStripeSizeNotForRAID1 :=
  ENew "ErrRAIDStripeSizeNotForRAID1" "stripeSize is only valid for raid4, raid5, raid6, and raid10".
Definition ErrRAIDDeviceSelectorRequired :=
  ENew "ErrRAIDDeviceSelectorRequired" "at least one of paths or optionalPaths is required when raidConfig is set".
Definition ErrRAIDStripeSizeNotPowerOf2 :=
  ENew "ErrRAIDStripeSizeNotPowerOf2" "stripeSize must be a power of 2 (e.g., 64Ki, 128Ki, 256Ki, 512Ki)".
Definition ErrRAIDConfigCannotBeChanged :=
  ENew "ErrRAIDConfigCannotBeChanged" "raidConfig cannot be changed".
Definition ErrRAIDConfigNotSet := ENew "ErrRAIDConfigNotSet" "RAIDConfig is not set for the DeviceClass".

(** [fmt.Errorf("<ctx>: %w", err)] *)
Definition wrapf (ctx : string) (err : error) : error := EFmt (ctx +:+ ": " +:+ Error err) [err].

(** constants.go and labels/managed.go, as far as admission uses them. *)
Definition DeviceClassKey := "topolvm.io/device-class".
Definition FsTypeKey := "csi.storage.k8s.io/fstype".
Definition lvmsOwnedParameterKeys : list string := [DeviceClassKey; FsTypeKey].
Definition ReservedStorageClassLabelKeys : list string :=
  ["app.kubernetes.io/managed-by"; "app.kubernetes.io/part-of"; "app.kubernetes.io/name"; "app.kubernetes.io/component"].
Definition OwnedByPrefix := "owned-by.topolvm.io".

(** [devices map[string]map[DevicePath]string]: node selector, path, device class. *)
Abbreviation device_map := (gmap string (gmap string string)).

Section Webhook.
Context `{G : GoRuntime} `{K : K8s}.

(** * Defaulting *)

Definition set_policy (p : option DeviceDiscoveryPolicySpec) (dc : DeviceClass) : DeviceClass :=
  {| dc_Name := dc_Name dc; dc_DeviceSelector := dc_DeviceSelector dc; dc_NodeSelector := dc_NodeSelector dc;
     dc_ThinPoolConfig := dc_ThinPoolConfig dc; dc_RAIDConfig := dc_RAIDConfig dc; dc_Default := dc_Default dc;
     dc_FilesystemType := dc_FilesystemType dc; dc_DeviceDiscoveryPolicy := p;
     dc_StorageClassOptions := dc_StorageClassOptions dc |}.

Definition Default_class (dc : DeviceClass) : DeviceClass :=
  match dc_DeviceDiscoveryPolicy dc with
  | None => if negb (HasExplicitPaths dc) then set_policy (Some DeviceDiscoveryPolicyStatic) dc else dc
  | Some _ => dc
  end.

Definition Default (l : LVMCluster) : LVMCluster :=
  with_deviceClasses (map Default_class (deviceClasses l)) l.

(** * Checks shared by create and update *)

Definition verifyThinPoolConfig (config : ThinPoolConfig) : list string * option error :=
  if (tp_SizePercent config <=? ThinPoolConfigMaxRecommendedSizePercent)%Z then ([], None)
  else (["ThinPoolConfig.SizePercent for " +:+ tp_Name config +:+ " is greater than 90%, " +:+
         "this may lead to issues once the thin pool metadata that is created by default is nearing full capacity, " +:+
         "as it will be impossible to extent the metadata pool size. " +:+
         "You can ignore this warning if " +:+
         "a) you are certain that you do not need to extend the metadata pool in the future or " +:+
         "b) you set it above 90% but below 100% because the buffer is sufficiently big with a smaller reserved percentage"],
        None).

(** The loop of verifyDeviceClass: default count and warnings, or an error. *)
Fixpoint verifyDeviceClass_loop (dcs : list DeviceClass) (countDefault : Z) (warnings : list string)
    : result error (Z * list string) :=
  match dcs with
  | [] => Ok (countDefault, warnings)
  | dc :: dcs =>
      let countDefault := if dc_Default dc then (countDefault + 1)%Z else countDefault in
      match dc_ThinPoolConfig dc with
      | Some tpConfig =>
          let '(tpWarnings, err) := verifyThinPoolConfig tpConfig in
          match err with
          | Some err => Err err
          | None => verifyDeviceClass_loop dcs countDefault (warnings ++ tpWarnings)
          end
      | None => verifyDeviceClass_loop dcs countDefault warnings
      end
  end.

Definition verifyDeviceClass (l : LVMCluster) : list string * option error :=
  match verifyDeviceClass_loop (deviceClasses l) 0 [] with
  | Err err => ([], Some err)
  | Ok (countDefault, warnings) =>
      if (countDefault >? 1)%Z then
        ([], Some (EFmt (Error ErrOnlyOneDefaultDeviceClassAllowed +:+ ". Currently, there are " +:+
                         Itoa countDefault +:+ " default deviceClasses") [ErrOnlyOneDefaultDeviceClassAllowed]))
      else if (countDefault =? 0)%Z then
        (warnings ++ ["no default deviceClass was specified, it will be mandatory to specify the generated storage class in any PVC explicitly or you will have to declare another default StorageClass"], None)
      else (warnings, None)
  end.

(** The loop of verifyPathsAreNotEmpty: the names of the classes without a selector. *)
Fixpoint classesWithoutPaths (dcs : list DeviceClass) (acc : list string) : result error (list string) :=
  match dcs with
  | [] => Ok acc
  | dc :: dcs =>
      match dc_DeviceSelector dc with
      | Some sel =>
          if (length (ds_Paths sel) =? 0)%nat && (length (ds_OptionalPaths sel) =? 0)%nat
          then Err ErrPathsOrOptionalPathsMandatoryWithNonNilDeviceSelector
          else classesWithoutPaths dcs acc
      | None => classesWithoutPaths dcs (acc ++ [dc_Name dc])
      end
  end.

Definition verifyPathsAreNotEmpty (l : LVMCluster) : list string * option error :=
  match classesWithoutPaths (deviceClasses l) [] with
  | Err err => ([], Some err)
  | Ok without =>
      if (1 <? length (deviceClasses l))%nat && (0 <? length without)%nat then
        ([], Some (EFmt (Error ErrEmptyPathsWithMultipleDeviceClasses +:+
                         ". Please specify device path(s) under deviceSelector.paths for " +:+
                         strings_Join without "," +:+ " deviceClass(es)") [ErrEmptyPathsWithMultipleDeviceClasses]))
      else if (length (deviceClasses l) =? 1)%nat && (length without =? 1)%nat then
        (["no device path(s) under deviceSelector.paths was specified for the " +:+ default "" (head without) +:+ " deviceClass, " +:+
          "device discovery will be based on the deviceDiscoveryPolicy (defaults to Static). " +:+
          "This is not recommended for production environments. " +:+
          "Please refer to the limitations outlined in the product documentation for further details."], None)
      else ([], None)
  end.

Definition verifyAbsolutePath (l : LVMCluster) : option error :=
  first_error (fun dc =>
    match dc_DeviceSelector dc with
    | None => None
    | Some sel =>
        first_error (fun path =>
          if negb (HasPrefix (Unresolved path) "/dev/")
          then Some (EFmt ("path " +:+ Unresolved path +:+ " must be an absolute path to the device") [])
          else None) (ds_Paths sel) ;?
        first_error (fun path =>
          if negb (HasPrefix (Unresolved path) "/dev/")
          then Some (EFmt ("optional path " +:+ Unresolved path +:+ " must be an absolute path to the device") [])
          else None) (ds_OptionalPaths sel)
    end) (deviceClasses l).

Definition lookup_device (devices : device_map) (nodeSelector path : string) : option string :=
  (devices !! nodeSelector) ≫= fun m => m !! path.

Definition record_device (devices : device_map) (nodeSelector path name : string) : device_map :=
  <[nodeSelector := <[path := name]> (default ∅ (devices !! nodeSelector))]> devices.

(** One of the two inner loops of verifyNoDeviceOverlap; [kind] is the prefix of its messages. *)
Fixpoint addPaths (kind nodeSelector name : string) (paths : list DevicePath) (devices : device_map)
    : result error device_map :=
  match paths with
  | [] => Ok devices
  | path :: paths =>
      match lookup_device devices nodeSelector path with
      | Some val =>
          if negb (String.eqb val name) then
            Err (EFmt ("error: " +:+ kind +:+ " " +:+ path +:+ " overlaps in two different deviceClasss " +:+
                       val +:+ " and " +:+ name) [])
          else Err (EFmt ("error: " +:+ kind +:+ " " +:+ path +:+ " is specified at multiple places in deviceClass " +:+ val) [])
      | None => addPaths kind nodeSelector name paths (record_device devices nodeSelector path name)
      end
  end.

Definition selector_string (dc : DeviceClass) : string :=
  NodeSelector_String (NodeSelectorTerms <$> dc_NodeSelector dc).

Fixpoint verifyNoDeviceOverlap_loop (dcs : list DeviceClass) (devices : device_map) : result error device_map :=
  match dcs with
  | [] => Ok devices
  | dc :: dcs =>
      match dc_DeviceSelector dc with
      | None => verifyNoDeviceOverlap_loop dcs devices
      | Some sel =>
          result_bind (addPaths "device path" (selector_string dc) (dc_Name dc) (ds_Paths sel) devices) (fun devices =>
          result_bind (addPaths "optional device path" (selector_string dc) (dc_Name dc) (ds_OptionalPaths sel) devices)
            (fun devices => verifyNoDeviceOverlap_loop dcs devices))
      end
  end.

Definition verifyNoDeviceOverlap (l : LVMCluster) : option error :=
  match verifyNoDeviceOverlap_loop (deviceClasses l) ∅ with
  | Err err => Some err
  | Ok _ => None
  end.

Definition verifyFstype (l : LVMCluster) : option error :=
  first_error (fun dc =>
    if bool_decide (dc_FilesystemType dc <> FilesystemTypeExt4) && bool_decide (dc_FilesystemType dc <> FilesystemTypeXFS)
    then Some (EFmt ("fstype '" +:+ DeviceFilesystemType_string (dc_FilesystemType dc) +:+ "' is not a supported filesystem type") [])
    else None) (deviceClasses l).

Definition verifyChunkSize (l : LVMCluster) : option error :=
  first_error (fun dc =>
    match dc_ThinPoolConfig dc with
    | None => None
    | Some tp =>
        if bool_decide (tp_ChunkSizeCalculationPolicy tp = ChunkSizeCalculationPolicyHost)
           && bool_decide (tp_ChunkSize tp <> None)
        then Some (EFmt "chunk size can not be set when chunk size calculation policy is set to Host" [])
        else match tp_ChunkSize tp with
             | None => None
             | Some size =>
                 if (q_Cmp size ChunkSizeMinimum <? 0)%Z then
                   Some (EFmt ("chunk size must be greater than or equal to " +:+ q_String ChunkSizeMinimum) [])
                 else if (q_Cmp size ChunkSizeMaximum >? 0)%Z then
                   Some (EFmt ("chunk size must be less than or equal to " +:+ q_String ChunkSizeMaximum) [])
                 else None
             end
    end) (deviceClasses l).

Definition set_metadata_size (q : Quantity) (tp : ThinPoolConfig) : ThinPoolConfig :=
  {| tp_Name := tp_Name tp; tp_SizePercent := tp_SizePercent tp; tp_OverprovisionRatio := tp_OverprovisionRatio tp;
     tp_ChunkSizeCalculationPolicy := tp_ChunkSizeCalculationPolicy tp; tp_ChunkSize := tp_ChunkSize tp;
     tp_MetadataSize := Some q; tp_MetadataSizeCalculationPolicy := tp_MetadataSizeCalculationPolicy tp |}.

Definition set_thin_pool (tp : ThinPoolConfig) (dc : DeviceClass) : DeviceClass :=
  {| dc_Name := dc_Name dc; dc_DeviceSelector := dc_DeviceSelector dc; dc_NodeSelector := dc_NodeSelector dc;
     dc_ThinPoolConfig := Some tp; dc_RAIDConfig := dc_RAIDConfig dc; dc_Default := dc_Default dc;
     dc_FilesystemType := dc_FilesystemType dc; dc_DeviceDiscoveryPolicy := dc_DeviceDiscoveryPolicy dc;
     dc_StorageClassOptions := dc_StorageClassOptions dc |}.

(** The loop of verifyMetadataSize. It writes the default size through the
    ThinPoolConfig pointer, so the updated device classes are part of the result. *)
Fixpoint verifyMetadataSize_loop (dcs : list DeviceClass) (warnings : list string)
    : list DeviceClass * list string * option error :=
  match dcs with
  | [] => ([], warnings, None)
  | dc :: dcs =>
      match dc_ThinPoolConfig dc with
      | None =>
          let '(dcs', warnings, err) := verifyMetadataSize_loop dcs warnings in (dc :: dcs', warnings, err)
      | Some tp =>
          if bool_decide (tp_MetadataSizeCalculationPolicy tp = MetadataSizePolicyHost)
             && bool_decide (tp_MetadataSize tp <> None)
          then (dc :: dcs, warnings,
                Some (EFmt "metadata size can not be set when metadata size calculation policy is set to Host" []))
          else
            let unset := bool_decide (tp_MetadataSizeCalculationPolicy tp = MetadataSizePolicyStatic)
                         && bool_decide (tp_MetadataSize tp = None) in
            let warnings := if unset then warnings ++ ["metadata size in unset. LVMS will set it to 1Gi by default"]
                            else warnings in
            let tp := if unset then set_metadata_size ThinPoolMetadataSizeDefault tp else tp in
            let dc := if unset then set_thin_pool tp dc else dc in
            let continue := let '(dcs', warnings, err) := verifyMetadataSize_loop dcs warnings in (dc :: dcs', warnings, err) in
            match tp_MetadataSize tp with
            | None => continue
            | Some size =>
                if (q_Cmp size ThinPoolMetadataSizeMinimum <? 0)%Z then
                  (dc :: dcs, warnings,
                   Some (EFmt ("metadata size must be greater than or equal to " +:+ q_String ThinPoolMetadataSizeMinimum) []))
                else if (q_Cmp size ThinPoolMetadataSizeMaximum >? 0)%Z then
                  (dc :: dcs, warnings,
                   Some (EFmt ("metadata size must be less than or equal to " +:+ q_String ThinPoolMetadataSizeMaximum) []))
                else continue
            end
      end
  end.

(** The updated cluster, the warnings and the error. *)
Definition verifyMetadataSize (l : LVMCluster) : LVMCluster * list string * option error :=
  let '(dcs, warnings, err) := verifyMetadataSize_loop (deviceClasses l) [] in
  (with_deviceClasses dcs l, warnings, err).

Definition verifyDeviceDiscoveryPolicy (l : LVMCluster) : list string :=
  flat_map (fun dc =>
    if bool_decide (dc_DeviceDiscoveryPolicy dc = Some DeviceDiscoveryPolicyDynamic) && negb (HasExplicitPaths dc)
    then ["deviceDiscoveryPolicy is set to Dynamic for device class " +:+ quote (dc_Name dc) +:+ " without explicit device paths. " +:+
          "LVMS will continuously discover and add new devices. " +:+
          "This is not recommended for production environments."]
    else []) (deviceClasses l).

(** The two loops over the maps of one device class. *)
Definition checkParameters (dc : DeviceClass) (params : gmap string string) : option error :=
  first_error (fun '(key, _) =>
    if String.eqb key "" then
      Some (EFmt ("device class " +:+ quote (dc_Name dc) +:+ ": additionalParameters must not contain empty keys") [])
    else if contains_str lvmsOwnedParameterKeys key then
      Some (EFmt ("device class " +:+ quote (dc_Name dc) +:+ ": additionalParameters key " +:+ quote key +:+
                  " is managed by LVMS and cannot be set") [])
    else None) (map_range (map_to_list params)).

Definition checkLabels (dc : DeviceClass) (lbls : gmap string string) : option error :=
  first_error (fun '(key, val) =>
    if (0 <? length (IsQualifiedName key))%nat then
      Some (EFmt ("device class " +:+ quote (dc_Name dc) +:+ ": additionalLabels key " +:+ quote key +:+
                  " is invalid: " +:+ strings_Join (IsQualifiedName key) "; ") [])
    else if (0 <? length (IsValidLabelValue val))%nat then
      Some (EFmt ("device class " +:+ quote (dc_Name dc) +:+ ": additionalLabels value " +:+ quote val +:+ " for key " +:+
                  quote key +:+ " is invalid: " +:+ strings_Join (IsValidLabelValue val) "; ") [])
    else if contains_str ReservedStorageClassLabelKeys key then
      Some (EFmt ("device class " +:+ quote (dc_Name dc) +:+ ": additionalLabels key " +:+ quote key +:+
                  " is operator-reserved and cannot be set") [])
    else if HasPrefix key OwnedByPrefix then
      Some (EFmt ("device class " +:+ quote (dc_Name dc) +:+ ": additionalLabels key " +:+ quote key +:+
                  " is operator-reserved and cannot be set") [])
    else None) (map_range (map_to_list lbls)).

(** Its warnings are always nil. *)
Definition validateAdditionalParamsAndLabels (l : LVMCluster) : list string * option error :=
  ([], first_error (fun dc =>
    match dc_StorageClassOptions dc with
    | None => None
    | Some opts => checkParameters dc (sco_AdditionalParameters opts) ;? checkLabels dc (sco_AdditionalLabels opts)
    end) (deviceClasses l)).

(** The body of the loop of verifyRAIDConfig. *)
Definition verifyRAIDConfig_class (dc : DeviceClass) : option error :=
  let ctx := "device class " +:+ quote (dc_Name dc) in
  match dc_RAIDConfig dc with
  | None => None
  | Some rc =>
      if bool_decide (dc_ThinPoolConfig dc <> None) then Some (wrapf ctx ErrRAIDAndThinPoolMutuallyExclusive)
      else if bool_decide (rc_Mirrors rc <> None) && bool_decide (rc_Type rc <> RAIDTypeRAID1)
              && bool_decide (rc_Type rc <> RAIDTypeRAID10)
      then Some (wrapf ctx ErrRAIDMirrorsOnlyForRAID1AndRAID10)
      else if bool_decide (rc_Stripes rc <> None) && bool_decide (rc_Type rc = RAIDTypeRAID1)
      then Some (wrapf ctx ErrRAIDStripesNotForRAID1)
      else if bool_decide (rc_StripeSize rc <> None) && bool_decide (rc_Type rc = RAIDTypeRAID1)
      then Some (wrapf ctx ErrRAIDStripeSizeNotForRAID1)
      else if match rc_StripeSize rc with
              | Some q => let bytes := q_Value q in
                          (bytes <=? 0)%Z || negb (Z.land bytes (wrap64 (bytes - 1)) =? 0)%Z
              | None => false
              end
      then Some (wrapf ctx ErrRAIDStripeSizeNotPowerOf2)
      else if negb (selector_has_paths (dc_DeviceSelector dc)) then Some (wrapf ctx ErrRAIDDeviceSelectorRequired)
      else
        match dc_DeviceSelector dc with
        | None => Some (EPanic "invalid memory address or nil pointer dereference")
        | Some sel =>
            let totalDevices := Z.of_nat (length (ds_Paths sel) + length (ds_OptionalPaths sel)) in
            let minDevices := MinDeviceCount (rc_Type rc) (EffectiveMirrors rc) (rc_Stripes rc) in
            if (totalDevices <? minDevices)%Z then
              Some (EFmt (ctx +:+ ": " +:+ RAIDType_string (rc_Type rc) +:+ " requires at least " +:+ Itoa minDevices +:+
                          " devices, got " +:+ Itoa totalDevices) [])
            else if bool_decide (rc_Type rc = RAIDTypeRAID10) && (length (ds_OptionalPaths sel) =? 0)%nat then
              let divisor := wrap64 (EffectiveMirrors rc + 1) in
              match int_rem totalDevices divisor with
              | None => Some (EPanic "integer divide by zero")
              | Some r =>
                  if negb (r =? 0)%Z then
                    Some (EFmt (ctx +:+ ": raid10 with mirrors=" +:+ Itoa (EffectiveMirrors rc) +:+
                                " requires device count to be a multiple of " +:+ Itoa divisor +:+ ", got " +:+ Itoa totalDevices) [])
                  else None
              end
            else None
        end
  end.

Definition verifyRAIDConfig (l : LVMCluster) : option error :=
  first_error verifyRAIDConfig_class (deviceClasses l).

(** * Lookups in the old cluster *)

Definition classNamed (name : string) (dcs : list DeviceClass) : option DeviceClass :=
  find_first (fun dc => String.eqb (dc_Name dc) name) dcs.

(** [(required, optional, forceWipe, err)] *)
Definition getPathsOfDeviceClass (dcs : list DeviceClass) (name : string)
    : list DevicePath * list DevicePath * option bool * option error :=
  match classNamed name dcs with
  | Some dc =>
      match dc_DeviceSelector dc with
      | Some sel => (ds_Paths sel, ds_OptionalPaths sel, ds_ForceWipeDevicesAndDestroyAllData sel, None)
      | None => ([], [], None, None)
      end
  | None => ([], [], None, Some ErrDeviceClassNotFound)
  end.

Definition getNodeSelectorOfDeviceClass (dcs : list DeviceClass) (name : string) : option NodeSelector * option error :=
  match classNamed name dcs with
  | Some dc =>
      match dc_NodeSelector dc with
      | Some s => (Some s, None)
      | None => (None, Some ErrNodeSelectorNotSet)
      end
  | None => (None, Some ErrDeviceClassNotFound)
  end.

Definition getThinPoolsConfigOfDeviceClass (dcs : list DeviceClass) (name : string) : option ThinPoolConfig * option error :=
  match classNamed name dcs with
  | Some dc =>
      match dc_ThinPoolConfig dc with
      | Some tp => (Some tp, None)
      | None => (None, Some ErrThinPoolConfigNotSet)
      end
  | None => (None, Some ErrDeviceClassNotFound)
  end.

Definition getRAIDConfigOfDeviceClass (dcs : list DeviceClass) (name : string) : option RAIDConfig * option error :=
  match classNamed name dcs with
  | Some dc =>
      match dc_RAIDConfig dc with
      | Some rc => (Some rc, None)
      | None => (None, Some ErrRAIDConfigNotSet)
      end
  | None => (None, Some ErrDeviceClassNotFound)
  end.

(** * Update-only rules *)

(** [oldMap] keeps the options of the last class of each name. *)
Definition oldOptionsMap (old : list DeviceClass) : gmap string (option StorageClassOptions) :=
  foldl (fun m dc => <[dc_Name dc := dc_StorageClassOptions dc]> m) ∅ old.

Definition validateStorageClassOptionsUpgrade (old new : list DeviceClass) : option error :=
  let oldMap := oldOptionsMap old in
  first_error (fun dc =>
    match dc_StorageClassOptions dc with
    | None => None
    | Some opts =>
        match oldMap !! dc_Name dc with
        | None => None
        | Some (Some _) => None
        | Some None =>
            let ctx := "device class " +:+ quote (dc_Name dc) in
            if bool_decide (sco_ReclaimPolicy opts <> None)
               && bool_decide (sco_ReclaimPolicy opts <> Some PersistentVolumeReclaimDelete)
            then Some (EFmt (ctx +:+ ": reclaimPolicy is immutable once set") [])
            else if bool_decide (sco_VolumeBindingMode opts <> None)
                    && bool_decide (sco_VolumeBindingMode opts <> Some VolumeBindingWaitForFirstConsumer)
            then Some (EFmt (ctx +:+ ": volumeBindingMode is immutable once set") [])
            else if (0 <? size (sco_AdditionalParameters opts))%nat
            then Some (EFmt (ctx +:+ ": additionalParameters is immutable once set") [])
            else None
        end
    end) new.

Definition validateDeviceClassRemoval (old new : list DeviceClass) : option error :=
  if (length new =? 0)%nat then
    Some (EFmt "cannot remove all device classes: at least one device class must remain" [])
  else
    let newDeviceClassMap : gset string := list_to_set (map dc_Name new) in
    first_error (fun dc =>
      if bool_decide (dc_Name dc ∈ newDeviceClassMap) then None
      else if dc_Default dc then Some (EFmt ("cannot delete default device class " +:+ dc_Name dc) [])
      else None) old.

(** Writes the default metadata size into the class the lookup found. *)
Fixpoint set_old_metadata (name : string) (dcs : list DeviceClass) : list DeviceClass :=
  match dcs with
  | [] => []
  | dc :: dcs =>
      if String.eqb (dc_Name dc) name then
        match dc_ThinPoolConfig dc with
        | Some tp => set_thin_pool (set_metadata_size ThinPoolMetadataSizeDefault tp) dc :: dcs
        | None => dc :: dcs
        end
      else dc :: set_old_metadata name dcs
  end.

(** The thin pool rules for one device class of the new object. The result is
    the (possibly defaulted) new class, the (possibly defaulted) old classes,
    the warnings and the error. *)
Definition updateThinPool (old : list DeviceClass) (dc : DeviceClass) (warnings : list string)
    : DeviceClass * list DeviceClass * list string * option error :=
  let '(oldTP, err) := getThinPoolsConfigOfDeviceClass old (dc_Name dc) in
  match dc_ThinPoolConfig dc, oldTP with
  | Some _, None =>
      if negb (errors_Is_opt err "ErrDeviceClassNotFound") then (dc, old, warnings, Some ErrThinPoolConfigCannotBeChanged)
      else (dc, old, warnings, None)
  | None, Some _ => (dc, old, warnings, Some ErrThinPoolConfigCannotBeChanged)
  | None, None => (dc, old, warnings, None)
  | Some n, Some o =>
      if negb (String.eqb (tp_Name n) (tp_Name o)) then
        (dc, old, warnings, Some (wrapf "ThinPoolConfig.Name is invalid" ErrThinPoolConfigCannotBeChanged))
      else if negb (tp_SizePercent n =? tp_SizePercent o)%Z then
        (dc, old, warnings, Some (wrapf "ThinPoolConfig.SizePercent is invalid" ErrThinPoolConfigCannotBeChanged))
      else if bool_decide (tp_ChunkSizeCalculationPolicy n <> tp_ChunkSizeCalculationPolicy o) then
        (dc, old, warnings, Some (wrapf "ThinPoolConfig.ChunkSizeCalculationPolicy is invalid" ErrThinPoolConfigCannotBeChanged))
      else if bool_decide (tp_ChunkSize n <> tp_ChunkSize o) then
        (dc, old, warnings, Some (wrapf "ThinPoolConfig.ChunkSize is invalid" ErrThinPoolConfigCannotBeChanged))
      else if bool_decide (tp_MetadataSizeCalculationPolicy n = MetadataSizePolicyStatic) then
        let unset := bool_decide (tp_MetadataSize n = None) in
        let warnings := if unset then warnings ++ ["thin pool metadata size is unset. LVMS operator will automatically set it to 1Gb and grow metadata size if needed"]
                        else warnings in
        let newSize := default ThinPoolMetadataSizeDefault (tp_MetadataSize n) in
        let dc := if unset then set_thin_pool (set_metadata_size ThinPoolMetadataSizeDefault n) dc else dc in
        if bool_decide (tp_MetadataSizeCalculationPolicy o = MetadataSizePolicyStatic) then
          let oldSize := default ThinPoolMetadataSizeDefault (tp_MetadataSize o) in
          let old := if bool_decide (tp_MetadataSize o = None) then set_old_metadata (dc_Name dc) old else old in
          if (q_Value newSize <? q_Value oldSize)%Z then
            (dc, old, warnings, Some (wrapf "ThinPoolConfig.MetadataSize is invalid" ErrThinPoolMetadataSizeCanOnlyBeIncreased))
          else (dc, old, warnings, None)
        else (dc, old, warnings, None)
      else (dc, old, warnings, None)
  end.

Definition updateRAID (old : list DeviceClass) (dc : DeviceClass) : option error :=
  let '(oldRC, err) := getRAIDConfigOfDeviceClass old (dc_Name dc) in
  match dc_RAIDConfig dc, oldRC with
  | Some _, None =>
      if negb (errors_Is_opt err "ErrDeviceClassNotFound") then Some ErrRAIDConfigCannotBeChanged else None
  | None, Some _ => Some ErrRAIDConfigCannotBeChanged
  | None, None => None
  | Some n, Some o =>
      if bool_decide (n <> o) then Some (wrapf "RAIDConfig fields are immutable" ErrRAIDConfigCannotBeChanged) else None
  end.

Definition updateNodeSelector (old : list DeviceClass) (dc : DeviceClass) : option error :=
  let '(oldSel, err) := getNodeSelectorOfDeviceClass old (dc_Name dc) in
  match dc_NodeSelector dc, oldSel with
  | Some _, None =>
      if negb (errors_Is_opt err "ErrDeviceClassNotFound") then Some ErrNodeSelectorCannotBeChanged else None
  | None, Some _ => Some ErrNodeSelectorCannotBeChanged
  | None, None => None
  | Some n, Some o => if bool_decide (n <> o) then Some ErrNodeSelectorCannotBeChanged else None
  end.

Definition updatePaths (old : list DeviceClass) (dc : DeviceClass) : option error :=
  let '(newDevices, newOptional, newForceWipe) :=
    match dc_DeviceSelector dc with
    | Some sel => (ds_Paths sel, ds_OptionalPaths sel, ds_ForceWipeDevicesAndDestroyAllData sel)
    | None => ([], [], None)
    end in
  let '(oldDevices, oldOptional, oldForceWipe, err) := getPathsOfDeviceClass old (dc_Name dc) in
  if errors_Is_opt err "ErrDeviceClassNotFound" then None
  else if match oldForceWipe, newForceWipe with
          | None, Some _ | Some _, None => true
          | Some o, Some n => negb (Bool.eqb o n)
          | None, None => false
          end
  then Some ErrForceWipeOptionCannotBeChanged
  else if (length oldDevices =? 0)%nat && (length oldOptional =? 0)%nat
          && ((0 <? length newDevices)%nat || (0 <? length newOptional)%nat)
  then Some ErrDevicePathsCannotBeAddedInUpdate
  else if (0 <? length oldDevices + length oldOptional)%nat && (length newDevices + length newOptional =? 0)%nat
  then Some (EFmt ("cannot remove all device paths from device class " +:+ dc_Name dc +:+ ": at least one device path must remain") [])
  else None.

(** The per-class loop of ValidateUpdate. *)
Fixpoint updateClasses (dcs old : list DeviceClass) (warnings : list string) : list string * option error :=
  match dcs with
  | [] => (warnings, None)
  | dc :: dcs =>
      let '(dc, old, warnings, err) := updateThinPool old dc warnings in
      match err ;? updateRAID old dc ;? updateNodeSelector old dc ;? updatePaths old dc with
      | Some err => (warnings, Some err)
      | None => updateClasses dcs old warnings
      end
  end.

(** * Handlers *)

(** A check that yields warnings and an error, run with the warnings so far. *)
Definition with_warnings (warnings : list string) (check : list string * option error)
    (k : list string -> list string * option error) : list string * option error :=
  let '(ws, err) := check in
  match err with
  | Some err => (warnings ++ ws, Some err)
  | None => k (warnings ++ ws)
  end.

(** A check that yields an error only. *)
Definition or_fail (warnings : list string) (check : option error) (k : list string * option error)
    : list string * option error :=
  match check with
  | Some err => (warnings, Some err)
  | None => k
  end.

Definition ValidateUpdate (oldLVMCluster l : LVMCluster) : list string * option error :=
  with_warnings [] (verifyDeviceClass l) (fun warnings =>
  or_fail warnings (verifyRAIDConfig l) (
  with_warnings warnings (verifyPathsAreNotEmpty l) (fun warnings =>
  or_fail warnings (verifyAbsolutePath l) (
  or_fail warnings (verifyNoDeviceOverlap l) (
  or_fail warnings (verifyFstype l) (
  with_warnings warnings (validateAdditionalParamsAndLabels l) (fun warnings =>
  or_fail warnings (wrapf "storageClassOptions upgrade validation failed" <$>
                    validateStorageClassOptionsUpgrade (deviceClasses oldLVMCluster) (deviceClasses l)) (
  or_fail warnings (wrapf "device class removal validation failed" <$>
                    validateDeviceClassRemoval (deviceClasses oldLVMCluster) (deviceClasses l)) (
  updateClasses (deviceClasses l) (deviceClasses oldLVMCluster) warnings))))))))).

(** What ValidateCreate asks of its environment: the operator namespace from the
    NAMESPACE variable, and the API server for existing clusters. *)
Inductive webhookE : Type -> Type :=
| LookupEnv (name : string) : webhookE (option string)
| ListLVMClusters (limit : Z) (namespace : string) : webhookE (result error (list LVMCluster)).

(** internal/cluster/namespace.go *)
Definition OperatorNamespaceEnvVar := "NAMESPACE".
Definition GetOperatorNamespace : prog webhookE (result error string) :=
  ns <- call (LookupEnv OperatorNamespaceEnvVar);;
  match ns with
  | None => Ret (Err (EFmt (OperatorNamespaceEnvVar +:+ " not found") []))
  | Some ns => Ret (Ok ns)
  end.

(** The pure tail of ValidateCreate, after namespace and uniqueness. *)
Definition ValidateCreate_checks (l : LVMCluster) : list string * option error :=
  with_warnings [] (verifyDeviceClass l) (fun warnings =>
  or_fail warnings (verifyRAIDConfig l) (
  with_warnings warnings (verifyPathsAreNotEmpty l) (fun warnings =>
  or_fail warnings (verifyAbsolutePath l) (
  or_fail warnings (verifyNoDeviceOverlap l) (
  or_fail warnings (verifyFstype l) (
  or_fail warnings (verifyChunkSize l) (
  let '(l, metadataWarnings, err) := verifyMetadataSize l in
  or_fail warnings err (
  let warnings := warnings ++ metadataWarnings in
  let warnings := warnings ++ verifyDeviceDiscoveryPolicy l in
  with_warnings warnings (validateAdditionalParamsAndLabels l) (fun warnings => (warnings, None)))))))))).

Definition ValidateCreate (l : LVMCluster) : prog webhookE (list string * option error) :=
  try namespace := GetOperatorNamespace catch err =>
    Ret ([], Some (wrapf "could not verify namespace of lvmcluster" err)) in
  if negb (String.eqb namespace (om_Namespace (lc_meta l))) then
    Ret ([], Some (wrapf ("creating LVMCluster is only supported within namespace " +:+ quote namespace) ErrInvalidNamespace))
  else
  try existing := call (ListLVMClusters 1 (om_Namespace (lc_meta l))) catch err =>
    Ret ([], Some (EFmt ("could not verify that LVMCluster was not already created " +:+ Error err) [err])) in
  match existing with
  | first :: _ =>
      Ret ([], Some (wrapf ("LVMCluster exists at " +:+
                            quote (om_Namespace (lc_meta first) +:+ "/" +:+ om_Name (lc_meta first))) ErrDuplicateLVMCluster))
  | [] => Ret (ValidateCreate_checks l)
  end.

Definition ValidateDelete (l : LVMCluster) : list string * option error := ([], None).
End Webhook.
