(* ===== verification/WebhookFacts.v ===== *)
(** Correctness of the admission webhook: what each check accepts, what an
    accepted create guarantees, what an accepted update keeps unchanged. *)

From S2P Require Import Prelude GoStd Effects Api K8sDemo Webhook.

(** * Specifications *)

Section Specs.
Context `{K : K8s}.

(** The paths of a device class tagged with the node selector they apply to. *)
Definition class_devices (dc : DeviceClass) : list (string * DevicePath) :=
  match dc_DeviceSelector dc with
  | Some sel => pair (selector_string dc) <$> (ds_Paths sel ++ ds_OptionalPaths sel)
  | None => []
  end.

(** What a RAID device class must satisfy, over mathematical integers. *)
Definition raid_admissible (dc : DeviceClass) (rc : RAIDConfig) : Prop :=
  dc_ThinPoolConfig dc = None /\
  (rc_Mirrors rc <> None -> rc_Type rc = RAIDTypeRAID1 \/ rc_Type rc = RAIDTypeRAID10) /\
  (rc_Type rc = RAIDTypeRAID1 -> rc_Stripes rc = None /\ rc_StripeSize rc = None) /\
  (forall q, rc_StripeSize rc = Some q -> exists n, (0 <= n)%Z /\ q_Value q = (2 ^ n)%Z) /\
  exists sel, dc_DeviceSelector dc = Some sel /\
    let total := Z.of_nat (length (ds_Paths sel ++ ds_OptionalPaths sel)) in
    (0 < total)%Z /\
    (min_devices_spec (rc_Type rc) (EffectiveMirrors rc) (rc_Stripes rc) <= total)%Z /\
    (rc_Type rc = RAIDTypeRAID10 -> ds_OptionalPaths sel = [] -> (EffectiveMirrors rc + 1 | total)%Z).

(** The CRD schema bounds, and numbers that fit the 64-bit integers they are computed in. *)
Definition raid_in_bounds (rc : RAIDConfig) : Prop :=
  raid_schema rc /\ in_int64 (EffectiveMirrors rc + 1) /\
  in_int64 (min_devices_spec (rc_Type rc) (EffectiveMirrors rc) (rc_Stripes rc)) /\
  (forall q, rc_StripeSize rc = Some q -> in_int64 (q_Value q)).

(** Thin pool sizes within the limits of lvm2 as the API documents them. *)
Definition chunk_size_ok `{!QuantityLaws K} (tp : ThinPoolConfig) : Prop :=
  (tp_ChunkSizeCalculationPolicy tp = ChunkSizeCalculationPolicyHost -> tp_ChunkSize tp = None) /\
  forall q, tp_ChunkSize tp = Some q -> (64 * 1024 * 1000 <= milli q <= 1024 ^ 3 * 1000)%Z.

Definition metadata_size_ok `{!QuantityLaws K} (tp : ThinPoolConfig) : Prop :=
  (tp_MetadataSizeCalculationPolicy tp = MetadataSizePolicyHost -> tp_MetadataSize tp = None) /\
  forall q, tp_MetadataSize tp = Some q -> (2 * 1024 ^ 2 * 1000 <= milli q <= 16 * 1024 ^ 3 * 1000)%Z.

Definition selectors_ok (dcs : list DeviceClass) : Prop :=
  Forall (fun dc => match dc_DeviceSelector dc with
                    | Some sel => ds_Paths sel ++ ds_OptionalPaths sel <> []
                    | None => (length dcs <= 1)%nat
                    end) dcs.

Definition params_ok (opts : StorageClassOptions) : Prop :=
  (forall k, is_Some (sco_AdditionalParameters opts !! k) -> k <> "" /\ k ∉ lvmsOwnedParameterKeys) /\
  (forall k v, sco_AdditionalLabels opts !! k = Some v ->
     IsQualifiedName k = [] /\ IsValidLabelValue v = [] /\
     (k ∉ ReservedStorageClassLabelKeys) /\ (~ exists t, k = OwnedByPrefix +:+ t)).

(** The number of default device classes. *)
Definition default_count (dcs : list DeviceClass) : nat := length (filter (fun dc => dc_Default dc = true) dcs).

(** A cluster every part of the operator can rely on. *)
Definition well_formed `{!QuantityLaws K} (l : LVMCluster) : Prop :=
  (default_count (deviceClasses l) <= 1)%nat /\
  selectors_ok (deviceClasses l) /\
  Forall (fun dc => forall p, p ∈ (class_devices dc).*2 -> exists t, p = "/dev/" +:+ t) (deviceClasses l) /\
  NoDup (flat_map class_devices (deviceClasses l)) /\
  Forall (fun dc => dc_FilesystemType dc = FilesystemTypeExt4 \/ dc_FilesystemType dc = FilesystemTypeXFS) (deviceClasses l) /\
  Forall (fun dc => forall tp, dc_ThinPoolConfig dc = Some tp -> chunk_size_ok tp /\ metadata_size_ok tp) (deviceClasses l) /\
  Forall (fun dc => forall opts, dc_StorageClassOptions dc = Some opts -> params_ok opts) (deviceClasses l).

(** What an update may not change in a device class that already existed. *)
Definition thin_pool_kept (o n : option ThinPoolConfig) : Prop :=
  match o, n with
  | None, None => True
  | Some o, Some n =>
      tp_Name n = tp_Name o /\ tp_SizePercent n = tp_SizePercent o /\
      tp_ChunkSizeCalculationPolicy n = tp_ChunkSizeCalculationPolicy o /\ tp_ChunkSize n = tp_ChunkSize o /\
      (tp_MetadataSizeCalculationPolicy o = MetadataSizePolicyStatic ->
       tp_MetadataSizeCalculationPolicy n = MetadataSizePolicyStatic ->
       (q_Value (default ThinPoolMetadataSizeDefault (tp_MetadataSize o)) <=
        q_Value (default ThinPoolMetadataSizeDefault (tp_MetadataSize n)))%Z)
  | _, _ => False
  end.

Definition force_wipe (dc : DeviceClass) : option bool :=
  dc_DeviceSelector dc ≫= ds_ForceWipeDevicesAndDestroyAllData.

Definition immutable_part_kept (o n : DeviceClass) : Prop :=
  thin_pool_kept (dc_ThinPoolConfig o) (dc_ThinPoolConfig n) /\
  dc_RAIDConfig n = dc_RAIDConfig o /\
  dc_NodeSelector n = dc_NodeSelector o /\
  force_wipe n = force_wipe o /\
  (HasExplicitPaths n = HasExplicitPaths o).
End Specs.

(** * Device overlap *)

Section Overlap.
Context `{K : K8s}.

Lemma lookup_record (d : device_map) s p n s' p' :
  lookup_device (record_device d s p n) s' p' =
  if decide (s = s' /\ p = p') then Some n else lookup_device d s' p'.
Proof.
  unfold lookup_device, record_device. rewrite lookup_insert.
  case_decide as Hs; [subst; simpl; rewrite lookup_insert|]; repeat case_decide; try naive_solver.
  destruct (d !! s') as [m|] eqn:E; simpl; [done|by rewrite lookup_empty].
Qed.

Definition recorded (d : device_map) (sp : string * string) : Prop := is_Some (lookup_device d sp.1 sp.2).

Lemma recorded_record d s p n sp : recorded (record_device d s p n) sp <-> sp = (s, p) \/ recorded d sp.
Proof.
  destruct sp as [s' p']. unfold recorded; simpl. rewrite lookup_record.
  case_decide as H; [destruct H; subst; naive_solver|]. naive_solver.
Qed.

(** A pass of addPaths succeeds exactly on fresh, distinct paths, and records them. *)
Lemma addPaths_ok kind s n ps d :
  (exists d', addPaths kind s n ps d = Ok d') <->
  NoDup (pair s <$> ps) /\ (forall sp, sp ∈ pair s <$> ps -> ~ recorded d sp).
Proof.
  revert d. induction ps as [|p ps IH]; intros d; simpl.
  - split; [intros _; split; [constructor|set_solver]|eauto].
  - rewrite NoDup_cons. destruct (lookup_device d s p) as [v|] eqn:E.
    + split.
      * intros [d' H]. by destruct (negb _).
      * intros [_ H]. exfalso. apply (H (s, p)); [apply list_elem_of_here|]. by exists v.
    + rewrite IH. setoid_rewrite recorded_record. setoid_rewrite elem_of_cons.
      assert (~ recorded d (s, p)) by (unfold recorded; simpl; rewrite E; by intros [? [=]]).
      naive_solver.
Qed.

Lemma addPaths_recorded kind s n ps d d' :
  addPaths kind s n ps d = Ok d' -> forall sp, recorded d' sp <-> sp ∈ pair s <$> ps \/ recorded d sp.
Proof.
  revert d. induction ps as [|p ps IH]; intros d; simpl.
  - intros [= <-] sp. set_solver.
  - destruct (lookup_device d s p) as [v|]; [by destruct (negb _)|].
    intros H sp. rewrite (IH _ H), recorded_record, elem_of_cons. naive_solver.
Qed.

Lemma result_bind_Ok {E A B} (r : result E A) (f : A -> result E B) b :
  result_bind r f = Ok b <-> exists a, r = Ok a /\ f a = Ok b.
Proof. destruct r; simpl; naive_solver. Qed.

Lemma overlap_loop_ok dcs d :
  (exists d', verifyNoDeviceOverlap_loop dcs d = Ok d') <->
  NoDup (flat_map class_devices dcs) /\ (forall sp, sp ∈ flat_map class_devices dcs -> ~ recorded d sp).
Proof.
  revert d. induction dcs as [|dc dcs IH]; intros d; simpl.
  - split; [intros _; split; [constructor|set_solver]|eauto].
  - unfold class_devices at 1 3. destruct (dc_DeviceSelector dc) as [sel|]; simpl; [|apply IH].
    rewrite fmap_app, <- app_assoc, !NoDup_app. setoid_rewrite elem_of_app. setoid_rewrite elem_of_app.
    split.
    + intros [d3 H]. apply result_bind_Ok in H as (d1 & H1 & H).
      apply result_bind_Ok in H as (d2 & H2 & H3).
      pose proof (proj1 (addPaths_ok _ _ _ _ _) (ex_intro _ _ H1)) as [N1 F1].
      pose proof (proj1 (addPaths_ok _ _ _ _ _) (ex_intro _ _ H2)) as [N2 F2].
      pose proof (proj1 (IH _) (ex_intro _ _ H3)) as [N3 F3].
      setoid_rewrite (addPaths_recorded _ _ _ _ _ _ H2) in F3.
      setoid_rewrite (addPaths_recorded _ _ _ _ _ _ H1) in F3.
      setoid_rewrite (addPaths_recorded _ _ _ _ _ _ H1) in F2.
      naive_solver.
    + intros [(N1 & D1 & N2 & D2 & N3) F].
      destruct (proj2 (addPaths_ok "device path" (selector_string dc) (dc_Name dc) (ds_Paths sel) d)) as [d1 H1]; [naive_solver|].
      destruct (proj2 (addPaths_ok "optional device path" (selector_string dc) (dc_Name dc) (ds_OptionalPaths sel) d1)) as [d2 H2].
      { setoid_rewrite (addPaths_recorded _ _ _ _ _ _ H1). naive_solver. }
      destruct (proj2 (IH d2)) as [d3 H3].
      { setoid_rewrite (addPaths_recorded _ _ _ _ _ _ H2). setoid_rewrite (addPaths_recorded _ _ _ _ _ _ H1).
        naive_solver. }
      exists d3. rewrite H1. simpl. by rewrite H2.
Qed.

Lemma no_overlap_None l :
  verifyNoDeviceOverlap l = None <-> NoDup (flat_map class_devices (deviceClasses l)).
Proof.
  unfold verifyNoDeviceOverlap. pose proof (overlap_loop_ok (deviceClasses l) ∅) as H.
  destruct (verifyNoDeviceOverlap_loop _ _) as [d'|e]; split; try done; intros HN.
  - by destruct (proj1 H ltac:(eauto)).
  - destruct (proj2 H) as [? [=]]. split; [done|]. intros [s p] _ [v Hv]. by destruct s.
Qed.
End Overlap.

(** * What the individual checks accept *)

Section Checks.
Context `{G : GoRuntime} `{K : K8s}.

Lemma verifyDeviceClass_loop_count dcs c ws :
  exists ws', verifyDeviceClass_loop dcs c ws = Ok ((c + Z.of_nat (default_count dcs))%Z, ws').
Proof.
  revert c ws. induction dcs as [|dc dcs IH]; intros c ws; simpl.
  - exists ws. do 2 f_equal. unfold default_count. simpl. lia.
  - assert (Hc : default_count (dc :: dcs) = (Nat.b2n (dc_Default dc) + default_count dcs)%nat).
    { unfold default_count. rewrite filter_cons. destruct (dc_Default dc); simpl; done. }
    destruct (dc_ThinPoolConfig dc) as [tp|].
    + unfold verifyThinPoolConfig. destruct (tp_SizePercent tp <=? _)%Z;
      edestruct IH as [ws' ->]; exists ws'; do 2 f_equal; rewrite Hc; destruct (dc_Default dc); simpl; lia.
    + edestruct IH as [ws' ->]; exists ws'; do 2 f_equal; rewrite Hc; destruct (dc_Default dc); simpl; lia.
Qed.

Lemma verifyDeviceClass_None l :
  (verifyDeviceClass l).2 = None <-> (default_count (deviceClasses l) <= 1)%nat.
Proof.
  unfold verifyDeviceClass. destruct (verifyDeviceClass_loop_count (deviceClasses l) 0 []) as [ws' ->].
  destruct (Z.gtb_spec (0 + Z.of_nat (default_count (deviceClasses l))) 1).
  - simpl. split; [done|lia].
  - destruct (_ =? 0)%Z; simpl; split; (done || lia).
Qed.

Lemma classesWithoutPaths_spec dcs acc :
  match classesWithoutPaths dcs acc with
  | Ok r => Forall (fun dc => match dc_DeviceSelector dc with
                              | Some sel => ds_Paths sel ++ ds_OptionalPaths sel <> []
                              | None => True end) dcs /\
            r = acc ++ (dc_Name <$> filter (fun dc => dc_DeviceSelector dc = None) dcs)
  | Err _ => ~ Forall (fun dc => match dc_DeviceSelector dc with
                                 | Some sel => ds_Paths sel ++ ds_OptionalPaths sel <> []
                                 | None => True end) dcs
  end.
Proof.
  revert acc. induction dcs as [|dc dcs IH]; intros acc; simpl.
  - by rewrite app_nil_r.
  - rewrite filter_cons. destruct (dc_DeviceSelector dc) as [sel|] eqn:E; simpl.
    + destruct (ds_Paths sel) eqn:E1, (ds_OptionalPaths sel) eqn:E2; simpl;
        [rewrite Forall_cons, E, E1, E2; naive_solver|..];
        (specialize (IH acc); destruct (classesWithoutPaths dcs acc);
         rewrite Forall_cons, E, E1, E2; naive_solver).
    + specialize (IH (acc ++ [dc_Name dc])).
      destruct (classesWithoutPaths dcs _); rewrite Forall_cons, E; [|naive_solver].
      destruct IH as [? ->]. by rewrite <- app_assoc.
Qed.

Lemma verifyPathsAreNotEmpty_None l :
  (verifyPathsAreNotEmpty l).2 = None <-> selectors_ok (deviceClasses l).
Proof.
  unfold verifyPathsAreNotEmpty, selectors_ok. pose proof (classesWithoutPaths_spec (deviceClasses l) []) as H.
  destruct (classesWithoutPaths _ _) as [r|e].
  - destruct H as [Hsel ->]. rewrite app_nil_l, length_fmap.
    set (dcs := deviceClasses l) in *.
    destruct ((1 <? length dcs)%nat && (0 <? length (filter (fun dc => dc_DeviceSelector dc = None) dcs))%nat) eqn:E; simpl.
    + split; [done|]. intros Hok. exfalso. apply andb_true_iff in E as [E1%Nat.ltb_lt E2%Nat.ltb_lt].
      destruct (filter _ dcs) as [|dc rest] eqn:Ef; simpl in E2; [lia|].
      assert (Hin : dc ∈ filter (fun dc => dc_DeviceSelector dc = None) dcs) by (rewrite Ef; apply list_elem_of_here).
      apply list_elem_of_filter in Hin as [Hn Hin].
      rewrite Forall_forall in Hok. specialize (Hok dc Hin). rewrite Hn in Hok. lia.
    + split; [intros _|by destruct ((length dcs =? 1)%nat && _)].
      apply Forall_forall. intros dc Hin. rewrite Forall_forall in Hsel. specialize (Hsel dc Hin).
      destruct (dc_DeviceSelector dc) eqn:Hd; [done|].
      apply andb_false_iff in E as [E%Nat.ltb_ge|E%Nat.ltb_ge]; [done|].
      assert (Hf : dc ∈ filter (fun dc => dc_DeviceSelector dc = None) dcs) by (by apply list_elem_of_filter).
      destruct (filter _ dcs); [by apply elem_of_nil in Hf|simpl in E; lia].
  - simpl. split; [done|]. intros Hok. exfalso. apply H. eapply Forall_impl; [exact Hok|].
    intros dc. simpl. by destruct (dc_DeviceSelector dc).
Qed.

Lemma prefix_check_None (msg : string -> error) (ps : list DevicePath) :
  first_error (fun path => if negb (HasPrefix (Unresolved path) "/dev/") then Some (msg path) else None) ps = None <->
  (forall p, p ∈ ps -> exists t, p = "/dev/" +:+ t).
Proof.
  rewrite first_error_None, Forall_forall. unfold Unresolved.
  split; intros H p Hp; specialize (H p Hp).
  - apply HasPrefix_spec. by destruct (HasPrefix p "/dev/").
  - apply HasPrefix_spec in H. by rewrite H.
Qed.

Lemma verifyAbsolutePath_None l :
  verifyAbsolutePath l = None <->
  Forall (fun dc => forall p, p ∈ (class_devices dc).*2 -> exists t, p = "/dev/" +:+ t) (deviceClasses l).
Proof.
  unfold verifyAbsolutePath. rewrite first_error_None, !Forall_forall.
  apply forall_proper; intros dc. apply forall_proper; intros _.
  unfold class_devices. destruct (dc_DeviceSelector dc) as [sel|]; [|set_solver].
  rewrite orElse_None.
  rewrite (prefix_check_None (fun path => EFmt ("path " +:+ Unresolved path +:+ " must be an absolute path to the device") [])).
  rewrite (prefix_check_None (fun path => EFmt ("optional path " +:+ Unresolved path +:+ " must be an absolute path to the device") [])).
  rewrite <- list_fmap_compose. setoid_rewrite list_elem_of_fmap. simpl. setoid_rewrite elem_of_app. naive_solver.
Qed.

Lemma verifyFstype_None l :
  verifyFstype l = None <->
  Forall (fun dc => dc_FilesystemType dc = FilesystemTypeExt4 \/ dc_FilesystemType dc = FilesystemTypeXFS) (deviceClasses l).
Proof.
  unfold verifyFstype. rewrite first_error_None, !Forall_forall.
  apply forall_proper; intros dc. apply forall_proper; intros _.
  by destruct (dc_FilesystemType dc); simpl; naive_solver.
Qed.

Lemma first_error_range_None {A} (f : string * A -> option error) (m : gmap string A) :
  first_error f (map_range (map_to_list m)) = None <-> (forall k v, m !! k = Some v -> f (k, v) = None).
Proof.
  rewrite first_error_None, Forall_forall. setoid_rewrite map_range_elem. split.
  - intros H k v Hk. apply H. by apply elem_of_map_to_list.
  - intros H [k v] Hk. apply H. by apply elem_of_map_to_list.
Qed.

Lemma params_None l :
  (validateAdditionalParamsAndLabels l).2 = None <->
  Forall (fun dc => forall opts, dc_StorageClassOptions dc = Some opts -> params_ok opts) (deviceClasses l).
Proof.
  simpl. rewrite first_error_None, !Forall_forall. apply forall_proper; intros dc. apply forall_proper; intros _.
  destruct (dc_StorageClassOptions dc) as [opts|]; [|naive_solver].
  rewrite orElse_None. unfold checkParameters, checkLabels. rewrite !first_error_range_None.
  unfold params_ok. split.
  - intros [Hp Hl] ? [= <-]. split.
    + intros k [v Hv]. specialize (Hp k v Hv). simpl in Hp.
      destruct (String.eqb k "") eqn:E1; [done|]. destruct (contains_str _ k) eqn:E2; [done|]. bools.
      by apply contains_str_false in E2.
    + intros k v Hv. specialize (Hl k v Hv). simpl in Hl.
      destruct (IsQualifiedName k); [|done]. destruct (IsValidLabelValue v); [|done]. simpl in Hl.
      destruct (contains_str _ k) eqn:E2; [done|]. destruct (HasPrefix k OwnedByPrefix) eqn:E3; [done|].
      apply contains_str_false in E2. repeat split; try done. rewrite <- HasPrefix_spec. by rewrite E3.
  - intros H. destruct (H opts eq_refl) as [Hp Hl]. split; intros k v Hv.
    + destruct (Hp k ltac:(eauto)) as [H1%String.eqb_neq H2%contains_str_false]. by rewrite H1, H2.
    + destruct (Hl k v Hv) as (-> & -> & H3%contains_str_false & H4). simpl. rewrite H3.
      rewrite <- HasPrefix_spec in H4. by destruct (HasPrefix k OwnedByPrefix).
Qed.
End Checks.

(** * Thin pool sizes *)

Section Sizes.
Context `{G : GoRuntime} `{K : K8s} `{QL : !QuantityLaws K}.

Lemma Cmp_min a b : (q_Cmp a b <? 0)%Z = false <-> (milli b <= milli a)%Z.
Proof. rewrite Z.ltb_ge. pose proof (q_Cmp_lt a b). lia. Qed.

Lemma Cmp_max a b : (q_Cmp a b >? 0)%Z = false <-> (milli a <= milli b)%Z.
Proof. rewrite Z.gtb_ltb, Z.ltb_ge. pose proof (q_Cmp_gt a b). lia. Qed.

Lemma milli_chunk_min : milli ChunkSizeMinimum = (64 * 1024 * 1000)%Z.
Proof. unfold ChunkSizeMinimum. exact (q_MustParse_Ki "64" ltac:(by left)). Qed.
Lemma milli_chunk_max : milli ChunkSizeMaximum = (1024 ^ 3 * 1000)%Z.
Proof. unfold ChunkSizeMaximum. exact (q_MustParse_Gi "1" ltac:(by left)). Qed.
Lemma milli_metadata_min : milli ThinPoolMetadataSizeMinimum = (2 * 1024 ^ 2 * 1000)%Z.
Proof. exact q_MustParse_Mi. Qed.
Lemma milli_metadata_max : milli ThinPoolMetadataSizeMaximum = (16 * 1024 ^ 3 * 1000)%Z.
Proof. unfold ThinPoolMetadataSizeMaximum. exact (q_MustParse_Gi "16" ltac:(by right; left)). Qed.

Lemma verifyChunkSize_None l :
  verifyChunkSize l = None <->
  Forall (fun dc => forall tp, dc_ThinPoolConfig dc = Some tp -> chunk_size_ok tp) (deviceClasses l).
Proof.
  unfold verifyChunkSize. rewrite first_error_None, !Forall_forall.
  apply forall_proper; intros dc. apply forall_proper; intros _.
  destruct (dc_ThinPoolConfig dc) as [tp|]; [|naive_solver].
  unfold chunk_size_ok. rewrite <- milli_chunk_min, <- milli_chunk_max.
  destruct (tp_ChunkSize tp) as [size|] eqn:Ec.
  2: { rewrite (bool_decide_eq_false_2 (None <> None)), andb_false_r by tauto.
       split; [intros _ ? [= <-]; by rewrite Ec|done]. }
  rewrite (bool_decide_eq_true_2 (Some size <> None)), andb_true_r by done.
  case_bool_decide as Hh.
  { split; [done|]. intros H. destruct (H tp eq_refl) as [H1 _]. specialize (H1 Hh). congruence. }
  destruct (q_Cmp size ChunkSizeMinimum <? 0)%Z eqn:E1.
  { split; [done|]. intros H. destruct (H tp eq_refl) as [_ H2]. specialize (H2 size Ec).
    destruct H2 as [H2 _]. rewrite <- Cmp_min in H2. congruence. }
  destruct (q_Cmp size ChunkSizeMaximum >? 0)%Z eqn:E2.
  { split; [done|]. intros H. destruct (H tp eq_refl) as [_ H2]. specialize (H2 size Ec).
    destruct H2 as [_ H2]. rewrite <- Cmp_max in H2. congruence. }
  split; [|done]. intros _ ? [= <-]. split; [done|]. rewrite Ec. intros q [= <-].
  by rewrite <- Cmp_min, <- Cmp_max.
Qed.

Lemma verifyMetadataSize_loop_None dcs ws dcs' ws' :
  verifyMetadataSize_loop dcs ws = (dcs', ws', None) ->
  Forall (fun dc => forall tp, dc_ThinPoolConfig dc = Some tp -> metadata_size_ok tp) dcs.
Proof.
  revert ws dcs' ws'. induction dcs as [|dc dcs IH]; intros ws dcs' ws'; simpl; [constructor|].
  destruct (dc_ThinPoolConfig dc) as [tp|] eqn:Ed.
  2: { destruct (verifyMetadataSize_loop dcs ws) as [[d w] e] eqn:El. intros [= <- <- ->].
       constructor; [congruence|eauto]. }
  destruct (bool_decide (tp_MetadataSizeCalculationPolicy tp = MetadataSizePolicyHost) && _) eqn:Eh; [done|].
  set (unset := bool_decide _ && _). set (tp' := if unset then _ else tp). set (dc' := if unset then _ else dc).
  set (ws1 := if unset then _ else ws).
  assert (Hcont : forall r, (let '(d, w, e) := verifyMetadataSize_loop dcs ws1 in (dc' :: d, w, e)) = (r, ws', None) ->
    Forall (fun dc => forall tp, dc_ThinPoolConfig dc = Some tp -> metadata_size_ok tp) dcs).
  { intros r. destruct (verifyMetadataSize_loop dcs ws1) as [[d w] e] eqn:El. intros [= _ <- ->]. eauto. }
  assert (Hhost : tp_MetadataSizeCalculationPolicy tp = MetadataSizePolicyHost -> tp_MetadataSize tp = None).
  { intros Hp. destruct (tp_MetadataSize tp) eqn:E; [|done]. exfalso.
    rewrite !bool_decide_eq_true_2 in Eh by done. done. }
  assert (Hsame : forall q, tp_MetadataSize tp = Some q -> tp_MetadataSize tp' = Some q).
  { intros q Hq. subst tp' unset. by rewrite Hq, andb_false_r. }
  destruct (tp_MetadataSize tp') as [size|] eqn:Es.
  - destruct (q_Cmp size ThinPoolMetadataSizeMinimum <? 0)%Z eqn:E1; [done|].
    destruct (q_Cmp size ThinPoolMetadataSizeMaximum >? 0)%Z eqn:E2; [done|].
    intros H. constructor; [|by eapply Hcont].
    rewrite Ed. intros ? [= <-]. split; [done|]. intros q Hq.
    specialize (Hsame q Hq). injection Hsame as ->.
    rewrite <- milli_metadata_min, <- milli_metadata_max. by rewrite <- Cmp_min, <- Cmp_max.
  - intros H. constructor; [|by eapply Hcont].
    rewrite Ed. intros ? [= <-]. split; [done|]. intros q Hq. by specialize (Hsame q Hq).
Qed.
End Sizes.

(** * RAID rules *)

(** The bit trick [b & (b-1) == 0] recognises the powers of two. *)
Lemma land_pred_power_of_two b :
  (0 < b)%Z -> Z.land b (b - 1) = 0%Z <-> exists n, (0 <= n)%Z /\ b = (2 ^ n)%Z.
Proof.
  intros Hb. split.
  - intros H. exists (Z.log2 b). split; [apply Z.log2_nonneg|].
    destruct (Z.log2_spec b Hb) as [Hlo Hhi].
    destruct (Z.eq_dec b (2 ^ Z.log2 b)) as [|Hne]; [done|exfalso].
    assert (Hp : Z.log2 (b - 1) = Z.log2 b).
    { apply Z.log2_unique; [apply Z.log2_nonneg|]. lia. }
    assert (Hbit : Z.testbit (Z.land b (b - 1)) (Z.log2 b) = true).
    { rewrite Z.land_spec, Z.bit_log2 by lia. rewrite <- Hp. apply Z.bit_log2.
      assert (b <> 1)%Z; [|lia]. intros ->. simpl in Hne. lia. }
    rewrite H in Hbit. by rewrite Z.bits_0 in Hbit.
  - intros (n & Hn & ->).
    replace (2 ^ n - 1)%Z with (Z.ones n) by (rewrite Z.ones_equiv; lia).
    rewrite Z.land_ones by done. apply Z.mod_same. lia.
Qed.

Section Raid.
Context `{K : K8s}.

Lemma stripe_size_test b :
  in_int64 b ->
  (b <=? 0)%Z || negb (Z.land b (wrap64 (b - 1)) =? 0)%Z = false <-> exists n, (0 <= n)%Z /\ b = (2 ^ n)%Z.
Proof.
  intros Hi. rewrite orb_false_iff, Z.leb_gt, negb_false_iff, Z.eqb_eq. split.
  - intros [Hpos Hl]. apply (land_pred_power_of_two b Hpos). rewrite <- Hl. f_equal. symmetry. apply wrap64_id.
    unfold in_int64, min_int64, max_int64 in *. lia.
  - intros (n & Hn & ->). assert (0 < 2 ^ n)%Z by (apply Z.pow_pos_nonneg; lia). split; [done|].
    rewrite wrap64_id by (unfold in_int64, min_int64, max_int64 in *; lia).
    apply land_pred_power_of_two; eauto.
Qed.

Lemma selector_has_paths_spec o :
  selector_has_paths o = true <-> exists sel, o = Some sel /\ (0 < Z.of_nat (length (ds_Paths sel ++ ds_OptionalPaths sel)))%Z.
Proof.
  destruct o as [sel|]; simpl; [|naive_solver].
  rewrite orb_true_iff, !Nat.ltb_lt. setoid_rewrite length_app. split.
  - intros H. exists sel. split; [done|lia].
  - intros (? & [= <-] & H). lia.
Qed.

Lemma effective_mirrors_pos rc : raid_schema rc -> (1 <= EffectiveMirrors rc)%Z.
Proof. intros [Hm _]. unfold EffectiveMirrors. destruct (rc_Mirrors rc); [by apply Hm|lia]. Qed.

Lemma min_devices_exact rc :
  raid_in_bounds rc ->
  MinDeviceCount (rc_Type rc) (EffectiveMirrors rc) (rc_Stripes rc) =
  min_devices_spec (rc_Type rc) (EffectiveMirrors rc) (rc_Stripes rc).
Proof.
  intros (Hsch & Hm & Hs & _). pose proof (effective_mirrors_pos rc Hsch).
  apply MinDeviceCount_exact; [lia|done].
Qed.

Lemma verifyRAIDConfig_class_None dc rc :
  dc_RAIDConfig dc = Some rc -> raid_in_bounds rc ->
  verifyRAIDConfig_class dc = None <-> raid_admissible dc rc.
Proof.
  intros Hrc Hb. unfold verifyRAIDConfig_class, raid_admissible. rewrite Hrc, (min_devices_exact rc Hb).
  destruct Hb as (Hsch & Hm & Hs & Hq). pose proof (effective_mirrors_pos rc Hsch) as Hpos.
  case_bool_decide as H1; [naive_solver|].
  destruct (bool_decide (rc_Mirrors rc <> None) && _ && _) eqn:H2.
  { bools. naive_solver. }
  assert (H2' : rc_Mirrors rc <> None -> rc_Type rc = RAIDTypeRAID1 \/ rc_Type rc = RAIDTypeRAID10).
  { intros Hn. destruct (decide (rc_Type rc = RAIDTypeRAID1)); [by left|].
    destruct (decide (rc_Type rc = RAIDTypeRAID10)); [by right|]. by rewrite !bool_decide_eq_true_2 in H2. }
  destruct (bool_decide (rc_Stripes rc <> None) && _) eqn:H3.
  { bools. naive_solver. }
  destruct (bool_decide (rc_StripeSize rc <> None) && _) eqn:H4.
  { bools. naive_solver. }
  assert (H34 : rc_Type rc = RAIDTypeRAID1 -> rc_Stripes rc = None /\ rc_StripeSize rc = None).
  { intros Ht. rewrite (bool_decide_eq_true_2 _ Ht), andb_true_r in H3, H4. bools.
    by split; apply dec_stable. }
  match goal with |- context [if ?c then Some (wrapf _ ErrRAIDStripeSizeNotPowerOf2) else _] => destruct c eqn:H5 end.
  { split; [done|]. intros (_ & _ & _ & Hp & _). destruct (rc_StripeSize rc) as [q|]; [|done].
    apply (stripe_size_test (q_Value q)) in Hp; [congruence|eauto|eauto]. }
  assert (H5' : forall q, rc_StripeSize rc = Some q -> exists n, (0 <= n)%Z /\ q_Value q = (2 ^ n)%Z).
  { intros q Hsz. rewrite Hsz in H5. apply stripe_size_test; [by apply Hq|done]. }
  destruct (selector_has_paths (dc_DeviceSelector dc)) eqn:H6; simpl.
  2: { split; [done|]. intros (_ & _ & _ & _ & sel & Hsel & Ht & _). exfalso.
       assert (selector_has_paths (dc_DeviceSelector dc) = true); [|congruence].
       apply selector_has_paths_spec. eauto. }
  apply selector_has_paths_spec in H6 as (sel & Hsel & Htot). rewrite Hsel. rewrite <- length_app.
  set (total := Z.of_nat (length (ds_Paths sel ++ ds_OptionalPaths sel))) in *.
  destruct (Z.ltb_spec total (min_devices_spec (rc_Type rc) (EffectiveMirrors rc) (rc_Stripes rc))) as [H7|H7].
  { split; [done|]. intros (_ & _ & _ & _ & sel' & [= <-] & _ & Hmin & _). fold total in Hmin. lia. }
  rewrite wrap64_id by done.
  unfold int_rem. destruct (Z.eqb_spec (EffectiveMirrors rc + 1) 0) as [|_]; [lia|].
  assert (Hdiv : negb (Z.rem total (EffectiveMirrors rc + 1) =? 0)%Z = false <-> (EffectiveMirrors rc + 1 | total)%Z).
  { rewrite negb_false_iff, Z.eqb_eq, Z.rem_mod_nonneg by lia. apply Z.mod_divide. lia. }
  destruct (bool_decide (rc_Type rc = RAIDTypeRAID10) && (length (ds_OptionalPaths sel) =? 0)%nat) eqn:H8.
  - bools. match goal with H : (length _ =? 0)%nat = true |- _ => apply Nat.eqb_eq, nil_length_inv in H end.
    destruct (negb _); split; try done.
    + intros (_ & _ & _ & _ & sel' & [= <-] & _ & _ & Hd). exfalso. assert (true = false); [apply Hdiv; by apply Hd|done].
    + intros _. split_and!; try done. exists sel. split_and!; try done. intros _ _. by apply Hdiv.
  - split; [intros _|done]. split_and!; try done. exists sel. split_and!; try done.
    intros Ht Ho. rewrite Ho in H8. by rewrite (bool_decide_eq_true_2 _ Ht) in H8.
Qed.
End Raid.

(** * Updates *)

Section Update.
Context `{G : GoRuntime} `{K : K8s}.

(** The old classes may be written to while an update is validated: an unset
    metadata size may become the default one, nothing else changes. *)
Definition metadata_defaulted (o o' : DeviceClass) : Prop :=
  o' = o \/ exists tp, dc_ThinPoolConfig o = Some tp /\ tp_MetadataSize tp = None /\
                       o' = set_thin_pool (set_metadata_size ThinPoolMetadataSizeDefault tp) o.

Lemma metadata_defaulted_refl o : metadata_defaulted o o.
Proof. by left. Qed.

Lemma metadata_defaulted_list_refl old : Forall2 metadata_defaulted old old.
Proof. induction old; constructor; auto using metadata_defaulted_refl. Qed.

Lemma metadata_defaulted_trans o1 o2 o3 :
  metadata_defaulted o1 o2 -> metadata_defaulted o2 o3 -> metadata_defaulted o1 o3.
Proof.
  intros [->|(tp & H1 & H2 & ->)] [->|(tp' & H1' & H2' & ->)]; [by left|right|right|]; eauto.
  simpl in H1'. injection H1' as <-. done.
Qed.

Lemma metadata_defaulted_name o o' : metadata_defaulted o o' -> dc_Name o' = dc_Name o.
Proof. by intros [->|(? & ? & ? & ->)]. Qed.

Lemma classNamed_related name old old' :
  Forall2 metadata_defaulted old old' ->
  match classNamed name old, classNamed name old' with
  | Some o, Some o' => metadata_defaulted o o'
  | None, None => True
  | _, _ => False
  end.
Proof.
  unfold classNamed. induction 1 as [|o o' old old' Ho Hold IH]; simpl; [done|].
  rewrite (metadata_defaulted_name _ _ Ho). by destruct (String.eqb (dc_Name o) name).
Qed.

Lemma set_old_metadata_related name old o tp :
  classNamed name old = Some o -> dc_ThinPoolConfig o = Some tp -> tp_MetadataSize tp = None ->
  Forall2 metadata_defaulted old (set_old_metadata name old).
Proof.
  unfold classNamed. induction old as [|d old IH]; simpl; [done|].
  destruct (String.eqb (dc_Name d) name).
  - intros [= ->] Htp Hm. rewrite Htp. constructor; [right; eauto|].
    apply metadata_defaulted_list_refl.
  - intros. constructor; [by left|eauto].
Qed.

(** A class found in the old cluster, as the getters report it. *)
Lemma thin_pool_kept_defaulted o o' n :
  metadata_defaulted o o' ->
  thin_pool_kept (dc_ThinPoolConfig o') n -> thin_pool_kept (dc_ThinPoolConfig o) n.
Proof.
  intros [->|(tp & H1 & H2 & ->)]; [done|]. rewrite H1. simpl. destruct n as [n|]; [|done].
  rewrite H2. simpl. done.
Qed.

Lemma updateThinPool_None old dc ws dc' old' ws' :
  updateThinPool old dc ws = (dc', old', ws', None) ->
  Forall2 metadata_defaulted old old' /\
  dc_Name dc' = dc_Name dc /\ dc_RAIDConfig dc' = dc_RAIDConfig dc /\
  dc_NodeSelector dc' = dc_NodeSelector dc /\ dc_DeviceSelector dc' = dc_DeviceSelector dc /\
  forall o, classNamed (dc_Name dc) old = Some o -> thin_pool_kept (dc_ThinPoolConfig o) (dc_ThinPoolConfig dc).
Proof.
  unfold updateThinPool, getThinPoolsConfigOfDeviceClass.
  pose proof (metadata_defaulted_list_refl old) as Hrefl.
  destruct (classNamed (dc_Name dc) old) as [o|] eqn:Ho.
  2: { destruct (dc_ThinPoolConfig dc); simpl; intros [= <- <- <-]; by split_and!. }
  destruct (dc_ThinPoolConfig o) as [tpo|] eqn:Etpo, (dc_ThinPoolConfig dc) as [tpn|] eqn:Etpn; simpl; try done.
  2: { intros [= <- <- <-]. split_and!; try done. intros ? [= <-]. by rewrite Etpo. }
  destruct (String.eqb (tp_Name tpn) (tp_Name tpo)) eqn:E1; simpl; [|done].
  destruct (tp_SizePercent tpn =? tp_SizePercent tpo)%Z eqn:E2; simpl; [|done].
  case_bool_decide as E3; [done|]. case_bool_decide as E4; [done|].
  bools. apply Z.eqb_eq in E2.
  assert (Hkept : (tp_MetadataSizeCalculationPolicy tpo = MetadataSizePolicyStatic ->
      tp_MetadataSizeCalculationPolicy tpn = MetadataSizePolicyStatic ->
      (q_Value (default ThinPoolMetadataSizeDefault (tp_MetadataSize tpo)) <=
       q_Value (default ThinPoolMetadataSizeDefault (tp_MetadataSize tpn)))%Z) ->
      forall o', Some o = Some o' -> thin_pool_kept (dc_ThinPoolConfig o') (Some tpn)).
  { intros H o' [= <-]. by rewrite Etpo. }
  case_bool_decide as E5; [case_bool_decide as E6; [destruct (Z.ltb_spec (q_Value (default ThinPoolMetadataSizeDefault (tp_MetadataSize tpn))) (q_Value (default ThinPoolMetadataSizeDefault (tp_MetadataSize tpo)))); [done|]|]|].
  all: intros [= <- <- <-]; split_and!; try done; try (by case_bool_decide); try (apply Hkept; done).
  repeat case_bool_decide; simpl; try done; by eapply set_old_metadata_related.
Qed.

Lemma updateRAID_None old dc o :
  updateRAID old dc = None -> classNamed (dc_Name dc) old = Some o -> dc_RAIDConfig dc = dc_RAIDConfig o.
Proof.
  unfold updateRAID, getRAIDConfigOfDeviceClass. intros H Ho. rewrite Ho in H.
  destruct (dc_RAIDConfig o) as [r|], (dc_RAIDConfig dc) as [n|]; simpl in *; try done.
  case_bool_decide as E; [done|]. by subst.
Qed.

Lemma updateNodeSelector_None old dc o :
  updateNodeSelector old dc = None -> classNamed (dc_Name dc) old = Some o -> dc_NodeSelector dc = dc_NodeSelector o.
Proof.
  unfold updateNodeSelector, getNodeSelectorOfDeviceClass. intros H Ho. rewrite Ho in H.
  destruct (dc_NodeSelector o) as [r|], (dc_NodeSelector dc) as [n|]; simpl in *; try done.
  case_bool_decide as E; [done|]. by subst.
Qed.

Lemma updatePaths_None old dc o :
  updatePaths old dc = None -> classNamed (dc_Name dc) old = Some o ->
  force_wipe dc = force_wipe o /\ HasExplicitPaths dc = HasExplicitPaths o.
Proof.
  unfold updatePaths, getPathsOfDeviceClass, force_wipe, HasExplicitPaths. intros H Ho. rewrite Ho in H.
  destruct (dc_DeviceSelector o) as [[[|? ?] [|? ?] [[]|]]|], (dc_DeviceSelector dc) as [[[|? ?] [|? ?] [[]|]]|];
    simpl in *; done.
Qed.

Lemma updateClasses_None dcs old old' ws ws' :
  Forall2 metadata_defaulted old old' -> updateClasses dcs old' ws = (ws', None) ->
  Forall (fun dc => forall o, classNamed (dc_Name dc) old = Some o -> immutable_part_kept o dc) dcs.
Proof.
  revert old' ws. induction dcs as [|dc dcs IH]; intros old' ws Hrel; simpl; [constructor|].
  destruct (updateThinPool old' dc ws) as [[[dc1 old1] ws1] err] eqn:Htp.
  destruct (err ;? _) eqn:Herr; [done|]. rewrite !orElse_None in Herr. destruct Herr as (-> & Hr & Hn & Hp).
  apply updateThinPool_None in Htp as (Hrel1 & En & Er & Es & Ed & Hkept). intros Hrest.
  assert (Hrel' : Forall2 metadata_defaulted old old1).
  { eapply Forall2_trans; [|exact Hrel|exact Hrel1]. eauto using metadata_defaulted_trans. }
  constructor; [|by eapply IH]. intros o Ho.
  pose proof (classNamed_related (dc_Name dc) _ _ Hrel) as Hc. rewrite Ho in Hc.
  pose proof (classNamed_related (dc_Name dc) _ _ Hrel') as Hc1. rewrite Ho in Hc1.
  destruct (classNamed (dc_Name dc) old') as [o'|] eqn:Ho'; [|done].
  destruct (classNamed (dc_Name dc) old1) as [o1|] eqn:Ho1; [|done].
  rewrite <- En in Ho1.
  pose proof (updateRAID_None _ _ _ Hr Ho1) as HR. pose proof (updateNodeSelector_None _ _ _ Hn Ho1) as HN.
  pose proof (updatePaths_None _ _ _ Hp Ho1) as [HF HE].
  split; [eapply thin_pool_kept_defaulted; [exact Hc|]; eauto|].
  assert (Hsame : dc_RAIDConfig o1 = dc_RAIDConfig o /\ dc_NodeSelector o1 = dc_NodeSelector o /\
                  dc_DeviceSelector o1 = dc_DeviceSelector o) by (by destruct Hc1 as [->|(? & ? & ? & ->)]).
  destruct Hsame as (S1 & S2 & S3).
  unfold force_wipe, HasExplicitPaths in *. rewrite <- S1, <- S2, <- S3, <- Er, <- Es, <- Ed. done.
Qed.

Lemma removal_None old new :
  validateDeviceClassRemoval old new = None <->
  new <> [] /\ forall o, o ∈ old -> dc_Default o = true -> dc_Name o ∈ dc_Name <$> new.
Proof.
  unfold validateDeviceClassRemoval. destruct new as [|d new']; [simpl; naive_solver|].
  set (new := d :: new'). assert (Hlen : (length new =? 0)%nat = false) by done. rewrite Hlen, first_error_None, Forall_forall.
  split.
  - intros H. split; [done|]. intros o Ho Hd. specialize (H o Ho). rewrite Hd in H.
    case_bool_decide as E; [|done]. by rewrite elem_of_list_to_set in E.
  - intros [_ H] o Ho. case_bool_decide as E; [done|]. destruct (dc_Default o) eqn:Ed; [|done].
    exfalso. apply E. rewrite elem_of_list_to_set. by apply H.
Qed.

(** The stages of an accepted update. *)
Lemma ValidateUpdate_None old l ws :
  ValidateUpdate old l = (ws, None) ->
  (verifyDeviceClass l).2 = None /\ verifyRAIDConfig l = None /\ (verifyPathsAreNotEmpty l).2 = None /\
  verifyAbsolutePath l = None /\ verifyNoDeviceOverlap l = None /\ verifyFstype l = None /\
  (validateAdditionalParamsAndLabels l).2 = None /\
  validateStorageClassOptionsUpgrade (deviceClasses old) (deviceClasses l) = None /\
  validateDeviceClassRemoval (deviceClasses old) (deviceClasses l) = None /\
  exists ws0, updateClasses (deviceClasses l) (deviceClasses old) ws0 = (ws, None).
Proof.
  unfold ValidateUpdate, with_warnings, or_fail.
  destruct (verifyDeviceClass l) as [w1 [e1|]]; [done|].
  destruct (verifyRAIDConfig l); [done|].
  destruct (verifyPathsAreNotEmpty l) as [w2 [e2|]]; [done|].
  destruct (verifyAbsolutePath l); [done|]. destruct (verifyNoDeviceOverlap l); [done|].
  destruct (verifyFstype l); [done|].
  destruct (validateAdditionalParamsAndLabels l) as [w3 [e3|]]; [done|].
  destruct (validateStorageClassOptionsUpgrade _ _); [done|]. destruct (validateDeviceClassRemoval _ _); [done|].
  simpl. intros H. split_and!; try done. eauto.
Qed.
End Update.

(** * Creation *)

Section Create.
Context `{G : GoRuntime} `{K : K8s} `{QL : !QuantityLaws K}.

Lemma metadata_default_ok :
  (q_Cmp ThinPoolMetadataSizeDefault ThinPoolMetadataSizeMinimum <? 0)%Z = false /\
  (q_Cmp ThinPoolMetadataSizeDefault ThinPoolMetadataSizeMaximum >? 0)%Z = false.
Proof.
  rewrite Cmp_min, Cmp_max, milli_metadata_min, milli_metadata_max.
  pose proof (q_MustParse_Gi "1" ltac:(by left)) as H. change ("1" +:+ "Gi") with "1Gi" in H. simpl in H. unfold ThinPoolMetadataSizeDefault. rewrite H. lia.
Qed.

(** The loop never touches the storage class options, and accepts well-formed sizes. *)
Lemma verifyMetadataSize_loop_options dcs ws :
  dc_StorageClassOptions <$> (verifyMetadataSize_loop dcs ws).1.1 = dc_StorageClassOptions <$> dcs.
Proof.
  revert ws. induction dcs as [|dc dcs IH]; intros ws; simpl; [done|].
  destruct (dc_ThinPoolConfig dc) as [tp|].
  2: { specialize (IH ws). destruct (verifyMetadataSize_loop dcs ws) as [[d w] e]. simpl in *. by f_equal. }
  destruct (_ && bool_decide (tp_MetadataSize tp <> None)); [done|].
  set (unset := bool_decide _ && _). set (ws1 := if unset then _ else ws). set (tp' := if unset then _ else tp).
  assert (Hd : dc_StorageClassOptions (if unset then set_thin_pool tp' dc else dc) = dc_StorageClassOptions dc) by (by destruct unset).
  specialize (IH ws1). destruct (verifyMetadataSize_loop dcs ws1) as [[d w] e]. simpl in *.
  destruct (tp_MetadataSize tp'); simpl; [|by f_equal].
  destruct (_ <? 0)%Z; simpl; [by rewrite Hd|]. destruct (_ >? 0)%Z; simpl; [by rewrite Hd|by f_equal].
Qed.

Lemma verifyMetadataSize_loop_complete dcs ws :
  Forall (fun dc => forall tp, dc_ThinPoolConfig dc = Some tp -> metadata_size_ok tp) dcs ->
  (verifyMetadataSize_loop dcs ws).2 = None.
Proof.
  intros H. revert ws. induction H as [|dc dcs Hdc Hdcs IH]; intros ws; simpl; [done|].
  destruct (dc_ThinPoolConfig dc) as [tp|].
  2: { specialize (IH ws). by destruct (verifyMetadataSize_loop dcs ws) as [[d w] e]. }
  destruct (Hdc tp eq_refl) as [Hh Hr]. rewrite <- milli_metadata_min, <- milli_metadata_max in Hr.
  destruct (bool_decide (tp_MetadataSizeCalculationPolicy tp = MetadataSizePolicyHost) && _) eqn:E.
  { bools. match goal with H : tp_MetadataSize tp <> None |- _ => destruct H end. by apply Hh. }
  set (unset := bool_decide _ && _). set (ws1 := if unset then _ else ws). set (tp' := if unset then _ else tp).
  assert (Hr' : forall q, tp_MetadataSize tp' = Some q ->
    (q_Cmp q ThinPoolMetadataSizeMinimum <? 0)%Z = false /\ (q_Cmp q ThinPoolMetadataSizeMaximum >? 0)%Z = false).
  { intros q. subst tp'. destruct unset; simpl; [intros [= <-]; apply metadata_default_ok|].
    intros Hq. rewrite Cmp_min, Cmp_max. by apply Hr. }
  specialize (IH ws1). destruct (verifyMetadataSize_loop dcs ws1) as [[d w] e].
  destruct (tp_MetadataSize tp') as [q|]; [|done]. by destruct (Hr' q eq_refl) as [-> ->].
Qed.

Lemma ValidateCreate_checks_None l :
  (forall dc rc, dc ∈ deviceClasses l -> dc_RAIDConfig dc = Some rc -> raid_in_bounds rc) ->
  (ValidateCreate_checks l).2 = None <->
  well_formed l /\ (forall dc rc, dc ∈ deviceClasses l -> dc_RAIDConfig dc = Some rc -> raid_admissible dc rc).
Proof.
  intros Hb. unfold well_formed.
  assert (Hraid : verifyRAIDConfig l = None <-> (forall dc rc, dc ∈ deviceClasses l -> dc_RAIDConfig dc = Some rc -> raid_admissible dc rc)).
  { unfold verifyRAIDConfig. rewrite first_error_None, Forall_forall. split.
    - intros H dc rc Hin Hrc. by apply verifyRAIDConfig_class_None; eauto.
    - intros H dc Hin. destruct (dc_RAIDConfig dc) as [rc|] eqn:Hrc.
      + eapply verifyRAIDConfig_class_None; eauto.
      + unfold verifyRAIDConfig_class. by rewrite Hrc. }
  rewrite <- verifyDeviceClass_None, <- verifyPathsAreNotEmpty_None, <- verifyAbsolutePath_None, <- no_overlap_None,
    <- verifyFstype_None, <- params_None, <- Hraid.
  assert (Hsplit : Forall (fun dc => forall tp, dc_ThinPoolConfig dc = Some tp -> chunk_size_ok tp /\ metadata_size_ok tp) (deviceClasses l)
    <-> verifyChunkSize l = None /\ Forall (fun dc => forall tp, dc_ThinPoolConfig dc = Some tp -> metadata_size_ok tp) (deviceClasses l)).
  { rewrite verifyChunkSize_None, !Forall_forall. naive_solver. }
  rewrite Hsplit. unfold ValidateCreate_checks, with_warnings, or_fail.
  destruct (verifyDeviceClass l) as [w1 [e1|]]; [simpl; naive_solver|].
  destruct (verifyRAIDConfig l); [simpl; naive_solver|].
  destruct (verifyPathsAreNotEmpty l) as [w2 [e2|]]; [simpl; naive_solver|].
  destruct (verifyAbsolutePath l); [simpl; naive_solver|]. destruct (verifyNoDeviceOverlap l); [simpl; naive_solver|].
  destruct (verifyFstype l); [simpl; naive_solver|]. destruct (verifyChunkSize l); [simpl; naive_solver|].
  unfold verifyMetadataSize.
  pose proof (verifyMetadataSize_loop_options (deviceClasses l) []) as Ho.
  pose proof (verifyMetadataSize_loop_complete (deviceClasses l) []) as Hc.
  pose proof (verifyMetadataSize_loop_None (deviceClasses l) []) as Hn.
  destruct (verifyMetadataSize_loop (deviceClasses l) []) as [[dcs' ws'] [e|]]; cbn beta iota zeta delta [fst snd] in *.
  { split; [done|]. intros [(_ & _ & _ & _ & _ & [_ Hm] & _) _]. by specialize (Hc Hm). }
  specialize (Hn dcs' ws' eq_refl).
  assert (Hp : (validateAdditionalParamsAndLabels (with_deviceClasses dcs' l)).2 = None <-> (validateAdditionalParamsAndLabels l).2 = None).
  { rewrite !params_None. change (deviceClasses (with_deviceClasses dcs' l)) with dcs'.
    assert (Hf : forall ds, Forall (fun dc => forall opts, dc_StorageClassOptions dc = Some opts -> params_ok opts) ds <->
                 Forall (fun o => forall opts, o = Some opts -> params_ok opts) (dc_StorageClassOptions <$> ds))
      by (intros ds; by rewrite Forall_fmap).
    by rewrite !Hf, Ho. }
  destruct (validateAdditionalParamsAndLabels (with_deviceClasses dcs' l)) as [w3 [e3|]],
    (validateAdditionalParamsAndLabels l) as [w4 [e4|]]; simpl in *; naive_solver.
Qed.

(** The environment answered both questions of ValidateCreate, with namespace [ns]
    and no existing cluster. *)
Definition env_accepts (ns : string) (tr : list (ev webhookE)) : Prop :=
  match tr with
  | [Ev e1 x1; Ev e2 x2] =>
      match e1 in webhookE X return X -> Prop with
      | LookupEnv name => fun x => name = OperatorNamespaceEnvVar /\ x = Some ns
      | ListLVMClusters _ _ => fun _ => False
      end x1 /\
      match e2 in webhookE X return X -> Prop with
      | LookupEnv _ => fun _ => False
      | ListLVMClusters limit n => fun x => limit = 1%Z /\ n = ns /\ x = Ok []
      end x2
  | _ => False
  end.
End Create.

(** * Main results *)

Section Results.
Context `{G : GoRuntime} `{K : K8s}.

(** VerifyNoDeviceOverlap accepts a cluster exactly when no device path, required or
    optional, occurs twice under the same node selector, within one device class or
    across several. *)
Theorem verifyNoDeviceOverlap_correct l :
  verifyNoDeviceOverlap l = None <-> NoDup (flat_map class_devices (deviceClasses l)).
Proof. apply no_overlap_None. Qed.

(** VerifyRAIDConfig accepts exactly the admissible RAID classes: no thin pool beside
    RAID, mirrors and stripes only where the level has them, a stripe size that is a
    power of two, enough devices for the level, and for raid10 without optional paths a
    device count divisible by mirrors + 1. *)
Theorem verifyRAIDConfig_correct l :
  (forall dc rc, dc ∈ deviceClasses l -> dc_RAIDConfig dc = Some rc -> raid_in_bounds rc) ->
  verifyRAIDConfig l = None <->
  (forall dc rc, dc ∈ deviceClasses l -> dc_RAIDConfig dc = Some rc -> raid_admissible dc rc).
Proof.
  intros Hb. unfold verifyRAIDConfig. rewrite first_error_None, Forall_forall. split.
  - intros H dc rc Hin Hrc. by apply verifyRAIDConfig_class_None; eauto.
  - intros H dc Hin. destruct (dc_RAIDConfig dc) as [rc|] eqn:Hrc.
    + eapply verifyRAIDConfig_class_None; eauto.
    + unfold verifyRAIDConfig_class. by rewrite Hrc.
Qed.

(** C14: for a cluster whose RAID configurations satisfy the schema of the API and whose device
    counts and stripe sizes fit 64-bit integers ([raid_in_bounds]), and whatever the environment
    answers, ValidateCreate admits the cluster exactly when it lies in the operator's namespace, no
    LVMCluster exists there, and it is well formed: at most one default class, selectors with
    paths (all classes when there are several), absolute and non-overlapping device paths,
    supported file systems, chunk and metadata sizes within the limits of lvm2, unreserved
    parameters and labels, admissible RAID. *)
Theorem ValidateCreate_correct `{QL : !QuantityLaws K} l :
  (forall dc rc, dc ∈ deviceClasses l -> dc_RAIDConfig dc = Some rc -> raid_in_bounds rc) ->
  wp (ValidateCreate l) (fun r tr =>
    r.2 = None <->
    env_accepts (om_Namespace (lc_meta l)) tr /\ well_formed l /\
    (forall dc rc, dc ∈ deviceClasses l -> dc_RAIDConfig dc = Some rc -> raid_admissible dc rc)).
Proof.
  intros Hb. unfold ValidateCreate, GetOperatorNamespace. simpl. intros [ns|]; simpl; [|naive_solver].
  destruct (String.eqb_spec ns (om_Namespace (lc_meta l))) as [->|Hne]; simpl; [|naive_solver].
  intros [[|first rest]|err]; simpl; [|naive_solver|naive_solver].
  rewrite (ValidateCreate_checks_None l Hb). naive_solver.
Qed.

(** C15: an accepted update leaves every device class that already existed with or without a thin
    pool as before, with the name, the size percentage, the chunk size and the chunk size policy of
    the pool unchanged and, where the metadata size is static before and after, not smaller (the
    overprovision ratio, the policy for the metadata size and a growing metadata size are not
    fixed); with the same RAID configuration, node selector and force-wipe option; and it neither
    gives paths to a class that had none nor takes all paths from a class that had some. *)
Theorem ValidateUpdate_immutable old l ws dc o :
  ValidateUpdate old l = (ws, None) -> dc ∈ deviceClasses l ->
  classNamed (dc_Name dc) (deviceClasses old) = Some o ->
  immutable_part_kept o dc.
Proof.
  intros H Hin Ho. apply ValidateUpdate_None in H as (_ & _ & _ & _ & _ & _ & _ & _ & _ & ws0 & Hu).
  pose proof (updateClasses_None _ _ _ _ _ (metadata_defaulted_list_refl _) Hu) as Hf.
  rewrite Forall_forall in Hf. eauto.
Qed.

(** An accepted update keeps at least one device class and every default device class. *)
Theorem ValidateUpdate_keeps_default old l ws :
  ValidateUpdate old l = (ws, None) ->
  deviceClasses l <> [] /\
  forall o, o ∈ deviceClasses old -> dc_Default o = true -> dc_Name o ∈ dc_Name <$> deviceClasses l.
Proof.
  intros H. apply ValidateUpdate_None in H as (_ & _ & _ & _ & _ & _ & _ & _ & Hr & _).
  by apply removal_None.
Qed.

Lemma Default_class_cases dc :
  Default_class dc = dc \/
  (dc_DeviceDiscoveryPolicy dc = None /\ HasExplicitPaths dc = false /\
   Default_class dc = set_policy (Some DeviceDiscoveryPolicyStatic) dc).
Proof.
  unfold Default_class. destruct (dc_DeviceDiscoveryPolicy dc); [by left|].
  destruct (HasExplicitPaths dc); simpl; [by left|by right].
Qed.

Lemma Default_class_idem dc : Default_class (Default_class dc) = Default_class dc.
Proof.
  unfold Default_class. destruct (dc_DeviceDiscoveryPolicy dc) eqn:E; [by rewrite E|].
  destruct (HasExplicitPaths dc) eqn:E'; simpl; [|done]. by rewrite E, E'.
Qed.

(** Defaulting is idempotent, sets the Static policy exactly on the classes that have
    neither a policy nor explicit paths and changes nothing else, so that afterwards
    every class without explicit paths has a policy. *)
Theorem Default_correct l :
  Default (Default l) = Default l /\
  Forall2 (fun dc dc' => dc' = if bool_decide (dc_DeviceDiscoveryPolicy dc = None) && negb (HasExplicitPaths dc)
                               then set_policy (Some DeviceDiscoveryPolicyStatic) dc else dc)
    (deviceClasses l) (deviceClasses (Default l)) /\
  Forall (fun dc => HasExplicitPaths dc = true \/ dc_DeviceDiscoveryPolicy dc <> None) (deviceClasses (Default l)).
Proof.
  unfold Default. change (deviceClasses (with_deviceClasses ?d ?c)) with d. split_and!.
  - unfold with_deviceClasses; simpl. do 3 f_equal. rewrite map_map. apply map_ext, Default_class_idem.
  - apply Forall2_fmap_r, Forall_Forall2_diag, Forall_forall. intros dc _. unfold compose, Default_class.
    destruct (dc_DeviceDiscoveryPolicy dc) eqn:E; [by rewrite bool_decide_eq_false_2 by congruence|].
    rewrite bool_decide_eq_true_2 by done. by destruct (HasExplicitPaths dc).
  - apply Forall_fmap, Forall_forall. intros dc _. simpl. unfold Default_class.
    destruct (dc_DeviceDiscoveryPolicy dc) eqn:E; [right; congruence|].
    destruct (HasExplicitPaths dc) eqn:E'; simpl; [by left|by right].
Qed.
End Results.

(** * Concrete clusters *)

Module Demo.
#[local] Existing Instance demo_K8s.
#[local] Existing Instance listed_order_runtime.
#[local] Existing Instance demo_quantity_laws.

Definition demo_meta (name ns : string) : ObjectMeta :=
  {| om_Name := name; om_Namespace := ns; om_UID := "uid-1"; om_Labels := ∅; om_Annotations := None;
     om_Finalizers := []; om_OwnerReferences := []; om_DeletionTimestamp := None |}.

Definition demo_class (name : string) (paths : list string) (tp : option ThinPoolConfig) (rc : option RAIDConfig)
    (dflt : bool) : DeviceClass :=
  {| dc_Name := name; dc_DeviceSelector := Some {| ds_Paths := paths; ds_OptionalPaths := []; ds_ForceWipeDevicesAndDestroyAllData := None |};
     dc_NodeSelector := None; dc_ThinPoolConfig := tp; dc_RAIDConfig := rc; dc_Default := dflt;
     dc_FilesystemType := FilesystemTypeXFS; dc_DeviceDiscoveryPolicy := None; dc_StorageClassOptions := None |}.

Definition demo_thin (chunk : option string) : ThinPoolConfig :=
  {| tp_Name := "thin-pool-1"; tp_SizePercent := 90; tp_OverprovisionRatio := 10;
     tp_ChunkSizeCalculationPolicy := ChunkSizeCalculationPolicyStatic; tp_ChunkSize := q_MustParse <$> chunk;
     tp_MetadataSize := None; tp_MetadataSizeCalculationPolicy := MetadataSizePolicyStatic |}.

Definition demo_raid : RAIDConfig :=
  {| rc_Type := RAIDTypeRAID10; rc_Mirrors := Some 1%Z; rc_Stripes := None; rc_StripeSize := Some (q_MustParse "64Ki") |}.

Definition demo_cluster (dcs : list DeviceClass) : LVMCluster :=
  {| lc_meta := demo_meta "my-lvmcluster" "openshift-lvm-storage";
     lc_Spec := {| lcs_Tolerations := []; lcs_Storage := {| st_DeviceClasses := dcs |} |};
     lc_Status := {| lst_Ready := false; lst_State := LVMStatusUnknown; lst_Conditions := []; lst_DeviceClassStatuses := [] |} |}.

Definition thin_class : DeviceClass := demo_class "vg1" ["/dev/sda"; "/dev/sdb"] (Some (demo_thin (Some "128Ki"))) None true.
Definition raid_class : DeviceClass := demo_class "vg2" ["/dev/sdc"; "/dev/sdd"; "/dev/sde"; "/dev/sdf"] None (Some demo_raid) false.
Definition thin_raid_cluster : LVMCluster := demo_cluster [thin_class; raid_class].

Lemma thin_raid_in_bounds dc rc :
  dc ∈ deviceClasses thin_raid_cluster -> dc_RAIDConfig dc = Some rc -> raid_in_bounds rc.
Proof.
  intros [->|[->|[]%elem_of_nil]%elem_of_cons]%elem_of_cons; simpl; [done|]. intros [= <-].
  split_and!; [split|..]; simpl; try lia; try done.
  - intros m [= <-]. lia.
  - intros q [= <-]. by vm_compute.
Defined.

(** A RAID10 class with two mirrored pairs is admissible. *)
Lemma verifyRAIDConfig_correct_witness :
  verifyRAIDConfig thin_raid_cluster = None /\ raid_admissible raid_class demo_raid.
Proof.
  split; [by vm_compute|].
  apply (proj1 (verifyRAIDConfig_correct thin_raid_cluster thin_raid_in_bounds)); [by vm_compute| |done].
  simpl. right. left.
Defined.

(** The cluster is admitted when created in the operator namespace. *)
Lemma ValidateCreate_correct_witness :
  wp (ValidateCreate thin_raid_cluster) (fun r tr =>
    r.2 = None <->
    env_accepts (om_Namespace (lc_meta thin_raid_cluster)) tr /\ well_formed thin_raid_cluster /\
    (forall dc rc, dc ∈ deviceClasses thin_raid_cluster -> dc_RAIDConfig dc = Some rc -> raid_admissible dc rc)) /\
  (ValidateCreate_checks thin_raid_cluster).2 = None.
Proof.
  split; [exact (ValidateCreate_correct thin_raid_cluster thin_raid_in_bounds)|by vm_compute].
Defined.

(** Adding a path to a class that has paths is accepted, and keeps the rest. *)
Definition grown_class : DeviceClass := demo_class "vg1" ["/dev/sda"; "/dev/sdb"; "/dev/sdg"] (Some (demo_thin (Some "128Ki"))) None true.

Lemma ValidateUpdate_immutable_witness :
  (ValidateUpdate thin_raid_cluster (demo_cluster [grown_class; raid_class])).2 = None /\
  immutable_part_kept thin_class grown_class.
Proof.
  split; [by vm_compute|].
  eapply (ValidateUpdate_immutable thin_raid_cluster (demo_cluster [grown_class; raid_class])).
  - by vm_compute.
  - simpl. left.
  - done.
Defined.

(** Removing the class that is not the default one is accepted. *)
Lemma ValidateUpdate_keeps_default_witness :
  deviceClasses (demo_cluster [thin_class]) <> [] /\ "vg1" ∈ dc_Name <$> deviceClasses (demo_cluster [thin_class]).
Proof.
  destruct (ValidateUpdate_keeps_default thin_raid_cluster (demo_cluster [thin_class])
    (ValidateUpdate thin_raid_cluster (demo_cluster [thin_class])).1) as [H1 H2]; [by vm_compute|].
  split; [exact H1|]. apply (H2 thin_class); [simpl; left|done].
Defined.

(** The minimum device count is computed in wrapping 64-bit arithmetic: a raid1 class with
    2^63 - 1 mirrors and a single device passes admission, although the level asks for
    2^63 devices. *)
Lemma verifyRAIDConfig_overflow :
  let rc := {| rc_Type := RAIDTypeRAID1; rc_Mirrors := Some (2 ^ 63 - 1)%Z; rc_Stripes := None; rc_StripeSize := None |} in
  let dc := demo_class "vg1" ["/dev/sda"] None (Some rc) true in
  raid_schema rc /\ verifyRAIDConfig_class dc = None /\
  min_devices_spec (rc_Type rc) (EffectiveMirrors rc) (rc_Stripes rc) = (2 ^ 63)%Z.
Proof.
  split_and!; [split; simpl; [intros m [= <-]; lia|done]|by vm_compute|done].
Qed.

(** The size limits are checked on creation only: an update that adds a device class whose
    chunk size is below the 64Ki minimum is accepted, while creating the same cluster is
    refused. *)
Theorem ValidateUpdate_skips_size_limits :
  let tiny := demo_class "vg3" ["/dev/sdh"] (Some (demo_thin (Some "1Ki"))) None false in
  let l := demo_cluster [thin_class; tiny] in
  (ValidateUpdate (demo_cluster [thin_class]) l).2 = None /\
  ~ chunk_size_ok (demo_thin (Some "1Ki")) /\
  (ValidateCreate_checks l).2 <> None.
Proof.
  split_and!; [by vm_compute| |by vm_compute].
  intros [_ H]. specialize (H _ eq_refl). vm_compute in H. destruct H. done.
Qed.
End Demo.
