(* ===== verification/Objects.v ===== *)
(** The Kubernetes objects the LVMCluster controller creates, with the fields the source sets
    or reads (types of k8s.io/api, openshift/api, the Prometheus operator and the snapshot
    controller), the labels that mark an owner (internal/controllers/labels/managed.go) and
    the owner references of controller-runtime, as parameters. *)

From S2P Require Import Prelude GoStd Api.

(** [metav1.ObjectMeta{Name: name, Namespace: namespace}] *)
Definition named (name namespace : string) : ObjectMeta := mkObjectMeta name namespace "" ∅ None [] [] None.

Definition with_labels (m : ObjectMeta) (labels : gmap string string) : ObjectMeta :=
  {| om_Name := om_Name m; om_Namespace := om_Namespace m; om_UID := om_UID m; om_Labels := labels;
     om_Annotations := om_Annotations m; om_Finalizers := om_Finalizers m; om_OwnerReferences := om_OwnerReferences m;
     om_DeletionTimestamp := om_DeletionTimestamp m |}.

(** * Owners *)

(** metav1.IsControlledBy(object, owner) and controllerutil.SetControllerReference(owner,
    object, scheme), which returns the owner references the object gets. *)
Class ControllerRefs := {
  IsControlledBy : ObjectMeta -> ObjectMeta -> bool;
  SetControllerReference : ObjectMeta -> ObjectMeta -> result error (list OwnerReference);
}.

(** apiutil.GVKForObject(cluster, scheme) for an LVMCluster: group, version and kind. *)
Class Scheme := {
  ClusterGVK : result error (string * string * string);
}.

(** * labels/managed.go *)

Definition OwnedByName := "owned-by.topolvm.io/name".
Definition OwnedByNamespace := "owned-by.topolvm.io/namespace".
Definition OwnedByUID := "owned-by.topolvm.io/uid".
Definition OwnedByGroup := "owned-by.topolvm.io/group".
Definition OwnedByVersion := "owned-by.topolvm.io/version".
Definition OwnedByKind := "owned-by.topolvm.io/kind".

Section Labels.
Context `{GVK : Scheme}.

Definition SetManagedLabels (obj owner : ObjectMeta) : ObjectMeta :=
  let lbls := <[OwnedByUID := om_UID owner]> (<[OwnedByNamespace := om_Namespace owner]>
                (<[OwnedByName := om_Name owner]> (om_Labels obj))) in
  let lbls :=
    match ClusterGVK with
    | Ok (group, version, kind) =>
        <[OwnedByKind := kind]> (<[OwnedByVersion := version]> (<[OwnedByGroup := group]> lbls))
    | Err _ => lbls
    end in
  with_labels obj lbls.

(** [lbls[key]] *)
Definition label (lbls : gmap string string) (key : string) : string := default "" (lbls !! key).

(** An object without labels has a nil map. *)
Definition MatchesManagedLabels (obj owner : ObjectMeta) : bool :=
  let lbls := om_Labels obj in
  if bool_decide (lbls = ∅) then false
  else
    let baseMatch :=
      String.eqb (label lbls OwnedByName) (om_Name owner) &&
      String.eqb (label lbls OwnedByNamespace) (om_Namespace owner) &&
      String.eqb (label lbls OwnedByUID) (om_UID owner) in
    if negb baseMatch then false
    else
      match ClusterGVK with
      | Ok (group, version, kind) =>
          String.eqb (label lbls OwnedByGroup) group && String.eqb (label lbls OwnedByVersion) version &&
          String.eqb (label lbls OwnedByKind) kind
      | Err _ => false
      end.

Lemma label_insert lbls k v : label (<[k := v]> lbls) k = v.
Proof. unfold label. by rewrite lookup_insert_eq. Qed.

Lemma label_insert_ne lbls k k' v : k <> k' -> label (<[k := v]> lbls) k' = label lbls k'.
Proof. intros. unfold label. by rewrite lookup_insert_ne. Qed.

(** Objects labelled for one owner are recognised as owned by exactly the owners with the same
    name, namespace and UID. *)
Lemma managed_labels_match obj owner owner' :
  MatchesManagedLabels (SetManagedLabels obj owner) owner' = true <->
  is_Ok ClusterGVK = true /\ om_Name owner = om_Name owner' /\ om_Namespace owner = om_Namespace owner' /\
  om_UID owner = om_UID owner'.
Proof.
  unfold MatchesManagedLabels, SetManagedLabels. cbn [om_Labels with_labels].
  rewrite bool_decide_eq_false_2 by (destruct ClusterGVK as [[[? ?] ?]|]; apply insert_non_empty).
  destruct ClusterGVK as [[[group version] kind]|err]; simpl;
    repeat (rewrite label_insert || rewrite label_insert_ne by done);
    destruct (String.eqb_spec (om_Name owner) (om_Name owner')), (String.eqb_spec (om_Namespace owner) (om_Namespace owner')),
      (String.eqb_spec (om_UID owner) (om_UID owner')); simpl; rewrite ?String.eqb_refl; naive_solver.
Qed.

(** The labels of an owner identify it: an object labelled for one cluster is recognised as
    owned by exactly the cluster of the same name, namespace and UID (and as owned by none when
    the type of the owner is not registered), and the labels it had before stay, except for
    the owner labels themselves. *)
Theorem managed_labels_roundtrip obj owner owner' :
  (MatchesManagedLabels (SetManagedLabels obj owner) owner' = true <->
   is_Ok ClusterGVK = true /\ om_Name owner = om_Name owner' /\ om_Namespace owner = om_Namespace owner' /\
   om_UID owner = om_UID owner') /\
  forall k, k ∉ [OwnedByName; OwnedByNamespace; OwnedByUID; OwnedByGroup; OwnedByVersion; OwnedByKind] ->
    om_Labels (SetManagedLabels obj owner) !! k = om_Labels obj !! k.
Proof.
  split; [apply managed_labels_match|].
  intros k. rewrite !elem_of_cons, elem_of_nil. intros Hk. unfold SetManagedLabels. cbn [om_Labels with_labels].
  destruct ClusterGVK as [[[group version] kind]|err]; by rewrite !lookup_insert_ne by naive_solver.
Qed.
End Labels.

(** * Cluster-scoped objects *)

Record StorageClass := mkStorageClass {
  sc_meta : ObjectMeta;
  sc_Provisioner : string;
  sc_ReclaimPolicy : ReclaimPolicy;
  sc_VolumeBindingMode : VolumeBindingMode;
  sc_AllowVolumeExpansion : bool;
  sc_Parameters : gmap string string;
}.

(** [vsc_Delete]: the deletion policy is VolumeSnapshotContentDelete. *)
Record VolumeSnapshotClass := mkVolumeSnapshotClass {
  vsc_meta : ObjectMeta;
  vsc_Driver : string;
  vsc_Delete : bool;
}.

Record CSIDriverObject := mkCSIDriverObject {
  drv_meta : ObjectMeta;
  drv_AttachRequired : bool;
  drv_PodInfoOnMount : bool;
  drv_StorageCapacity : bool;
  drv_VolumeLifecycleModes : list string;
}.

(** storagev1.CSINode: its name and the names of its drivers. *)
Record CSINodeObject := mkCSINodeObject { cn_Name : string; cn_Drivers : list string }.

Inductive SCCStrategy := StrategyRunAsAny | StrategyMustRunAs.

Record SecurityContextConstraints := mkSCC {
  scc_meta : ObjectMeta;
  scc_AllowPrivilegedContainer : bool;
  scc_AllowHostNetwork : bool;
  scc_AllowHostDirVolumePlugin : bool;
  scc_AllowHostPorts : bool;
  scc_AllowHostPID : bool;
  scc_AllowHostIPC : bool;
  scc_ReadOnlyRootFilesystem : bool;
  scc_RequiredDropCapabilities : list string;
  scc_RunAsUser : SCCStrategy;
  scc_SELinuxContext : SCCStrategy;
  scc_FSGroup : SCCStrategy;
  scc_SupplementalGroups : SCCStrategy;
  scc_Volumes : list string;
  scc_Users : list string;
}.

(** * Namespaced objects *)

(** An endpoint of a ServiceMonitor; all of them use HTTPS. *)
Record MonitorEndpoint := mkMonitorEndpoint {
  me_Path : string; me_Port : string; me_BearerTokenFile : string; me_ServerName : string; me_CAFile : string;
}.
Record ServiceMonitorObject := mkServiceMonitorObject {
  sm_meta : ObjectMeta;
  sm_Endpoints : list MonitorEndpoint;
  sm_Selector : gmap string string;
}.

Inductive Protocol := ProtocolTCP | ProtocolUDP.
#[export] Instance Protocol_eq_dec : EqDecision Protocol.
Proof. solve_decision. Defined.
Record NetworkPolicyPort := mkNetworkPolicyPort { npp_Protocol : Protocol; npp_Port : Z }.
(** A peer: the labels of its namespace and of its pods. *)
Record NetworkPolicyPeer := mkNetworkPolicyPeer { npe_Namespace : gmap string string; npe_Pod : gmap string string }.
(** A rule: the peers (none is all peers) and the ports. *)
Record NetworkPolicyRule := mkNetworkPolicyRule { npr_Peers : list NetworkPolicyPeer; npr_Ports : list NetworkPolicyPort }.
Inductive PolicyType := PolicyTypeIngress | PolicyTypeEgress.
Record NetworkPolicySpec := mkNetworkPolicySpec {
  nps_PodSelector : gmap string string;
  nps_PolicyTypes : list PolicyType;
  nps_Ingress : list NetworkPolicyRule;
  nps_Egress : list NetworkPolicyRule;
}.
Record NetworkPolicy := mkNetworkPolicy { np_meta : ObjectMeta; np_Spec : NetworkPolicySpec }.

(** * The DaemonSet *)

Inductive HostPathType := HostPathDirectory | HostPathDirectoryOrCreate.
Inductive VolumeSource :=
| HostPath (path : string) (type : option HostPathType)
| Secret (name : string) (mode : Z).
Record Volume := mkVolume { vol_Name : string; vol_Source : VolumeSource }.

Inductive MountPropagation := MountPropagationHostToContainer | MountPropagationBidirectional.
Record VolumeMount := mkVolumeMount {
  vm_Name : string; vm_MountPath : string; vm_MountPropagation : option MountPropagation; vm_ReadOnly : bool;
}.

(** An HTTP probe on a named port. *)
Record Probe := mkProbe {
  pr_Path : string; pr_Port : string; pr_FailureThreshold : Z; pr_InitialDelaySeconds : Z; pr_TimeoutSeconds : Z;
  pr_PeriodSeconds : Z;
}.

Inductive EnvVarSource := EnvValue (value : string) | EnvFieldRef (fieldPath : string).
Record ContainerPort := mkContainerPort { cp_Name : string; cp_ContainerPort : Z; cp_Protocol : Protocol }.

Inductive IntOrString := IntValue (n : Z) | StringValue (s : string).

(** The update strategy; [RollingUpdate] has the field RollingUpdate, which may be nil, and in
    it MaxUnavailable, which may be nil. *)
Inductive UpdateStrategy :=
| RollingUpdateStrategy (maxUnavailable : option (option IntOrString))
| OtherStrategy (type : string).

Record DaemonSetStatus := mkDaemonSetStatus {
  dss_UpdatedNumberScheduled : Z; dss_DesiredNumberScheduled : Z; dss_NumberReady : Z;
}.

Section DaemonSets.
Context `{K : K8s}.

Record Container := mkContainer {
  ct_Name : string;
  ct_Image : string;
  ct_Command : list string;
  ct_Privileged : bool;
  ct_RunAsUser : Z;
  ct_Ports : list ContainerPort;
  ct_StartupProbe : option Probe;
  ct_LivenessProbe : option Probe;
  ct_ReadinessProbe : option Probe;
  ct_VolumeMounts : list VolumeMount;
  ct_Requests : list (string * Quantity);
  ct_Env : list (string * EnvVarSource);
  ct_FallbackToLogsOnError : bool;
}.

(** The pod template; [pt_Affinity] is the required node affinity. *)
Record PodTemplate := mkPodTemplate {
  pt_Annotations : gmap string string;
  pt_Labels : gmap string string;
  pt_TerminationGracePeriodSeconds : Z;
  pt_PriorityClassName : string;
  pt_Volumes : list Volume;
  pt_Containers : list Container;
  pt_HostPID : bool;
  pt_Tolerations : list Toleration;
  pt_ServiceAccountName : string;
  pt_Affinity : option NodeSelector;
}.

Record DaemonSet := mkDaemonSet {
  ds_meta : ObjectMeta;
  ds_Selector : gmap string string;
  ds_Template : PodTemplate;
  ds_UpdateStrategy : UpdateStrategy;
  ds_Status : DaemonSetStatus;
}.
End DaemonSets.
