(* ===== verification/ClusterStatus.v ===== *)
(** The status of an LVMCluster (internal/controllers/lvmcluster/status.go) and the choice of
    the nodes a cluster covers (internal/controllers/lvmcluster/selector/selector.go).

    The setters of status.go change the conditions of the cluster they are given; here they
    return the new conditions. *)

From S2P Require Import Prelude GoStd Api K8sDemo.

(** meta.SetStatusCondition of k8s.io/apimachinery: the condition of that type is replaced or
    added; timestamps are not modelled. *)
Class StatusConditions := {
  SetStatusCondition : list Condition -> Condition -> list Condition;
}.

(** Documented behaviour: conditions are a map by type. *)
Class StatusConditionsLaws (S : StatusConditions) := {
  SetStatusCondition_types : forall cs c,
    NoDup (cond_Type <$> cs) -> NoDup (cond_Type <$> SetStatusCondition cs c);
  SetStatusCondition_elem : forall cs c x,
    NoDup (cond_Type <$> cs) ->
    (x ∈ SetStatusCondition cs c <-> x = c \/ x ∈ cs /\ cond_Type x <> cond_Type c);
}.

Definition ReasonReconciliationInProgress := "ReconciliationInProgress".
Definition MessageReconciliationInProgress := "Reconciliation is still in progress".
Definition ReasonResourcesAvailable := "ResourcesAvailable".
Definition MessageResourcesAvailable := "Reconciliation is complete and all the resources are available".
Definition ReasonResourcesIncomplete := "ResourcesSyncIncomplete".
Definition MessageReasonResourcesSyncIncomplete (err : error) :=
  "Resources have not yet been fully synced to the cluster: " +:+ Error err.
Definition ReasonVGReadinessInProgress := "VGReadinessInProgress".
Definition MessageVGReadinessInProgress := "VG readiness check is still in progress".
Definition ReasonVGsFailed := "VGsFailed".
Definition MessageVGsFailed := "One or more VGs are failed".
Definition ReasonVGsDegraded := "VGsDegraded".
Definition MessageVGsDegraded := "One or more VGs are degraded".
Definition ReasonVGsReady := "VGsReady".
Definition MessageVGsReady := "All the VGs are ready".
Definition ReasonVGsUnmanaged := "VGsUnmanaged".
Definition MessageVGsUnmanaged := "VGs are unmanaged and not part of the LVMCluster, but the manager is running".

(** * Conditions *)

Section Conditions.
Context `{S : StatusConditions}.

Definition setResourcesAvailableConditionTrue (cs : list Condition) : list Condition :=
  SetStatusCondition cs (mkCondition ResourcesAvailable true ReasonResourcesAvailable MessageResourcesAvailable).

Definition setResourcesAvailableConditionFalse (err : error) (cs : list Condition) : list Condition :=
  SetStatusCondition cs
    (mkCondition ResourcesAvailable false ReasonResourcesIncomplete (MessageReasonResourcesSyncIncomplete err)).

Definition setResourcesAvailableConditionInProgress (cs : list Condition) : list Condition :=
  SetStatusCondition cs
    (mkCondition ResourcesAvailable false ReasonReconciliationInProgress MessageReconciliationInProgress).

Definition setVolumeGroupsReadyConditionTrue (cs : list Condition) : list Condition :=
  SetStatusCondition cs (mkCondition VolumeGroupsReady true ReasonVGsReady MessageVGsReady).

Definition setVolumeGroupsReadyConditionFailed (cs : list Condition) : list Condition :=
  SetStatusCondition cs (mkCondition VolumeGroupsReady false ReasonVGsFailed MessageVGsFailed).

Definition setVolumeGroupsReadyConditionDegraded (cs : list Condition) : list Condition :=
  SetStatusCondition cs (mkCondition VolumeGroupsReady false ReasonVGsDegraded MessageVGsDegraded).

Definition setVolumeGroupsReadyConditionInProgress (cs : list Condition) : list Condition :=
  SetStatusCondition cs (mkCondition VolumeGroupsReady false ReasonVGReadinessInProgress MessageVGReadinessInProgress).

Definition setVolumeGroupsReadyConditionUnmanaged (cs : list Condition) : list Condition :=
  SetStatusCondition cs (mkCondition VolumeGroupsReady true ReasonVGsUnmanaged MessageVGsUnmanaged).
End Conditions.

(** * The state of the cluster *)

Definition translateReasonToState (reason : string) (currentState : LVMStateType) : LVMStateType :=
  if String.eqb reason ReasonVGsFailed then LVMStatusFailed
  else if String.eqb reason ReasonVGsDegraded then
    if negb (bool_decide (currentState = LVMStatusFailed)) then LVMStatusDegraded else currentState
  else if String.eqb reason ReasonReconciliationInProgress || String.eqb reason ReasonVGReadinessInProgress ||
          String.eqb reason ReasonResourcesIncomplete then
    if negb (bool_decide (currentState = LVMStatusFailed)) && negb (bool_decide (currentState = LVMStatusDegraded))
    then LVMStatusProgressing else currentState
  else if String.eqb reason ReasonResourcesAvailable || String.eqb reason ReasonVGsReady ||
          String.eqb reason ReasonVGsUnmanaged then
    let transitionToReadyAcceptable :=
      negb (existsb (fun unacceptable => bool_decide (currentState = unacceptable))
              [LVMStatusFailed; LVMStatusDegraded; LVMStatusProgressing]) in
    if transitionToReadyAcceptable then LVMStatusReady else currentState
  else LVMStatusUnknown.

Definition computeLVMClusterReadiness (conditions : list Condition) : LVMStateType * bool :=
  let state := foldl (fun state c => translateReasonToState (cond_Reason c) state) LVMStatusUnknown conditions in
  (state, bool_decide (state = LVMStatusReady)).

Section Status.
Context `{R : GoRuntime} `{K : K8s} `{S : StatusConditions}.

(** [vgNodeMap[item.Name] = append(vgNodeMap[item.Name], ...)] *)
Definition addNodeStatus (node : string) (m : gmap string (list NodeStatus)) (item : VGStatus)
  : gmap string (list NodeStatus) :=
  <[vs_Name item := default [] (m !! vs_Name item) ++ [mkNodeStatus node item]]> m.

Definition computeDeviceClassStatuses (items : list LVMVolumeGroupNodeStatus) : list DeviceClassStatus :=
  let vgNodeMap := foldl (fun m nodeItem =>
    foldl (addNodeStatus (om_Name (ns_meta nodeItem))) m (ns_LVMVGStatus nodeItem)) ∅ items in
  map (fun kv => mkDeviceClassStatus kv.1 kv.2) (map_range (map_to_list vgNodeMap)).

(** * Nodes *)

Definition ErrNotReadyTaintExists : error :=
  ENew "ErrNotReadyTaintExists" ("node has a " +:+ TaintNodeNotReady +:+ " taint").

Fixpoint ToleratesAllTaints (taints : list Taint) (tolerations : list Toleration) : bool * option error :=
  match taints with
  | [] => (true, None)
  | taint :: taints =>
      if negb (TolerationsTolerateTaint tolerations taint) then
        (false, if String.eqb (taint_Key taint) TaintNodeNotReady then Some ErrNotReadyTaintExists else None)
      else ToleratesAllTaints taints tolerations
  end.

(** The terms of all classes; [None] when a class covers all nodes. *)
Fixpoint collectTerms (dcs : list DeviceClass) (terms : list NodeSelectorTerm) : option (list NodeSelectorTerm) :=
  match dcs with
  | [] => Some terms
  | dc :: dcs =>
      match dc_NodeSelector dc with
      | None => None
      | Some sel => collectTerms dcs (terms ++ NodeSelectorTerms sel)
      end
  end.

Definition ExtractNodeSelectorAndTolerations (l : LVMCluster) : option NodeSelector * list Toleration :=
  let nodeSelector :=
    match collectTerms (deviceClasses l) [] with
    | Some terms => if (0 <? length terms)%nat then Some (mkNodeSelector _ terms) else None
    | None => None
    end in
  (nodeSelector, lcs_Tolerations (lc_Spec l)).

(** The loop of ValidNodes; [Err] is the early return. *)
Fixpoint selectNodes (nodeSelector : option NodeSelector) (tolerations : list Toleration) (nodes : list Node)
  (validNodes : list Node) (errs : list error) : result error (list Node * list error) :=
  match nodes with
  | [] => Ok (validNodes, errs)
  | node :: nodes =>
      let '(ok, err) := ToleratesAllTaints (node_Taints node) tolerations in
      let errs := match err with Some e => errs ++ [e] | None => errs end in
      if negb ok then selectNodes nodeSelector tolerations nodes validNodes errs
      else
        match nodeSelector with
        | None => selectNodes nodeSelector tolerations nodes (validNodes ++ [node]) errs
        | Some sel =>
            match MatchNodeSelectorTerms node (NodeSelectorTerms sel) with
            | Err err => Err err
            | Ok matches =>
                selectNodes nodeSelector tolerations nodes (if matches then validNodes ++ [node] else validNodes) errs
            end
        end
  end.

Definition ValidNodes (l : LVMCluster) (nodes : list Node) : list Node * option error :=
  let '(nodeSelector, tolerations) := ExtractNodeSelectorAndTolerations l in
  match selectNodes nodeSelector tolerations nodes [] [] with
  | Err err => ([], Some err)
  | Ok (validNodes, errs) => (validNodes, match errs with [] => None | _ => Some (errors_Join errs) end)
  end.

Definition isNodeValid (node : Node) (cluster : LVMCluster) (dc : DeviceClass) : result error bool :=
  let '(ok, err) := ToleratesAllTaints (node_Taints node) (lcs_Tolerations (lc_Spec cluster)) in
  match err with
  | Some err => Err err
  | None =>
      if negb ok then Ok false
      else
        match dc_NodeSelector dc with
        | None => Ok true
        | Some sel =>
            match MatchNodeSelectorTerms node (NodeSelectorTerms sel) with
            | Err err => Err (EFmt ("error matching node selector terms: " +:+ Error err) [])
            | Ok matches => Ok matches
            end
        end
  end.

(** * Readiness of the volume groups *)

Definition VGStatusType_string (s : VGStatusType) : string :=
  match s with
  | VGStatusProgressing => "Progressing"
  | VGStatusReady => "Ready"
  | VGStatusFailed => "Failed"
  | VGStatusDegraded => "Degraded"
  end.

(** What a valid node must report for a device class. *)
Definition checkNodeStatus (items : list LVMVolumeGroupNodeStatus) (dc : DeviceClass) (node : Node) : option error :=
  let expected := ",that is part of the expected nodes for device class " +:+ dc_Name dc in
  match find_first (fun ns => String.eqb (node_Name node) (om_Name (ns_meta ns))) items with
  | None => Some (EFmt ("no node status found for node " +:+ node_Name node +:+ expected) [])
  | Some ns =>
      match find_first (fun vs => String.eqb (vs_Name vs) (dc_Name dc)) (ns_LVMVGStatus ns) with
      | None => Some (EFmt ("no VGStatus found for VG " +:+ dc_Name dc +:+ " on node " +:+ node_Name node +:+ expected) [])
      | Some vs =>
          if negb (bool_decide (vs_Status vs = VGStatusReady)) then
            Some (EFmt ("VG " +:+ dc_Name dc +:+ " on node " +:+ VGStatusType_string (vs_Status vs) +:+
                        " is not in ready state (" +:+ node_Name node +:+ ")" +:+ expected) [])
          else None
      end
  end.

Fixpoint checkNodes (cluster : LVMCluster) (items : list LVMVolumeGroupNodeStatus) (dc : DeviceClass)
  (nodes : list Node) (validNodeExists : bool) : option error :=
  match nodes with
  | [] => if negb validNodeExists then Some (EFmt ("no valid node found for device class " +:+ dc_Name dc) []) else None
  | node :: nodes =>
      match isNodeValid node cluster dc with
      | Err err => Some err
      | Ok false => checkNodes cluster items dc nodes validNodeExists
      | Ok true =>
          orElse (checkNodeStatus items dc node) (checkNodes cluster items dc nodes true)
      end
  end.

Definition validateDeviceClassSetup (cluster : LVMCluster) (nodes : list Node)
  (items : list LVMVolumeGroupNodeStatus) : option error :=
  first_error (fun dc => checkNodes cluster items dc nodes false) (deviceClasses cluster).

(** The scan for failed and degraded volume groups; [None] leaves at the first failed one. *)
Fixpoint scanStatuses (l : list VGStatus) (degraded : bool) : option bool :=
  match l with
  | [] => Some degraded
  | vs :: l =>
      match vs_Status vs with
      | VGStatusFailed => None
      | VGStatusDegraded => scanStatuses l true
      | _ => scanStatuses l degraded
      end
  end.

Definition setVolumeGroupsReadyCondition (cluster : LVMCluster) (nodes : list Node)
  (items : list LVMVolumeGroupNodeStatus) (cs : list Condition) : list Condition :=
  match validateDeviceClassSetup cluster nodes items with
  | None => setVolumeGroupsReadyConditionTrue cs
  | Some _ =>
      match scanStatuses (flat_map ns_LVMVGStatus items) false with
      | None => setVolumeGroupsReadyConditionFailed cs
      | Some true => setVolumeGroupsReadyConditionDegraded cs
      | Some false => cs
      end
  end.
End Status.

(** * Theorems *)

(** ** The state of the cluster *)

(** The state a condition with this reason stands for, and how bad a state is. *)
Definition reason_states : list (string * LVMStateType) :=
  [(ReasonVGsFailed, LVMStatusFailed); (ReasonVGsDegraded, LVMStatusDegraded);
   (ReasonReconciliationInProgress, LVMStatusProgressing); (ReasonVGReadinessInProgress, LVMStatusProgressing);
   (ReasonResourcesIncomplete, LVMStatusProgressing); (ReasonResourcesAvailable, LVMStatusReady);
   (ReasonVGsReady, LVMStatusReady); (ReasonVGsUnmanaged, LVMStatusReady)].

Definition severity (s : LVMStateType) : nat :=
  match s with
  | LVMStatusUnknown => 0 | LVMStatusReady => 1 | LVMStatusProgressing => 2
  | LVMStatusDegraded => 3 | LVMStatusFailed => 4
  end.

Lemma severity_inj s t : severity s = severity t -> s = t.
Proof. by destruct s, t. Qed.

Lemma translateReasonToState_max reason s cur :
  (reason, s) ∈ reason_states ->
  translateReasonToState reason cur = if (severity cur <=? severity s)%nat then s else cur.
Proof.
  unfold reason_states. rewrite !elem_of_cons, elem_of_nil. intros H.
  repeat destruct H as [H|H]; simplify_eq; by destruct cur.
Qed.

Definition state_of (conditions : list Condition) : LVMStateType :=
  foldl (fun state c => translateReasonToState (cond_Reason c) state) LVMStatusUnknown conditions.

Lemma state_of_snoc cs c : state_of (cs ++ [c]) = translateReasonToState (cond_Reason c) (state_of cs).
Proof. unfold state_of. by rewrite foldl_snoc. Qed.

(** The conditions of a cluster all carry reasons of the operator. *)
Definition known_reasons (cs : list Condition) : Prop :=
  forall c, c ∈ cs -> exists s, (cond_Reason c, s) ∈ reason_states.

Lemma known_reasons_snoc cs c :
  known_reasons (cs ++ [c]) <-> known_reasons cs /\ exists s, (cond_Reason c, s) ∈ reason_states.
Proof.
  unfold known_reasons. setoid_rewrite elem_of_app. setoid_rewrite list_elem_of_singleton. naive_solver.
Qed.

Lemma reason_states_functional r s t : (r, s) ∈ reason_states -> (r, t) ∈ reason_states -> s = t.
Proof.
  unfold reason_states. rewrite !elem_of_cons, !elem_of_nil. intros H1 H2.
  repeat destruct H1 as [H1|H1]; simplify_eq; repeat destruct H2 as [H2|H2]; simplify_eq; done.
Qed.

Lemma state_of_worst cs :
  known_reasons cs ->
  (forall c s, c ∈ cs -> (cond_Reason c, s) ∈ reason_states -> (severity s <= severity (state_of cs))%nat) /\
  (cs <> [] -> exists c, c ∈ cs /\ (cond_Reason c, state_of cs) ∈ reason_states).
Proof.
  induction cs as [|c cs IH] using rev_ind.
  { intros _. split; [by intros ? ? ?%elem_of_nil|done]. }
  rewrite known_reasons_snoc. intros [[Hle Hex]%IH [s Hs]].
  rewrite state_of_snoc, (translateReasonToState_max _ _ _ Hs). split.
  - intros c' s' Hc Hs'. apply elem_of_app in Hc as [Hc|Hc%list_elem_of_singleton]; [|subst c'].
    + specialize (Hle _ _ Hc Hs'). destruct (Nat.leb_spec (severity (state_of cs)) (severity s)); lia.
    + rewrite (reason_states_functional _ _ _ Hs' Hs).
      destruct (Nat.leb_spec (severity (state_of cs)) (severity s)); lia.
  - intros _. destruct (Nat.leb_spec (severity (state_of cs)) (severity s)) as [|Hlt].
    + exists c. split; [set_solver|done].
    + destruct Hex as (c' & Hc' & ?); [by intros ->; simpl in Hlt; lia|].
      exists c'. split; [set_solver|done].
Qed.

(** Whether the cluster is ready. *)
Lemma readiness_ready cs :
  known_reasons cs ->
  (computeLVMClusterReadiness cs).2 = true <->
  cs <> [] /\ forall c, c ∈ cs -> (cond_Reason c, LVMStatusReady) ∈ reason_states.
Proof.
  intros Hk. unfold computeLVMClusterReadiness. simpl. change (foldl _ _ cs) with (state_of cs).
  destruct (state_of_worst cs Hk) as [Hle Hex]. rewrite bool_decide_eq_true. split.
  - intros Hr. split; [by intros ->|]. intros c Hc. destruct (Hk c Hc) as [s Hs].
    specialize (Hle _ _ Hc Hs). rewrite Hr in Hle. enough (s = LVMStatusReady) as -> by done.
    clear -Hs Hle. destruct s; simpl in *; try lia; [done|].
    unfold reason_states in Hs. rewrite !elem_of_cons, elem_of_nil in Hs. naive_solver.
  - intros [Hne Hall]. destruct (Hex Hne) as (c & Hc & Hs).
    eapply reason_states_functional; [exact Hs|by apply Hall].
Qed.

(** The state of a cluster is the worst of the states its conditions stand for (failed,
    degraded, progressing, ready), in whatever order they are listed; the cluster is ready
    exactly when it has conditions and all of them stand for readiness. *)
Theorem computeLVMClusterReadiness_correct cs :
  known_reasons cs ->
  (forall c s, c ∈ cs -> (cond_Reason c, s) ∈ reason_states ->
     (severity s <= severity (computeLVMClusterReadiness cs).1)%nat) /\
  (cs <> [] -> exists c, c ∈ cs /\ (cond_Reason c, (computeLVMClusterReadiness cs).1) ∈ reason_states) /\
  ((computeLVMClusterReadiness cs).2 = true <->
   cs <> [] /\ forall c, c ∈ cs -> (cond_Reason c, LVMStatusReady) ∈ reason_states).
Proof.
  intros Hk. destruct (state_of_worst cs Hk) as [Hle Hex]. do 2 (split; [done|]). by apply readiness_ready.
Qed.

(** ** Readiness of the device classes *)

Section Facts.
Context `{R : GoRuntime} `{K : K8s} `{S : StatusConditions}.

(** The node reports the device class as ready. *)
Definition reports_ready (items : list LVMVolumeGroupNodeStatus) (dc : DeviceClass) (node : Node) : Prop :=
  exists ns vs, ns ∈ items /\ om_Name (ns_meta ns) = node_Name node /\
    vs ∈ ns_LVMVGStatus ns /\ vs_Name vs = dc_Name dc /\ vs_Status vs = VGStatusReady.

(** The names in a list of node statuses are unique, as are the names of the volume groups of
    each node. *)
Definition unique_names (items : list LVMVolumeGroupNodeStatus) : Prop :=
  NoDup (om_Name <$> (ns_meta <$> items)) /\ forall ns, ns ∈ items -> NoDup (vs_Name <$> ns_LVMVGStatus ns).

Lemma find_first_unique {A} (key : A -> string) (name : string) (l : list A) x :
  NoDup (key <$> l) -> x ∈ l -> key x = name ->
  find_first (fun y => String.eqb (key y) name) l = Some x.
Proof.
  induction l as [|y l IH]; csimpl; [by intros _ ?%elem_of_nil|].
  rewrite NoDup_cons, elem_of_cons. intros [Hn Hd] [->|Hx] Hk.
  - subst. by rewrite String.eqb_refl.
  - destruct (String.eqb_spec (key y) name) as [He|]; [|by apply IH].
    exfalso. apply Hn. rewrite He, <- Hk. by apply list_elem_of_fmap_2.
Qed.

Lemma find_first_ext {A} (f g : A -> bool) l : (forall x, f x = g x) -> find_first f l = find_first g l.
Proof. intros H. induction l as [|x l IH]; simpl; [done|]. by rewrite H, IH. Qed.

Lemma checkNodeStatus_None items dc node :
  unique_names items -> checkNodeStatus items dc node = None <-> reports_ready items dc node.
Proof.
  intros [Hn Hv]. unfold checkNodeStatus.
  rewrite (find_first_ext _ (fun ns => String.eqb (om_Name (ns_meta ns)) (node_Name node)))
    by (intros; apply String.eqb_sym).
  split.
  - destruct (find_first _ items) as [ns|] eqn:Hns; [|done]. apply find_first_Some in Hns as [? ?].
    destruct (find_first _ (ns_LVMVGStatus ns)) as [vs|] eqn:Hvs; [|done]. apply find_first_Some in Hvs as [? ?].
    case_bool_decide; [|done]. intros _. bools. exists ns, vs. done.
  - intros (ns & vs & Hns & Hname & Hvs & Hvn & Hs).
    rewrite <- list_fmap_compose in Hn.
    rewrite (find_first_unique (fun ns => om_Name (ns_meta ns)) _ _ ns); [|done..].
    rewrite (find_first_unique vs_Name _ _ vs); [|by apply Hv|done..]. by rewrite bool_decide_eq_true_2.
Qed.

Lemma checkNodes_None cluster items dc nodes found :
  unique_names items ->
  checkNodes cluster items dc nodes found = None <->
  (forall node, node ∈ nodes -> exists b, isNodeValid node cluster dc = Ok b /\ (b = true -> reports_ready items dc node)) /\
  (found = true \/ exists node, node ∈ nodes /\ isNodeValid node cluster dc = Ok true).
Proof.
  intros Hu. revert found. induction nodes as [|node nodes IH]; intros found; simpl.
  { setoid_rewrite elem_of_nil. destruct found; simpl; naive_solver. }
  setoid_rewrite elem_of_cons.
  destruct (isNodeValid node cluster dc) as [[]|err] eqn:Hv.
  - rewrite orElse_None, (checkNodeStatus_None _ _ _ Hu), IH. split.
    + intros [Hr [Hall _]]. split; [|right; exists node; by split; [left|]].
      intros n [->|Hn]; [by exists true|by apply Hall].
    + intros [Hall _]. split; [|split; [intros n Hn; apply Hall; by right|by left]].
      destruct (Hall node) as (b & Hb & Hr); [by left|]. apply Hr. congruence.
  - rewrite IH. split; intros [Hall Hex]; (split; [|destruct Hex as [|(n & Hn & Hok)]; [by left|right]]).
    + intros n [->|Hn]; [by exists false|by apply Hall].
    + exists n. by split; [right|].
    + intros n Hn. apply Hall. by right.
    + destruct Hn as [->|Hn]; [congruence|by exists n].
  - split; [done|]. intros [Hall _]. destruct (Hall node) as (b & Hb & _); [by left|congruence].
Qed.

(** The check looks at the specification of the cluster only. *)
Lemma checkNodes_spec l l' items dc nodes found :
  lc_Spec l = lc_Spec l' -> checkNodes l items dc nodes found = checkNodes l' items dc nodes found.
Proof.
  intros H. revert found. induction nodes as [|n nodes IH]; intros found; simpl; [done|].
  assert (isNodeValid n l dc = isNodeValid n l' dc) as -> by (unfold isNodeValid; by rewrite H).
  destruct (isNodeValid n l' dc) as [[]|]; by rewrite ?IH.
Qed.

Lemma validateDeviceClassSetup_spec l l' nodes items :
  lc_Spec l = lc_Spec l' -> validateDeviceClassSetup l nodes items = validateDeviceClassSetup l' nodes items.
Proof.
  intros H. unfold validateDeviceClassSetup, deviceClasses. rewrite H.
  induction (st_DeviceClasses _) as [|dc dcs IH]; simpl; [done|]. by rewrite IH, (checkNodes_spec l l' _ _ _ _ H).
Qed.

(** C22: if the names of the node statuses, and those of the volume groups in each of them, are
    unique, the setup of a cluster is complete exactly when for every device class (1) each of the
    listed nodes can be checked without an error, which an untolerated taint for a node that is not
    ready or a selector that cannot be matched prevents, (2) each of them that is valid (it
    tolerates the taints and matches the selector of the class) reports the volume group of the
    class as ready, and (3) at least one of them is valid. *)
Theorem validateDeviceClassSetup_correct cluster nodes items :
  unique_names items ->
  validateDeviceClassSetup cluster nodes items = None <->
  forall dc, dc ∈ deviceClasses cluster ->
    (forall node, node ∈ nodes ->
       exists b, isNodeValid node cluster dc = Ok b /\ (b = true -> reports_ready items dc node)) /\
    exists node, node ∈ nodes /\ isNodeValid node cluster dc = Ok true.
Proof.
  intros Hu. unfold validateDeviceClassSetup. rewrite first_error_None, Forall_forall.
  setoid_rewrite (fun dc => checkNodes_None cluster items dc nodes false Hu). naive_solver.
Qed.

(** While the setup is incomplete and no volume group failed or degraded, the conditions stay as they
    are; if they are those of an earlier reconciliation, the cluster is reported as ready. *)
Lemma stale_conditions_ready cluster nodes items err m1 m2 :
  validateDeviceClassSetup cluster nodes items = Some err -> scanStatuses (flat_map ns_LVMVGStatus items) false = Some false ->
  (computeLVMClusterReadiness (setVolumeGroupsReadyCondition cluster nodes items
    [mkCondition ResourcesAvailable true ReasonResourcesAvailable m1; mkCondition VolumeGroupsReady true ReasonVGsReady m2])).2 = true.
Proof. intros Hv Hs. unfold setVolumeGroupsReadyCondition. by rewrite Hv, Hs. Qed.

(** ** The statuses of the device classes *)

(** What the nodes report for a volume group, in the order of the node statuses. *)
Definition reported (name : string) (items : list LVMVolumeGroupNodeStatus) : list NodeStatus :=
  flat_map (fun ns => map (mkNodeStatus (om_Name (ns_meta ns)))
    (List.filter (fun vs => String.eqb (vs_Name vs) name) (ns_LVMVGStatus ns))) items.

Definition nonempty {A} (l : list A) : option (list A) := match l with [] => None | _ => Some l end.

Lemma nonempty_app {A} (l : list A) x : nonempty (l ++ [x]) = Some (l ++ [x]).
Proof. by destruct l. Qed.

Lemma default_nonempty {A} (l : list A) : default [] (nonempty l) = l.
Proof. by destruct l. Qed.

Lemma addNodeStatus_fold node vss m done_ :
  (forall name, m !! name = nonempty (done_ name)) ->
  forall name, foldl (addNodeStatus node) m vss !! name =
    nonempty (done_ name ++ map (mkNodeStatus node) (List.filter (fun vs => String.eqb (vs_Name vs) name) vss)).
Proof.
  revert m done_. induction vss as [|vs vss IH]; intros m acc Hm name; simpl.
  { by rewrite app_nil_r. }
  rewrite (IH _ (fun n => acc n ++ if String.eqb (vs_Name vs) n then [mkNodeStatus node vs] else [])).
  - destruct (String.eqb (vs_Name vs) name); simpl; by rewrite <- ?app_assoc, ?app_nil_r.
  - intros n. unfold addNodeStatus. destruct (String.eqb_spec (vs_Name vs) n) as [->|Hne].
    + by rewrite lookup_insert_eq, Hm, default_nonempty, nonempty_app.
    + by rewrite lookup_insert_ne, app_nil_r.
Qed.

Lemma statuses_fold items m done_ :
  (forall name, m !! name = nonempty (done_ name)) ->
  forall name, foldl (fun m ns => foldl (addNodeStatus (om_Name (ns_meta ns))) m (ns_LVMVGStatus ns)) m items !! name =
    nonempty (done_ name ++ reported name items).
Proof.
  revert m done_. induction items as [|ns items IH]; intros m acc Hm name; simpl.
  { by rewrite app_nil_r. }
  rewrite (IH _ _ (addNodeStatus_fold _ _ _ _ Hm)). by rewrite <- app_assoc.
Qed.

(** The device class statuses of a cluster list every volume group some node reports exactly
    once, with exactly the reports of the nodes on it, in their order. *)
Theorem computeDeviceClassStatuses_correct items :
  NoDup (dcs_Name <$> computeDeviceClassStatuses items) /\
  forall s, s ∈ computeDeviceClassStatuses items <->
    dcs_NodeStatus s = reported (dcs_Name s) items /\ dcs_NodeStatus s <> [].
Proof.
  unfold computeDeviceClassStatuses. set (m := foldl _ ∅ items).
  assert (Hm : forall name, m !! name = nonempty (reported name items)).
  { intros name. apply (statuses_fold items ∅ (fun _ => [])). intros. apply lookup_empty. }
  split.
  - change (map ?f ?l) with (f <$> l). rewrite <- list_fmap_compose. unfold compose. simpl.
    rewrite map_range_perm. apply NoDup_fst_map_to_list.
  - intros [name l]. change (map ?f ?l) with (f <$> l). rewrite list_elem_of_fmap. simpl. split.
    + intros ([k v] & Heq & H). simplify_eq/=. rewrite map_range_elem, elem_of_map_to_list, Hm in H.
      unfold nonempty in H. destruct (reported k items); [done|]. by simplify_eq.
    + intros [-> Hne]. exists (name, reported name items). split; [done|].
      rewrite map_range_elem, elem_of_map_to_list, Hm. by destruct (reported name items).
Qed.

(** ** The nodes of a cluster *)

(** The node satisfies the selector of the device class. *)
Definition class_selects (dc : DeviceClass) (node : Node) : Prop :=
  match dc_NodeSelector dc with
  | None => True
  | Some sel => MatchNodeSelectorTerms node (NodeSelectorTerms sel) = Ok true
  end.

Definition tolerated (l : LVMCluster) (node : Node) : Prop :=
  (ToleratesAllTaints (node_Taints node) (lcs_Tolerations (lc_Spec l))).1 = true.

Definition selected (sel : option NodeSelector) (tolerations : list Toleration) (node : Node) : Prop :=
  (ToleratesAllTaints (node_Taints node) tolerations).1 = true /\
  match sel with None => True | Some s => MatchNodeSelectorTerms node (NodeSelectorTerms s) = Ok true end.

Lemma selectNodes_elem sel tolerations nodes valid errs r n :
  selectNodes sel tolerations nodes valid errs = Ok r ->
  n ∈ r.1 <-> n ∈ valid \/ n ∈ nodes /\ selected sel tolerations n.
Proof.
  revert valid errs. induction nodes as [|node nodes IH]; intros valid errs; simpl.
  { intros [= <-]. simpl. rewrite elem_of_nil. naive_solver. }
  rewrite elem_of_cons. unfold selected in *.
  destruct (ToleratesAllTaints (node_Taints node) tolerations) as [[] err] eqn:Ht; simpl.
  - destruct sel as [s|]; [|intros H; rewrite (IH _ _ H), elem_of_app, list_elem_of_singleton].
    + destruct (MatchNodeSelectorTerms node _) as [[]|] eqn:Hm; intros H; [| |done];
        rewrite (IH _ _ H), ?elem_of_app, ?list_elem_of_singleton.
      * split; [|naive_solver]. intros [[?| ->]|?]; [by left| |naive_solver].
        right. rewrite Ht. naive_solver.
      * split; [naive_solver|]. intros [?|[[->|?] [? ?]]]; [by left|congruence|naive_solver].
    + split; [|naive_solver]. intros [[?| ->]|?]; [by left| |naive_solver]. right. rewrite Ht. naive_solver.
  - intros H. rewrite (IH _ _ H). split; [naive_solver|].
    intros [?|[[->|?] [Hx ?]]]; [by left|by rewrite Ht in Hx|naive_solver].
Qed.

Lemma selectNodes_Ok sel tolerations nodes valid errs :
  (forall n s, n ∈ nodes -> sel = Some s -> exists b, MatchNodeSelectorTerms n (NodeSelectorTerms s) = Ok b) ->
  exists r, selectNodes sel tolerations nodes valid errs = Ok r.
Proof.
  revert valid errs. induction nodes as [|node nodes IH]; intros valid errs H; simpl; [by eexists|].
  assert (Hn : forall n s, n ∈ nodes -> sel = Some s -> exists b, MatchNodeSelectorTerms n (NodeSelectorTerms s) = Ok b).
  { intros. apply H; [by apply list_elem_of_further|done]. }
  destruct (ToleratesAllTaints _ _) as [[] err]; simpl; [|by apply IH].
  destruct sel as [s|]; [|by apply IH].
  destruct (H node s (list_elem_of_here _ _) eq_refl) as [b ->]. by apply IH.
Qed.

(** Documented behaviour of node selectors: the terms are alternatives. *)
Class NodeSelectorLaws := {
  Match_nil : forall node, MatchNodeSelectorTerms node [] = Ok false;
  Match_app : forall node ts us b c,
    MatchNodeSelectorTerms node ts = Ok b -> MatchNodeSelectorTerms node us = Ok c ->
    MatchNodeSelectorTerms node (ts ++ us) = Ok (b || c);
}.

(** No selector of the classes fails to be evaluated on the node. *)
Definition selectors_evaluate (dcs : list DeviceClass) (node : Node) : Prop :=
  forall dc sel, dc ∈ dcs -> dc_NodeSelector dc = Some sel ->
    exists b, MatchNodeSelectorTerms node (NodeSelectorTerms sel) = Ok b.

Lemma collectTerms_None dcs acc : collectTerms dcs acc = None <-> exists dc, dc ∈ dcs /\ dc_NodeSelector dc = None.
Proof.
  revert acc. induction dcs as [|dc dcs IH]; intros acc; simpl.
  { setoid_rewrite elem_of_nil. naive_solver. }
  setoid_rewrite elem_of_cons. destruct (dc_NodeSelector dc) as [sel|] eqn:Hs; [|naive_solver].
  rewrite IH. split; [naive_solver|]. intros (d & [->|?] & ?); [congruence|naive_solver].
Qed.

Lemma collectTerms_match `{L : NodeSelectorLaws} dcs acc ts node b :
  selectors_evaluate dcs node -> MatchNodeSelectorTerms node acc = Ok b -> collectTerms dcs acc = Some ts ->
  exists c, MatchNodeSelectorTerms node ts = Ok c /\
    (c = true <-> b = true \/ exists dc, dc ∈ dcs /\ class_selects dc node).
Proof.
  revert acc b. induction dcs as [|dc dcs IH]; intros acc b He Hb; simpl.
  { intros [= <-]. exists b. setoid_rewrite elem_of_nil. naive_solver. }
  destruct (dc_NodeSelector dc) as [sel|] eqn:Hs; [|done]. intros Hts.
  destruct (He dc sel (list_elem_of_here _ _) Hs) as [c Hc].
  destruct (IH (acc ++ NodeSelectorTerms sel) (b || c)) as (c' & Hc' & Hiff); [| |done|].
  { intros d s Hd. apply He. by apply list_elem_of_further. }
  { by apply Match_app. }
  exists c'. split; [done|]. rewrite Hiff, orb_true_iff. setoid_rewrite elem_of_cons.
  assert (class_selects dc node <-> c = true) as Hdc.
  { unfold class_selects. rewrite Hs, Hc. naive_solver. }
  split; [|naive_solver]. intros [[?|?%Hdc]|(d & ? & ?)]; [by left| |]; right; naive_solver.
Qed.

Lemma collectTerms_grows dcs acc ts : collectTerms dcs acc = Some ts -> (length acc <= length ts)%nat.
Proof.
  revert acc. induction dcs as [|dc dcs IH]; intros acc; simpl; [by intros [= ->]|].
  destruct (dc_NodeSelector dc); [|done]. intros H%IH. rewrite length_app in H. lia.
Qed.

Lemma collectTerms_nonempty dcs ts :
  dcs <> [] -> (forall dc sel, dc ∈ dcs -> dc_NodeSelector dc = Some sel -> NodeSelectorTerms sel <> []) ->
  collectTerms dcs [] = Some ts -> ts <> [].
Proof.
  destruct dcs as [|dc dcs]; [done|]. intros _ Hne. simpl.
  destruct (dc_NodeSelector dc) as [sel|] eqn:Hs; [|done]. intros H%collectTerms_grows ->.
  apply (Hne dc sel (list_elem_of_here _ _) Hs). simpl in H.
  destruct (NodeSelectorTerms sel); [done|simpl in H; lia].
Qed.

(** The merged selector: none when some class covers every node, otherwise one that matches
    exactly the nodes some class selects. *)
Lemma extracted_selects `{L : NodeSelectorLaws} l node :
  deviceClasses l <> [] ->
  (forall dc sel, dc ∈ deviceClasses l -> dc_NodeSelector dc = Some sel -> NodeSelectorTerms sel <> []) ->
  selectors_evaluate (deviceClasses l) node ->
  match (ExtractNodeSelectorAndTolerations l).1 with
  | None => exists dc, dc ∈ deviceClasses l /\ class_selects dc node
  | Some sel => exists c, MatchNodeSelectorTerms node (NodeSelectorTerms sel) = Ok c /\
      (c = true <-> exists dc, dc ∈ deviceClasses l /\ class_selects dc node)
  end.
Proof.
  intros Hne Hterms Heval. unfold ExtractNodeSelectorAndTolerations.
  destruct (collectTerms (deviceClasses l) []) as [ts|] eqn:Hts; simpl.
  - pose proof (collectTerms_nonempty _ _ Hne Hterms Hts) as Hts0. destruct ts as [|t ts]; [done|]. simpl.
    destruct (collectTerms_match _ [] _ node false Heval (Match_nil node) Hts) as (c & Hc & Hiff).
    exists c. split; [done|]. rewrite Hiff. naive_solver.
  - apply collectTerms_None in Hts as (dc & Hdc & Hsel). exists dc. split; [done|]. unfold class_selects. by rewrite Hsel.
Qed.

(** The nodes of a cluster are exactly the nodes that tolerate the taints and satisfy the
    selector of at least one device class: no node a class covers is forgotten, and none is
    added, although the selectors of all classes are merged into one. *)
Theorem ValidNodes_correct `{L : NodeSelectorLaws} l nodes node :
  deviceClasses l <> [] ->
  (forall dc sel, dc ∈ deviceClasses l -> dc_NodeSelector dc = Some sel -> NodeSelectorTerms sel <> []) ->
  (forall n, n ∈ nodes -> selectors_evaluate (deviceClasses l) n) ->
  node ∈ (ValidNodes l nodes).1 <->
  node ∈ nodes /\ tolerated l node /\ exists dc, dc ∈ deviceClasses l /\ class_selects dc node.
Proof.
  intros Hne Hterms Heval. pose proof (fun n Hn => extracted_selects l n Hne Hterms (Heval n Hn)) as Hsel.
  unfold ValidNodes. destruct (ExtractNodeSelectorAndTolerations l) as [sel tolerations] eqn:Hx. simpl in Hsel.
  assert (tolerations = lcs_Tolerations (lc_Spec l)) as -> by (unfold ExtractNodeSelectorAndTolerations in Hx; by simplify_eq).
  destruct (selectNodes_Ok sel (lcs_Tolerations (lc_Spec l)) nodes [] []) as [[vs es] Hr].
  { intros n s Hn ->. destruct (Hsel n Hn) as (c & ? & _). by exists c. }
  rewrite Hr. simpl. pose proof (selectNodes_elem _ _ _ _ _ _ node Hr) as Hv. simpl in Hv.
  rewrite Hv, elem_of_nil. unfold selected, tolerated.
  split; [intros [[]|(Hn & Ht & Hok)]|intros (Hn & Ht & Hdc); right]; specialize (Hsel node Hn);
    repeat (split; [done|]); destruct sel as [s|]; try done; destruct Hsel as (c & Hc & Hiff).
  - apply Hiff. congruence.
  - rewrite Hc. f_equal. by apply Hiff.
Qed.
End Facts.
