(* ===== verification/ClusterEnv.v ===== *)
(** The environment of the LVMCluster controller: the fields of its Reconciler
    (internal/controllers/lvmcluster/controller.go), the Kubernetes client, the resource
    managers (resource/manager.go) and the process environment, as families of events. *)

From S2P Require Import Prelude GoStd Effects Api VgEnv Objects.

(** cluster.Type *)
Inductive ClusterType := TypeOCP | TypeOther | TypeMicroShift.
#[export] Instance ClusterType_eq_dec : EqDecision ClusterType.
Proof. solve_decision. Defined.

(** logpassthrough.KlogOptions, ZapOptions and VGmanagerOptions *)
Record KlogOptions := mkKlogOptions { klog_V : string; klog_VModule : string }.
Record ZapOptions := mkZapOptions { ZapLogLevel : string }.
Record VGmanagerOptions := mkVGmanagerOptions { vgo_KlogOptions : KlogOptions; vgo_ZapOptions : ZapOptions }.

(** The configuration of the Reconciler; its ImageName is found out at run time. *)
Record ClusterReconciler := mkClusterReconciler {
  cr_ClusterType : ClusterType;
  cr_EnableSnapshotting : bool;
  cr_Namespace : string;
  cr_VGManagerCommand : list string;
  cr_LogPassthroughOptions : VGmanagerOptions;
}.

(** The kinds of objects that are read, deleted and created by name. *)
Inductive Kind :=
| KindStorageClass | KindVolumeSnapshotClass | KindCSIDriver | KindSCC | KindServiceMonitor | KindDaemonSet
| KindNetworkPolicy | KindCRD | KindVolumeGroup | KindNodeStatus.
#[export] Instance Kind_eq_dec : EqDecision Kind.
Proof. solve_decision. Defined.

(** A TopoLVM LogicalVolume, as far as the controller looks at it. *)
Record TopoLogicalVolume := mkTopoLogicalVolume {
  tlv_Name : string; tlv_NodeName : string; tlv_Finalizers : list string;
}.

(** The resource managers of the controller. *)
Inductive ManagerId :=
| NetworkPolicies | CSIDriver | VGManager | LVMVGs | LVMVGNodeStatus | TopoLVMStorageClass | CSINode
| ServiceMonitor | OpenShiftSCCs | TopoLVMVolumeSnapshotClass.
#[export] Instance ManagerId_eq_dec : EqDecision ManagerId.
Proof. solve_decision. Defined.

Definition GetName (m : ManagerId) : string :=
  match m with
  | NetworkPolicies => "networkPolicies"
  | CSIDriver => "topolvm-csi-driver"
  | VGManager => "vg-manager"
  | LVMVGs => "lvmvg-manager"
  | LVMVGNodeStatus => "lvmvgnodestatus"
  | TopoLVMStorageClass => "topolvm-storageclass"
  | CSINode => "topolvm-csi-node-registrations"
  | ServiceMonitor => "lvms-operator-metrics-monitor"
  | OpenShiftSCCs => "topolvm-scc"
  | TopoLVMVolumeSnapshotClass => "topolvm-volumeSnapshotClass"
  end.

Section ClusterEnv.
Context `{K : K8s}.

(** The objects of a kind; of a CustomResourceDefinition only the metadata are used. *)
Definition object (k : Kind) : Type :=
  match k with
  | KindStorageClass => StorageClass
  | KindVolumeSnapshotClass => VolumeSnapshotClass
  | KindCSIDriver => CSIDriverObject
  | KindSCC => SecurityContextConstraints
  | KindServiceMonitor => ServiceMonitorObject
  | KindDaemonSet => DaemonSet
  | KindNetworkPolicy => NetworkPolicy
  | KindCRD => ObjectMeta
  | KindVolumeGroup => LVMVolumeGroup
  | KindNodeStatus => LVMVolumeGroupNodeStatus
  end.

(** The Kubernetes client. An update answers with the object as the API server stored it.
    The lists of claims and volumes are the names of those that use a storage class, limited
    to one entry. [CreateOrUpdate] is controllerutil.CreateOrUpdate on [initial]: it loads the
    object of that name into [initial], or leaves it when there is none, applies [mutate] to it
    and stores the result; it answers with the object. The first argument of [mutate] is
    whether the creation timestamp of the object is zero. *)
Inductive kubeE : Type -> Type :=
| ListClusters (namespace : string) : kubeE (result error (list LVMCluster))
| GetCluster (namespace name : string) : kubeE (result error LVMCluster)
| UpdateCluster (l : LVMCluster) : kubeE (result error LVMCluster)
| UpdateClusterStatus (l : LVMCluster) : kubeE (option error)
| GetPodContainers (namespace name : string) : kubeE (result error (list Container))
| ListNodes : kubeE (result error (list Node))
| GetNode (name : string) : kubeE (result error Node)
| GetCSINode (name : string) : kubeE (result error CSINodeObject)
| ListStorageClasses : kubeE (result error (list ObjectMeta))
| ApplyStorageClass (sc : StorageClass) (fieldOwner : string) : kubeE (option error)
| ListPods (namespace : string) (labels : gmap string string) : kubeE (result error (list string))
| ReadNodeStatus (namespace name : string) : kubeE (result error LVMVolumeGroupNodeStatus)
| UpdateNodeStatus (status : LVMVolumeGroupNodeStatus) : kubeE (option error)
| CreateOrUpdate (k : Kind) (initial : object k) (mutate : bool -> object k -> result error (object k))
    : kubeE (result error (object k))
| ListVolumeGroups (namespace : string) : kubeE (result error (list LVMVolumeGroup))
| UpdateGroup (vg : LVMVolumeGroup) : kubeE (result error LVMVolumeGroup)
| ListNodeStatuses (namespace : string) : kubeE (result error (list LVMVolumeGroupNodeStatus))
| ListLogicalVolumes : kubeE (result error (list TopoLogicalVolume))
| UpdateLogicalVolume (lv : TopoLogicalVolume) : kubeE (option error)
| ListPVCs (storageClassName : string) : kubeE (result error (list string))
| ListPVs (storageClassName : string) : kubeE (result error (list string))
| GetMeta (k : Kind) (namespace name : string) : kubeE (result error ObjectMeta)
| DeleteObject (k : Kind) (namespace name : string) : kubeE (option error).

(** The resource managers. [EnsureCreatedAll] is the concurrent section of reconcile: one
    goroutine per manager, the answers received from a channel; it answers with the errors
    in the order of their arrival. *)
Inductive managerE : Type -> Type :=
| EnsureDeleted (m : ManagerId) (l : LVMCluster) : managerE (option error)
| EnsureCreatedAll (ms : list ManagerId) (l : LVMCluster) : managerE (list error).

(** Environment variables, the event recorder and the verbosity of the logger. *)
Inductive operatorE : Type -> Type :=
| Getenv (name : string) : operatorE string
| ClusterEventf (warning : bool) (reason note : string) : operatorE unit
| VerboseLog : operatorE bool.

Inductive clusterE : Type -> Type :=
| OfKube X (e : kubeE X) : clusterE X
| OfManager X (e : managerE X) : clusterE X
| OfOperator X (e : operatorE X) : clusterE X.

Definition kube {X} (e : kubeE X) : prog clusterE X := call (OfKube X e).

Definition with_lc_meta (l : LVMCluster) (m : ObjectMeta) : LVMCluster :=
  {| lc_meta := m; lc_Spec := lc_Spec l; lc_Status := lc_Status l |}.

Definition with_conditions (f : list Condition -> list Condition) (l : LVMCluster) : LVMCluster :=
  {| lc_meta := lc_meta l; lc_Spec := lc_Spec l;
     lc_Status := {| lst_Ready := lst_Ready (lc_Status l); lst_State := lst_State (lc_Status l);
                     lst_Conditions := f (lst_Conditions (lc_Status l));
                     lst_DeviceClassStatuses := lst_DeviceClassStatuses (lc_Status l) |} |}.
End ClusterEnv.

(** What the memory of the finalizers of an object holds after controllerutil.RemoveFinalizer
    took one out and the answer to the update was decoded into the object: [memory_after
    memory finalizer answered]. Both may reuse the memory a loop is ranging over. *)
Class FinalizerMemory := {
  memory_after : list string -> string -> list string -> list string;
}.
