(* ===== verification/ClusterController.v ===== *)
(** The LVMCluster controller (internal/controllers/lvmcluster/controller.go).

    Functions that change the cluster object they are given return it. The image name the
    Reconciler remembers is passed as state. *)

From S2P Require Import Prelude GoStd Effects Api VgEnv VgController Objects ClusterStatus ClusterEnv.

Definition EventReasonErrorDeletionPending := "DeletionPending".
Definition EventReasonErrorResourceReconciliationIncomplete := "ResourceReconciliationIncomplete".
Definition EventReasonResourceReconciliationSuccess := "ResourceReconciliationSuccess".
Definition lvmClusterFinalizer := "lvmcluster.topolvm.io".
Definition podNameEnv := "NAME".
Definition LVMOperatorContainerName := "manager".
Definition VolumeSnapshotClassPrefix := "lvms-".
Definition logicalVolumeFinalizer := "topolvm.io/logicalvolume".

(** resource/utils.go *)
Definition GetStorageClassName (deviceName : string) : string := StorageClassPrefix +:+ deviceName.
Definition GetVolumeSnapshotClassName (deviceName : string) : string := VolumeSnapshotClassPrefix +:+ deviceName.

(** [waitForDeletion], in seconds. *)
Definition waitForDeletion : Z := 10.

Section ClusterController.
Context `{R : GoRuntime} `{K : K8s} `{C : !ControllerUtil} `{S : StatusConditions} `{O : ControllerRefs} `{F : FinalizerMemory}.
Variable r : ClusterReconciler.

Definition ClusterWarningEvent (reason : string) (err : error) : prog clusterE unit :=
  call (OfOperator _ (ClusterEventf true reason (Error err))).

Definition ClusterNormalEvent (reason message : string) : prog clusterE unit :=
  enabled <- call (OfOperator _ VerboseLog);;
  if (enabled : bool) then call (OfOperator _ (ClusterEventf false reason message)) else Ret tt.

(** The image name, known or looked up in the operator pod. *)
Definition setRunningPodImage (imageName : string) : prog clusterE (result error string) :=
  if String.eqb imageName "" then
    podName <- call (OfOperator _ (Getenv podNameEnv));;
    if String.eqb podName "" then
      Ret (Err (EFmt ("failed to get pod name env variable, " +:+ podNameEnv +:+ " env variable is not set") []))
    else
      try containers := kube (GetPodContainers (cr_Namespace r) podName)
        catch err => Ret (Err (wrapErr ("failed to get pod " +:+ podName) err)) in
      Ret match find_first (fun c => String.eqb (ct_Name c) LVMOperatorContainerName) containers with
          | Some c => Ok (ct_Image c)
          | None => Err (EFmt ("failed to get container image for " +:+ LVMOperatorContainerName +:+
                               " in pod " +:+ podName) [])
          end
  else Ret (Ok imageName).

(** * Status *)

Definition finishStatus (instance : LVMCluster) (statuses : list DeviceClassStatus) : LVMCluster :=
  let '(state, ready) := computeLVMClusterReadiness (lst_Conditions (lc_Status instance)) in
  {| lc_meta := lc_meta instance; lc_Spec := lc_Spec instance;
     lc_Status := {| lst_Ready := ready; lst_State := state;
                     lst_Conditions := lst_Conditions (lc_Status instance);
                     lst_DeviceClassStatuses := statuses |} |}.

Definition writeStatus (instance : LVMCluster) : prog clusterE (option error) :=
  guard kube (UpdateClusterStatus instance)
    catch err => Ret (Some (wrapErr "failed to update LVMCluster status" err)) in
  Ret None.

Definition updateLVMClusterStatus (instance : LVMCluster) : prog clusterE (option error) :=
  if (length (deviceClasses instance) =? 0)%nat then
    writeStatus (finishStatus (with_conditions setVolumeGroupsReadyConditionUnmanaged instance)
                   (lst_DeviceClassStatuses (lc_Status instance)))
  else
    try items := kube (ListNodeStatuses (cr_Namespace r))
      catch err => Ret (Some (wrapErr "failed to list LVMVolumeGroupNodeStatus" err)) in
    try nodes := kube ListNodes
      catch err => Ret (Some (wrapErr "failed to list Nodes" err)) in
    writeStatus (finishStatus (with_conditions (setVolumeGroupsReadyCondition instance nodes items) instance)
                   (computeDeviceClassStatuses items)).

(** * Removed device classes *)

(** Deletes an object that exists and is not being deleted. *)
Definition deleteIfPresent (k : Kind) (name what kindName : string) : prog clusterE (option error) :=
  res <- kube (GetMeta k "" name);;
  match res with
  | Err err => Ret (if IsNotFound err then None else Some (EFmt (what +:+ Error err) [err]))
  | Ok meta =>
      match om_DeletionTimestamp meta with
      | Some _ => Ret None
      | None =>
          guard kube (DeleteObject k "" name)
            catch err => Ret (Some (wrapErr ("failed to delete " +:+ kindName +:+ " " +:+ name) err)) in
          Ret None
      end
  end.

Definition deleteOrphan (instance : LVMCluster) (currentVG : LVMVolumeGroup) (_ : unit) : prog clusterE (unit + error) :=
  if negb (IsControlledBy (lvg_meta currentVG) (lc_meta instance)) then Ret (inl tt)
  else if contains_str (map dc_Name (deviceClasses instance)) (lvg_Name currentVG) then Ret (inl tt)
  else
    guard deleteIfPresent KindStorageClass (GetStorageClassName (lvg_Name currentVG))
            "failed to get storage class, " "StorageClass"
      catch err => Ret (inr err) in
    guard (if cr_EnableSnapshotting r
           then deleteIfPresent KindVolumeSnapshotClass (GetVolumeSnapshotClassName (lvg_Name currentVG))
                  "failed to get volume snapshot class: " "VolumeSnapshotClass"
           else Ret None)
      catch err => Ret (inr err) in
    match om_DeletionTimestamp (lvg_meta currentVG) with
    | Some _ => Ret (inl tt)
    | None =>
        guard kube (DeleteObject KindVolumeGroup (om_Namespace (lvg_meta currentVG)) (lvg_Name currentVG))
          catch err => Ret (inr (wrapErr ("failed to delete orphaned LVMVolumeGroup " +:+ lvg_Name currentVG) err)) in
        Ret (inl tt)
    end.

Definition checkForDeletedDeviceClasses (instance : LVMCluster) : prog clusterE (option error) :=
  try currentVGs := kube (ListVolumeGroups (cr_Namespace r))
    catch err => Ret (Some (wrapErr "failed to list existing LVMVolumeGroups" err)) in
  res <- for_each (deleteOrphan instance) currentVGs tt;;
  Ret match res with inl _ => None | inr err => Some err end.

(** * Reconciliation *)

Definition resourcesToCreate : list ManagerId :=
  [NetworkPolicies; CSIDriver; VGManager; LVMVGs; LVMVGNodeStatus; TopoLVMStorageClass; CSINode; ServiceMonitor] ++
  (if bool_decide (cr_ClusterType r = TypeOCP) then [OpenShiftSCCs] else []) ++
  (if cr_EnableSnapshotting r then [TopoLVMVolumeSnapshotClass] else []).

(** The finalizer is added; the object is then as the API server answered. *)
Definition addClusterFinalizer (instance : LVMCluster) : prog clusterE (result error LVMCluster) :=
  let '(finalizers, updated) := AddFinalizer (om_Finalizers (lc_meta instance)) lvmClusterFinalizer in
  if (updated : bool) then
    try instance := kube (UpdateCluster (with_lc_meta instance (with_finalizers (lc_meta instance) finalizers)))
      catch err => Ret (Err (wrapErr "failed to update LvmCluster with finalizer" err)) in
    Ret (Ok instance)
  else Ret (Ok instance).

Definition reconcileCluster (instance : LVMCluster) : prog clusterE (Result * option error) :=
  let instance := with_conditions setResourcesAvailableConditionInProgress instance in
  let instance := with_conditions setVolumeGroupsReadyConditionInProgress instance in
  try instance := addClusterFinalizer instance catch err => Ret (emptyResult, Some err) in
  errs <- call (OfManager _ (EnsureCreatedAll resourcesToCreate instance));;
  if (0 <? length errs)%nat then
    let err := wrapErr "LVMCluster's resources are not yet fully synchronized" (errors_Join errs) in
    ClusterWarningEvent EventReasonErrorResourceReconciliationIncomplete err;;
    updateLVMClusterStatus (with_conditions (setResourcesAvailableConditionFalse err) instance);;
    Ret (emptyResult, Some err)
  else
    guard checkForDeletedDeviceClasses instance
      catch err => Ret (emptyResult, Some (EFmt ("failed to check for deleted device classes, " +:+ Error err) [err])) in
    ClusterNormalEvent EventReasonResourceReconciliationSuccess "successfully reconciled LVMCluster";;
    guard updateLVMClusterStatus (with_conditions setResourcesAvailableConditionTrue instance)
      catch err => Ret (emptyResult, Some err) in
    Ret (mkResult true 60, None).

(** * Deletion *)

Definition clusterNodes : prog clusterE (result error (gset string)) :=
  try nodes := kube ListNodes catch err => Ret (Err (wrapErr "failed to get node list" err)) in
  Ret (Ok (list_to_set (map node_Name nodes))).

(** One step of the loop over the finalizers of a volume group. The loop ranges over the
    finalizers [memory] of the volume group while they are changed. *)
Definition checkFinalizer (nodes : gset string) (i : nat) (state : list string * LVMVolumeGroup)
  : prog clusterE (list string * LVMVolumeGroup + error) :=
  let '(memory, vg) := state in
  let finalizer := nth i memory "" in
  if negb (HasPrefix finalizer NodeCleanupFinalizer) then Ret (inl (memory, vg))
  else
    let nodeName := TrimPrefix finalizer (NodeCleanupFinalizer +:+ "/") in
    if bool_decide (nodeName ∈ nodes) then Ret (inl (memory, vg))
    else
      let vg := with_vg_meta vg (with_finalizers (lvg_meta vg) (RemoveFinalizer (om_Finalizers (lvg_meta vg)) finalizer).1) in
      try vg' := kube (UpdateGroup vg)
        catch err => Ret (inr (EFmt ("failed to delete finalizer from volumegroup " +:+ lvg_Name vg +:+
                            ", error: " +:+ Error err) [err])) in
      Ret (inl (memory_after memory finalizer (om_Finalizers (lvg_meta vg')), vg')).

Definition checkGroupFinalizers (nodes : gset string) (vg : LVMVolumeGroup) (_ : unit) : prog clusterE (unit + error) :=
  let finalizers := om_Finalizers (lvg_meta vg) in
  res <- for_each (checkFinalizer nodes) (seq 0 (length finalizers)) (finalizers, vg);;
  Ret match res with inl _ => inl tt | inr err => inr err end.

Definition checkStaleNodeFinalizers (nodes : gset string) : prog clusterE (option error) :=
  try volumeGroups := kube (ListVolumeGroups (cr_Namespace r))
    catch err => Ret (if IsNotFound err then None else Some (wrapErr "failed to list volume groups" err)) in
  res <- for_each (checkGroupFinalizers nodes) volumeGroups tt;;
  Ret match res with inl _ => None | inr err => Some err end.

(** One logical volume; [inr] leaves the function. *)
Definition checkLogicalVolume (nodes : gset string) (lv : TopoLogicalVolume) (_ : unit)
  : prog clusterE (unit + (bool * option error)) :=
  if negb (bool_decide (tlv_NodeName lv ∈ nodes)) then
    let lv := mkTopoLogicalVolume (tlv_Name lv) (tlv_NodeName lv)
                (RemoveFinalizer (tlv_Finalizers lv) logicalVolumeFinalizer).1 in
    guard kube (UpdateLogicalVolume lv)
      catch err => Ret (inr (false, Some (EFmt ("failed to delete finalizer from logicalvolume " +:+ tlv_Name lv +:+
                               ", error: " +:+ Error err) [err]))) in
    Ret (inl tt)
  else Ret (inr (true, None)).

Definition logicalVolumesExist (nodes : gset string) : prog clusterE (bool * option error) :=
  try lvs := kube ListLogicalVolumes
    catch err => Ret (false, Some (wrapErr "failed to get TopoLVM LogicalVolume list" err)) in
  if (length lvs =? 0)%nat then Ret (false, None)
  else
    res <- for_each (checkLogicalVolume nodes) lvs tt;;
    Ret match res with inl _ => (false, None) | inr v => v end.

Definition classHasPVCs (dc : DeviceClass) (_ : unit) : prog clusterE (unit + (bool * option error)) :=
  let scName := GetStorageClassName (dc_Name dc) in
  try pvcs := kube (ListPVCs scName)
    catch err => Ret (inr (false, Some (wrapErr ("failed to list PVCs for StorageClass " +:+ scName) err))) in
  Ret (if (0 <? length pvcs)%nat then inr (true, None) else inl tt).

Definition activePVCsExistForClusterStorageClasses (l : LVMCluster) : prog clusterE (bool * option error) :=
  res <- for_each classHasPVCs (deviceClasses l) tt;;
  Ret match res with inl _ => (false, None) | inr v => v end.

(** The storage class of the device class retains its volumes. *)
Definition retains (dc : DeviceClass) : bool :=
  match dc_StorageClassOptions dc with
  | None => false
  | Some opts => bool_decide (sco_ReclaimPolicy opts = Some PersistentVolumeReclaimRetain)
  end.

Definition classHasPVs (dc : DeviceClass) (_ : unit) : prog clusterE (unit + (bool * option error)) :=
  if negb (retains dc) then Ret (inl tt)
  else
    let scName := GetStorageClassName (dc_Name dc) in
    try pvs := kube (ListPVs scName)
      catch err => Ret (inr (false, Some (wrapErr ("failed to list PVs for StorageClass " +:+ scName) err))) in
    Ret (if (0 <? length pvs)%nat then inr (true, None) else inl tt).

Definition retainPVsExistForCluster (l : LVMCluster) : prog clusterE (bool * option error) :=
  res <- for_each classHasPVs (deviceClasses l) tt;;
  Ret match res with inl _ => (false, None) | inr v => v end.

Definition resourceDeletionList : list ManagerId :=
  [LVMVGs; VGManager; LVMVGNodeStatus; TopoLVMStorageClass; CSIDriver; CSINode; ServiceMonitor; NetworkPolicies] ++
  (if bool_decide (cr_ClusterType r = TypeOCP) then [OpenShiftSCCs] else []) ++
  (if cr_EnableSnapshotting r then [TopoLVMVolumeSnapshotClass] else []).

Definition deleteUnit (instance : LVMCluster) (unit_ : ManagerId) (_ : unit) : prog clusterE (unit + error) :=
  guard call (OfManager _ (EnsureDeleted unit_ instance))
    catch err =>
      (let err := wrapErr ("failed cleaning up " +:+ GetName unit_) err in
       ClusterWarningEvent EventReasonErrorDeletionPending err;; Ret (inr err)) in
  Ret (inl tt).

Definition processClusterDelete (instance : LVMCluster) : prog clusterE (option error) :=
  res <- (if ContainsFinalizer (om_Finalizers (lc_meta instance)) lvmClusterFinalizer
          then for_each (deleteUnit instance) resourceDeletionList tt
          else Ret (inl tt));;
  match res with
  | inr err => Ret (Some err)
  | inl _ =>
      let '(finalizers, update) := RemoveFinalizer (om_Finalizers (lc_meta instance)) lvmClusterFinalizer in
      if (update : bool) then
        try _ := kube (UpdateCluster (with_lc_meta instance (with_finalizers (lc_meta instance) finalizers)))
          catch err => Ret (Some (wrapErr ("failed to remove finalizer from LVMCluster " +:+ om_Name (lc_meta instance)) err)) in
        Ret None
      else Ret None
  end.

(** Reconcile on a deleted cluster. *)
Definition reconcileDeleted (l : LVMCluster) : prog clusterE (Result * option error) :=
  let fail ctx err := (emptyResult, Some (wrapErr ctx err)) in
  try nodes := clusterNodes catch err => Ret (fail "failed to get unhealthy nodes" err) in
  guard checkStaleNodeFinalizers nodes catch err => Ret (fail "failed to check for deleted nodes" err) in
  ' (_, err) <- logicalVolumesExist nodes;;
  match err with
  | Some err => Ret (fail "failed to check LogicalVolumes" err)
  | None =>
      ' (pvcsExist, err) <- activePVCsExistForClusterStorageClasses l;;
      match err with
      | Some err => Ret (fail "failed to check for active PVCs" err)
      | None =>
          if (pvcsExist : bool) then
            ClusterWarningEvent EventReasonErrorDeletionPending
              (EFmt "found PVCs provisioned by LVMS, waiting 10s for their deletion" []);;
            Ret (mkResult false waitForDeletion, None)
          else
            ' (retainPVsExist, err) <- retainPVsExistForCluster l;;
            match err with
            | Some err => Ret (fail "failed to check for Retain PVs" err)
            | None =>
                if (retainPVsExist : bool) then
                  ClusterWarningEvent EventReasonErrorDeletionPending
                    (EFmt "found PVs with Retain policy from LVMS, waiting 10s for manual cleanup" []);;
                  Ret (mkResult false waitForDeletion, None)
                else
                  guard processClusterDelete l catch err => Ret (mkResult false waitForDeletion, None) in
                  Ret (emptyResult, None)
            end
      end
  end.

(** Answers the result and the image name remembered for the next reconciliation. *)
Definition ReconcileCluster (namespace name imageName : string) : prog clusterE (Result * option error * string) :=
  try clusters := kube (ListClusters "")
    catch err => Ret (emptyResult, Some (wrapErr "failed to list LVMCluster instances" err), imageName) in
  if (1 <? length clusters)%nat then
    Ret (emptyResult, Some (EFmt ("there should be a single LVMCluster but multiple were found, " +:+
           Itoa (Z.of_nat (length clusters)) +:+ " clusters found") []), imageName)
  else
    try l := kube (GetCluster namespace name)
      catch err => Ret (emptyResult, IgnoreNotFound err, imageName) in
    try image := setRunningPodImage imageName
      catch err => Ret (emptyResult, Some (wrapErr "failed to introspect running pod image" err), imageName) in
    res <- (match om_DeletionTimestamp (lc_meta l) with
            | Some _ => reconcileDeleted l
            | None => reconcileCluster l
            end);;
    Ret (res, image).
End ClusterController.
