(* ===== verification/ClusterFacts.v ===== *)
(** What the LVMCluster controller guarantees: the order and the gates of a deletion, stale
    finalizers, removed device classes and the readiness it reports. *)

From S2P Require Import Prelude GoStd Effects Api K8sDemo VgEnv VgController Objects ClusterStatus ClusterEnv ClusterController.

Section ClusterFacts.
Context `{R : GoRuntime} `{K : K8s} `{C : !ControllerUtil} `{S : StatusConditions} `{O : ControllerRefs} `{F : FinalizerMemory}.
Variable r : ClusterReconciler.

(** * Reading a trace *)

(** The managers asked to delete, with their answers. *)
Definition ensured_of (v : ev clusterE) : option (ManagerId * option error) :=
  match v with
  | @Ev _ X e x =>
      match e in clusterE X return X -> option (ManagerId * option error) with
      | OfManager X e => match e in managerE X return X -> option (ManagerId * option error) with
                         | EnsureDeleted m _ => fun err => Some (m, err)
                         | _ => fun _ => None
                         end
      | _ => fun _ => None
      end x
  end.

(** The clusters written back, and the statuses written. *)
Definition cluster_update_of (v : ev clusterE) : option LVMCluster :=
  match v with @Ev _ X e _ => match e with OfKube _ (UpdateCluster l) => Some l | _ => None end end.

Definition status_update_of (v : ev clusterE) : option LVMCluster :=
  match v with @Ev _ X e _ => match e with OfKube _ (UpdateClusterStatus l) => Some l | _ => None end end.

(** The volume groups the API server showed, and those written back. *)
Definition group_update_of (v : ev clusterE) : option LVMVolumeGroup :=
  match v with @Ev _ X e _ => match e with OfKube _ (UpdateGroup vg) => Some vg | _ => None end end.

Definition shown_groups (v : ev clusterE) : list LVMVolumeGroup :=
  match v with
  | @Ev _ X e x =>
      match e in clusterE X return X -> list LVMVolumeGroup with
      | OfKube X e => match e in kubeE X return X -> list LVMVolumeGroup with
                      | ListVolumeGroups _ => fun r => match r with Ok vgs => vgs | Err _ => [] end
                      | UpdateGroup _ => fun r => match r with Ok vg => [vg] | Err _ => [] end
                      | _ => fun _ => []
                      end
      | _ => fun _ => []
      end x
  end.

(** The lists of nodes and node statuses, and the errors of the concurrent section. *)
Definition nodes_of (v : ev clusterE) : option (list Node) :=
  match v with
  | @Ev _ X e x =>
      match e in clusterE X return X -> option (list Node) with
      | OfKube X e => match e in kubeE X return X -> option (list Node) with
                      | ListNodes => fun r => match r with Ok nodes => Some nodes | Err _ => None end
                      | _ => fun _ => None
                      end
      | _ => fun _ => None
      end x
  end.

Definition items_of (v : ev clusterE) : option (list LVMVolumeGroupNodeStatus) :=
  match v with
  | @Ev _ X e x =>
      match e in clusterE X return X -> option (list LVMVolumeGroupNodeStatus) with
      | OfKube X e => match e in kubeE X return X -> option (list LVMVolumeGroupNodeStatus) with
                      | ListNodeStatuses _ => fun r => match r with Ok items => Some items | Err _ => None end
                      | _ => fun _ => None
                      end
      | _ => fun _ => None
      end x
  end.

Definition created_of (v : ev clusterE) : option (list error) :=
  match v with
  | @Ev _ X e x =>
      match e in clusterE X return X -> option (list error) with
      | OfManager X e => match e in managerE X return X -> option (list error) with
                         | EnsureCreatedAll _ _ => Some
                         | _ => fun _ => None
                         end
      | _ => fun _ => None
      end x
  end.

(** * Deletion of a cluster *)

(** A call that neither asks a manager to delete nor writes a cluster. *)
Definition no_deletion X (e : clusterE X) : Prop :=
  match e with OfManager _ (EnsureDeleted _ _) | OfKube _ (UpdateCluster _) => False | _ => True end.

Lemma no_deletion_trace tr :
  Forall (ev_sat no_deletion) tr -> omap ensured_of tr = [] /\ omap cluster_update_of tr = [].
Proof.
  induction 1 as [|[X e x] tr He _ [IH1 IH2]]; [done|].
  destruct e as [? []|? []|? []]; try done; by rewrite !omap_skip.
Qed.

Lemma no_deletion_checkStale nodes : emits no_deletion (checkStaleNodeFinalizers r nodes).
Proof. unfold checkStaleNodeFinalizers, checkGroupFinalizers, checkFinalizer, kube. emits_auto. Qed.

Lemma no_deletion_logicalVolumes nodes : emits no_deletion (logicalVolumesExist nodes).
Proof. unfold logicalVolumesExist, checkLogicalVolume, kube. emits_auto. Qed.

Lemma no_deletion_nodes : emits no_deletion clusterNodes.
Proof. unfold clusterNodes, kube. emits_auto. Qed.

Lemma no_deletion_PVCs l : emits no_deletion (activePVCsExistForClusterStorageClasses l).
Proof. unfold activePVCsExistForClusterStorageClasses, classHasPVCs, kube. emits_auto. Qed.

Lemma no_deletion_PVs l : emits no_deletion (retainPVsExistForCluster l).
Proof. unfold retainPVsExistForCluster, classHasPVs, kube. emits_auto. Qed.

(** The claims and retained volumes of every device class were looked for and none was found. *)
Definition no_claims (dcs : list DeviceClass) (tr : list (ev clusterE)) : Prop :=
  forall dc, dc ∈ dcs -> Ev (OfKube _ (ListPVCs (GetStorageClassName (dc_Name dc)))) (Ok []) ∈ tr.
Definition no_retained (dcs : list DeviceClass) (tr : list (ev clusterE)) : Prop :=
  forall dc, dc ∈ dcs -> retains dc = true ->
    Ev (OfKube _ (ListPVs (GetStorageClassName (dc_Name dc)))) (Ok []) ∈ tr.

Lemma PVCs_gate l :
  wp (activePVCsExistForClusterStorageClasses l) (fun res tr => res = (false, None) -> no_claims (deviceClasses l) tr).
Proof.
  unfold activePVCsExistForClusterStorageClasses. apply wp_bind.
  eapply (wp_for_each_visited (fun visited _ tr => no_claims visited tr)); simpl.
  - by intros dc ?%elem_of_nil.
  - intros visited dc rest [] tr _ Hv [pvcs|err]; simpl; [|done].
    destruct pvcs; simpl; [|done]. intros d Hd. rewrite elem_of_app. apply elem_of_app in Hd as [Hd|Hd].
    + left. by apply Hv.
    + right. apply list_elem_of_singleton in Hd as ->. apply list_elem_of_here.
  - intros _ tr H _. by rewrite app_nil_r.
Qed.

Lemma PVs_gate l :
  wp (retainPVsExistForCluster l) (fun res tr => res = (false, None) -> no_retained (deviceClasses l) tr).
Proof.
  unfold retainPVsExistForCluster. apply wp_bind.
  eapply (wp_for_each_visited (fun visited _ tr => no_retained visited tr)); simpl.
  - by intros dc ?%elem_of_nil.
  - intros visited dc rest [] tr _ Hv. unfold classHasPVs. destruct (retains dc) eqn:Hret; simpl.
    + intros [pvs|err]; simpl; [|done]. destruct pvs; simpl; [|done].
      intros d Hd Hr. rewrite elem_of_app. apply elem_of_app in Hd as [Hd|Hd].
      * left. by apply Hv.
      * right. apply list_elem_of_singleton in Hd as ->. apply list_elem_of_here.
    + rewrite app_nil_r. intros d Hd Hr. apply elem_of_app in Hd as [Hd|Hd]; [by apply Hv|].
      apply list_elem_of_singleton in Hd as ->. congruence.
  - intros _ tr H _. by rewrite app_nil_r.
Qed.

(** The managers that were asked, in the order of the list, each after the previous ones had
    succeeded: all of them successful, or all but the last. *)
Definition succeeded (ms : list ManagerId) : list (ManagerId * option error) := map (fun m => (m, None)) ms.
Definition in_order (asked : list (ManagerId * option error)) : Prop :=
  exists before rest, resourceDeletionList r = before ++ rest /\
    (asked = succeeded before \/ exists m err rest', rest = m :: rest' /\ asked = succeeded before ++ [(m, Some err)]).

Lemma in_order_nil : in_order [].
Proof. exists [], (resourceDeletionList r). by split; [|left]. Qed.

Definition unit_result (res : unit + error) (asked : list (ManagerId * option error)) : Prop :=
  match res with inl _ => asked = succeeded (resourceDeletionList r) | inr _ => in_order asked end.

Lemma in_order_all : in_order (succeeded (resourceDeletionList r)).
Proof. exists (resourceDeletionList r), []. split; [by rewrite app_nil_r|by left]. Qed.

Lemma deleteUnits_spec l :
  wp (for_each (deleteUnit l) (resourceDeletionList r) tt) (fun res tr =>
    omap cluster_update_of tr = [] /\ unit_result res (omap ensured_of tr)).
Proof.
  eapply (wp_for_each_visited (fun visited _ tr =>
    omap cluster_update_of tr = [] /\ omap ensured_of tr = succeeded visited)); simpl; [done| |by intros _ tr].
  intros visited m rest [] tr Hlist [Hu He]. unfold deleteUnit. intros [err|].
  - apply wp_call. intros []. cbn [wp]. rewrite !omap_app, Hu, He.
    rewrite !(omap_skip cluster_update_of), (omap_hit ensured_of _ (m, Some err)), (omap_skip ensured_of) by done.
    split; [done|]. exists visited, (m :: rest). split; [done|]. right. by exists m, err, rest.
  - cbn [wp]. rewrite !omap_app, Hu, He.
    rewrite (omap_skip cluster_update_of), (omap_hit ensured_of _ (m, None)) by done.
    split; [done|]. unfold succeeded. by rewrite map_app.
Qed.

(** The cluster without the finalizer of the controller. *)
Definition finalizer_removed (l : LVMCluster) : LVMCluster :=
  with_lc_meta l (with_finalizers (lc_meta l) (RemoveFinalizer (om_Finalizers (lc_meta l)) lvmClusterFinalizer).1).

(** The order of a deletion: a manager is asked only after those before it in the list
    succeeded, and the cluster is written only once, without the finalizer, after all did. *)
Definition deletion_order (l : LVMCluster) (before : list (ev clusterE)) (v : ev clusterE) : Prop :=
  (forall m err, ensured_of v = Some (m, err) ->
     exists ms rest, resourceDeletionList r = ms ++ m :: rest /\ omap ensured_of before = succeeded ms) /\
  (forall l', cluster_update_of v = Some l' ->
     l' = finalizer_removed l /\ omap ensured_of before = succeeded (resourceDeletionList r)).

(** Nothing is dismantled before claims and retained volumes were seen to be gone. *)
Definition gate_order (l : LVMCluster) (before : list (ev clusterE)) (v : ev clusterE) : Prop :=
  is_Some (ensured_of v) \/ is_Some (cluster_update_of v) ->
  no_claims (deviceClasses l) before /\ no_retained (deviceClasses l) before.

Lemma succeeded_split ms asked m err rest :
  succeeded ms = asked ++ (m, err) :: rest -> exists ms1 ms2, ms = ms1 ++ m :: ms2 /\ asked = succeeded ms1.
Proof.
  unfold succeeded. change (map ?f ms) with (f <$> ms). intros H.
  apply fmap_app_inv in H as (ms1 & ms' & -> & Hrest & ->).
  symmetry in Hrest. apply fmap_cons_inv in Hrest as (m' & ms2 & [= <- <-] & _ & ->). by exists ms1, ms2.
Qed.

Lemma in_order_split asked m err rest :
  in_order (asked ++ (m, err) :: rest) -> exists ms rest', resourceDeletionList r = ms ++ m :: rest' /\ asked = succeeded ms.
Proof.
  intros (ms & rest' & Hlist & [H|(m' & e & rest'' & -> & H)]).
  - symmetry in H. apply succeeded_split in H as (ms1 & ms2 & -> & ->). exists ms1, (ms2 ++ rest').
    by rewrite Hlist, <- app_assoc.
  - destruct (decide (rest = [])) as [->|Hne].
    + apply app_inj_tail in H as [-> [= -> ->]]. by exists ms, rest''.
    + destruct (exists_last Hne) as (rest1 & last & ->). rewrite app_comm_cons, app_assoc in H.
      apply app_inj_tail in H as [H ->]. symmetry in H. apply succeeded_split in H as (ms1 & ms2 & -> & ->).
      exists ms1, (ms2 ++ m' :: rest''). by rewrite Hlist, <- app_assoc.
Qed.

Lemma omap_nil_elem {A B} (f : A -> option B) (l : list A) x : omap f l = [] -> x ∈ l -> f x = None.
Proof.
  intros H Hx. destruct (f x) as [y|] eqn:Hy; [|done]. assert (y ∈ omap f l) as Hin by (apply omap_elem; by exists x).
  rewrite H in Hin. by apply elem_of_nil in Hin.
Qed.

Lemma in_order_ordered l tr :
  in_order (omap ensured_of tr) -> omap cluster_update_of tr = [] -> ordered (deletion_order l) tr.
Proof.
  intros Hin Hu tr1 v tr2 ->. split.
  - intros m err Hv. rewrite omap_app, (omap_hit ensured_of v _ _ Hv) in Hin. by apply in_order_split in Hin.
  - intros l' Hv. exfalso. assert (cluster_update_of v = None); [|congruence].
    apply (omap_nil_elem _ _ _ Hu). rewrite elem_of_app. right. apply list_elem_of_here.
Qed.

Lemma processClusterDelete_spec `{L : !ControllerUtilLaws C} l :
  wp (processClusterDelete r l) (fun err tr => ordered (deletion_order l) tr /\
    (err = None -> lvmClusterFinalizer ∈ om_Finalizers (lc_meta l) -> finalizer_removed l ∈ omap cluster_update_of tr)).
Proof.
  unfold processClusterDelete. rewrite ContainsFinalizer_spec.
  destruct (RemoveFinalizer_spec (om_Finalizers (lc_meta l)) lvmClusterFinalizer) as (_ & Hupd & _).
  rewrite (surjective_pairing (RemoveFinalizer _ _)), Hupd. fold (finalizer_removed l).
  destruct (contains_str (om_Finalizers (lc_meta l)) lvmClusterFinalizer) eqn:Hc.
  - apply wp_bind. eapply wp_mono; [apply deleteUnits_spec|]. intros [[]|err] tr [Hu He]; simpl in He.
    + assert (Hlast : forall x, ordered (deletion_order l) (tr ++ [Ev (OfKube _ (UpdateCluster (finalizer_removed l))) x])).
      { intros x. apply ordered_app. split; [apply in_order_ordered; [rewrite He; apply in_order_all|done]|].
        intros [|w t1] v t2 [= <- Ht]; [|by destruct t1]. split; [done|]. rewrite app_nil_r. by intros l' [= <-]. }
      apply wp_call. intros [l'|err]; cbn [wp]; (split; [apply Hlast|]); [|done].
      intros _ _. rewrite omap_app, Hu. apply list_elem_of_here.
    + cbn [wp]. rewrite app_nil_r. split; [by apply in_order_ordered|done].
  - simpl. split; [apply ordered_nil|]. intros _ Hin%contains_str_spec. congruence.
Qed.

(** A first step that deletes nothing. *)
Ltac quiet_then H := apply wp_bind; eapply wp_mono; [apply emits_wp, H|].
Ltac quiet_trace := rewrite ?app_nil_r; repeat first [apply Forall_app; split | apply Forall_cons; split | apply Forall_nil_2]; done.

Lemma no_deletion_ordered l tr :
  Forall (ev_sat no_deletion) tr -> ordered (fun before v => gate_order l before v /\ deletion_order l before v) tr.
Proof.
  intros H. apply ordered_Forall. eapply Forall_impl; [exact H|]. intros [X e x] He before.
  unfold gate_order, deletion_order.
  destruct e as [? []|? []|? []]; simpl in He |- *; try done; (split; [by intros [[? ?]|[? ?]]|by split]).
Qed.

Lemma gates_app l before tr :
  no_claims (deviceClasses l) before /\ no_retained (deviceClasses l) before ->
  no_claims (deviceClasses l) (before ++ tr) /\ no_retained (deviceClasses l) (before ++ tr).
Proof.
  intros [H1 H2]. split; intros dc Hdc.
  - rewrite elem_of_app. left. by apply H1.
  - intros Hr. rewrite elem_of_app. left. by apply H2.
Qed.

(** A cluster that is being deleted is dismantled in the order of the list, behind the gates;
    the answer that ends the deletion is given only after its finalizer was removed. *)
Lemma reconcileDeleted_order `{L : !ControllerUtilLaws C} l :
  wp (reconcileDeleted r l) (fun res tr =>
    ordered (fun before v => gate_order l before v /\ deletion_order l before v) tr /\
    (res = (emptyResult, None) -> lvmClusterFinalizer ∈ om_Finalizers (lc_meta l) ->
       finalizer_removed l ∈ omap cluster_update_of tr)).
Proof.
  unfold reconcileDeleted. set (Q := fun (res : Result * option error) tr => _).
  assert (Hquiet : forall res tr, Forall (ev_sat no_deletion) tr -> res <> (emptyResult, None) -> Q res tr).
  { intros res tr H Hne. by split; [apply no_deletion_ordered|]. }
  quiet_then no_deletion_nodes. intros [nodes|err] tr1 H1; [|by apply Hquiet; [rewrite app_nil_r|]].
  quiet_then (no_deletion_checkStale nodes). intros [err|] tr2 H2; [by apply Hquiet; [quiet_trace|]|].
  quiet_then (no_deletion_logicalVolumes nodes). intros [b [err|]] tr3 H3; [by apply Hquiet; [quiet_trace|]|].
  apply wp_bind. eapply wp_mono; [apply wp_conj; [apply emits_wp, no_deletion_PVCs|apply PVCs_gate]|].
  intros [[] [err|]] tr4 [H4 Hgate1]; try by apply Hquiet; [quiet_trace|].
  { cbn [wp]. intros []. apply Hquiet; [quiet_trace|done]. }
  apply wp_bind. eapply wp_mono; [apply wp_conj; [apply emits_wp, no_deletion_PVs|apply PVs_gate]|].
  intros [[] [err|]] tr5 [H5 Hgate2]; try by apply Hquiet; [quiet_trace|].
  { cbn [wp]. intros []. apply Hquiet; [quiet_trace|done]. }
  apply wp_bind. eapply wp_mono; [apply processClusterDelete_spec|]. intros err tr6 [Hok Hdone].
  set (gates := tr1 ++ tr2 ++ tr3 ++ tr4 ++ tr5).
  assert (Hg : Forall (ev_sat no_deletion) gates) by (unfold gates; quiet_trace).
  assert (Hgates : no_claims (deviceClasses l) gates /\ no_retained (deviceClasses l) gates).
  { specialize (Hgate1 eq_refl). specialize (Hgate2 eq_refl). split.
    - intros dc Hdc. specialize (Hgate1 dc Hdc). unfold gates. rewrite !elem_of_app. auto.
    - intros dc Hdc Hr. specialize (Hgate2 dc Hdc Hr). unfold gates. rewrite !elem_of_app. auto 10. }
  assert (Hres : forall res, (res = (emptyResult, None) -> err = None) -> Q res (gates ++ tr6)).
  { intros res Hres. destruct (no_deletion_trace gates Hg) as [He Hu]. split.
    - apply ordered_app. split; [by apply no_deletion_ordered|].
      eapply ordered_mono; [exact Hok|]. intros before v _ [Hm Hw]. split; [intros _; by apply gates_app|].
      unfold deletion_order. rewrite omap_app, He. by split.
    - intros Hr Hf. rewrite omap_app, Hu. by apply Hdone; [apply Hres|]. }
  unfold gates in Hres. rewrite <- !app_assoc in Hres.
  destruct err as [err|]; cbn [wp]; rewrite !app_nil_r; by apply Hres.
Qed.

(** * Stale finalizers *)

(** [vg'] is [vg] without finalizers of nodes that are gone. *)
Definition stale_removed (nodes : gset string) (vg vg' : LVMVolumeGroup) : Prop :=
  vg' = with_vg_meta vg (with_finalizers (lvg_meta vg) (om_Finalizers (lvg_meta vg'))) /\
  forall f, f ∈ om_Finalizers (lvg_meta vg) -> f ∉ om_Finalizers (lvg_meta vg') ->
    HasPrefix f NodeCleanupFinalizer = true /\
    forall node, node ∈ nodes -> f <> NodeCleanupFinalizer +:+ "/" +:+ node.

(** Every volume group written is a shown one without stale finalizers. *)
Definition updates_stale (nodes : gset string) (shown : list LVMVolumeGroup) (tr : list (ev clusterE)) : Prop :=
  forall vg', vg' ∈ omap group_update_of tr ->
    exists vg, (vg ∈ shown \/ vg ∈ flat_map shown_groups tr) /\ stale_removed nodes vg vg'.

Lemma updates_stale_app nodes shown tr1 tr2 :
  updates_stale nodes shown tr1 -> updates_stale nodes (shown ++ flat_map shown_groups tr1) tr2 ->
  updates_stale nodes shown (tr1 ++ tr2).
Proof.
  intros H1 H2 vg'. rewrite omap_app, elem_of_app, flat_map_app. intros [Hv|Hv].
  - destruct (H1 vg' Hv) as (vg & Hin & ?). exists vg. rewrite elem_of_app. naive_solver.
  - destruct (H2 vg' Hv) as (vg & Hin & ?). exists vg. rewrite elem_of_app in *. naive_solver.
Qed.

Lemma string_app_assoc (a b c : string) : (a +:+ b) +:+ c = a +:+ (b +:+ c).
Proof. induction a as [|x a IH]; [done|]. rewrite !string_app_cons. by rewrite IH. Qed.

Lemma RemoveFinalizer_stale `{L : !ControllerUtilLaws C} nodes vg f :
  HasPrefix f NodeCleanupFinalizer = true -> TrimPrefix f (NodeCleanupFinalizer +:+ "/") ∉ nodes ->
  stale_removed nodes vg
    (with_vg_meta vg (with_finalizers (lvg_meta vg) (RemoveFinalizer (om_Finalizers (lvg_meta vg)) f).1)).
Proof.
  intros Hp Hn. split; [done|]. simpl. intros g Hg Hg'.
  destruct (RemoveFinalizer_spec (om_Finalizers (lvg_meta vg)) f) as (_ & _ & Hkeep).
  destruct (decide (g = f)) as [->|Hne]; [|by destruct Hg'; apply Hkeep].
  split; [done|]. intros node Hnode ->. by rewrite <- string_app_assoc, TrimPrefix_app in Hn.
Qed.

Lemma checkGroup_stale `{L : !ControllerUtilLaws C} nodes shown vg :
  vg ∈ shown -> wp (checkGroupFinalizers nodes vg tt) (fun _ tr => updates_stale nodes shown tr).
Proof.
  intros Hvg. unfold checkGroupFinalizers. apply wp_bind.
  eapply (wp_for_each (fun st tr => updates_stale nodes shown tr /\ (st.2 ∈ shown \/ st.2 ∈ flat_map shown_groups tr))).
  - split; [by intros ? ?%elem_of_nil|by left].
  - intros i [memory cur] tr _ [Hu Hcur]. unfold checkFinalizer. simpl in Hcur. set (f := nth i memory "").
    destruct (HasPrefix f NodeCleanupFinalizer) eqn:Hp; simpl; [|by rewrite app_nil_r].
    case_bool_decide as Hn; [by simpl; rewrite app_nil_r|].
    set (vg' := with_vg_meta cur _).
    assert (Hstep : forall x, updates_stale nodes shown (tr ++ [Ev (OfKube _ (UpdateGroup vg')) x])).
    { intros x. apply updates_stale_app; [done|]. intros v. rewrite (omap_hit group_update_of _ vg') by done.
      rewrite omap_nil, list_elem_of_singleton. intros ->. exists cur. rewrite elem_of_app. split; [auto|].
      by apply RemoveFinalizer_stale. }
    simpl. intros [vg''|err]; simpl; [|by rewrite app_nil_r].
    split; [done|]. right. rewrite flat_map_app, elem_of_app. right. simpl. apply list_elem_of_here.
  - intros cur tr [Hu _]. simpl. by rewrite app_nil_r.
Qed.

(** C23: the clean-up of stale finalizers writes only volume groups the API server showed, and
    takes from them only node finalizers of vgmanager whose node no longer exists: every
    other finalizer, and so every volume group an existing node still has to clean up, stays.
    This holds whatever the loop reads from the memory it ranges over while the finalizers
    are removed. *)
Theorem checkStaleNodeFinalizers_safe `{L : !ControllerUtilLaws C} nodes :
  wp (checkStaleNodeFinalizers r nodes) (fun _ tr => updates_stale nodes [] tr).
Proof.
  unfold checkStaleNodeFinalizers. simpl. intros [vgs|err]; simpl; [|by intros ? ?%elem_of_nil].
  apply wp_bind. eapply (wp_for_each (fun _ tr => updates_stale nodes vgs tr)).
  - by intros ? ?%elem_of_nil.
  - intros vg [] tr Hvg Hu. eapply wp_mono; [apply (checkGroup_stale nodes (vgs ++ flat_map shown_groups tr))|].
    { rewrite elem_of_app. by left. }
    intros res tr' H'. assert (updates_stale nodes vgs (tr ++ tr')) by by apply updates_stale_app.
    destruct res as [[]|]; [done|]. simpl. rewrite app_nil_r.
    apply (updates_stale_app nodes [] [_]); [by intros ? ?%elem_of_nil|]. simpl. by rewrite app_nil_r.
  - intros _ tr H. simpl. rewrite app_nil_r.
    apply (updates_stale_app nodes [] [_]); [by intros ? ?%elem_of_nil|]. simpl. by rewrite app_nil_r.
Qed.

(** * Removed device classes *)

(** A volume group of this cluster whose device class is gone. *)
Definition orphan (l : LVMCluster) (vg : LVMVolumeGroup) : Prop :=
  IsControlledBy (lvg_meta vg) (lc_meta l) = true /\ lvg_Name vg ∉ map dc_Name (deviceClasses l).

(** A call that reads, or deletes an orphan among [vgs] or a class named after one. *)
Definition orphan_call (l : LVMCluster) (vgs : list LVMVolumeGroup) X (e : clusterE X) : Prop :=
  match e with
  | OfKube _ (GetMeta _ _ _) | OfKube _ (ListVolumeGroups _) => True
  | OfKube _ (DeleteObject k namespace name) =>
      exists vg, vg ∈ vgs /\ orphan l vg /\
        match k with
        | KindVolumeGroup => om_DeletionTimestamp (lvg_meta vg) = None /\
                             namespace = om_Namespace (lvg_meta vg) /\ name = lvg_Name vg
        | KindStorageClass => name = GetStorageClassName (lvg_Name vg)
        | KindVolumeSnapshotClass => name = GetVolumeSnapshotClassName (lvg_Name vg) /\ cr_EnableSnapshotting r = true
        | _ => False
        end
  | _ => False
  end.

(** The volume group was deleted, after its storage class. *)
Definition orphan_deleted (vg : LVMVolumeGroup) (tr : list (ev clusterE)) : Prop :=
  Ev (OfKube _ (DeleteObject KindVolumeGroup (om_Namespace (lvg_meta vg)) (lvg_Name vg))) None ∈ tr.

Lemma orphan_deleted_app_l vg tr1 tr2 : orphan_deleted vg tr1 -> orphan_deleted vg (tr1 ++ tr2).
Proof. unfold orphan_deleted. rewrite elem_of_app. auto. Qed.
Lemma orphan_deleted_app_r vg tr1 tr2 : orphan_deleted vg tr2 -> orphan_deleted vg (tr1 ++ tr2).
Proof. unfold orphan_deleted. rewrite elem_of_app. auto. Qed.

(** A call that shows no volume group. *)
Definition shows_nothing X (e : clusterE X) : Prop :=
  match e with OfKube _ (ListVolumeGroups _) | OfKube _ (UpdateGroup _) => False | _ => True end.

Lemma shows_nothing_trace tr : Forall (ev_sat shows_nothing) tr -> flat_map shown_groups tr = [].
Proof. induction 1 as [|[X e x] tr He _ IH]; [done|]. simpl. rewrite IH. by destruct e as [? []|? []|? []]. Qed.

Lemma orphan_calls l vgs vg : vg ∈ vgs -> emits (orphan_call l vgs) (deleteOrphan r l vg tt).
Proof.
  intros Hvg. unfold deleteOrphan.
  destruct (IsControlledBy _ _) eqn:Hc; cbn [negb]; [|done].
  destruct (contains_str _ _) eqn:Hn; [done|]. apply contains_str_false in Hn.
  assert (Ho : orphan l vg) by done.
  unfold deleteIfPresent, kube. emits_auto; by exists vg.
Qed.

Lemma orphan_removed l vg :
  orphan l vg -> om_DeletionTimestamp (lvg_meta vg) = None ->
  wp (deleteOrphan r l vg tt) (fun res tr => res = inl tt -> orphan_deleted vg tr).
Proof.
  intros [Hc Hn] Hd. unfold deleteOrphan. rewrite Hc. cbn [negb].
  apply contains_str_false in Hn. rewrite Hn, Hd.
  do 2 (apply wp_bind; apply wp_intro; intros [err|] ?; cbn [wp]; [done|]).
  simpl. intros [err|]; simpl; [done|]. intros _. do 2 apply orphan_deleted_app_r. apply list_elem_of_here.
Qed.

(** C24: only volume groups that this cluster controls and whose device class was removed are
    deleted, together with the storage and snapshot classes named after them; and when no
    error is reported, every such volume group is deleted or being deleted. *)
Theorem checkForDeletedDeviceClasses_correct l :
  wp (checkForDeletedDeviceClasses r l) (fun err tr =>
    Forall (ev_sat (orphan_call l (flat_map shown_groups tr))) tr /\
    (err = None -> forall vg, vg ∈ flat_map shown_groups tr -> orphan l vg ->
       om_DeletionTimestamp (lvg_meta vg) = None -> orphan_deleted vg tr)).
Proof.
  unfold checkForDeletedDeviceClasses. simpl. intros [vgs|err]; simpl; [|by split; [repeat constructor|]].
  assert (Hcalls : emits (orphan_call l vgs) (for_each (deleteOrphan r l) vgs tt)).
  { apply emits_for_each. intros vg [] Hvg. by apply orphan_calls. }
  assert (Hnew : emits shows_nothing (for_each (deleteOrphan r l) vgs tt)).
  { unfold deleteOrphan, deleteIfPresent, kube. emits_auto. }
  apply wp_bind. eapply wp_mono; [apply wp_conj; [apply emits_wp, Hcalls|apply wp_conj; [apply emits_wp, Hnew|]]|].
  { apply (wp_for_each_visited (fun visited _ tr => forall vg, vg ∈ visited -> orphan l vg ->
      om_DeletionTimestamp (lvg_meta vg) = None -> orphan_deleted vg tr) _ _ _
      (fun res tr => res = inl tt -> forall vg, vg ∈ vgs -> orphan l vg ->
         om_DeletionTimestamp (lvg_meta vg) = None -> orphan_deleted vg tr)).
    - by intros ? ?%elem_of_nil.
    - intros visited vg rest [] tr _ Hv. eapply wp_mono; [apply wp_self|]. intros [[]|err] tr' Hrun; [|done].
      intros v. rewrite elem_of_app. intros [Hin|Hin] Ho Hd; [by apply orphan_deleted_app_l, Hv|].
      apply list_elem_of_singleton in Hin as ->. apply orphan_deleted_app_r.
      exact (wp_runs _ _ _ _ (orphan_removed l vg Ho Hd) Hrun eq_refl).
    - intros [] tr H _. exact H. }
  intros res tr (Hall & Hshown%shows_nothing_trace & Hdone). simpl. rewrite app_nil_r, Hshown, app_nil_r.
  split; [by constructor|]. destruct res as [[]|err]; [|done]. intros _ vg Hvg Ho Hd.
  apply (orphan_deleted_app_r vg [_]). by apply Hdone.
Qed.

(** * Readiness *)

Section Readiness.
Context `{SL : !StatusConditionsLaws S}.

(** The conditions are exactly [a] on the resources and [b] on the volume groups. *)
Definition conditions_are (cs : list Condition) (a b : Condition) : Prop :=
  cond_Type a = ResourcesAvailable /\ cond_Type b = VolumeGroupsReady /\
  NoDup (cond_Type <$> cs) /\ forall x, x ∈ cs <-> x = a \/ x = b.

(** The conditions of a cluster before it is reconciled: none, or of the two known types. *)
Definition operator_conditions (cs : list Condition) : Prop :=
  NoDup (cond_Type <$> cs) /\
  forall c, c ∈ cs -> cond_Type c = ResourcesAvailable \/ cond_Type c = VolumeGroupsReady.

Lemma conditions_set_both cs a b :
  operator_conditions cs -> cond_Type a = ResourcesAvailable -> cond_Type b = VolumeGroupsReady ->
  conditions_are (SetStatusCondition (SetStatusCondition cs a) b) a b.
Proof.
  intros [Hnd Htypes] Ha Hb. split_and!; [done..|by do 2 apply SetStatusCondition_types|].
  intros x. rewrite !SetStatusCondition_elem by (try apply SetStatusCondition_types; done).
  rewrite Ha, Hb. split.
  - intros [->|[[->|[Hx Hne]] Hne']]; [by right|by left|]. destruct (Htypes x Hx); congruence.
  - intros [->| ->]; [right|by left]. rewrite Ha. split; [by left|done].
Qed.

Lemma conditions_set_resources cs a b a' :
  conditions_are cs a b -> cond_Type a' = ResourcesAvailable -> conditions_are (SetStatusCondition cs a') a' b.
Proof.
  intros (Ha & Hb & Hnd & Hx) Ha'. split_and!; [done..|by apply SetStatusCondition_types|].
  intros x. rewrite SetStatusCondition_elem, Hx, Ha' by done.
  split; [|intros [->| ->]; [by left|right; split; [by right|by rewrite Hb]]].
  intros [->|[[->| ->] Hne]]; [by left|congruence|by right].
Qed.

Lemma conditions_set_groups cs a b b' :
  conditions_are cs a b -> cond_Type b' = VolumeGroupsReady -> conditions_are (SetStatusCondition cs b') a b'.
Proof.
  intros (Ha & Hb & Hnd & Hx) Hb'. split_and!; [done..|by apply SetStatusCondition_types|].
  intros x. rewrite SetStatusCondition_elem, Hx, Hb' by done.
  split; [|intros [->| ->]; [right; split; [by left|by rewrite Ha]|by left]].
  intros [->|[[->| ->] Hne]]; [by right|by left|congruence].
Qed.

Definition ready_reason (c : Condition) : Prop := (cond_Reason c, LVMStatusReady) ∈ reason_states.
Definition has_reason (c : Condition) : Prop := exists s, (cond_Reason c, s) ∈ reason_states.

Lemma conditions_ready cs a b :
  conditions_are cs a b -> has_reason a -> has_reason b ->
  (computeLVMClusterReadiness cs).2 = true <-> ready_reason a /\ ready_reason b.
Proof.
  intros (_ & _ & _ & Hx) Hka Hkb. rewrite readiness_ready.
  - setoid_rewrite Hx. split; [naive_solver|]. intros [Ha Hb]. split; [|naive_solver].
    intros ->. destruct (Hx a) as [_ Hin]. by apply (elem_of_nil a), Hin; left.
  - intros c [->| ->]%Hx; done.
Qed.

(** Every device class is set up on every node it covers, as the lists read show. *)
Definition setup_complete (l : LVMCluster) (tr : list (ev clusterE)) : Prop :=
  deviceClasses l = [] \/
  exists nodes items, nodes ∈ omap nodes_of tr /\ items ∈ omap items_of tr /\
    validateDeviceClassSetup l nodes items = None.

Definition groupsInProgress : Condition :=
  mkCondition VolumeGroupsReady false ReasonVGReadinessInProgress MessageVGReadinessInProgress.

Ltac in_table := unfold reason_states; simpl; repeat first [apply list_elem_of_here | apply list_elem_of_further].
Ltac known := unfold has_reason; eexists; in_table.

Lemma groups_not_ready c :
  cond_Reason c ∈ [ReasonVGReadinessInProgress; ReasonVGsFailed; ReasonVGsDegraded; ReasonResourcesIncomplete] ->
  ~ ready_reason c.
Proof.
  unfold ready_reason, reason_states. rewrite !elem_of_cons, !elem_of_nil. intros H1 H2.
  repeat destruct H1 as [H1|H1]; try done; rewrite H1 in H2; naive_solver.
Qed.

(** The condition setVolumeGroupsReadyCondition leaves. *)
Lemma groups_condition l nodes items cs a :
  conditions_are cs a groupsInProgress ->
  exists b, conditions_are (setVolumeGroupsReadyCondition l nodes items cs) a b /\ has_reason b /\
    (ready_reason b <-> validateDeviceClassSetup l nodes items = None).
Proof.
  intros Hc. unfold setVolumeGroupsReadyCondition.
  destruct (validateDeviceClassSetup l nodes items) as [err|].
  - destruct (scanStatuses _ _) as [[]|].
    all: eexists; (split; [first [exact Hc|by apply (conditions_set_groups _ _ _ _ Hc)]|]); (split; [known|]).
    all: split; [|done]; intros H; exfalso; revert H; apply groups_not_ready; set_solver.
  - eexists. split; [by apply (conditions_set_groups _ _ _ _ Hc)|]. split; [known|]. split; [done|intros _].
    unfold ready_reason. in_table.
Qed.

Lemma writeStatus_spec l :
  wp (writeStatus l) (fun _ tr => omap status_update_of tr = [l] /\ omap nodes_of tr = [] /\ omap items_of tr = []
    /\ omap created_of tr = []).
Proof. intros [err|]; done. Qed.

Lemma finishStatus_ready l statuses :
  lst_Ready (lc_Status (finishStatus l statuses)) = (computeLVMClusterReadiness (lst_Conditions (lc_Status l))).2.
Proof. unfold finishStatus. by destruct (computeLVMClusterReadiness _). Qed.

Lemma updateStatus_spec l a :
  conditions_are (lst_Conditions (lc_Status l)) a groupsInProgress -> has_reason a ->
  wp (updateLVMClusterStatus r l) (fun _ tr => omap created_of tr = [] /\
    forall l', l' ∈ omap status_update_of tr -> lst_Ready (lc_Status l') = true <-> ready_reason a /\ setup_complete l tr).
Proof.
  intros Hc Ha. unfold updateLVMClusterStatus. destruct (Nat.eqb_spec (length (deviceClasses l)) 0) as [He|He].
  - eapply wp_mono; [apply writeStatus_spec|]. intros _ tr (Hs & _ & _ & Hcr). split; [done|].
    rewrite Hs. intros l' ->%list_elem_of_singleton. rewrite finishStatus_ready.
    cbn [with_conditions lc_Status lst_Conditions].
    unfold setVolumeGroupsReadyConditionUnmanaged.
    rewrite (conditions_ready _ a (mkCondition VolumeGroupsReady true ReasonVGsUnmanaged MessageVGsUnmanaged));
      [|by apply (conditions_set_groups _ _ _ _ Hc)|done|known].
    assert (deviceClasses l = []) by by destruct (deviceClasses l).
    unfold setup_complete. split; [intros [? _]; split; [done|by left]|intros [? _]; split; [done|]].
    unfold ready_reason. in_table.
  - apply wp_call. intros [items|err]; [|by split; [|intros ? ?%elem_of_nil]].
    apply wp_call. intros [nodes|err]; [|by split; [|intros ? ?%elem_of_nil]].
    eapply wp_mono; [apply writeStatus_spec|]. intros _ tr (Hs & Hn & Hi & Hcr).
    rewrite !(omap_skip status_update_of), !(omap_skip created_of), Hs, Hcr by done. split; [done|].
    intros l' ->%list_elem_of_singleton. rewrite finishStatus_ready.
    cbn [with_conditions lc_Status lst_Conditions].
    destruct (groups_condition l nodes items _ a Hc) as (b & Hb & Hkb & Hready).
    rewrite (conditions_ready _ a b Hb Ha Hkb), Hready. unfold setup_complete.
    rewrite (omap_skip nodes_of), (omap_hit nodes_of _ nodes), (omap_hit items_of _ items), (omap_skip items_of), Hn, Hi by done.
    setoid_rewrite list_elem_of_singleton. split; [intros [? Hv]; split; [done|right; by exists nodes, items]|].
    intros [? [Hempty|(n & i & -> & -> & Hv)]]; [by rewrite Hempty in He|done].
Qed.

(** Calls that read or write nothing the readiness depends on. *)
Definition no_status X (e : clusterE X) : Prop :=
  match e with
  | OfKube _ ListNodes | OfKube _ (ListNodeStatuses _) | OfKube _ (UpdateClusterStatus _)
  | OfManager _ (EnsureCreatedAll _ _) => False
  | _ => True
  end.

Lemma no_status_trace tr : Forall (ev_sat no_status) tr ->
  omap nodes_of tr = [] /\ omap items_of tr = [] /\ omap status_update_of tr = [] /\ omap created_of tr = [].
Proof.
  induction 1 as [|[X e x] tr He _ (IH1 & IH2 & IH3 & IH4)]; [done|].
  destruct e as [? []|? []|? []]; try done; by rewrite !omap_skip.
Qed.

Lemma setup_complete_app l tr1 tr2 :
  omap nodes_of tr1 = [] -> omap items_of tr1 = [] -> setup_complete l (tr1 ++ tr2) <-> setup_complete l tr2.
Proof. intros Hn Hi. unfold setup_complete. by rewrite !omap_app, Hn, Hi. Qed.

Lemma setup_complete_spec l l' tr : lc_Spec l = lc_Spec l' -> setup_complete l tr <-> setup_complete l' tr.
Proof.
  intros H. unfold setup_complete, deviceClasses. rewrite H.
  by setoid_rewrite (fun nodes items => validateDeviceClassSetup_spec l l' nodes items H).
Qed.

(** [l1] has the spec and the conditions of [l0]. *)
Definition keeps_status_of (l0 l1 : LVMCluster) : Prop :=
  lc_Spec l1 = lc_Spec l0 /\ lst_Conditions (lc_Status l1) = lst_Conditions (lc_Status l0).

(** The API server answers the update that adds the finalizer with the spec and the conditions it
    was given: the update does not store the status, so this is not what the server holds but what
    the object in memory keeps when the stored status has no conditions. *)
Definition keeps_status (tr : list (ev clusterE)) : Prop :=
  forall l0 l1, Ev (OfKube _ (UpdateCluster l0)) (Ok l1) ∈ tr -> keeps_status_of l0 l1.

(** From the managers on. *)
Lemma resources_ready l l1 a :
  lc_Spec l1 = lc_Spec l -> conditions_are (lst_Conditions (lc_Status l1)) a groupsInProgress ->
  wp (errs <- call (OfManager _ (EnsureCreatedAll (resourcesToCreate r) l1));;
      if (0 <? length errs)%nat then
        let err := wrapErr "LVMCluster's resources are not yet fully synchronized" (errors_Join errs) in
        ClusterWarningEvent EventReasonErrorResourceReconciliationIncomplete err;;
        updateLVMClusterStatus r (with_conditions (setResourcesAvailableConditionFalse err) l1);;
        Ret (emptyResult, Some err)
      else
        guard checkForDeletedDeviceClasses r l1
          catch err => Ret (emptyResult, Some (EFmt ("failed to check for deleted device classes, " +:+ Error err) [err])) in
        ClusterNormalEvent EventReasonResourceReconciliationSuccess "successfully reconciled LVMCluster";;
        guard updateLVMClusterStatus r (with_conditions setResourcesAvailableConditionTrue l1)
          catch err => Ret (emptyResult, Some err) in
        Ret (mkResult true 60, None)) (fun _ tr => forall l', l' ∈ omap status_update_of tr ->
    lst_Ready (lc_Status l') = true <-> [] ∈ omap created_of tr /\ setup_complete l tr).
Proof.
  intros Hspec Hc1. apply wp_call. intros errs. destruct (Nat.ltb_spec 0 (length errs)) as [Hne|He].
  - set (err := wrapErr _ _). apply wp_call. intros []. apply wp_bind.
    eapply wp_mono; [apply (updateStatus_spec _ (mkCondition ResourcesAvailable false ReasonResourcesIncomplete
      (MessageReasonResourcesSyncIncomplete err))); [by apply (conditions_set_resources _ _ _ _ Hc1)|known]|].
    intros _ tr [Hcr Hst]. cbn [wp]. rewrite app_nil_r.
    rewrite !(omap_skip status_update_of), (omap_hit created_of _ errs), (omap_skip created_of), Hcr by done.
    intros l' Hl'. rewrite (Hst l' Hl'), list_elem_of_singleton. split; [|by intros [<- _]; simpl in Hne; lia].
    intros [Hr _]. exfalso. revert Hr. apply groups_not_ready. set_solver.
  - assert (errs = []) as -> by (destruct errs; [done|simpl in He; lia]).
    assert (Hq1 : emits no_status (checkForDeletedDeviceClasses r l1)).
    { unfold checkForDeletedDeviceClasses, deleteOrphan, deleteIfPresent, kube. emits_auto. }
    assert (Hq2 : forall reason msg, emits no_status (ClusterNormalEvent reason msg)).
    { intros. unfold ClusterNormalEvent. emits_auto. }
    apply wp_bind. eapply wp_mono; [apply emits_wp, Hq1|]. intros [err|] tr1 (Hn1 & Hi1 & Hs1 & Hcr1)%no_status_trace.
    { cbn [wp]. rewrite app_nil_r, (omap_skip status_update_of), Hs1 by done. by intros ? ?%elem_of_nil. }
    apply wp_bind. eapply wp_mono; [apply emits_wp, Hq2|]. intros _ tr2 (Hn2 & Hi2 & Hs2 & Hcr2)%no_status_trace.
    apply wp_bind. eapply wp_mono;
      [apply (updateStatus_spec _ (mkCondition ResourcesAvailable true ReasonResourcesAvailable MessageResourcesAvailable));
       [by apply (conditions_set_resources _ _ _ _ Hc1)|known]|].
    intros err tr [Hcr Hst]. assert (Hgoal : forall l', l' ∈ omap status_update_of tr ->
      lst_Ready (lc_Status l') = true <->
      [] ∈ omap created_of (Ev (OfManager _ (EnsureCreatedAll (resourcesToCreate r) l1)) [] :: tr1 ++ tr2 ++ tr) /\
      setup_complete l (Ev (OfManager _ (EnsureCreatedAll (resourcesToCreate r) l1)) [] :: tr1 ++ tr2 ++ tr)).
    { intros l' Hl'. rewrite (Hst l' Hl'), (omap_hit created_of _ []), !omap_app, Hcr, Hcr1, Hcr2 by done.
      rewrite list_elem_of_singleton.
      assert (setup_complete l (Ev (OfManager _ (EnsureCreatedAll (resourcesToCreate r) l1)) [] :: tr1 ++ tr2 ++ tr) <->
              setup_complete (with_conditions setResourcesAvailableConditionTrue l1) tr) as ->.
      { transitivity (setup_complete l (tr1 ++ tr2 ++ tr)); [by apply (setup_complete_app l [_])|].
        rewrite !setup_complete_app by done. by apply setup_complete_spec. }
      split; intros [_ H]; (split; [|exact H]); [done|]. unfold ready_reason. in_table. }
    destruct err; cbn [wp]; rewrite app_nil_r, (omap_skip status_update_of), !omap_app, Hs1, Hs2, !app_nil_l by done;
      exact Hgoal.
Qed.

(** A reconciliation reports the cluster as ready exactly when every resource manager
    succeeded in it and, unless there are no device classes, every device class has a valid
    node and every valid node reports the class as ready. *)
Lemma reconcileCluster_ready l :
  operator_conditions (lst_Conditions (lc_Status l)) ->
  wp (reconcileCluster r l) (fun _ tr => keeps_status tr -> forall l', l' ∈ omap status_update_of tr ->
    lst_Ready (lc_Status l') = true <-> [] ∈ omap created_of tr /\ setup_complete l tr).
Proof.
  intros Hcs. unfold reconcileCluster, addClusterFinalizer.
  set (l1 := with_conditions setVolumeGroupsReadyConditionInProgress (with_conditions _ l)).
  assert (Hc1 : conditions_are (lst_Conditions (lc_Status l1)) _ groupsInProgress)
    by (apply conditions_set_both; [exact Hcs|done..]).
  destruct (AddFinalizer _ _) as [finalizers []].
  - apply wp_bind, wp_call. intros [l2|err].
    2: { intros _ l'. cbn. by intros ?%elem_of_nil. }
    cbn [wp]. set (l0 := with_lc_meta l1 _).
    eapply wp_mono; [apply wp_self|]. intros res tr Hrun Hk l'. cbn [app] in *.
    destruct (Hk l0 l2 (list_elem_of_here _ _)) as [Hspec Hst].
    assert (Hc2 : conditions_are (lst_Conditions (lc_Status l2)) _ groupsInProgress) by (rewrite Hst; exact Hc1).
    rewrite omap_skip by done. intros Hl'.
    rewrite (wp_runs _ _ _ _ (resources_ready l l2 _ Hspec Hc2) Hrun l' Hl'), omap_skip by done.
    pose proof (setup_complete_app l [Ev (OfKube _ (UpdateCluster l0)) (Ok l2)] tr eq_refl eq_refl) as Hs. cbn [app] in Hs.
    by rewrite Hs.
  - eapply wp_mono; [exact (resources_ready l l1 _ eq_refl Hc1)|]. auto.
Qed.
End Readiness.
End ClusterFacts.
