(* ===== verification/Resources.v ===== *)
(** The resource managers of the LVMCluster controller (internal/controllers/lvmcluster/resource),
    except for the vgmanager DaemonSet: each manager is a pair of programs over the Kubernetes
    client, [EnsureCreated] and [EnsureDeleted]. Logging is not modelled. *)

From S2P Require Import Prelude GoStd Effects Api VgEnv VgController Objects ClusterStatus ClusterEnv ClusterController.
From S2P Require Import Webhook.

Definition TopolvmCSIDriverName := "topolvm.io".
Definition VGManagerServiceAccount := "vg-manager".
Definition SCCPrefix := "lvms-".
Definition DeleteProtectionFinalizer := "delete-protection.lvm.openshift.io".
Definition legacyVGFinalizer := "lvm.openshift.io/lvmvolumegroup".
Definition storageClassFieldOwner := "lvms-operator".
Definition defaultSCAnnotation := "storageclass.kubernetes.io/is-default-class".
Definition scName := "topolvm-storageclass".
Definition AppKubernetesNameLabel := "app.kubernetes.io/name".
Definition AppKubernetesPartOfLabel := "app.kubernetes.io/part-of".
Definition AppKubernetesManagedByLabel := "app.kubernetes.io/managed-by".
Definition AppKubernetesComponentLabel := "app.kubernetes.io/component".
Definition VGManagerLabelVal := "vg-manager".
Definition ManagedByLabelVal := "lvms-operator".
Definition PartOfLabelVal := "lvms-provisioner".

(** resource.Manager, without its name ([GetName]). *)
Record Manager `{K : K8s} := mkManager {
  EnsureCreatedBy : LVMCluster -> prog kubeE (option error);
  EnsureDeletedBy : LVMCluster -> prog kubeE (option error);
}.

Section Resources.
Context `{R : GoRuntime} `{K : K8s} `{C : !ControllerUtil} `{O : ControllerRefs} `{GVK : Scheme}.
Variable r : ClusterReconciler.

Definition failed (m : ManagerId) (err : error) : error := wrapErr (GetName m +:+ " failed to reconcile") err.

(** The end of a loop that leaves with an error. *)
Definition loop_error {S} (res : S + error) : option error := match res with inl _ => None | inr err => Some err end.

(** * lvm_volumegroup.go *)

Definition volumeGroupOf (namespace : string) (onlyClass : bool) (dc : DeviceClass) : LVMVolumeGroup :=
  mkLVMVolumeGroup (named (dc_Name dc) namespace)
    {| vgs_NodeSelector := dc_NodeSelector dc; vgs_DeviceSelector := dc_DeviceSelector dc;
       vgs_ThinPoolConfig := dc_ThinPoolConfig dc; vgs_RAIDConfig := dc_RAIDConfig dc;
       vgs_Default := onlyClass || dc_Default dc;
       vgs_DeviceDiscoveryPolicy := dc_DeviceDiscoveryPolicy dc |}.

Definition lvmVolumeGroups (namespace : string) (deviceClasses : list DeviceClass) : list LVMVolumeGroup :=
  map (volumeGroupOf namespace (length deviceClasses =? 1)%nat) deviceClasses.

Definition mutateVolumeGroup (volumeGroup existing : LVMVolumeGroup) : LVMVolumeGroup :=
  {| lvg_meta := with_finalizers (lvg_meta existing)
                   (RemoveFinalizer (om_Finalizers (lvg_meta existing)) legacyVGFinalizer).1;
     lvg_Spec := lvg_Spec volumeGroup |}.

Definition applyVolumeGroup (l : LVMCluster) (volumeGroup : LVMVolumeGroup) (_ : unit) : prog kubeE (unit + error) :=
  let meta := named (lvg_Name volumeGroup) (om_Namespace (lvg_meta volumeGroup)) in
  match SetControllerReference (lc_meta l) meta with
  | Err err => Ret (inr (wrapErr "failed to set controller reference to LVMVolumeGroup" err))
  | Ok owners =>
      let existing := mkLVMVolumeGroup (with_owners meta owners) (mkLVMVolumeGroupSpec None None None None false None) in
      try _ := call (CreateOrUpdate KindVolumeGroup existing (fun _ existing => Ok (mutateVolumeGroup volumeGroup existing)))
        catch err => Ret (inr (failed LVMVGs err)) in
      Ret (inl tt)
  end.

Definition lvmVG_EnsureCreated (l : LVMCluster) : prog kubeE (option error) :=
  res <- for_each (applyVolumeGroup l) (lvmVolumeGroups (cr_Namespace r) (deviceClasses l)) tt;;
  Ret (loop_error res).

(** [types.NamespacedName.String] *)
Definition key_String (m : ObjectMeta) : string := om_Namespace m +:+ "/" +:+ om_Name m.

Definition deleteVolumeGroupObject (volumeGroup : LVMVolumeGroup) (pending : list string) : prog kubeE (list string + error) :=
  let name := lvg_Name volumeGroup in
  let namespace := om_Namespace (lvg_meta volumeGroup) in
  res <- call (GetMeta KindVolumeGroup namespace name);;
  match res with
  | Err err => Ret (if IsNotFound err then inl pending else inr err)
  | Ok meta =>
      guard (match om_DeletionTimestamp meta with
             | None => call (DeleteObject KindVolumeGroup namespace name)
             | Some _ => Ret None
             end) catch err => Ret (inr (wrapErr ("failed to delete LVMVolumeGroup " +:+ om_Name meta) err)) in
      Ret (inl (pending ++ [key_String (lvg_meta volumeGroup)]))
  end.

Definition lvmVG_EnsureDeleted (l : LVMCluster) : prog kubeE (option error) :=
  res <- for_each deleteVolumeGroupObject (lvmVolumeGroups (cr_Namespace r) (deviceClasses l)) [];;
  Ret match res with
      | inr err => Some err
      | inl volumeGroupsPendingDelete =>
          if (0 <? length volumeGroupsPendingDelete)%nat then
            Some (EFmt ("waiting for LVMVolumeGroup's to be removed of " +:+ key_String (lc_meta l) +:+ ": " +:+
                        fmt_strings volumeGroupsPendingDelete) [])
          else None
      end.

(** * lvm_volumegroupnodestatus.go *)

Definition hasDeleteProtectionFinalizer (finalizers : list string) : bool :=
  contains_str finalizers DeleteProtectionFinalizer.

(** Removes the first occurrence; [None] when there is none. *)
Fixpoint removeDeleteProtection (finalizers : list string) : option (list string) :=
  match finalizers with
  | [] => None
  | f :: fs => if String.eqb f DeleteProtectionFinalizer then Some fs else cons f <$> removeDeleteProtection fs
  end.

Definition with_status_meta (s : LVMVolumeGroupNodeStatus) (m : ObjectMeta) : LVMVolumeGroupNodeStatus :=
  mkLVMVolumeGroupNodeStatus m (ns_LVMVGStatus s).

Definition removeDeleteProtectionFinalizer (status : LVMVolumeGroupNodeStatus) : LVMVolumeGroupNodeStatus * bool :=
  match removeDeleteProtection (om_Finalizers (ns_meta status)) with
  | Some fs => (with_status_meta status (with_finalizers (ns_meta status) fs), true)
  | None => (status, false)
  end.

Definition mutateNodeStatus (l : LVMCluster) (status : LVMVolumeGroupNodeStatus) : result error LVMVolumeGroupNodeStatus :=
  match SetControllerReference (lc_meta l) (ns_meta status) with
  | Err err => Err (wrapErr "failed to set controller reference" err)
  | Ok owners =>
      let m := with_owners (ns_meta status) owners in
      Ok (with_status_meta status
            (if negb (hasDeleteProtectionFinalizer (om_Finalizers m))
             then with_finalizers m (om_Finalizers m ++ [DeleteProtectionFinalizer]) else m))
  end.

Definition applyNodeStatus (l : LVMCluster) (node : Node) (_ : unit) : prog kubeE (unit + error) :=
  try _ := call (CreateOrUpdate KindNodeStatus (mkLVMVolumeGroupNodeStatus (named (node_Name node) (cr_Namespace r)) [])
                   (fun _ => mutateNodeStatus l))
    catch err => Ret (inr (failed LVMVGNodeStatus err)) in
  Ret (inl tt).

Definition lvmVGNodeStatus_EnsureCreated (l : LVMCluster) : prog kubeE (option error) :=
  try nodes := call ListNodes catch err => Ret (Some (wrapErr "failed to list nodes" err)) in
  let '(validNodes, err) := ValidNodes l nodes in
  res <- for_each (applyNodeStatus l) validNodes tt;;
  Ret match res with inr err => Some err | inl _ => err end.

Definition isValidNode (statusName : string) (validNodes : list Node) : bool :=
  existsb (fun node => String.eqb statusName (node_Name node)) validNodes.

Definition deleteNodeStatus (status : LVMVolumeGroupNodeStatus) : prog kubeE (option error) :=
  let m := ns_meta status in
  guard (match om_DeletionTimestamp m with
         | None => call (DeleteObject KindNodeStatus (om_Namespace m) (om_Name m))
         | Some _ => Ret None
         end) catch err => Ret (Some (wrapErr ("failed to delete LVMVolumeGroupNodeStatus " +:+ om_Name m) err)) in
  let '(status, removed) := removeDeleteProtectionFinalizer status in
  if (removed : bool) then
    guard call (UpdateNodeStatus status)
      catch err => Ret (Some (wrapErr "failed to remove finalizer from LVMVolumeGroupNodeStatus" err)) in
    Ret None
  else Ret None.

Definition deleteValidStatus (validNodes : list Node) (status : LVMVolumeGroupNodeStatus) (_ : unit)
  : prog kubeE (unit + error) :=
  if isValidNode (om_Name (ns_meta status)) validNodes then
    guard deleteNodeStatus status catch err => Ret (inr err) in Ret (inl tt)
  else Ret (inl tt).

Definition lvmVGNodeStatus_EnsureDeleted (l : LVMCluster) : prog kubeE (option error) :=
  try items := call (ListNodeStatuses (cr_Namespace r))
    catch err => Ret (Some (wrapErr "failed to list LVMVolumeGroupNodeStatus" err)) in
  try nodes := call ListNodes catch err => Ret (Some (wrapErr "failed to list nodes" err)) in
  let '(validNodes, err) := ValidNodes l nodes in
  res <- for_each (deleteValidStatus validNodes) items tt;;
  Ret match res with inr err => Some err | inl _ => err end.

(** * csi_node.go *)

Definition collectCSINode (node : Node) (csiNodes : list CSINodeObject) : prog kubeE (list CSINodeObject + error) :=
  try csiNode := call (GetCSINode (node_Name node)) catch err => Ret (inr err) in
  Ret (inl (csiNodes ++ [csiNode])).

(** The nodes are used beside a non-nil error. *)
Definition GetAllCSINodeCandidates (l : LVMCluster) : prog kubeE (list CSINodeObject * option error) :=
  try nodes := call ListNodes catch err => Ret ([], Some err) in
  let '(valid, err) := ValidNodes l nodes in
  res <- for_each collectCSINode valid [];;
  Ret match res with inl csiNodes => (csiNodes, err) | inr err => ([], Some err) end.

Definition hasDriver (csiNode : CSINodeObject) : bool := contains_str (cn_Drivers csiNode) TopolvmCSIDriverName.

Definition csiNode_EnsureCreated (l : LVMCluster) : prog kubeE (option error) :=
  ' (csiNodes, err) <- GetAllCSINodeCandidates l;;
  Ret match find_first (fun n => negb (hasDriver n)) csiNodes with
      | Some n => Some (EFmt ("csi node " +:+ cn_Name n +:+ " does not have driver " +:+ TopolvmCSIDriverName) [])
      | None => err
      end.

Definition csiNode_EnsureDeleted (l : LVMCluster) : prog kubeE (option error) :=
  ' (csiNodes, err) <- GetAllCSINodeCandidates l;;
  Ret match find_first hasDriver csiNodes with
      | Some n => Some (EFmt ("csi node " +:+ cn_Name n +:+ " still has driver " +:+ TopolvmCSIDriverName +:+
                    ", if you think this is by mistake, manually login to the node and remove the driver from the kubelets plugin directory") [])
      | None => err
      end.

(** * topolvm_csi_driver.go *)

Definition getCSIDriverResource : CSIDriverObject :=
  {| drv_meta := named TopolvmCSIDriverName ""; drv_AttachRequired := false; drv_PodInfoOnMount := true;
     drv_StorageCapacity := true; drv_VolumeLifecycleModes := ["Persistent"] |}.

Definition mutateCSIDriver (l : LVMCluster) (d : CSIDriverObject) : CSIDriverObject :=
  {| drv_meta := SetManagedLabels (drv_meta d) (lc_meta l); drv_AttachRequired := drv_AttachRequired d;
     drv_PodInfoOnMount := drv_PodInfoOnMount d; drv_StorageCapacity := drv_StorageCapacity d;
     drv_VolumeLifecycleModes := drv_VolumeLifecycleModes d |}.

Definition csiDriver_EnsureCreated (l : LVMCluster) : prog kubeE (option error) :=
  try _ := call (CreateOrUpdate KindCSIDriver getCSIDriverResource (fun _ d => Ok (mutateCSIDriver l d)))
    catch err => Ret (Some (failed CSIDriver err)) in
  Ret None.

Definition csiDriver_EnsureDeleted (_ : LVMCluster) : prog kubeE (option error) :=
  try meta := call (GetMeta KindCSIDriver "" TopolvmCSIDriverName) catch err => Ret (IgnoreNotFound err) in
  match om_DeletionTimestamp meta with
  | Some _ => Ret (Some (EFmt ("the CSIDriver " +:+ TopolvmCSIDriverName +:+ " is still present, waiting for deletion") []))
  | None =>
      deleted <- call (DeleteObject KindCSIDriver "" TopolvmCSIDriverName);;
      match deleted with
      | Some err =>
          Ret (if IsNotFound err then None
               else Some (wrapErr ("failed to delete topolvm csi driver " +:+ om_Name meta) err))
      | None =>
          res <- call (GetMeta KindCSIDriver "" TopolvmCSIDriverName);;
          Ret match res with
              | Err err =>
                  if IsNotFound err then None
                  else Some (wrapErr ("failed to verify deletion of topolvm csi driver " +:+ om_Name meta) err)
              | Ok meta => Some (EFmt ("topolvm csi driver " +:+ om_Name meta +:+ " still has to be removed") [])
              end
      end
  end.

(** * topolvm_storageclass.go *)

(** The name of the first default storage class listed, and whether one may be set. *)
Definition findDefault (listed : result error (list ObjectMeta)) : string * bool :=
  match listed with
  | Err _ => ("", false)
  | Ok items =>
      (match find_first (fun sc => String.eqb (label (default ∅ (om_Annotations sc)) defaultSCAnnotation) "true") items with
       | Some sc => om_Name sc
       | None => ""
       end, true)
  end.

(** The storage class of a device class; the state is [defaultStorageClassName]. *)
Definition storageClassOf (l : LVMCluster) (setDefaultStorageClass : bool) (dc : DeviceClass) (defaultStorageClassName : string)
  : StorageClass * string :=
  let scName := GetStorageClassName (dc_Name dc) in
  let opts := dc_StorageClassOptions dc in
  let reclaimPolicy := default PersistentVolumeReclaimDelete (opts ≫= sco_ReclaimPolicy) in
  let volumeBindingMode := default VolumeBindingWaitForFirstConsumer (opts ≫= sco_VolumeBindingMode) in
  let parameters := default ∅ (sco_AdditionalParameters <$> opts) in
  let parameters := <[FsTypeKey := DeviceFilesystemType_string (dc_FilesystemType dc)]>
                      (<[DeviceClassKey := dc_Name dc]> parameters) in
  let isDefault := dc_Default dc && setDefaultStorageClass &&
                   (String.eqb defaultStorageClassName "" || String.eqb defaultStorageClassName scName) in
  let meta := with_annotations (named scName "")
    (Some (<[defaultSCAnnotation := if isDefault then "true" else "false"]>
             {["description" := "Provides RWO and RWOP Filesystem & Block volumes"]})) in
  let meta := SetManagedLabels (with_labels meta (default ∅ (sco_AdditionalLabels <$> opts))) (lc_meta l) in
  ({| sc_meta := meta; sc_Provisioner := TopolvmCSIDriverName; sc_ReclaimPolicy := reclaimPolicy;
      sc_VolumeBindingMode := volumeBindingMode; sc_AllowVolumeExpansion := true; sc_Parameters := parameters |},
   if isDefault then scName else defaultStorageClassName).

Fixpoint storageClassesOf (l : LVMCluster) (setDefaultStorageClass : bool) (dcs : list DeviceClass)
  (defaultStorageClassName : string) : list StorageClass :=
  match dcs with
  | [] => []
  | dc :: dcs =>
      let '(sc, defaultStorageClassName) := storageClassOf l setDefaultStorageClass dc defaultStorageClassName in
      sc :: storageClassesOf l setDefaultStorageClass dcs defaultStorageClassName
  end.

Definition getTopolvmStorageClasses (l : LVMCluster) : prog kubeE (list StorageClass) :=
  listed <- call ListStorageClasses;;
  let '(defaultStorageClassName, setDefaultStorageClass) := findDefault listed in
  Ret (storageClassesOf l setDefaultStorageClass (deviceClasses l) defaultStorageClassName).

Definition applyStorageClass (sc : StorageClass) (_ : unit) : prog kubeE (unit + error) :=
  guard call (ApplyStorageClass sc storageClassFieldOwner)
    catch err => Ret (inr (wrapErr (GetName TopoLVMStorageClass +:+ " failed to reconcile StorageClass " +:+
                                    om_Name (sc_meta sc)) err)) in
  Ret (inl tt).

Definition topolvmStorageClass_EnsureCreated (l : LVMCluster) : prog kubeE (option error) :=
  scs <- getTopolvmStorageClasses l;;
  res <- for_each applyStorageClass scs tt;;
  Ret (loop_error res).

(** Deletes a cluster-scoped object by name; [what] and [which] are its kind in the messages. *)
Definition deleteNamed (k : Kind) (namespace name what which : string) : prog kubeE (option error) :=
  res <- call (GetMeta k namespace name);;
  match res with
  | Err err => Ret (if IsNotFound err then None else Some err)
  | Ok meta =>
      match om_DeletionTimestamp meta with
      | Some _ => Ret (Some (EFmt (what +:+ " " +:+ name +:+ " is still present, waiting for deletion") []))
      | None =>
          guard call (DeleteObject k namespace name)
            catch err => Ret (Some (wrapErr ("failed to delete " +:+ which +:+ " " +:+ name) err)) in
          Ret None
      end
  end.

Definition deleteStorageClass (dc : DeviceClass) (_ : unit) : prog kubeE (unit + error) :=
  guard deleteNamed KindStorageClass "" (GetStorageClassName (dc_Name dc)) "the StorageClass" "StorageClass"
    catch err => Ret (inr err) in
  Ret (inl tt).

Definition topolvmStorageClass_EnsureDeleted (l : LVMCluster) : prog kubeE (option error) :=
  res <- for_each deleteStorageClass (deviceClasses l) tt;;
  Ret (loop_error res).

(** * topolvm_snapshotclass.go *)

Definition getTopolvmSnapshotClasses (l : LVMCluster) : list VolumeSnapshotClass :=
  omap (fun dc => match dc_ThinPoolConfig dc with
                  | None => None
                  | Some _ => Some (mkVolumeSnapshotClass (named (GetVolumeSnapshotClassName (dc_Name dc)) "")
                                      TopolvmCSIDriverName true)
                  end) (deviceClasses l).

Definition mutateSnapshotClass (l : LVMCluster) (vsc : VolumeSnapshotClass) : VolumeSnapshotClass :=
  mkVolumeSnapshotClass (SetManagedLabels (vsc_meta vsc) (lc_meta l)) (vsc_Driver vsc) (vsc_Delete vsc).

Definition applySnapshotClass (l : LVMCluster) (vsc : VolumeSnapshotClass) (_ : unit) : prog kubeE (unit + error) :=
  try _ := call (CreateOrUpdate KindVolumeSnapshotClass vsc (fun _ vsc => Ok (mutateSnapshotClass l vsc)))
    catch err => Ret (inr (failed TopoLVMVolumeSnapshotClass err)) in
  Ret (inl tt).

Definition topolvmVolumeSnapshotClass_EnsureCreated (l : LVMCluster) : prog kubeE (option error) :=
  res <- for_each (applySnapshotClass l) (getTopolvmSnapshotClasses l) tt;;
  Ret (loop_error res).

Definition deleteSnapshotClass (dc : DeviceClass) (_ : unit) : prog kubeE (unit + error) :=
  guard deleteNamed KindVolumeSnapshotClass "" (GetVolumeSnapshotClassName (dc_Name dc)) "the VolumeSnapshotClass"
          "topolvm VolumeSnapshotClass"
    catch err => Ret (inr err) in
  Ret (inl tt).

Definition topolvmVolumeSnapshotClass_EnsureDeleted (l : LVMCluster) : prog kubeE (option error) :=
  res <- for_each deleteSnapshotClass (deviceClasses l) tt;;
  Ret (loop_error res).

(** * scc.go *)

Definition newVGManagerScc (namespace : string) : SecurityContextConstraints :=
  {| scc_meta := named (SCCPrefix +:+ "vgmanager") "";
     scc_AllowPrivilegedContainer := true; scc_AllowHostNetwork := false; scc_AllowHostDirVolumePlugin := true;
     scc_AllowHostPorts := false; scc_AllowHostPID := true; scc_AllowHostIPC := true;
     scc_ReadOnlyRootFilesystem := false; scc_RequiredDropCapabilities := [];
     scc_RunAsUser := StrategyRunAsAny; scc_SELinuxContext := StrategyMustRunAs; scc_FSGroup := StrategyMustRunAs;
     scc_SupplementalGroups := StrategyRunAsAny;
     scc_Volumes := ["configMap"; "emptyDir"; "hostPath"; "secret"];
     scc_Users := ["system:serviceaccount:" +:+ namespace +:+ ":" +:+ VGManagerServiceAccount] |}.

Definition getAllSCCs (namespace : string) : list SecurityContextConstraints := [newVGManagerScc namespace].

Definition with_scc (s : SecurityContextConstraints) (m : ObjectMeta) (users : list string) : SecurityContextConstraints :=
  {| scc_meta := m;
     scc_AllowPrivilegedContainer := scc_AllowPrivilegedContainer s; scc_AllowHostNetwork := scc_AllowHostNetwork s;
     scc_AllowHostDirVolumePlugin := scc_AllowHostDirVolumePlugin s; scc_AllowHostPorts := scc_AllowHostPorts s;
     scc_AllowHostPID := scc_AllowHostPID s; scc_AllowHostIPC := scc_AllowHostIPC s;
     scc_ReadOnlyRootFilesystem := scc_ReadOnlyRootFilesystem s;
     scc_RequiredDropCapabilities := scc_RequiredDropCapabilities s; scc_RunAsUser := scc_RunAsUser s;
     scc_SELinuxContext := scc_SELinuxContext s; scc_FSGroup := scc_FSGroup s;
     scc_SupplementalGroups := scc_SupplementalGroups s; scc_Volumes := scc_Volumes s; scc_Users := users |}.

Definition mutateSCC (l : LVMCluster) (template : SecurityContextConstraints) (fresh : bool) (scc : SecurityContextConstraints)
  : SecurityContextConstraints :=
  let scc := if fresh then template else scc in
  with_scc scc (SetManagedLabels (scc_meta scc) (lc_meta l)) (scc_Users template).

(** An object of which only the name is set. *)
Definition emptySCC (name : string) : SecurityContextConstraints :=
  mkSCC (named name "") false false false false false false false [] StrategyRunAsAny StrategyRunAsAny StrategyRunAsAny
    StrategyRunAsAny [] [].

Definition applySCC (l : LVMCluster) (template : SecurityContextConstraints) (_ : unit) : prog kubeE (unit + error) :=
  try _ := call (CreateOrUpdate KindSCC (emptySCC (om_Name (scc_meta template)))
                   (fun fresh scc => Ok (mutateSCC l template fresh scc)))
    catch err => Ret (inr (failed OpenShiftSCCs err)) in
  Ret (inl tt).

Definition openshiftSccs_EnsureCreated (l : LVMCluster) : prog kubeE (option error) :=
  res <- for_each (applySCC l) (getAllSCCs (cr_Namespace r)) tt;;
  Ret (loop_error res).

(** The object is read by [scName], the name of the storage class manager. *)
Definition deleteSCC (_ : SecurityContextConstraints) (_ : unit) : prog kubeE (unit + error) :=
  guard deleteNamed KindSCC "" scName "the SecurityContextConstraint" "SecurityContextConstraint"
    catch err => Ret (inr err) in
  Ret (inl tt).

Definition openshiftSccs_EnsureDeleted (_ : LVMCluster) : prog kubeE (option error) :=
  res <- for_each deleteSCC (getAllSCCs (cr_Namespace r)) tt;;
  Ret (loop_error res).

(** * servicemonitor.go *)

Definition IsPrometheusAvailable : prog kubeE (bool * option error) :=
  res <- call (GetMeta KindCRD "" "servicemonitors.monitoring.coreos.com");;
  Ret match res with
      | Err err =>
          match IgnoreNotFound err with
          | Some _ => (false, Some (wrapErr "failed to get ServiceMonitor CRD" err))
          | None => (false, None)
          end
      | Ok _ => (true, None)
      end.

Definition monitorEndpoint (port service : string) : MonitorEndpoint :=
  {| me_Path := "/metrics"; me_Port := port;
     me_BearerTokenFile := "/var/run/secrets/kubernetes.io/serviceaccount/token";
     me_ServerName := service +:+ "." +:+ cr_Namespace r +:+ ".svc";
     me_CAFile := "/etc/prometheus/configmaps/serving-certs-ca-bundle/service-ca.crt" |}.

Definition serviceMonitorResource : ServiceMonitorObject :=
  {| sm_meta := with_labels (named (GetName ServiceMonitor) (cr_Namespace r))
       (<["app.kubernetes.io/name" := "lvms-operator"]> (<["app.kubernetes.io/compose" := "metrics"]>
         {["app.kubernetes.io/part-of" := "lvms-provisioner"]}));
     sm_Endpoints := [monitorEndpoint "https" "lvms-operator-metrics-service";
                      monitorEndpoint "vg-manager-https" "vg-manager-metrics-service"];
     sm_Selector := {["app.kubernetes.io/compose" := "metrics"]} |}.

Definition serviceMonitor_EnsureCreated (l : LVMCluster) : prog kubeE (option error) :=
  ' (isPrometheusAvailable, err) <- IsPrometheusAvailable;;
  match err with
  | Some err => Ret (Some (wrapErr "failed to check if Prometheus is available" err))
  | None =>
      if negb isPrometheusAvailable then Ret None
      else
        try _ := call (CreateOrUpdate KindServiceMonitor serviceMonitorResource
                         (fun _ sm => Ok (mkServiceMonitorObject (SetManagedLabels (sm_meta sm) (lc_meta l))
                                            (sm_Endpoints sm) (sm_Selector sm))))
          catch err => Ret (Some (failed ServiceMonitor err)) in
        Ret None
  end.

Definition serviceMonitor_EnsureDeleted (_ : LVMCluster) : prog kubeE (option error) :=
  ' (isPrometheusAvailable, err) <- IsPrometheusAvailable;;
  match err with
  | Some err => Ret (Some (wrapErr "failed to check if Prometheus is available" err))
  | None =>
      if negb isPrometheusAvailable then Ret None
      else
        res <- call (GetMeta KindServiceMonitor (cr_Namespace r) (GetName ServiceMonitor));;
        match res with
        | Err err =>
            Ret match IgnoreNotFound err with
                | Some _ => Some (wrapErr "failed to get ServiceMonitor" err)
                | None => None
                end
        | Ok meta =>
            match om_DeletionTimestamp meta with
            | Some _ => Ret (Some (EFmt ("ServiceMonitor " +:+ om_Name meta +:+ " is still present, waiting for deletion") []))
            | None =>
                guard call (DeleteObject KindServiceMonitor (cr_Namespace r) (GetName ServiceMonitor))
                  catch err => Ret (Some (wrapErr ("failed to delete ServiceMonitor " +:+ om_Name meta) err)) in
                Ret None
            end
        end
  end.

(** * networkpolicy.go *)

Definition networkPolicyPort (protocol : Protocol) (port : Z) : NetworkPolicyPort := mkNetworkPolicyPort protocol port.

Definition commonEgressRules : list NetworkPolicyRule :=
  [mkNetworkPolicyRule [] [networkPolicyPort ProtocolTCP 6443];
   mkNetworkPolicyRule
     [mkNetworkPolicyPeer {["kubernetes.io/metadata.name" := "openshift-dns"]}
        {["dns.operator.openshift.io/daemonset-dns" := "default"]}]
     [networkPolicyPort ProtocolTCP 5353; networkPolicyPort ProtocolUDP 5353]].

Definition defaultDenyPolicy (namespace : string) : NetworkPolicy :=
  mkNetworkPolicy (named "lvms-default-deny" namespace) (mkNetworkPolicySpec ∅ [PolicyTypeIngress; PolicyTypeEgress] [] []).

Definition operatorAllowPolicy (namespace : string) : NetworkPolicy :=
  mkNetworkPolicy (named "lvms-operator-allow" namespace)
    (mkNetworkPolicySpec {[AppKubernetesNameLabel := ManagedByLabelVal]} [PolicyTypeIngress; PolicyTypeEgress]
       [mkNetworkPolicyRule [] [networkPolicyPort ProtocolTCP 9443]; mkNetworkPolicyRule [] [networkPolicyPort ProtocolTCP 8443]]
       commonEgressRules).

Definition vgManagerAllowPolicy (namespace : string) : NetworkPolicy :=
  mkNetworkPolicy (named "lvms-vg-manager-allow" namespace)
    (mkNetworkPolicySpec {[AppKubernetesNameLabel := VGManagerLabelVal]} [PolicyTypeIngress; PolicyTypeEgress]
       [mkNetworkPolicyRule [] [networkPolicyPort ProtocolTCP 8443]] commonEgressRules).

Definition allNetworkPolicies (namespace : string) : list NetworkPolicy :=
  [operatorAllowPolicy namespace; vgManagerAllowPolicy namespace; defaultDenyPolicy namespace].

Definition mutateNetworkPolicy (l : LVMCluster) (template np : NetworkPolicy) : result error NetworkPolicy :=
  let m := SetManagedLabels (np_meta np) (lc_meta l) in
  match SetControllerReference (lc_meta l) m with
  | Err err => Err err
  | Ok owners => Ok (mkNetworkPolicy (with_owners m owners) (np_Spec template))
  end.

Definition applyNetworkPolicy (l : LVMCluster) (template : NetworkPolicy) (_ : unit) : prog kubeE (unit + error) :=
  let name := om_Name (np_meta template) in
  try _ := call (CreateOrUpdate KindNetworkPolicy
                   (mkNetworkPolicy (named name (om_Namespace (np_meta template))) (mkNetworkPolicySpec ∅ [] [] []))
                   (fun _ => mutateNetworkPolicy l template))
    catch err => Ret (inr (wrapErr (GetName NetworkPolicies +:+ " failed to reconcile NetworkPolicy " +:+ name) err)) in
  Ret (inl tt).

Definition networkPolicy_EnsureCreated (l : LVMCluster) : prog kubeE (option error) :=
  res <- for_each (applyNetworkPolicy l) (allNetworkPolicies (cr_Namespace r)) tt;;
  Ret (loop_error res).

Definition deleteNetworkPolicy (template : NetworkPolicy) (_ : unit) : prog kubeE (unit + error) :=
  let name := om_Name (np_meta template) in
  let namespace := om_Namespace (np_meta template) in
  res <- call (GetMeta KindNetworkPolicy namespace name);;
  match res with
  | Err err =>
      Ret match IgnoreNotFound err with
          | Some _ => inr (wrapErr ("failed to get NetworkPolicy " +:+ name) err)
          | None => inl tt
          end
  | Ok meta =>
      match om_DeletionTimestamp meta with
      | Some _ => Ret (inr (EFmt ("NetworkPolicy " +:+ name +:+ " is still present, waiting for deletion") []))
      | None =>
          guard call (DeleteObject KindNetworkPolicy namespace name)
            catch err => Ret (inr (wrapErr ("failed to delete NetworkPolicy " +:+ name) err)) in
          Ret (inl tt)
      end
  end.

Definition networkPolicy_EnsureDeleted (_ : LVMCluster) : prog kubeE (option error) :=
  res <- for_each deleteNetworkPolicy (rev (allNetworkPolicies (cr_Namespace r))) tt;;
  Ret (loop_error res).
End Resources.
