(* ===== verification/VgManagerDaemon.v ===== *)
(** The vgmanager DaemonSet: its template (resource/vgmanager_daemonset.go), the options handed
    to its command (logpassthrough/options.go), its readiness (resource/utils.go) and its
    resource manager (resource/vgmanager.go).

    The template shares volumes and label maps between its parts by reference; they are read only,
    and deeply copied into the stored object, so values are modelled. The one exception is the
    volume of the lvmd configuration: see [confMapVolume_shared]. *)

From S2P Require Import Prelude GoStd Effects Api Lvmd VgEnv VgController Objects ClusterStatus ClusterEnv ClusterController.
From S2P Require Import Resources.

(** intstr.GetScaledValueFromIntOrPercent(value, total, roundUp), the value possibly nil. *)
Class ScaledValues := {
  GetScaledValueFromIntOrPercent : option IntOrString -> Z -> bool -> result error Z;
}.

(** * logpassthrough/options.go *)

Definition ZapOptions_AsArgs (o : ZapOptions) : list string :=
  if (0 <? String.length (ZapLogLevel o))%nat then ["--zap-log-level=" +:+ ZapLogLevel o] else [].

Definition KlogOptions_AsArgs (o : KlogOptions) : list string :=
  (if (0 <? String.length (klog_V o))%nat then ["--v=" +:+ klog_V o] else []) ++
  (if (0 <? String.length (klog_VModule o))%nat then ["--vmodule=" +:+ klog_VModule o] else []).

Definition VGmanagerOptions_AsArgs (o : VGmanagerOptions) : list string :=
  ZapOptions_AsArgs (vgo_ZapOptions o) ++ KlogOptions_AsArgs (vgo_KlogOptions o).

(** * Volumes *)

(** filepath.Dir of a clean absolute path that is not a child of the root: all up to the last
    separator. *)
Fixpoint filepath_Dir (path : string) : string :=
  match path with
  | "" => ""
  | String c rest => if Contains rest "/" then String c (filepath_Dir rest) else if String.eqb (String c "") "/" then "" else "."
  end.

Definition HasSuffixSlash (name : string) : bool :=
  match String.get (String.length name - 1) name with Some c => String.eqb (String c "") "/" | None => false end.

Definition GetAbsoluteKubeletPath (name : string) : string :=
  if HasSuffixSlash name then name else name +:+ "/".

Definition CSIKubeletRootDir := "/var/lib/kubelet/".
Definition DefaultCSISocket := "/run/topolvm/csi-topolvm.sock".
Definition DefaultPluginRegistrationPath := "/registration".
Definition FileLockDir := "/var/lock/vgmanager".
Definition MicroShiftFileConfigPath := "/var/lib/microshift/lvms/lvmd.yaml".
Definition devDirPath := "/dev".
Definition udevPath := "/run/udev".
Definition sysPath := "/sys".
Definition metricsCertsDirPath := "/tmp/k8s-metrics-server/serving-certs".

Definition kubelet (path : string) : string := GetAbsoluteKubeletPath CSIKubeletRootDir +:+ path.

Definition CSIPluginVolName := "csi-plugin-dir".
Definition CSIPluginVol : Volume :=
  mkVolume CSIPluginVolName (HostPath (kubelet "plugins/kubernetes.io/csi") (Some HostPathDirectoryOrCreate)).
Definition CSIPluginVolMount : VolumeMount :=
  mkVolumeMount CSIPluginVolName (kubelet "plugins/kubernetes.io/csi") (Some MountPropagationBidirectional) false.

Definition NodePluginVolName := "node-plugin-dir".
Definition NodePluginVol : Volume :=
  mkVolume NodePluginVolName (HostPath (kubelet "plugins/topolvm.io/node") (Some HostPathDirectoryOrCreate)).
Definition NodePluginVolMount : VolumeMount := mkVolumeMount NodePluginVolName (filepath_Dir DefaultCSISocket) None false.

Definition FileLockVolName := "file-lock-dir".
Definition FileLockVol : Volume :=
  mkVolume FileLockVolName (HostPath (filepath_Dir FileLockDir) (Some HostPathDirectoryOrCreate)).
Definition FileLockVolMount : VolumeMount := mkVolumeMount FileLockVolName (filepath_Dir FileLockDir) None false.

Definition RegistrationVolName := "registration-dir".
Definition RegistrationVol : Volume :=
  mkVolume RegistrationVolName (HostPath (kubelet "plugins_registry/") (Some HostPathDirectoryOrCreate)).
Definition RegistrationVolMount : VolumeMount := mkVolumeMount RegistrationVolName DefaultPluginRegistrationPath None false.

Definition PodVolName := "pod-volumes-dir".
Definition PodVol : Volume := mkVolume PodVolName (HostPath (kubelet "pods/") (Some HostPathDirectoryOrCreate)).
Definition PodVolMount : VolumeMount := mkVolumeMount PodVolName (kubelet "pods") (Some MountPropagationBidirectional) false.

Definition LVMDConfMapVolName := "lvmd-config".
Definition LVMDConfMapVol : Volume :=
  mkVolume LVMDConfMapVolName (HostPath (filepath_Dir DefaultFileConfigPath) (Some HostPathDirectoryOrCreate)).
Definition LVMDConfMapVolMount : VolumeMount :=
  mkVolumeMount LVMDConfMapVolName (filepath_Dir DefaultFileConfigPath) (Some MountPropagationHostToContainer) false.

Definition DevDirVolName := "device-dir".
Definition DevHostDirVol : Volume := mkVolume DevDirVolName (HostPath devDirPath (Some HostPathDirectory)).
Definition DevHostDirVolMount : VolumeMount :=
  mkVolumeMount DevDirVolName devDirPath (Some MountPropagationHostToContainer) false.

Definition UdevVolName := "run-udev".
Definition UDevHostDirVol : Volume := mkVolume UdevVolName (HostPath udevPath None).
Definition UDevHostDirVolMount : VolumeMount :=
  mkVolumeMount UdevVolName udevPath (Some MountPropagationHostToContainer) false.

Definition SysVolName := "sys".
Definition SysHostDirVol : Volume := mkVolume SysVolName (HostPath sysPath None).
Definition SysHostDirVolMount : VolumeMount := mkVolumeMount SysVolName sysPath (Some MountPropagationHostToContainer) false.

Definition MetricsCertsVolName := "metrics-cert".
Definition MetricsCertsDirVol : Volume := mkVolume MetricsCertsVolName (Secret "vg-manager-metrics-cert" 420).
Definition MetricsCertsDirVolMount : VolumeMount := mkVolumeMount MetricsCertsVolName metricsCertsDirPath None true.

(** * The template *)

Definition VGManagerUnit := "vg-manager".
Definition TopolvmNodeContainerHealthzName := "healthz".
Definition VgManagerMemRequest := "45Mi".
Definition VgManagerCPURequest := "5m".
Definition PriorityClassNameUserCritical := "openshift-user-critical".
Definition WorkloadPartitioningManagementAnnotation := "target.workload.openshift.io/management".
Definition ManagementAnnotationVal :=
  "{" +:+ quote "effect" +:+ ": " +:+ quote "PreferredDuringScheduling" +:+ "}".

Section Daemon.
Context `{K : K8s}.

Definition with_affinity (ds : DaemonSet) (affinity : option NodeSelector) : DaemonSet :=
  let t := ds_Template ds in
  {| ds_meta := ds_meta ds; ds_Selector := ds_Selector ds; ds_UpdateStrategy := ds_UpdateStrategy ds; ds_Status := ds_Status ds;
     ds_Template :=
       {| pt_Annotations := pt_Annotations t; pt_Labels := pt_Labels t;
          pt_TerminationGracePeriodSeconds := pt_TerminationGracePeriodSeconds t;
          pt_PriorityClassName := pt_PriorityClassName t; pt_Volumes := pt_Volumes t; pt_Containers := pt_Containers t;
          pt_HostPID := pt_HostPID t; pt_Tolerations := pt_Tolerations t;
          pt_ServiceAccountName := pt_ServiceAccountName t; pt_Affinity := affinity |} |}.

(** resource/utils.go *)
Definition setDaemonsetNodeSelector (nodeSelector : option NodeSelector) (ds : DaemonSet) : DaemonSet :=
  match nodeSelector with
  | Some sel => with_affinity ds (Some sel)
  | None => with_affinity ds None
  end.

Definition vgManagerContainer (vgImage : string) (command : list string) (volumeMounts : list VolumeMount) : Container :=
  let probe path := mkProbe path TopolvmNodeContainerHealthzName in
  {| ct_Name := VGManagerUnit; ct_Image := vgImage; ct_Command := command; ct_Privileged := true; ct_RunAsUser := 0;
     ct_Ports := [mkContainerPort TopolvmNodeContainerHealthzName 8081 ProtocolTCP];
     ct_StartupProbe := Some (probe "/healthz" 60 2 2 10)%Z;
     ct_LivenessProbe := Some (probe "/healthz" 3 1 1 30)%Z;
     ct_ReadinessProbe := Some (probe "/readyz" 3 1 1 60)%Z;
     ct_VolumeMounts := volumeMounts;
     ct_Requests := [("cpu", q_MustParse VgManagerCPURequest); ("memory", q_MustParse VgManagerMemRequest)];
     ct_Env := [("GOMEMLIMIT", EnvValue (VgManagerMemRequest +:+ "B")); ("GOGC", EnvValue "120"); ("GOMAXPROCS", EnvValue "2");
                ("NODE_NAME", EnvFieldRef "spec.nodeName"); ("NAMESPACE", EnvFieldRef "metadata.namespace");
                ("NAME", EnvFieldRef "metadata.name")];
     ct_FallbackToLogsOnError := true |}.

Definition confMapVolume (clusterType : ClusterType) : Volume :=
  if bool_decide (clusterType = TypeMicroShift)
  then mkVolume LVMDConfMapVolName (HostPath (filepath_Dir MicroShiftFileConfigPath) (Some HostPathDirectoryOrCreate))
  else LVMDConfMapVol.

(** [confMapVolume := LVMDConfMapVol] copies the volume but not the HostPathVolumeSource it points to,
    so the assignment to its path is one to the package variable. [global] is the path the package
    variable leads to before the call and, in the result, after it. *)
Definition confMapVolume_shared (clusterType : ClusterType) (global : string) : Volume * string :=
  let path := if bool_decide (clusterType = TypeMicroShift) then filepath_Dir MicroShiftFileConfigPath else global in
  (mkVolume LVMDConfMapVolName (HostPath path (Some HostPathDirectoryOrCreate)), path).

(** The volumes of the calls one process makes. *)
Fixpoint confMapVolumes (calls : list ClusterType) (global : string) : list Volume :=
  match calls with
  | [] => []
  | t :: calls => (confMapVolume_shared t global).1 :: confMapVolumes calls (confMapVolume_shared t global).2
  end.

(** The type of the cluster is found out once per process: with the same type in every call, sharing
    makes no difference to what the calls return. *)
Lemma confMapVolumes_same_type t n :
  confMapVolumes (replicate n t) (filepath_Dir DefaultFileConfigPath) = replicate n (confMapVolume t).
Proof.
  destruct t; [induction n as [|n IH]; [done|]; simpl; by rewrite <- IH..|].
  generalize (filepath_Dir DefaultFileConfigPath). induction n as [|n IH]; intros g; [done|]. simpl. f_equal. apply IH.
Qed.

(** It does with different types: after a call for MicroShift, a call for OpenShift mounts the
    directory of MicroShift. *)
Lemma confMapVolumes_leak :
  confMapVolumes [TypeMicroShift; TypeOCP] (filepath_Dir DefaultFileConfigPath) =
    [confMapVolume TypeMicroShift; confMapVolume TypeMicroShift] /\
  confMapVolume TypeMicroShift <> confMapVolume TypeOCP.
Proof. by split; vm_compute. Qed.

Definition vgManagerVolumes (clusterType : ClusterType) : list Volume :=
  [RegistrationVol; NodePluginVol; FileLockVol; CSIPluginVol; PodVol; confMapVolume clusterType; DevHostDirVol;
   UDevHostDirVol; SysHostDirVol; MetricsCertsDirVol].

Definition vgManagerVolumeMounts : list VolumeMount :=
  [RegistrationVolMount; NodePluginVolMount; FileLockVolMount; CSIPluginVolMount; PodVolMount; LVMDConfMapVolMount;
   DevHostDirVolMount; UDevHostDirVolMount; SysHostDirVolMount; MetricsCertsDirVolMount].

Definition vgManagerLabels : gmap string string :=
  <[AppKubernetesNameLabel := VGManagerLabelVal]> (<[AppKubernetesManagedByLabel := ManagedByLabelVal]>
    (<[AppKubernetesPartOfLabel := PartOfLabelVal]> {[AppKubernetesComponentLabel := VGManagerLabelVal]})).

Definition vgManagerPodTemplate (clusterType : ClusterType) (containers : list Container) (tolerations : list Toleration) : PodTemplate :=
  {| pt_Annotations := {[WorkloadPartitioningManagementAnnotation := ManagementAnnotationVal]};
     pt_Labels := vgManagerLabels; pt_TerminationGracePeriodSeconds := 30;
     pt_PriorityClassName := PriorityClassNameUserCritical; pt_Volumes := vgManagerVolumes clusterType;
     pt_Containers := containers; pt_HostPID := true;
     pt_Tolerations := tolerations; pt_ServiceAccountName := VGManagerServiceAccount; pt_Affinity := None |}.

(** The update strategy and the status of a new object are empty. *)
Definition templateVGManagerDaemonset (l : LVMCluster) (clusterType : ClusterType) (namespace vgImage : string)
  (command args : list string) : DaemonSet :=
  let '(nodeSelector, tolerations) := ExtractNodeSelectorAndTolerations l in
  let command := (if (length command =? 0)%nat then ["/lvms"; "vgmanager"] else command) ++ args in
  setDaemonsetNodeSelector nodeSelector
    {| ds_meta := with_labels (named VGManagerUnit namespace) vgManagerLabels;
       ds_Selector := vgManagerLabels;
       ds_Template := vgManagerPodTemplate clusterType [vgManagerContainer vgImage command vgManagerVolumeMounts] tolerations;
       ds_UpdateStrategy := OtherStrategy ""; ds_Status := mkDaemonSetStatus 0 0 0 |}.

(** * vgmanager.go *)

Definition initMapIfNil (m : gmap string string) : gmap string string :=
  if (1 <? size m)%nat then m else ∅.

(** The update of an existing DaemonSet. *)
Definition updateDaemonSet (dsTemplate ds : DaemonSet) : DaemonSet :=
  let t := ds_Template ds in
  let new := ds_Template dsTemplate in
  let labels := om_Labels (ds_meta dsTemplate) in
  let m := with_labels (ds_meta ds) (labels ∪ initMapIfNil (om_Labels (ds_meta ds))) in
  let m := with_annotations m
    (Some (default ∅ (om_Annotations (ds_meta dsTemplate)) ∪ initMapIfNil (default ∅ (om_Annotations m)))) in
  let ds :=
    {| ds_meta := m; ds_Selector := ds_Selector ds; ds_UpdateStrategy := ds_UpdateStrategy ds; ds_Status := ds_Status ds;
       ds_Template :=
         {| pt_Annotations := pt_Annotations new ∪ initMapIfNil (pt_Annotations t);
            pt_Labels := labels ∪ initMapIfNil (pt_Labels t);
            pt_TerminationGracePeriodSeconds := pt_TerminationGracePeriodSeconds t;
            pt_PriorityClassName := pt_PriorityClassName new; pt_Volumes := pt_Volumes new;
            pt_Containers := pt_Containers new; pt_HostPID := pt_HostPID t; pt_Tolerations := pt_Tolerations new;
            pt_ServiceAccountName := pt_ServiceAccountName new; pt_Affinity := pt_Affinity t |} |} in
  match pt_Affinity new with
  | Some sel => setDaemonsetNodeSelector (Some sel) ds
  | None => ds
  end.

Definition with_ds_meta (ds : DaemonSet) (m : ObjectMeta) : DaemonSet :=
  {| ds_meta := m; ds_Selector := ds_Selector ds; ds_Template := ds_Template ds;
     ds_UpdateStrategy := ds_UpdateStrategy ds; ds_Status := ds_Status ds |}.

Context `{O : ControllerRefs} `{V : ScaledValues}.

Definition ownedDaemonSet (l : LVMCluster) (name : string) (ds : DaemonSet) : result error DaemonSet :=
  match SetControllerReference (lc_meta l) (ds_meta ds) with
  | Err err => Err (EFmt ("failed to set controller reference on vgManager daemonset " +:+ quote name +:+ ". " +:+ Error err) [])
  | Ok owners => Ok (with_ds_meta ds (with_owners (ds_meta ds) owners))
  end.

Definition mutateDaemonSet (l : LVMCluster) (dsTemplate : DaemonSet) (fresh : bool) (ds : DaemonSet) : result error DaemonSet :=
  if fresh then Ok dsTemplate
  else
    match ownedDaemonSet l (om_Name (ds_meta dsTemplate)) ds with
    | Err err => Err err
    | Ok ds => Ok (updateDaemonSet dsTemplate ds)
    end.

(** resource/utils.go. A rolling update without parameters is dereferenced. *)
Definition VerifyDaemonSetReadiness (ds : DaemonSet) : option error :=
  let st := ds_Status ds in
  let notReady n total what :=
    Some (EFmt ("the DaemonSet is not ready: " +:+ om_Namespace (ds_meta ds) +:+ "/" +:+ om_Name (ds_meta ds) +:+ ". " +:+
                Itoa n +:+ " out of " +:+ Itoa total +:+ " expected pods " +:+ what) []) in
  match ds_UpdateStrategy ds with
  | OtherStrategy _ => None
  | RollingUpdateStrategy rollingUpdate =>
      if negb (dss_UpdatedNumberScheduled st =? dss_DesiredNumberScheduled st)%Z then
        notReady (dss_UpdatedNumberScheduled st) (dss_DesiredNumberScheduled st) "have been scheduled"
      else
        match rollingUpdate with
        | None => Some (EPanic "nil pointer dereference")
        | Some value =>
            let maxUnavailable :=
              match GetScaledValueFromIntOrPercent value (dss_DesiredNumberScheduled st) true with
              | Ok n => n
              | Err _ => dss_DesiredNumberScheduled st
              end in
            let expectedReady := (dss_DesiredNumberScheduled st - maxUnavailable)%Z in
            if (dss_NumberReady st <? expectedReady)%Z then notReady (dss_NumberReady st) expectedReady "are ready" else None
        end
  end.

Section Manager.
Variables (r : ClusterReconciler) (imageName : string).

Definition desiredDaemonSet (l : LVMCluster) : DaemonSet :=
  templateVGManagerDaemonset l (cr_ClusterType r) (cr_Namespace r) imageName (cr_VGManagerCommand r)
    (VGmanagerOptions_AsArgs (cr_LogPassthroughOptions r)).

(** A DaemonSet of which only the name is set. *)
Definition emptyDaemonSet (name namespace : string) : DaemonSet :=
  mkDaemonSet (named name namespace) ∅ (mkPodTemplate ∅ ∅ 0 "" [] [] false [] "" None) (OtherStrategy "")
    (mkDaemonSetStatus 0 0 0).

Definition vgManager_EnsureCreated (l : LVMCluster) : prog kubeE (option error) :=
  match ownedDaemonSet l (om_Name (ds_meta (desiredDaemonSet l))) (desiredDaemonSet l) with
  | Err err => Ret (Some err)
  | Ok dsTemplate =>
      let m := ds_meta dsTemplate in
      try ds := call (CreateOrUpdate KindDaemonSet (emptyDaemonSet (om_Name m) (om_Namespace m)) (mutateDaemonSet l dsTemplate))
        catch err => Ret (Some (failed VGManager err)) in
      match VerifyDaemonSetReadiness ds with
      | Some err => Ret (Some (wrapErr "DaemonSet is not considered ready" err))
      | None => Ret None
      end
  end.

Definition vgManager_EnsureDeleted (l : LVMCluster) : prog kubeE (option error) :=
  let ds := desiredDaemonSet l in
  let name := om_Name (ds_meta ds) in
  let namespace := om_Namespace (ds_meta ds) in
  let unit_name := GetName VGManager in
  deleted <- call (DeleteObject KindDaemonSet namespace name);;
  match (match deleted with Some err => if IsNotFound err then None else Some err | None => None end) with
  | Some err => Ret (Some (wrapErr ("failed to delete " +:+ unit_name +:+ " daemonset " +:+ quote name) err))
  | None =>
      res <- call (GetMeta KindDaemonSet namespace name);;
      match res with
      | Ok _ => Ret (Some (EFmt (unit_name +:+ " daemonset " +:+ quote name +:+ " still has to be removed") []))
      | Err err =>
          if negb (IsNotFound err) then
            Ret (Some (wrapErr ("failed to verify deletion of " +:+ unit_name +:+ " daemonset " +:+ quote name) err))
          else
            try pods := call (ListPods (cr_Namespace r) (ds_Selector ds))
              catch err => Ret (Some (wrapErr ("failed to list pods for DaemonSet " +:+ quote name) err)) in
            if (0 <? length pods)%nat then
              Ret (Some (EFmt ("DaemonSet " +:+ quote name +:+ " still has " +:+ Itoa (Z.of_nat (length pods)) +:+
                               " pods running") []))
            else Ret None
      end
  end.
End Manager.
End Daemon.
