(* ===== verification/ResourceFacts.v ===== *)
(** What the resource managers guarantee to the LVMCluster controller: an object is reported as
    deleted only when it was seen to be gone, the written objects carry the configuration of
    the cluster, and default storage classes and network policies change in a safe order. *)

From S2P Require Import Prelude GoStd Effects Api VgEnv VgController Objects ClusterStatus ClusterEnv ClusterController.
From S2P Require Import Webhook Resources VgManagerDaemon.

Section ResourceFacts.
Context `{R : GoRuntime} `{K : K8s} `{C : !ControllerUtil} `{O : ControllerRefs} `{GVK : Scheme} `{V : ScaledValues}.
Variables (r : ClusterReconciler) (imageName : string).

(** * Deletion *)

(** The API server answered that there is no such object. *)
Definition seen_gone (k : Kind) (namespace name : string) (tr : list (ev kubeE)) : Prop :=
  exists err, IsNotFound err = true /\ Ev (GetMeta k namespace name) (Err err) ∈ tr.

Lemma seen_gone_app k ns name tr1 tr2 : seen_gone k ns name tr1 \/ seen_gone k ns name tr2 -> seen_gone k ns name (tr1 ++ tr2).
Proof. intros [(err & ? & ?)|(err & ? & ?)]; exists err; rewrite elem_of_app; auto. Qed.

(** The volume groups of all device classes were seen to be gone. *)
Definition groups_gone (l : LVMCluster) (tr : list (ev kubeE)) : Prop :=
  forall dc, dc ∈ deviceClasses l -> seen_gone KindVolumeGroup (cr_Namespace r) (dc_Name dc) tr.

Lemma lvmVolumeGroups_elem dcs vg :
  vg ∈ lvmVolumeGroups (cr_Namespace r) dcs -> om_Namespace (lvg_meta vg) = cr_Namespace r.
Proof. unfold lvmVolumeGroups. rewrite list_elem_of_In, in_map_iff. by intros (dc & <- & _). Qed.

Lemma lvmVolumeGroups_class dcs dc :
  dc ∈ dcs -> exists vg, vg ∈ lvmVolumeGroups (cr_Namespace r) dcs /\ lvg_Name vg = dc_Name dc.
Proof.
  intros Hdc. exists (volumeGroupOf (cr_Namespace r) (length dcs =? 1)%nat dc). split; [|done].
  unfold lvmVolumeGroups. rewrite list_elem_of_In. apply in_map. by rewrite <- list_elem_of_In.
Qed.

(** Success means that all volume groups are gone. *)
Lemma lvmVG_EnsureDeleted_gone l :
  wp (lvmVG_EnsureDeleted r l) (fun err tr => err = None -> groups_gone l tr).
Proof.
  unfold lvmVG_EnsureDeleted. apply wp_bind.
  eapply (wp_for_each_visited (fun visited pending tr => pending = [] ->
    forall vg, vg ∈ visited -> seen_gone KindVolumeGroup (om_Namespace (lvg_meta vg)) (lvg_Name vg) tr)).
  - by intros _ vg ?%elem_of_nil.
  - intros visited vg rest pending tr _ Hv. unfold deleteVolumeGroupObject. apply wp_call. intros [meta|err].
    + apply wp_bind. apply wp_intro. intros res tr1. destruct res; cbn [wp]; [done|]. intros H. by destruct pending.
    + destruct (IsNotFound err) eqn:He; cbn [wp]; [|done].
      intros Hp vg'. rewrite elem_of_app, list_elem_of_singleton. intros [Hvg'| ->]; apply seen_gone_app.
      * left. by apply Hv.
      * right. exists err. split; [done|apply list_elem_of_here].
  - intros pending tr H. cbn [wp]. rewrite app_nil_r. destruct pending; [|done]. intros _ dc Hdc.
    destruct (lvmVolumeGroups_class _ dc Hdc) as (vg & Hvg & <-). rewrite <- (lvmVolumeGroups_elem _ _ Hvg). by apply H.
Qed.

(** The DaemonSet and its pods were seen to be gone. *)
Definition daemon_gone (tr : list (ev kubeE)) : Prop :=
  seen_gone KindDaemonSet (cr_Namespace r) VGManagerUnit tr /\
  Ev (ListPods (cr_Namespace r) vgManagerLabels) (Ok []) ∈ tr.

Lemma desiredDaemonSet_meta l :
  ds_meta (desiredDaemonSet r imageName l) = with_labels (named VGManagerUnit (cr_Namespace r)) vgManagerLabels /\
  ds_Selector (desiredDaemonSet r imageName l) = vgManagerLabels.
Proof.
  unfold desiredDaemonSet, templateVGManagerDaemonset.
  destruct (ExtractNodeSelectorAndTolerations l) as [[sel|] ts]; done.
Qed.

Lemma vgManager_EnsureDeleted_gone l :
  wp (vgManager_EnsureDeleted r imageName l) (fun err tr => err = None -> daemon_gone tr).
Proof.
  unfold vgManager_EnsureDeleted. destruct (desiredDaemonSet_meta l) as [Hm Hs]. rewrite Hm, Hs. simpl.
  intros [derr|]; [destruct (IsNotFound derr); [|done]|]; simpl;
    (intros [meta|err]; [done|]); destruct (IsNotFound err) eqn:He; simpl; try done;
    (intros [[|pod pods]|lerr]; simpl; [|done|done]); intros _; unfold daemon_gone; (split; [exists err; split; [done|]|]);
    rewrite !elem_of_cons; tauto.
Qed.

(** * The managers *)

(** The managers by name, as controller.go constructs them. *)
Definition manager (m : ManagerId) : Manager :=
  match m with
  | NetworkPolicies => mkManager _ (networkPolicy_EnsureCreated r) (networkPolicy_EnsureDeleted r)
  | CSIDriver => mkManager _ csiDriver_EnsureCreated csiDriver_EnsureDeleted
  | VGManager => mkManager _ (vgManager_EnsureCreated r imageName) (vgManager_EnsureDeleted r imageName)
  | LVMVGs => mkManager _ (lvmVG_EnsureCreated r) (lvmVG_EnsureDeleted r)
  | LVMVGNodeStatus => mkManager _ (lvmVGNodeStatus_EnsureCreated r) (lvmVGNodeStatus_EnsureDeleted r)
  | TopoLVMStorageClass => mkManager _ topolvmStorageClass_EnsureCreated topolvmStorageClass_EnsureDeleted
  | CSINode => mkManager _ csiNode_EnsureCreated csiNode_EnsureDeleted
  | ServiceMonitor => mkManager _ (serviceMonitor_EnsureCreated r) (serviceMonitor_EnsureDeleted r)
  | OpenShiftSCCs => mkManager _ (openshiftSccs_EnsureCreated r) (openshiftSccs_EnsureDeleted r)
  | TopoLVMVolumeSnapshotClass => mkManager _ topolvmVolumeSnapshotClass_EnsureCreated topolvmVolumeSnapshotClass_EnsureDeleted
  end.

(** The kind of objects a manager is responsible for. *)
Definition kind_of (m : ManagerId) : option Kind :=
  match m with
  | NetworkPolicies => Some KindNetworkPolicy
  | CSIDriver => Some KindCSIDriver
  | VGManager => Some KindDaemonSet
  | LVMVGs => Some KindVolumeGroup
  | LVMVGNodeStatus => Some KindNodeStatus
  | TopoLVMStorageClass => Some KindStorageClass
  | CSINode => None
  | ServiceMonitor => Some KindServiceMonitor
  | OpenShiftSCCs => Some KindSCC
  | TopoLVMVolumeSnapshotClass => Some KindVolumeSnapshotClass
  end.

(** What a manager may do to the cluster: create objects of its kind, or delete them. *)
Definition creates_kind (k : option Kind) X (e : kubeE X) : Prop :=
  match e with
  | CreateOrUpdate k' _ _ => k = Some k'
  | ApplyStorageClass _ _ => k = Some KindStorageClass
  | UpdateCluster _ | UpdateClusterStatus _ | UpdateGroup _ | UpdateLogicalVolume _ | UpdateNodeStatus _ | DeleteObject _ _ _ => False
  | _ => True
  end.
Definition deletes_kind (k : option Kind) X (e : kubeE X) : Prop :=
  match e with
  | DeleteObject k' _ _ => k = Some k'
  | UpdateNodeStatus _ => k = Some KindNodeStatus
  | UpdateCluster _ | UpdateClusterStatus _ | UpdateGroup _ | UpdateLogicalVolume _ | ApplyStorageClass _ _
  | CreateOrUpdate _ _ _ => False
  | _ => True
  end.

Lemma manager_creates m l : emits (creates_kind (kind_of m)) (EnsureCreatedBy (manager m) l).
Proof.
  destruct m; cbn [manager EnsureCreatedBy kind_of].
  all: unfold networkPolicy_EnsureCreated, applyNetworkPolicy, csiDriver_EnsureCreated, vgManager_EnsureCreated,
    lvmVG_EnsureCreated, applyVolumeGroup, lvmVGNodeStatus_EnsureCreated, applyNodeStatus, topolvmStorageClass_EnsureCreated,
    getTopolvmStorageClasses, applyStorageClass, csiNode_EnsureCreated, GetAllCSINodeCandidates, collectCSINode,
    serviceMonitor_EnsureCreated, IsPrometheusAvailable, openshiftSccs_EnsureCreated, applySCC,
    topolvmVolumeSnapshotClass_EnsureCreated, applySnapshotClass.
  all: emits_auto; reflexivity.
Qed.

Lemma manager_deletes m l : emits (deletes_kind (kind_of m)) (EnsureDeletedBy (manager m) l).
Proof.
  destruct m; cbn [manager EnsureDeletedBy kind_of].
  all: unfold networkPolicy_EnsureDeleted, deleteNetworkPolicy, csiDriver_EnsureDeleted, vgManager_EnsureDeleted,
    lvmVG_EnsureDeleted, deleteVolumeGroupObject, lvmVGNodeStatus_EnsureDeleted, deleteValidStatus, deleteNodeStatus,
    topolvmStorageClass_EnsureDeleted, deleteStorageClass, csiNode_EnsureDeleted, GetAllCSINodeCandidates, collectCSINode,
    serviceMonitor_EnsureDeleted, IsPrometheusAvailable, openshiftSccs_EnsureDeleted, deleteSCC,
    topolvmVolumeSnapshotClass_EnsureDeleted, deleteSnapshotClass, deleteNamed.
  all: emits_auto; reflexivity.
Qed.

(** * Volume groups *)

(** A write of a volume group that carries the specification of a device class and keeps all
    of the stored object but its specification and the legacy finalizer. *)
Definition group_write (l : LVMCluster) X (e : kubeE X) : Prop :=
  match e with
  | CreateOrUpdate k initial mutate =>
      (match k return object k -> (bool -> object k -> result error (object k)) -> Prop with
       | KindVolumeGroup => fun initial mutate =>
           om_Namespace (lvg_meta initial) = cr_Namespace r /\
           exists dc, dc ∈ deviceClasses l /\ lvg_Name initial = dc_Name dc /\
           forall fresh vg, exists vg', mutate fresh vg = Ok vg' /\
             lvg_Spec vg' = lvg_Spec (volumeGroupOf (cr_Namespace r) (length (deviceClasses l) =? 1)%nat dc) /\
             lvg_meta vg' = with_finalizers (lvg_meta vg) (om_Finalizers (lvg_meta vg')) /\
             forall f, f ∈ om_Finalizers (lvg_meta vg') <-> f ∈ om_Finalizers (lvg_meta vg) /\ f <> legacyVGFinalizer
       | _ => fun _ _ => False
       end) initial mutate
  | _ => False
  end.

Lemma volumeGroups_of_class l vg :
  vg ∈ lvmVolumeGroups (cr_Namespace r) (deviceClasses l) ->
  exists dc, dc ∈ deviceClasses l /\ vg = volumeGroupOf (cr_Namespace r) (length (deviceClasses l) =? 1)%nat dc.
Proof.
  unfold lvmVolumeGroups. rewrite list_elem_of_In, in_map_iff. intros (dc & <- & Hdc). exists dc.
  by rewrite list_elem_of_In.
Qed.

(** The volume groups written successfully. *)
Definition group_written_of (v : ev kubeE) : option string :=
  match v with
  | @Ev _ X e x =>
      match e in kubeE X return X -> option string with
      | CreateOrUpdate k initial _ =>
          match k return object k -> result error (object k) -> option string with
          | KindVolumeGroup => fun initial res => if is_Ok res then Some (lvg_Name initial) else None
          | _ => fun _ _ => None
          end initial
      | _ => fun _ => None
      end x
  end.


(** * Storage classes *)

Definition is_default (sc : StorageClass) : Prop :=
  label (default ∅ (om_Annotations (sc_meta sc))) defaultSCAnnotation = "true".

(** The storage class of a device class. *)
Definition class_ok (l : LVMCluster) (dc : DeviceClass) (sc : StorageClass) : Prop :=
  om_Name (sc_meta sc) = GetStorageClassName (dc_Name dc) /\ sc_Provisioner sc = TopolvmCSIDriverName /\
  (is_default sc -> dc_Default dc = true) /\
  sc_Parameters sc !! DeviceClassKey = Some (dc_Name dc) /\
  sc_Parameters sc !! FsTypeKey = Some (DeviceFilesystemType_string (dc_FilesystemType dc)) /\
  (forall opts k, dc_StorageClassOptions dc = Some opts -> k ∉ lvmsOwnedParameterKeys ->
     sc_Parameters sc !! k = sco_AdditionalParameters opts !! k) /\
  (is_Ok ClusterGVK = true -> MatchesManagedLabels (sc_meta sc) (lc_meta l) = true) /\
  (sc_ReclaimPolicy sc = PersistentVolumeReclaimRetain <-> retains dc = true).

Lemma storageClassOf_default l set dc d :
  is_default (storageClassOf l set dc d).1 <->
  dc_Default dc && set && (String.eqb d "" || String.eqb d (GetStorageClassName (dc_Name dc))) = true.
Proof.
  unfold is_default, storageClassOf, SetManagedLabels. simpl.
  destruct ClusterGVK as [[[? ?] ?]|]; simpl; rewrite label_insert; destruct (dc_Default dc && set && _); done.
Qed.

Lemma matches_own_labels m owner : is_Ok ClusterGVK = true -> MatchesManagedLabels (SetManagedLabels m owner) owner = true.
Proof. intros. by apply managed_labels_match. Qed.

Lemma storageClassOf_ok l set dc d : class_ok l dc (storageClassOf l set dc d).1.
Proof.
  unfold class_ok. do 2 (split; [by unfold storageClassOf, SetManagedLabels; destruct ClusterGVK as [[[? ?] ?]|]|]).
  split; [rewrite storageClassOf_default; intros [[? _]%andb_true_iff _]%andb_true_iff; done|].
  unfold storageClassOf. simpl. split; [by rewrite lookup_insert_ne, lookup_insert_eq|].
  split; [by rewrite lookup_insert_eq|]. split.
  { intros opts k -> Hk. unfold lvmsOwnedParameterKeys in Hk. rewrite !elem_of_cons, elem_of_nil in Hk.
    by rewrite !lookup_insert_ne by naive_solver. }
  split; [intros; by apply matches_own_labels|]. unfold retains.
  destruct (dc_StorageClassOptions dc) as [[[rp|] vbm ps ls]|]; simpl; [|done|done].
  rewrite bool_decide_eq_true. naive_solver.
Qed.

Lemma storageClassesOf_cons l set dc dcs d :
  storageClassesOf l set (dc :: dcs) d =
  (storageClassOf l set dc d).1 :: storageClassesOf l set dcs (storageClassOf l set dc d).2.
Proof. cbn [storageClassesOf]. by rewrite (surjective_pairing (storageClassOf l set dc d)). Qed.

Lemma storageClassOf_next l set dc d :
  (storageClassOf l set dc d).2 = d \/
  (is_default (storageClassOf l set dc d).1 /\ (storageClassOf l set dc d).2 = GetStorageClassName (dc_Name dc)).
Proof. rewrite storageClassOf_default. unfold storageClassOf. simpl. destruct (_ && _ && _); auto. Qed.

Lemma default_name d sc : String.eqb d "" || String.eqb d sc = true -> d = "" \/ d = sc.
Proof. intros [H%String.eqb_eq|H%String.eqb_eq]%orb_true_iff; auto. Qed.

(** The name a default class of the list has. *)
Lemma storageClassesOf_default l set dcs d sc :
  sc ∈ storageClassesOf l set dcs d -> is_default sc -> set = true /\ (d = "" \/ d = om_Name (sc_meta sc)).
Proof.
  revert d. induction dcs as [|dc dcs IH]; intros d; [by intros ?%elem_of_nil|].
  rewrite storageClassesOf_cons, elem_of_cons. intros [->|Hin] Hd.
  - destruct (storageClassOf_ok l set dc d) as [-> _]. apply storageClassOf_default in Hd. bools. by split; [|apply default_name].
  - destruct (IH _ Hin Hd) as [Hs Hname]. split; [done|].
    destruct (storageClassOf_next l set dc d) as [Hn|[Hdef Hn]]; rewrite Hn in Hname; [done|].
    destruct Hname as [Hx|<-]; [done|]. apply storageClassOf_default in Hdef. bools. by apply default_name.
Qed.

Lemma storageClassesOf_ok l set dcs d : Forall2 (class_ok l) dcs (storageClassesOf l set dcs d).
Proof.
  revert d. induction dcs as [|dc dcs IH]; intros d; [constructor|].
  rewrite storageClassesOf_cons. constructor; [apply storageClassOf_ok|apply IH].
Qed.

Lemma storageClassesOf_one_default l set dcs d sc sc' :
  sc ∈ storageClassesOf l set dcs d -> sc' ∈ storageClassesOf l set dcs d -> is_default sc -> is_default sc' ->
  om_Name (sc_meta sc) = om_Name (sc_meta sc').
Proof.
  assert (Hhead : forall dc dcs d sc, sc ∈ storageClassesOf l set dcs (storageClassOf l set dc d).2 ->
    is_default (storageClassOf l set dc d).1 -> is_default sc ->
    om_Name (sc_meta (storageClassOf l set dc d).1) = om_Name (sc_meta sc)).
  { intros dc dcs' d' s Hin Hh Hs. destruct (storageClassesOf_default _ _ _ _ _ Hin Hs) as [_ Hname]. revert Hname.
    destruct (storageClassOf_ok l set dc d') as [-> _]. apply storageClassOf_default in Hh.
    unfold storageClassOf. simpl. rewrite Hh. intros [Hx|Hx]; [done|exact Hx]. }
  revert d. induction dcs as [|dc dcs IH]; intros d; [by intros ?%elem_of_nil|].
  rewrite storageClassesOf_cons, !elem_of_cons. intros [->|Hin] [->|Hin'] Hd Hd'; [done| | |by apply (IH _ Hin Hin')].
  - by apply (Hhead dc dcs).
  - symmetry. by apply (Hhead dc dcs).
Qed.

(** The first default class in a list of storage classes. *)
Definition first_default (items : list ObjectMeta) : option ObjectMeta :=
  find_first (fun m => String.eqb (label (default ∅ (om_Annotations m)) defaultSCAnnotation) "true") items.

(** C21: one storage class is computed for each device class, in order, labelled as owned by the
    cluster and with the parameters LVMS owns, whatever parameters and labels the device class
    adds; at most one storage class becomes the default one, only for a default device class,
    only if the storage classes could be listed, and never beside another class that was
    listed as the default first. *)
Theorem getTopolvmStorageClasses_correct l :
  wp (getTopolvmStorageClasses l) (fun scs tr =>
    Forall2 (class_ok l) (deviceClasses l) scs /\
    (forall sc sc', sc ∈ scs -> sc' ∈ scs -> is_default sc -> is_default sc' -> om_Name (sc_meta sc) = om_Name (sc_meta sc')) /\
    (forall sc, sc ∈ scs -> is_default sc ->
       exists items, tr = [Ev ListStorageClasses (Ok items)] /\
         (forall m, first_default items = Some m -> om_Name m <> "" -> om_Name m = om_Name (sc_meta sc)))).
Proof.
  unfold getTopolvmStorageClasses. apply wp_call. intros listed.
  rewrite (surjective_pairing (findDefault listed)). cbn [wp].
  split; [apply storageClassesOf_ok|]. split; [intros sc sc'; apply storageClassesOf_one_default|].
  intros sc Hin Hd. destruct (storageClassesOf_default _ _ _ _ _ Hin Hd) as [Hs Hname].
  destruct listed as [items|err]; [|done]. exists items. split; [done|]. intros m Hm Hne. simpl in Hname.
  unfold first_default in Hm. rewrite Hm in Hname. by destruct Hname.
Qed.

(** * Network policies *)

Definition policy_name_of (v : ev kubeE) : option (string * bool) :=
  match v with
  | @Ev _ X e x =>
      match e in kubeE X return X -> option (string * bool) with
      | CreateOrUpdate k initial _ =>
          match k return object k -> result error (object k) -> option (string * bool) with
          | KindNetworkPolicy => fun initial res => Some (om_Name (np_meta initial), is_Ok res)
          | _ => fun _ _ => None
          end initial
      | _ => fun _ => None
      end x
  end.

(** A call that deletes a network policy, with its success. *)
Definition policy_deleted_of (v : ev kubeE) : option (string * bool) :=
  match v with
  | @Ev _ X e x =>
      match e in kubeE X return X -> option (string * bool) with
      | DeleteObject KindNetworkPolicy _ name => fun res => Some (name, bool_decide (res = None))
      | _ => fun _ => None
      end x
  end.

(** The policy was seen to be gone or its deletion succeeded. *)
Definition policy_removed (name : string) (tr : list (ev kubeE)) : Prop :=
  seen_gone KindNetworkPolicy (cr_Namespace r) name tr \/ (name, true) ∈ omap policy_deleted_of tr.

Lemma policy_removed_app name tr1 tr2 : policy_removed name tr1 -> policy_removed name (tr1 ++ tr2).
Proof. intros [H|H]; [left; apply seen_gone_app; by left|right]. rewrite omap_app, elem_of_app. by left. Qed.

(** The deletion of one policy. *)
Lemma deleteNetworkPolicy_spec np :
  om_Namespace (np_meta np) = cr_Namespace r ->
  wp (deleteNetworkPolicy np tt) (fun res tr =>
    Forall (fun v => forall name ok, policy_deleted_of v = Some (name, ok) -> name = om_Name (np_meta np)) tr /\
    (res = inl tt -> policy_removed (om_Name (np_meta np)) tr)).
Proof.
  intros Hns. unfold deleteNetworkPolicy. rewrite Hns. apply wp_call. intros [meta|err].
  - destruct (om_DeletionTimestamp meta); [by split; [repeat constructor|]|].
    apply wp_call. intros [err|]; cbn [wp]; (split; [repeat constructor; naive_solver|]); [done|].
    intros _. right. rewrite (omap_skip policy_deleted_of), (omap_hit policy_deleted_of _ (om_Name (np_meta np), true)) by done.
    apply list_elem_of_here.
  - unfold IgnoreNotFound. destruct (IsNotFound err) eqn:He; cbn [wp]; (split; [repeat constructor; naive_solver|done || intros _]).
    left. exists err. split; [done|apply list_elem_of_here].
Qed.

Definition denyName := "lvms-default-deny".
Definition allowNames := ["lvms-operator-allow"; "lvms-vg-manager-allow"].

(** C18: traffic is never cut off while the operator still needs it: the policy that denies
    everything is written only after both policies that allow the traffic of the operator and
    of vgmanager were written, and on deletion an allow policy is deleted only after the deny
    policy was seen to be gone or its deletion succeeded. *)
Theorem networkPolicy_order l :
  wp (networkPolicy_EnsureCreated r l) (fun _ tr => ordered (fun before v =>
    forall ok name, policy_name_of v = Some (denyName, ok) -> name ∈ allowNames ->
      (name, true) ∈ omap policy_name_of before) tr) /\
  wp (networkPolicy_EnsureDeleted r l) (fun _ tr => ordered (fun before v =>
    forall ok name, policy_deleted_of v = Some (name, ok) -> name <> denyName -> policy_removed denyName before) tr).
Proof.
  split.
  - unfold networkPolicy_EnsureCreated. cbn [allNetworkPolicies for_each]. unfold applyNetworkPolicy.
    simpl. intros [p1|e1]; simpl; [|order_steps; done].
    intros [p2|e2]; simpl; [|order_steps; done].
    intros [p3|e3]; simpl; order_steps; try done; intros ok name _ Hn;
      rewrite (omap_hit policy_name_of _ ("lvms-operator-allow", true)), (omap_hit policy_name_of _ ("lvms-vg-manager-allow", true))
        by done; revert Hn; unfold allowNames; rewrite !elem_of_cons, elem_of_nil; naive_solver.
  - unfold networkPolicy_EnsureDeleted. change (rev _) with
      [defaultDenyPolicy (cr_Namespace r); vgManagerAllowPolicy (cr_Namespace r); operatorAllowPolicy (cr_Namespace r)].
    apply wp_bind, wp_bind. eapply wp_mono; [by apply deleteNetworkPolicy_spec|]. intros res tr [Hnames Hgone].
    assert (Hfirst : forall tr', (res = inl tt \/ tr' = []) -> ordered (fun before v =>
      forall ok name, policy_deleted_of v = Some (name, ok) -> name <> denyName -> policy_removed denyName before) (tr ++ tr')).
    { intros tr' Htr'. apply ordered_app. split.
      - apply ordered_Forall. eapply Forall_impl; [exact Hnames|]. intros v Hv before ok name Hd Hne. by apply Hv in Hd.
      - apply ordered_Forall, Forall_forall. intros v Hv before ok name _ _. apply policy_removed_app, Hgone.
        destruct Htr' as [?| ->]; [done|]. by apply elem_of_nil in Hv. }
    destruct res as [[]|err].
    + apply wp_intro. intros res' tr'. cbn [wp]. rewrite app_nil_r. apply Hfirst. by left.
    + cbn [wp]. rewrite <- app_assoc. apply Hfirst. by right.
Qed.

(** * The DaemonSet *)

(** What the API server requires of a DaemonSet: its selector selects its own pods, volume names
    are unique and every mount names a volume. *)
Definition daemonset_valid (ds : DaemonSet) : Prop :=
  ds_Selector ds ⊆ pt_Labels (ds_Template ds) /\
  NoDup (vol_Name <$> pt_Volumes (ds_Template ds)) /\
  forall c mount, c ∈ pt_Containers (ds_Template ds) -> mount ∈ ct_VolumeMounts c ->
    vm_Name mount ∈ vol_Name <$> pt_Volumes (ds_Template ds).

(** The parts of a DaemonSet that follow the template. *)
Definition follows (l : LVMCluster) (ds : DaemonSet) : Prop :=
  pt_Tolerations (ds_Template ds) = lcs_Tolerations (lc_Spec l) /\
  pt_ServiceAccountName (ds_Template ds) = VGManagerServiceAccount /\
  pt_Volumes (ds_Template ds) = vgManagerVolumes (cr_ClusterType r) /\
  exists c, pt_Containers (ds_Template ds) = [c] /\ ct_Image c = imageName /\ ct_VolumeMounts c = vgManagerVolumeMounts /\
    ct_Command c = (if (length (cr_VGManagerCommand r) =? 0)%nat then ["/lvms"; "vgmanager"] else cr_VGManagerCommand r) ++
                   VGmanagerOptions_AsArgs (cr_LogPassthroughOptions r).

Lemma volumes_valid clusterType :
  NoDup (vol_Name <$> vgManagerVolumes clusterType) /\
  forall mount, mount ∈ vgManagerVolumeMounts -> vm_Name mount ∈ vol_Name <$> vgManagerVolumes clusterType.
Proof.
  assert (vol_Name <$> vgManagerVolumes clusterType = vm_Name <$> vgManagerVolumeMounts) as -> by by destruct clusterType.
  split; [by apply (bool_decide_unpack _); vm_compute|]. intros mount Hm. by apply list_elem_of_fmap_2.
Qed.

Lemma follows_valid l ds : follows l ds -> ds_Selector ds ⊆ pt_Labels (ds_Template ds) -> daemonset_valid ds.
Proof.
  intros (_ & _ & Hv & c & Hc & _ & Hm & _) Hs. unfold daemonset_valid. rewrite Hv, Hc.
  destruct (volumes_valid (cr_ClusterType r)) as [Hnd Hmounts]. do 2 (split; [done|]).
  intros c' mount ->%list_elem_of_singleton. rewrite Hm. apply Hmounts.
Qed.

Lemma desired_follows l : follows l (desiredDaemonSet r imageName l) /\
  pt_Labels (ds_Template (desiredDaemonSet r imageName l)) = vgManagerLabels /\
  om_Labels (ds_meta (desiredDaemonSet r imageName l)) = vgManagerLabels /\
  pt_Affinity (ds_Template (desiredDaemonSet r imageName l)) = (ExtractNodeSelectorAndTolerations l).1.
Proof.
  unfold follows, desiredDaemonSet, templateVGManagerDaemonset, ExtractNodeSelectorAndTolerations.
  destruct (match collectTerms _ _ with Some _ => _ | None => _ end); simpl; split_and!; try done; eexists; done.
Qed.

(** The template with its owner. *)
Definition owned_template (l : LVMCluster) (tmpl : DaemonSet) : Prop :=
  exists owners, tmpl = with_ds_meta (desiredDaemonSet r imageName l)
                          (with_owners (ds_meta (desiredDaemonSet r imageName l)) owners).

Lemma updateDaemonSet_follows l tmpl ds : owned_template l tmpl -> follows l (updateDaemonSet tmpl ds).
Proof.
  intros [owners ->]. destruct (desired_follows l) as [Hf _]. unfold updateDaemonSet. simpl.
  by destruct (pt_Affinity _).
Qed.

Lemma updateDaemonSet_labels l tmpl ds :
  owned_template l tmpl -> vgManagerLabels ⊆ pt_Labels (ds_Template (updateDaemonSet tmpl ds)) /\
  ds_Selector (updateDaemonSet tmpl ds) = ds_Selector ds.
Proof.
  intros [owners ->]. destruct (desired_follows l) as (_ & _ & Hl & _). unfold updateDaemonSet. simpl. rewrite Hl.
  destruct (pt_Affinity _); simpl; split; try reflexivity; apply map_union_subseteq_l.
Qed.

Lemma updateDaemonSet_affinity l tmpl ds :
  owned_template l tmpl ->
  pt_Affinity (ds_Template (updateDaemonSet tmpl ds)) =
  match (ExtractNodeSelectorAndTolerations l).1 with Some sel => Some sel | None => pt_Affinity (ds_Template ds) end.
Proof.
  intros [owners ->]. destruct (desired_follows l) as (_ & _ & _ & <-). unfold updateDaemonSet. simpl.
  by destruct (pt_Affinity (ds_Template (desiredDaemonSet r imageName l))).
Qed.

(** A write of the DaemonSet that leaves a valid one with the configuration of the cluster,
    whether it is created or an existing one (with the immutable selector it was created
    with) is updated. Without a merged node selector a new DaemonSet has none, and an existing one
    keeps what it has. *)
Definition daemon_write (l : LVMCluster) X (e : kubeE X) : Prop :=
  match e with
  | CreateOrUpdate k initial mutate =>
      (match k return object k -> (bool -> object k -> result error (object k)) -> Prop with
       | KindDaemonSet => fun initial mutate =>
           om_Name (ds_meta initial) = VGManagerUnit /\ om_Namespace (ds_meta initial) = cr_Namespace r /\
           forall (fresh : bool) ds ds', (fresh = false -> ds_Selector ds = vgManagerLabels) -> mutate fresh ds = Ok ds' ->
             daemonset_valid ds' /\ follows l ds' /\ ds_Selector ds' = vgManagerLabels /\
             pt_Affinity (ds_Template ds') =
               match (ExtractNodeSelectorAndTolerations l).1 with
               | Some sel => Some sel
               | None => if fresh then None else pt_Affinity (ds_Template ds)
               end
       | _ => fun _ _ => False
       end) initial mutate
  | _ => False
  end.

(** C19: the vgmanager manager writes the vgmanager DaemonSet of the operator namespace only. When it
    creates the DaemonSet, and when it updates one whose label selector is the one it creates
    DaemonSets with (a label selector is immutable), the result is one the API server accepts (its
    selector selects its pods, every mount has its volume) and carries the image, command,
    tolerations and volumes of the cluster. Its node affinity is the merged node selector of the
    device classes if there is one; if there is none, a new DaemonSet has no affinity, while an
    existing one keeps the affinity it has. *)
Theorem vgManager_EnsureCreated_correct l : emits (daemon_write l) (vgManager_EnsureCreated r imageName l).
Proof.
  unfold vgManager_EnsureCreated, ownedDaemonSet. destruct (desiredDaemonSet_meta l) as [Hm Hs].
  destruct (SetControllerReference _ _) as [owners|err]; [|done].
  set (tmpl := with_ds_meta _ _). assert (Ht : owned_template l tmpl) by by exists owners.
  apply emits_bind; [|intros [ds|err]; [destruct (VerifyDaemonSetReadiness ds)|]; exact I].
  assert (Hn : om_Name (ds_meta tmpl) = VGManagerUnit /\ om_Namespace (ds_meta tmpl) = cr_Namespace r).
  { unfold tmpl. simpl. by rewrite Hm. }
  apply emits_call. split; [exact (proj1 Hn)|]. split; [exact (proj2 Hn)|].
  intros fresh ds ds' Hsel. unfold mutateDaemonSet. destruct fresh.
  - intros [= <-]. destruct (desired_follows l) as (Hf & Hl & _ & Ha).
    assert (Hf' : follows l tmpl) by exact Hf. split; [apply (follows_valid l); [done|]|].
    + unfold tmpl. simpl. by rewrite Hs, Hl.
    + split; [done|]. split; [exact Hs|]. change (pt_Affinity (ds_Template tmpl)) with (pt_Affinity (ds_Template (desiredDaemonSet r imageName l))).
      rewrite Ha. by destruct (ExtractNodeSelectorAndTolerations l).1.
  - unfold ownedDaemonSet. destruct (SetControllerReference _ (ds_meta ds)) as [owners'|err]; [|done]. intros [= <-].
    set (ds0 := with_ds_meta ds _). destruct (updateDaemonSet_labels l tmpl ds0 Ht) as [Hl Hs'].
    assert (Hs0 : ds_Selector (updateDaemonSet tmpl ds0) = vgManagerLabels) by (rewrite Hs'; by apply Hsel).
    pose proof (updateDaemonSet_follows l tmpl ds0 Ht) as Hf. split; [apply (follows_valid l); [exact Hf|by rewrite Hs0]|].
    split; [exact Hf|]. split; [exact Hs0|]. by rewrite (updateDaemonSet_affinity l tmpl ds0 Ht).
Qed.

(** An update of the DaemonSet never removes a node selector: when a device class without a
    node selector is added, so that the cluster covers all nodes, the DaemonSet keeps the
    affinity it was created with; and a label or annotation map with exactly one entry is
    emptied before the entries of the template are added. *)
Theorem updateDaemonSet_loses l tmpl ds k v :
  owned_template l tmpl -> (ExtractNodeSelectorAndTolerations l).1 = None ->
  om_Annotations (ds_meta ds) = Some {[k := v]} ->
  pt_Affinity (ds_Template (updateDaemonSet tmpl ds)) = pt_Affinity (ds_Template ds) /\
  om_Annotations (ds_meta (updateDaemonSet tmpl ds)) = Some ∅.
Proof.
  intros Ht Hnone Hann. split; [by rewrite (updateDaemonSet_affinity l tmpl ds Ht), Hnone|].
  destruct Ht as [owners ->]. unfold updateDaemonSet. simpl. rewrite Hann.
  destruct (desiredDaemonSet_meta l) as [-> _]. simpl. unfold initMapIfNil. rewrite map_size_singleton. simpl.
  destruct (pt_Affinity _); simpl; by rewrite map_union_empty.
Qed.

(** * Security context constraints *)

(** The security context constraints of vgmanager are created but never deleted: the deletion
    looks for an object with the name of the storage class manager. *)
Theorem scc_never_deleted l :
  emits (fun X (e : kubeE X) => match e with
                                | CreateOrUpdate k initial _ =>
                                    match k return object k -> Prop with
                                    | KindSCC => fun scc => om_Name (scc_meta scc) = "lvms-vgmanager"
                                    | _ => fun _ => False
                                    end initial
                                | _ => False
                                end) (openshiftSccs_EnsureCreated r l) /\
  emits (fun X (e : kubeE X) => match e with DeleteObject _ _ name => name <> "lvms-vgmanager" | _ => True end)
    (openshiftSccs_EnsureDeleted r l).
Proof.
  split.
  - unfold openshiftSccs_EnsureCreated. cbn [getAllSCCs for_each]. unfold applySCC. emits_auto; reflexivity.
  - unfold openshiftSccs_EnsureDeleted, deleteSCC, deleteNamed. emits_auto; done.
Qed.
End ResourceFacts.
