(* ===== verification/ClusterWatches.v ===== *)
(** The watches of the LVMCluster controller (internal/controllers/lvmcluster/controller_watches.go):
    which clusters are reconciled when a watched object changes. A request is the namespace and
    the name of a cluster. *)

From S2P Require Import Prelude GoStd Effects Api VgEnv Objects ClusterStatus ClusterEnv ClusterController Resources VgManagerDaemon.
From S2P Require Import ResourceFacts.

Section Watches.
Context `{R : GoRuntime} `{K : K8s} `{C : !ControllerUtil} `{O : ControllerRefs} `{GVK : Scheme} `{V : ScaledValues}.
Variables (r : ClusterReconciler) (imageName : string).

Definition request_for (l : LVMCluster) : string * string := (om_Namespace (lc_meta l), om_Name (lc_meta l)).

(** The index of claims by storage class, and that of volumes; a claim may have none. *)
Definition indexPVC (storageClassName : option string) : list string :=
  match storageClassName with None => [] | Some name => [name] end.
Definition indexPV (storageClassName : string) : list string :=
  if String.eqb storageClassName "" then [] else [storageClassName].

Definition getManagedLabelObjsForReconcile (obj : ObjectMeta) : prog kubeE (list (string * string)) :=
  try clusters := call (ListClusters (om_Namespace obj)) catch _err => Ret [] in
  Ret (map request_for (List.filter (fun l => MatchesManagedLabels obj (lc_meta l)) clusters)).

(** The loop over the clusters; an error drops the requests found so far. *)
Fixpoint requestsFitting (node : Node) (clusters : list LVMCluster) (requests : list (string * string)) : list (string * string) :=
  match clusters with
  | [] => requests
  | l :: clusters =>
      match (ExtractNodeSelectorAndTolerations l).1 with
      | None => requestsFitting node clusters (requests ++ [request_for l])
      | Some selector =>
          match MatchNodeSelectorTerms node (NodeSelectorTerms selector) with
          | Err _ => []
          | Ok true => requestsFitting node clusters (requests ++ [request_for l])
          | Ok false => requestsFitting node clusters requests
          end
      end
  end.

Definition getLVMClusterObjsByNameFittingNodeSelector (obj : ObjectMeta) : prog kubeE (list (string * string)) :=
  try clusters := call (ListClusters (om_Namespace obj)) catch _err => Ret [] in
  try node := call (GetNode (om_Name obj)) catch _err => Ret [] in
  Ret (requestsFitting node clusters []).

(** * Labelled objects *)

(** The clusters the API server listed first. *)
Definition clusters_read (tr : list (ev kubeE)) : option (list LVMCluster) :=
  match tr with
  | @Ev _ X e x :: _ =>
      match e in kubeE X return X -> option (list LVMCluster) with
      | ListClusters _ => fun res => match res with Ok clusters => Some clusters | Err _ => None end
      | _ => fun _ => None
      end x
  | [] => None
  end.

Definition labelled (l : LVMCluster) (m : ObjectMeta) : Prop := exists m0, m = SetManagedLabels m0 (lc_meta l).

Definition same_identity (l l' : LVMCluster) : Prop :=
  om_Name (lc_meta l) = om_Name (lc_meta l') /\ om_Namespace (lc_meta l) = om_Namespace (lc_meta l') /\
  om_UID (lc_meta l) = om_UID (lc_meta l').

(** The metadata of the objects that are watched by their labels. *)
Definition watched_meta (k : Kind) : object k -> option ObjectMeta :=
  match k return object k -> option ObjectMeta with
  | KindStorageClass => fun o => Some (sc_meta o)
  | KindVolumeSnapshotClass => fun o => Some (vsc_meta o)
  | KindSCC => fun o => Some (scc_meta o)
  | _ => fun _ => None
  end.

(** Every write of a watched object labels it. *)
Definition writes_labelled (l : LVMCluster) X (e : kubeE X) : Prop :=
  match e with
  | ApplyStorageClass sc _ => labelled l (sc_meta sc)
  | CreateOrUpdate k _ mutate => forall fresh o o' m, mutate fresh o = Ok o' -> watched_meta k o' = Some m -> labelled l m
  | _ => True
  end.

Lemma storageClassesOf_labelled l set dcs d sc : sc ∈ storageClassesOf l set dcs d -> labelled l (sc_meta sc).
Proof.
  revert d. induction dcs as [|dc dcs IH]; intros d; [by intros ?%elem_of_nil|]. cbn [storageClassesOf].
  destruct (storageClassOf l set dc d) as [sc' d'] eqn:Hsc. intros [->|Hin]%elem_of_cons; [|by eapply IH].
  unfold storageClassOf in Hsc. injection Hsc as <- _. simpl. eexists. reflexivity.
Qed.

Lemma managers_label m l : emits (writes_labelled l) (EnsureCreatedBy (manager r imageName m) l).
Proof.
  destruct m; cbn [manager EnsureCreatedBy].
  6: { unfold topolvmStorageClass_EnsureCreated. eapply (emits_bind_post _ (fun scs => forall sc, sc ∈ scs -> labelled l (sc_meta sc))).
       - unfold getTopolvmStorageClasses. emits_auto.
       - unfold getTopolvmStorageClasses. apply wp_call. intros listed. rewrite (surjective_pairing (findDefault listed)).
         cbn [wp]. intros sc. apply storageClassesOf_labelled.
       - intros scs Hscs. apply emits_bind; [|done]. apply emits_for_each. intros sc [] Hsc. unfold applyStorageClass.
         apply emits_bind; [by apply emits_call, Hscs|]. by intros []. }
  all: unfold networkPolicy_EnsureCreated, applyNetworkPolicy, csiDriver_EnsureCreated, vgManager_EnsureCreated,
    lvmVG_EnsureCreated, applyVolumeGroup, lvmVGNodeStatus_EnsureCreated, applyNodeStatus, csiNode_EnsureCreated,
    GetAllCSINodeCandidates, collectCSINode, serviceMonitor_EnsureCreated, IsPrometheusAvailable, openshiftSccs_EnsureCreated,
    applySCC, topolvmVolumeSnapshotClass_EnsureCreated, applySnapshotClass.
  all: emits_auto; intros fresh' obj obj' m' Ho Hm; try done; simpl in *; simplify_eq; by eexists.
Qed.

Lemma requests_exact l m clusters :
  labelled l m ->
  let reqs := map request_for (List.filter (fun l => MatchesManagedLabels m (lc_meta l)) clusters) in
  (forall req, req ∈ reqs -> req = request_for l) /\
  (is_Ok ClusterGVK = true -> request_for l ∈ reqs <-> exists l', l' ∈ clusters /\ same_identity l l').
Proof.
  intros [m0 ->] reqs.
  assert (Hin : forall req, req ∈ reqs <-> exists l', req = request_for l' /\ l' ∈ clusters /\
            is_Ok ClusterGVK = true /\ same_identity l l').
  { intros req. unfold reqs. rewrite list_elem_of_In, in_map_iff. setoid_rewrite List.filter_In.
    setoid_rewrite managed_labels_match. setoid_rewrite <- list_elem_of_In. unfold same_identity. naive_solver. }
  assert (Hkey : forall l', same_identity l l' -> request_for l' = request_for l).
  { intros l' (Hn & Hns & _). unfold request_for. by rewrite Hn, Hns. }
  split.
  - intros req (l' & -> & _ & _ & Hid)%Hin. by apply Hkey.
  - intros Hok. rewrite Hin. split; [naive_solver|]. intros (l' & Hl' & Hid). exists l'. by rewrite (Hkey l' Hid).
Qed.

(** Whatever a resource manager writes for a cluster, the storage classes, snapshot classes and
    security context constraints carry the labels of the cluster; and when an object with these
    labels changes, no other cluster is reconciled, and this one is exactly if it was listed
    with the same identity. *)
Theorem watch_enqueues_owner id l :
  emits (writes_labelled l) (EnsureCreatedBy (manager r imageName id) l) /\
  forall m, labelled l m -> wp (getManagedLabelObjsForReconcile m) (fun reqs tr =>
    match clusters_read tr with
    | Some clusters =>
        (forall req, req ∈ reqs -> req = request_for l) /\
        (is_Ok ClusterGVK = true -> request_for l ∈ reqs <-> exists l', l' ∈ clusters /\ same_identity l l')
    | None => reqs = []
    end).
Proof.
  split; [apply managers_label|]. intros m Hm. unfold getManagedLabelObjsForReconcile. apply wp_call.
  intros [clusters|err]; [|done]. by apply requests_exact.
Qed.

(** * Nodes *)

Lemma requestsFitting_elem node clusters requests :
  (forall l sel, l ∈ clusters -> (ExtractNodeSelectorAndTolerations l).1 = Some sel ->
     exists b, MatchNodeSelectorTerms node (NodeSelectorTerms sel) = Ok b) ->
  forall req, req ∈ requestsFitting node clusters requests <->
    req ∈ requests \/ exists l, l ∈ clusters /\ req = request_for l /\
      match (ExtractNodeSelectorAndTolerations l).1 with
      | None => True
      | Some sel => MatchNodeSelectorTerms node (NodeSelectorTerms sel) = Ok true
      end.
Proof.
  revert requests. induction clusters as [|l clusters IH]; intros requests Heval req; cbn [requestsFitting].
  { setoid_rewrite elem_of_nil. naive_solver. }
  assert (Hrest : forall l sel, l ∈ clusters -> (ExtractNodeSelectorAndTolerations l).1 = Some sel ->
     exists b, MatchNodeSelectorTerms node (NodeSelectorTerms sel) = Ok b).
  { intros l' sel Hl'. apply Heval. by apply list_elem_of_further. }
  setoid_rewrite elem_of_cons. destruct ((ExtractNodeSelectorAndTolerations l).1) as [sel|] eqn:Hx.
  - destruct (Heval l sel (list_elem_of_here _ _) Hx) as [[] Hb]; rewrite Hb, IH by done.
    + rewrite elem_of_app, list_elem_of_singleton. split; [|naive_solver].
      intros [[Hr| ->]|(l' & Hl')]; [by left| |naive_solver]. right. exists l. rewrite Hx. naive_solver.
    + split; [naive_solver|]. intros [Hr|(l' & [->|Hl'] & -> & Hm)]; [by left| |naive_solver].
      rewrite Hx in Hm. congruence.
  - rewrite IH, elem_of_app, list_elem_of_singleton by done. split; [|naive_solver].
    intros [[Hr| ->]|(l' & Hl')]; [by left| |naive_solver]. right. exists l. rewrite Hx. naive_solver.
Qed.

(** The node the second call returned. *)
Definition node_read (tr : list (ev kubeE)) : option Node :=
  match tr with
  | _ :: @Ev _ X e x :: _ =>
      match e in kubeE X return X -> option Node with
      | GetNode _ => fun res => match res with Ok node => Some node | Err _ => None end
      | _ => fun _ => None
      end x
  | _ => None
  end.

(** A change of a node status reconciles exactly the listed clusters that have a device class for
    the node, as long as no selector of a cluster fails to be evaluated. *)
Lemma node_watch_exact `{L : !NodeSelectorLaws} obj :
  wp (getLVMClusterObjsByNameFittingNodeSelector obj) (fun reqs tr =>
    match clusters_read tr, node_read tr with
    | Some clusters, Some node =>
        (forall l, l ∈ clusters -> deviceClasses l <> [] /\ selectors_evaluate (deviceClasses l) node /\
           forall dc sel, dc ∈ deviceClasses l -> dc_NodeSelector dc = Some sel -> NodeSelectorTerms sel <> []) ->
        forall req, req ∈ reqs <-> exists l dc, l ∈ clusters /\ req = request_for l /\ dc ∈ deviceClasses l /\ class_selects dc node
    | _, _ => reqs = []
    end).
Proof.
  unfold getLVMClusterObjsByNameFittingNodeSelector. apply wp_call. intros [clusters|err]; [|done]. apply wp_call.
  intros [node|err]; [|done]. cbn [wp clusters_read node_read]. intros Hok req.
  assert (Hsel : forall l, l ∈ clusters -> _) by
    (intros l Hl; destruct (Hok l Hl) as (H1 & H2 & H3); exact (extracted_selects l node H1 H3 H2)).
  rewrite requestsFitting_elem, elem_of_nil.
  - split.
    + intros [[]|(l & Hl & -> & Hm)]. specialize (Hsel l Hl). destruct ((ExtractNodeSelectorAndTolerations l).1) as [sel|].
      * destruct Hsel as (c & Hc & Hiff). destruct (proj1 Hiff) as (dc & ? & ?); [congruence|]. by exists l, dc.
      * destruct Hsel as (dc & ? & ?). by exists l, dc.
    + intros (l & dc & Hl & -> & Hdc & Hs). right. exists l. do 2 (split; [done|]). specialize (Hsel l Hl).
      destruct ((ExtractNodeSelectorAndTolerations l).1) as [sel|]; [|done]. destruct Hsel as (c & -> & Hiff). f_equal. apply Hiff. eauto.
  - intros l sel Hl Hx. specialize (Hsel l Hl). rewrite Hx in Hsel. destruct Hsel as (c & ? & _). by exists c.
Qed.
End Watches.
