(* ===== verification/ClusterSystem.v ===== *)
(** The LVMCluster controller together with its resource managers.

    [sys_runs] gives the controller its meaning over the Kubernetes client alone: a call of
    [EnsureDeleted] runs the program of the manager, and the concurrent section of a
    reconciliation runs the programs of all managers in parallel, their calls interleaved in
    any order and their errors received in any order. Theorems on the controller against the
    interface [managerE] carry over through [expands]. *)

From S2P Require Import Prelude GoStd Effects Api VgEnv VgController Objects ClusterStatus ClusterEnv ClusterController.
From S2P Require Import ClusterFacts Resources VgManagerDaemon ResourceFacts.

(** * System runs *)

(** The calls of the whole operator: the Kubernetes client and the process environment. *)
Inductive sysE `{K : K8s} : Type -> Type :=
| SKube X (e : kubeE X) : sysE X
| SOperator X (e : operatorE X) : sysE X.

Section System.
Context `{R : GoRuntime} `{K : K8s} `{C : !ControllerUtil} `{S : StatusConditions} `{O : ControllerRefs} `{F : FinalizerMemory}.
Context `{GVK : Scheme} `{V : ScaledValues}.
Variables (r : ClusterReconciler) (imageName : string).

Definition sys (v : ev kubeE) : ev sysE := match v with Ev e x => Ev (SKube _ e) x end.

(** A parallel run of the creation of all managers: the calls in the order they reach the API
    server, and the errors in the order they arrive at the channel. *)
Definition concurrently (ms : list ManagerId) (l : LVMCluster) (tr : list (ev kubeE)) (errs : list error) : Prop :=
  exists arrivals, parallel (map (fun m => EnsureCreatedBy (manager r imageName m) l) ms) tr arrivals /\ errs = omap id arrivals.

Inductive sys_runs {A} : prog clusterE A -> list (ev sysE) -> A -> Prop :=
| sys_ret a : sys_runs (Ret a) [] a
| sys_kube X (e : kubeE X) k x tr a :
    sys_runs (k x) tr a -> sys_runs (Vis (OfKube X e) k) (Ev (SKube X e) x :: tr) a
| sys_operator X (e : operatorE X) k x tr a :
    sys_runs (k x) tr a -> sys_runs (Vis (OfOperator X e) k) (Ev (SOperator X e) x :: tr) a
| sys_delete m l k err tr1 tr a :
    runs (EnsureDeletedBy (manager r imageName m) l) tr1 err -> sys_runs (k err) tr a ->
    sys_runs (Vis (OfManager _ (EnsureDeleted m l)) k) (map sys tr1 ++ tr) a
| sys_create ms l k errs tr1 tr a :
    concurrently ms l tr1 errs -> sys_runs (k errs) tr a ->
    sys_runs (Vis (OfManager _ (EnsureCreatedAll ms l)) k) (map sys tr1 ++ tr) a.

(** What one call of the controller becomes. *)
Definition expands_to (v : ev clusterE) (part : list (ev sysE)) : Prop :=
  match v with
  | @Ev _ X e x =>
      match e in clusterE X return X -> Prop with
      | OfKube X e => fun x => part = [Ev (SKube X e) x]
      | OfOperator X e => fun x => part = [Ev (SOperator X e) x]
      | OfManager X e =>
          match e in managerE X return X -> Prop with
          | EnsureDeleted m l => fun err =>
              exists tr, runs (EnsureDeletedBy (manager r imageName m) l) tr err /\ part = map sys tr
          | EnsureCreatedAll ms l => fun errs => exists tr, concurrently ms l tr errs /\ part = map sys tr
          end
      end x
  end.

Definition expands (htr : list (ev clusterE)) (tr : list (ev sysE)) : Prop :=
  exists parts, Forall2 expands_to htr parts /\ tr = concat parts.

Lemma expands_nil : expands [] [].
Proof. by exists []. Qed.

Lemma expands_cons v part htr tr : expands_to v part -> expands htr tr -> expands (v :: htr) (part ++ tr).
Proof. intros Hv (parts & Hp & ->). exists (part :: parts). split; [by constructor|done]. Qed.

(** Every system run is an expansion of a run of the controller against its interface. *)
Lemma sys_runs_expands {A} (p : prog clusterE A) tr a : sys_runs p tr a -> exists htr, runs p htr a /\ expands htr tr.
Proof.
  induction 1 as [a|X e k x tr a _ (htr & Hr & He)|X e k x tr a _ (htr & Hr & He)
                 |m l k err tr1 tr a Hm _ (htr & Hr & He)|ms l k errs tr1 tr a Hm _ (htr & Hr & He)].
  - exists []. split; [constructor|apply expands_nil].
  - exists (Ev (OfKube X e) x :: htr). split; [by constructor|].
    by apply (expands_cons _ [Ev (SKube X e) x]).
  - exists (Ev (OfOperator X e) x :: htr). split; [by constructor|].
    by apply (expands_cons _ [Ev (SOperator X e) x]).
  - exists (Ev (OfManager _ (EnsureDeleted m l)) err :: htr). split; [by constructor|]. apply expands_cons; [by exists tr1|done].
  - exists (Ev (OfManager _ (EnsureCreatedAll ms l)) errs :: htr). split; [by constructor|]. apply expands_cons; [by exists tr1|done].
Qed.

(** A property of the controller holds of every system run. *)
Lemma wp_sys_runs {A} (p : prog clusterE A) Q tr a :
  wp p Q -> sys_runs p tr a -> exists htr, Q a htr /\ expands htr tr.
Proof. intros Hp (htr & Hr & He)%sys_runs_expands. exists htr. split; [by apply (wp_runs p Q)|done]. Qed.

(** The call of the controller that a call of the system belongs to. *)
Lemma expands_split htr tr tr1 v tr2 :
  expands htr tr -> tr = tr1 ++ v :: tr2 ->
  exists h1 w h2 before part, htr = h1 ++ w :: h2 /\ expands_to w part /\ v ∈ part /\ expands h1 before /\ before ⊆ tr1.
Proof.
  intros (parts & Hp & ->). revert tr1. induction Hp as [|w part htr parts Hw Hp IH]; intros tr1 Heq; [by destruct tr1|].
  simpl in Heq. apply app_eq_app in Heq as (l & [[-> Hl]|[-> Hl]]).
  - destruct l as [|y l]; [|simplify_eq/=].
    + rewrite app_nil_r in Hw. destruct (IH [] (eq_sym Hl)) as (h1 & w' & h2 & before & part' & -> & Hw' & Hv & Hb & Hsub).
      exists (w :: h1), w', h2, (tr1 ++ before), part'. split_and!; [done..|by apply expands_cons|set_solver].
    + exists [], w, htr, [], (tr1 ++ y :: l). split_and!; [done..| |apply expands_nil|set_solver].
      rewrite elem_of_app. right. apply list_elem_of_here.
  - destruct (IH l Hl) as (h1 & w' & h2 & before & part' & -> & Hw' & Hv & Hb & Hsub).
    exists (w :: h1), w', h2, (part ++ before), part'. split_and!; [done..|by apply expands_cons|set_solver].
Qed.

Lemma expands_elem htr tr w : expands htr tr -> w ∈ htr -> exists part, expands_to w part /\ part ⊆ tr.
Proof.
  intros (parts & Hp & ->) Hw. induction Hp as [|w' part htr parts Hw' Hp IH]; [by apply elem_of_nil in Hw|].
  apply elem_of_cons in Hw as [->|Hw]; [exists part; split; [done|set_solver]|].
  destruct (IH Hw) as (part' & ? & ?). exists part'. split; [done|set_solver].
Qed.

(** * The managers in sequence *)

(** One schedule: the managers are called one after the other. *)
Fixpoint createInOrder (ms : list ManagerId) (l : LVMCluster) : prog kubeE (list error) :=
  match ms with
  | [] => Ret []
  | m :: ms =>
      err <- EnsureCreatedBy (manager r imageName m) l;;
      errs <- createInOrder ms l;;
      Ret (match err with Some err => [err] | None => [] end ++ errs)
  end.

Definition in_sequence X (e : clusterE X) : prog sysE X :=
  match e in clusterE X return prog sysE X with
  | OfKube X e => call (SKube X e)
  | OfOperator X e => call (SOperator X e)
  | OfManager X e =>
      match e in managerE X return prog sysE X with
      | EnsureDeleted m l => translate SKube (EnsureDeletedBy (manager r imageName m) l)
      | EnsureCreatedAll ms l => translate SKube (createInOrder ms l)
      end
  end.

Fixpoint sequential {A} (p : prog clusterE A) : prog sysE A :=
  match p with
  | Ret a => Ret a
  | Vis e k => x <- in_sequence _ e;; sequential (k x)
  end.

Lemma createInOrder_concurrently ms l : wp (createInOrder ms l) (fun errs tr => concurrently ms l tr errs).
Proof.
  induction ms as [|m ms IH]; simpl; [exists []; split; [apply parallel_nil|done]|].
  apply wp_bind. eapply wp_mono; [apply wp_self|]. intros err tr1 H1.
  apply wp_bind. eapply wp_mono; [exact IH|]. intros errs tr2 (arrivals & Hp & ->). cbn [wp]. rewrite app_nil_r.
  exists (err :: arrivals). split; [by apply parallel_cons|]. by destruct err.
Qed.

Lemma map_sys tr : map (translate_ev SKube) tr = map sys tr.
Proof. apply map_ext. by intros []. Qed.

(** Every environment has a system run: the one in which the managers take turns. *)
Lemma wp_sequential {A} (p : prog clusterE A) : wp (sequential p) (fun a tr => sys_runs p tr a).
Proof.
  induction p as [a|X e k IH]; simpl; [constructor|]. apply wp_bind. destruct e as [X e|X e|X e].
  - cbn [in_sequence call wp]. intros x. eapply wp_mono; [apply IH|]. simpl. intros a tr. apply sys_kube.
  - destruct e as [m l|ms l]; apply wp_translate.
    + eapply wp_mono; [apply wp_self|]. intros err tr1 H1. eapply wp_mono; [apply IH|]. intros a tr Ha.
      rewrite map_sys. by apply sys_delete with err.
    + eapply wp_mono; [apply createInOrder_concurrently|]. intros errs tr1 H1. eapply wp_mono; [apply IH|]. intros a tr Ha.
      rewrite map_sys. by apply sys_create with errs.
  - cbn [in_sequence call wp]. intros x. eapply wp_mono; [apply IH|]. simpl. intros a tr. apply sys_operator.
Qed.

(** * Deletion *)

Definition saw (v : ev kubeE) (tr : list (ev sysE)) : Prop := sys v ∈ tr.

(** The system saw that an object does not exist. *)
Definition sys_gone (k : Kind) (namespace name : string) (tr : list (ev sysE)) : Prop :=
  exists err, IsNotFound err = true /\ saw (Ev (GetMeta k namespace name) (Err err)) tr.

Definition sys_groups_gone (l : LVMCluster) (tr : list (ev sysE)) : Prop :=
  forall dc, dc ∈ deviceClasses l -> sys_gone KindVolumeGroup (cr_Namespace r) (dc_Name dc) tr.

Definition sys_daemon_gone (tr : list (ev sysE)) : Prop :=
  sys_gone KindDaemonSet (cr_Namespace r) VGManagerUnit tr /\
  saw (Ev (ListPods (cr_Namespace r) vgManagerLabels) (Ok [])) tr.

(** No claim and, where volumes are retained, no volume of the cluster was found. *)
Definition sys_unused (l : LVMCluster) (tr : list (ev sysE)) : Prop :=
  forall dc, dc ∈ deviceClasses l ->
    saw (Ev (ListPVCs (GetStorageClassName (dc_Name dc))) (Ok [])) tr /\
    (retains dc = true -> saw (Ev (ListPVs (GetStorageClassName (dc_Name dc))) (Ok [])) tr).

(** A call that deletes an object, and one that writes the cluster. *)
Definition deletes_of (v : ev sysE) : option Kind :=
  match v with @Ev _ X e _ => match e with SKube _ (DeleteObject k _ _) => Some k | _ => None end end.
Definition releases_of (v : ev sysE) : option LVMCluster :=
  match v with @Ev _ X e _ => match e with SKube _ (UpdateCluster l) => Some l | _ => None end end.

(** The controller itself deletes nothing and asks the managers on behalf of the cluster. *)
Definition only_managers (l : LVMCluster) X (e : clusterE X) : Prop :=
  match e with
  | OfKube _ (DeleteObject _ _ _) | OfManager _ (EnsureCreatedAll _ _) => False
  | OfManager _ (EnsureDeleted _ l') => l' = l
  | _ => True
  end.

Lemma reconcileDeleted_only_managers l : emits (only_managers l) (reconcileDeleted r l).
Proof.
  unfold reconcileDeleted, clusterNodes, checkStaleNodeFinalizers, checkGroupFinalizers, checkFinalizer, logicalVolumesExist,
    checkLogicalVolume, activePVCsExistForClusterStorageClasses, classHasPVCs, retainPVsExistForCluster, classHasPVs,
    processClusterDelete, deleteUnit, ClusterWarningEvent, kube.
  emits_auto; try done; reflexivity.
Qed.

Lemma saw_mono v tr tr' : tr ⊆ tr' -> saw v tr -> saw v tr'.
Proof. unfold saw. auto. Qed.

Lemma sys_gone_mono k ns name tr tr' : tr ⊆ tr' -> sys_gone k ns name tr -> sys_gone k ns name tr'.
Proof. intros Hsub (err & ? & ?). exists err. split; [done|by eapply saw_mono]. Qed.

Lemma sys_gone_of k ns name tr : seen_gone k ns name tr -> sys_gone k ns name (map sys tr).
Proof. intros (err & He & Hin). exists err. split; [done|]. unfold saw. by apply list_elem_of_fmap_2. Qed.

(** The calls of one manager. *)
Lemma delete_calls m l tr err :
  runs (EnsureDeletedBy (manager r imageName m) l) tr err -> Forall (ev_sat (deletes_kind (kind_of m))) tr.
Proof. intros H. exact (wp_runs _ _ _ _ (emits_wp _ _ (manager_deletes r imageName m l)) H). Qed.

(** A call of [EnsureDeleted] that reported success, among the calls of the controller. *)
Lemma ensured_elem m err (htr : list (ev clusterE)) :
  (m, err) ∈ omap ensured_of htr -> exists l, Ev (OfManager _ (EnsureDeleted m l)) err ∈ htr.
Proof.
  intros (v & Hin & Hv)%omap_elem. destruct v as [X e x]. destruct e as [|X e|]; try done.
  destruct e as [m' l|]; [|done]. simpl in Hv. injection Hv as -> ->. by exists l.
Qed.

(** A manager that reported success ran to its end among the calls of the system. *)
Lemma manager_succeeded l htr tr m :
  Forall (ev_sat (only_managers l)) htr -> expands htr tr -> (m, None) ∈ omap ensured_of htr ->
  exists mtr, runs (EnsureDeletedBy (manager r imageName m) l) mtr None /\ map sys mtr ⊆ tr.
Proof.
  intros Hall He (l' & Hin)%ensured_elem. destruct (expands_elem _ _ _ He Hin) as (part & (mtr & Hr & ->) & Hsub).
  rewrite Forall_forall in Hall. specialize (Hall _ Hin). simpl in Hall. subst l'. by exists mtr.
Qed.

Lemma groups_succeeded l htr tr :
  Forall (ev_sat (only_managers l)) htr -> expands htr tr -> (LVMVGs, None) ∈ omap ensured_of htr -> sys_groups_gone l tr.
Proof.
  intros Hall He Hin. destruct (manager_succeeded l htr tr LVMVGs Hall He Hin) as (mtr & Hr & Hsub).
  pose proof (wp_runs _ _ _ _ (lvmVG_EnsureDeleted_gone r l) Hr eq_refl) as Hg.
  intros dc Hdc. eapply sys_gone_mono; [exact Hsub|]. by apply sys_gone_of, Hg.
Qed.

Lemma daemon_succeeded l htr tr :
  Forall (ev_sat (only_managers l)) htr -> expands htr tr -> (VGManager, None) ∈ omap ensured_of htr -> sys_daemon_gone tr.
Proof.
  intros Hall He Hin. destruct (manager_succeeded l htr tr VGManager Hall He Hin) as (mtr & Hr & Hsub).
  destruct (wp_runs _ _ _ _ (vgManager_EnsureDeleted_gone r imageName l) Hr eq_refl) as [Hg Hp].
  split; [eapply sys_gone_mono; [exact Hsub|by apply sys_gone_of]|]. apply Hsub. by apply list_elem_of_fmap_2.
Qed.

Lemma gates_seen l htr tr :
  expands htr tr -> no_claims (deviceClasses l) htr -> no_retained (deviceClasses l) htr -> sys_unused l tr.
Proof.
  intros He Hc Hr dc Hdc. split; [|intros Hret].
  - destruct (expands_elem _ _ _ He (Hc dc Hdc)) as (part & -> & Hsub). apply Hsub, list_elem_of_here.
  - destruct (expands_elem _ _ _ He (Hr dc Hdc Hret)) as (part & -> & Hsub). apply Hsub, list_elem_of_here.
Qed.

(** Which call of the controller a deletion or a write of the cluster comes from. *)
Lemma delete_owner l w part v k :
  ev_sat (only_managers l) w -> expands_to w part -> v ∈ part -> deletes_of v = Some k ->
  exists m err, ensured_of w = Some (m, err) /\ kind_of m = Some k.
Proof.
  intros Hw. destruct w as [X [X' e|X' e|X' e] x]; simpl.
  - intros -> ->%list_elem_of_singleton. by destruct e.
  - destruct e as [m l'|ms l']; [|done]. intros (tr & Hr%delete_calls & ->) Hv Hd. exists m, x. split; [done|].
    apply list_elem_of_fmap in Hv as ([Y e y] & -> & Hin). rewrite Forall_forall in Hr. specialize (Hr _ Hin).
    destruct e; simpl in *; congruence || done.
  - by intros -> ->%list_elem_of_singleton.
Qed.

Lemma release_owner l w part v l' :
  ev_sat (only_managers l) w -> expands_to w part -> v ∈ part -> releases_of v = Some l' -> cluster_update_of w = Some l'.
Proof.
  intros Hw. destruct w as [X [X' e|X' e|X' e] x]; simpl.
  - intros -> ->%list_elem_of_singleton. by destruct e.
  - destruct e as [m l''|ms l'']; [|done]. intros (tr & Hr%delete_calls & ->) Hv Hd. exfalso.
    apply list_elem_of_fmap in Hv as ([Y e y] & -> & Hin). rewrite Forall_forall in Hr. specialize (Hr _ Hin).
    by destruct e.
  - by intros -> ->%list_elem_of_singleton.
Qed.

Lemma groups_before_daemon ms rest : resourceDeletionList r = ms ++ VGManager :: rest -> LVMVGs ∈ ms.
Proof. destruct ms as [|m ms]; intros [= <- _]. apply list_elem_of_here. Qed.

Lemma succeeded_elem ms m : m ∈ ms -> (m, None) ∈ succeeded ms.
Proof. intros H. unfold succeeded. by apply (list_elem_of_fmap_2 (fun m => (m, None))). Qed.

Lemma sys_unused_mono l tr tr' : tr ⊆ tr' -> sys_unused l tr -> sys_unused l tr'.
Proof.
  intros Hsub Hu dc Hdc. destruct (Hu dc Hdc) as [Hc Hr]. split; [by apply Hsub|]. intros. by apply Hsub, Hr.
Qed.

Lemma sys_groups_gone_mono l tr tr' : tr ⊆ tr' -> sys_groups_gone l tr -> sys_groups_gone l tr'.
Proof. intros Hsub Hg dc Hdc. eapply sys_gone_mono; [exact Hsub|by apply Hg]. Qed.

(** A call [v] of the system after the calls [tr1] comes from a call [w] of the controller that
    is made in the order of a deletion. *)
Definition caused (l : LVMCluster) (tr1 : list (ev sysE)) (v : ev sysE) : Prop :=
  exists h1 w before part,
    (ev_sat (only_managers l) w /\ expands_to w part /\ v ∈ part) /\
    (Forall (ev_sat (only_managers l)) h1 /\ expands h1 before /\ before ⊆ tr1) /\
    gate_order l h1 w /\ deletion_order r l h1 w.

Lemma deletion_caused l htr tr tr1 v tr2 :
  ordered (fun before w => gate_order l before w /\ deletion_order r l before w) htr ->
  Forall (ev_sat (only_managers l)) htr -> expands htr tr -> tr = tr1 ++ v :: tr2 -> caused l tr1 v.
Proof.
  intros Hord Hall He Heq.
  destruct (expands_split _ _ _ _ _ He Heq) as (h1 & w & h2 & before & part & -> & Hw & Hv & Hb & Hsub).
  apply Forall_app in Hall as [Hh1 [Hhw _]%Forall_cons]. exists h1, w, before, part.
  do 2 (split; [done|]). exact (Hord h1 w h2 eq_refl).
Qed.

Lemma daemon_deleted_late l tr1 v :
  caused l tr1 v -> deletes_of v = Some KindDaemonSet -> sys_unused l tr1 /\ sys_groups_gone l tr1.
Proof.
  intros (h1 & w & before & part & (Hw & Hp & Hin) & (Hh1 & Hb & Hsub) & Hg & Hd & _) Hv.
  destruct (delete_owner _ _ _ _ _ Hw Hp Hin Hv) as (m & err & Hm & Hk). destruct m; try done.
  destruct (Hd _ _ Hm) as (ms & rest & Hlist & Hsucc). destruct Hg as [Hc Hr]; [left; by eexists|]. split.
  - eapply sys_unused_mono; [exact Hsub|]. by apply (gates_seen l h1).
  - eapply sys_groups_gone_mono; [exact Hsub|]. apply (groups_succeeded l h1 before Hh1 Hb). rewrite Hsucc.
    eapply succeeded_elem, groups_before_daemon, Hlist.
Qed.

Lemma cluster_released_late l tr1 v l' :
  caused l tr1 v -> releases_of v = Some l' ->
  l' = finalizer_removed l /\ sys_unused l tr1 /\ sys_groups_gone l tr1 /\ sys_daemon_gone tr1.
Proof.
  intros (h1 & w & before & part & (Hw & Hp & Hin) & (Hh1 & Hb & Hsub) & Hg & _ & Hd) Hv.
  pose proof (release_owner _ _ _ _ _ Hw Hp Hin Hv) as Hupd. destruct (Hd _ Hupd) as [-> Hsucc].
  destruct Hg as [Hc Hr]; [right; by eexists|]. split; [done|]. split_and!.
  - eapply sys_unused_mono; [exact Hsub|]. by apply (gates_seen l h1).
  - eapply sys_groups_gone_mono; [exact Hsub|]. apply (groups_succeeded l h1 before Hh1 Hb).
    rewrite Hsucc. apply succeeded_elem, list_elem_of_here.
  - destruct (daemon_succeeded l h1 before Hh1 Hb) as [Hds Hpods].
    { rewrite Hsucc. apply succeeded_elem, list_elem_of_further, list_elem_of_here. }
    split; [by eapply sys_gone_mono|by apply Hsub].
Qed.

Lemma releases_expand htr tr l : expands htr tr -> l ∈ omap cluster_update_of htr -> l ∈ omap releases_of tr.
Proof.
  intros He (w & Hin & Hw)%omap_elem. destruct (expands_elem _ _ _ He Hin) as (part & Hp & Hsub).
  destruct w as [X [X' e|X' []|X' []] x]; try done. simpl in Hp. subst part. apply omap_elem.
  exists (Ev (SKube X' e) x). split; [apply Hsub, list_elem_of_here|destruct e; exact Hw].
Qed.

(** C2: whatever the API server answers, while a cluster is deleted, the vgmanager DaemonSet (which
    cleans up the volume groups on the nodes) is deleted only after no claim and no retained
    volume was left and the volume group of every device class of the cluster was seen to be gone;
    the finalizer of the cluster is removed, and nothing else of it changed, only after that and after the
    DaemonSet and its pods were seen to be gone; and the deletion is reported as finished only
    after the finalizer was removed. *)
Theorem cluster_deletion_safe `{L : !ControllerUtilLaws C} l tr res :
  sys_runs (reconcileDeleted r l) tr res ->
  (forall tr1 v tr2, tr = tr1 ++ v :: tr2 -> deletes_of v = Some KindDaemonSet ->
     sys_unused l tr1 /\ sys_groups_gone l tr1) /\
  (forall tr1 v tr2 l', tr = tr1 ++ v :: tr2 -> releases_of v = Some l' ->
     l' = finalizer_removed l /\ sys_unused l tr1 /\ sys_groups_gone l tr1 /\ sys_daemon_gone tr1) /\
  (res = (emptyResult, None) -> lvmClusterFinalizer ∈ om_Finalizers (lc_meta l) ->
     finalizer_removed l ∈ omap releases_of tr).
Proof.
  intros Hrun.
  destruct (wp_sys_runs _ _ _ _ (wp_conj _ _ _ (reconcileDeleted_order r l) (emits_wp _ _ (reconcileDeleted_only_managers l))) Hrun)
    as (htr & [[Hord Hdone] Hall] & He).
  split; [|split].
  - intros tr1 v tr2 Heq. by apply daemon_deleted_late, (deletion_caused l htr tr tr1 v tr2).
  - intros tr1 v tr2 l' Heq. by apply cluster_released_late, (deletion_caused l htr tr tr1 v tr2).
  - intros Hres Hf. by apply (releases_expand htr), Hdone.
Qed.

(** * Readiness *)

(** The statuses the system writes. *)
Definition status_of (v : ev sysE) : option LVMCluster :=
  match v with @Ev _ X e _ => match e with SKube _ (UpdateClusterStatus l) => Some l | _ => None end end.

(** A manager ran to its end, without an error, among the calls of the system. *)
Definition created (m : ManagerId) (tr : list (ev sysE)) : Prop :=
  exists l mtr, runs (EnsureCreatedBy (manager r imageName m) l) mtr None /\ map sys mtr ⊆ tr.

Definition sys_setup_complete (l : LVMCluster) (tr : list (ev sysE)) : Prop :=
  deviceClasses l = [] \/
  exists nodes items, saw (Ev ListNodes (Ok nodes)) tr /\ saw (Ev (ListNodeStatuses (cr_Namespace r)) (Ok items)) tr /\
    validateDeviceClassSetup l nodes items = None.

Definition reconcile_calls X (e : clusterE X) : Prop :=
  match e with
  | OfManager _ (EnsureCreatedAll ms _) => ms = resourcesToCreate r
  | OfManager _ (EnsureDeleted _ _) => False
  | OfKube _ (ListNodeStatuses namespace) => namespace = cr_Namespace r
  | _ => True
  end.

Lemma reconcileCluster_calls l : emits reconcile_calls (reconcileCluster r l).
Proof.
  unfold reconcileCluster, addClusterFinalizer, checkForDeletedDeviceClasses, deleteOrphan, deleteIfPresent,
    updateLVMClusterStatus, writeStatus, ClusterWarningEvent, ClusterNormalEvent, kube.
  emits_auto; try done; reflexivity.
Qed.

(** A parallel run without errors: every manager succeeded. *)
Lemma concurrently_created ms l tr m :
  concurrently ms l tr [] -> m ∈ ms -> exists mtr, runs (EnsureCreatedBy (manager r imageName m) l) mtr None /\ mtr ⊆ tr.
Proof.
  intros (arrivals & Hp & Herrs) Hm.
  destruct (parallel_ran _ _ _ _ Hp (list_elem_of_fmap_2 (fun m => EnsureCreatedBy (manager r imageName m) l) ms m Hm))
    as (mtr & err & Hr & Hsub & Hin).
  exists mtr. split; [|done]. destruct err as [err|]; [|done]. exfalso.
  assert (err ∈ omap id arrivals) as Hx by (apply omap_elem; by exists (Some err)).
  rewrite <- Herrs in Hx. by apply elem_of_nil in Hx.
Qed.

Lemma created_expand htr tr m :
  Forall (ev_sat reconcile_calls) htr -> expands htr tr -> [] ∈ omap created_of htr -> m ∈ resourcesToCreate r -> created m tr.
Proof.
  intros Hall He (w & Hin & Hw)%omap_elem Hm. rewrite Forall_forall in Hall. specialize (Hall _ Hin).
  destruct (expands_elem _ _ _ He Hin) as (part & Hp & Hsub). destruct w as [X [X' e|X' e|X' e] x]; try done.
  destruct e as [|ms l]; [done|]. simpl in Hw, Hall, Hp. injection Hw as ->. subst ms. destruct Hp as (ctr & Hc & ->).
  destruct (concurrently_created _ _ _ _ Hc Hm) as (mtr & Hr & Hmtr). exists l, mtr. split; [done|].
  intros v (v0 & -> & Hv0)%list_elem_of_fmap. apply Hsub. by apply list_elem_of_fmap_2, Hmtr.
Qed.

Lemma setup_expand l htr tr :
  Forall (ev_sat reconcile_calls) htr -> expands htr tr -> setup_complete l htr -> sys_setup_complete l tr.
Proof.
  intros Hall He [Hempty|(nodes & items & Hn & Hi & Hv)]; [by left|right]. rewrite Forall_forall in Hall.
  exists nodes, items. split_and!; [| |done].
  - apply omap_elem in Hn as (w & Hin & Hw). destruct (expands_elem _ _ _ He Hin) as (part & Hp & Hsub).
    destruct w as [X [X' e|X' []|X' []] x]; try done. destruct e; try done. destruct x as [x|]; [|done].
    simpl in Hw, Hp. injection Hw as ->. subst part. apply Hsub, list_elem_of_here.
  - apply omap_elem in Hi as (w & Hin & Hw). destruct (expands_elem _ _ _ He Hin) as (part & Hp & Hsub).
    specialize (Hall _ Hin). destruct w as [X [X' e|X' []|X' []] x]; try done. destruct e; try done. destruct x as [x|]; [|done].
    simpl in Hw, Hp, Hall. injection Hw as ->. subst part namespace. apply Hsub, list_elem_of_here.
Qed.

(** The managers themselves write no status. *)
Lemma create_calls m l mtr err :
  runs (EnsureCreatedBy (manager r imageName m) l) mtr err -> Forall (ev_sat (creates_kind (kind_of m))) mtr.
Proof. intros H. exact (wp_runs _ _ _ _ (emits_wp _ _ (manager_creates r imageName m l)) H). Qed.

Lemma concurrent_calls ms l tr errs v :
  concurrently ms l tr errs -> v ∈ tr -> exists m, ev_sat (creates_kind (kind_of m)) v.
Proof.
  intros (arrivals & Hp & _) Hv. destruct (parallel_call _ _ _ _ Hp Hv) as (p & mtr & err & Hin & Hr & Hv').
  apply (list_elem_of_fmap (fun m => EnsureCreatedBy (manager r imageName m) l)) in Hin as (m & -> & _).
  exists m. pose proof (create_calls _ _ _ _ Hr) as Hall. rewrite Forall_forall in Hall. by apply Hall.
Qed.

Lemma status_expand htr tr l' :
  Forall (ev_sat reconcile_calls) htr -> expands htr tr -> l' ∈ omap status_of tr -> l' ∈ omap status_update_of htr.
Proof.
  intros Hall He (v & Hv & Hs)%omap_elem. apply list_elem_of_split in Hv as (tr1 & tr2 & ->).
  destruct (expands_split _ _ _ _ _ He eq_refl) as (h1 & w & h2 & before & part & -> & Hp & Hin & _ & _).
  apply Forall_app in Hall as [_ [Hw _]%Forall_cons].
  apply omap_elem. exists w. split; [rewrite elem_of_app; right; apply list_elem_of_here|].
  destruct w as [X [X' e|X' e|X' e] x]; simpl in Hp.
  - subst part. apply list_elem_of_singleton in Hin as ->. by destruct e.
  - exfalso. destruct e as [m l|ms l]; [done|]. destruct Hp as (ctr & Hc & ->).
    apply list_elem_of_fmap in Hin as ([Y e y] & -> & Hy). destruct (concurrent_calls _ _ _ _ _ Hc Hy) as [m Hm].
    by destruct e.
  - subst part. by apply list_elem_of_singleton in Hin as ->.
Qed.

(** The answer to the update that adds the finalizer has the spec and the conditions of the object
    that was sent. *)
Definition sys_keeps_status (tr : list (ev sysE)) : Prop :=
  forall l0 l1, saw (Ev (UpdateCluster l0) (Ok l1)) tr -> keeps_status_of l0 l1.

Lemma keeps_expand htr tr : expands htr tr -> sys_keeps_status tr -> keeps_status htr.
Proof.
  intros He Hk l0 l1 Hin. apply Hk. destruct (expands_elem _ _ _ He Hin) as (part & Hp & Hsub). simpl in Hp. subst part.
  apply Hsub, list_elem_of_here.
Qed.

(** C8: let the conditions of the cluster be those the operator sets, at most one of each of its two
    types, and let the update by which a reconciliation adds a missing finalizer answer with the
    conditions in memory (a reconciliation that finds the finalizer makes no such update). Then,
    however the goroutines of the resource managers are interleaved, the reconciliation writes the
    status ready only if every one of the managers ran to its end without an error in it and,
    unless there are no device classes, validateDeviceClassSetup finds nothing missing in the nodes
    and node statuses read in it. *)
Theorem cluster_ready_sound `{SL : !StatusConditionsLaws S} l tr res l' :
  operator_conditions (lst_Conditions (lc_Status l)) -> sys_keeps_status tr ->
  sys_runs (reconcileCluster r l) tr res -> l' ∈ omap status_of tr -> lst_Ready (lc_Status l') = true ->
  (forall m, m ∈ resourcesToCreate r -> created m tr) /\ sys_setup_complete l tr.
Proof.
  intros Hc Hk Hrun Hl' Hready.
  destruct (wp_sys_runs _ _ _ _ (wp_conj _ _ _ (reconcileCluster_ready r l Hc) (emits_wp _ _ (reconcileCluster_calls l))) Hrun)
    as (htr & [Hiff Hall] & He).
  destruct (proj1 (Hiff (keeps_expand htr tr He Hk) l' (status_expand htr tr l' Hall He Hl')) Hready) as [Hcreated Hsetup].
  split; [intros m; by apply (created_expand htr)|by apply (setup_expand l htr)].
Qed.
End System.
