(* ===== verification/ClusterDemo.v ===== *)
(** Concrete instances for the theorems on the LVMCluster controller, and a behaviour of its
    deletion that differs from the comment that explains it. *)

From S2P Require Import Prelude GoStd Effects Api K8sDemo VgEnv VgController Objects ClusterStatus ClusterEnv ClusterController.
From S2P Require Import ClusterFacts Resources VgManagerDaemon ResourceFacts ClusterSystem.

#[local] Existing Instance listed_order_runtime.
#[local] Existing Instance demo_K8s.
#[local] Existing Instance demo_controller_util_laws.

(** Conditions as a list with one entry per type. *)
#[export] Instance demo_conditions : StatusConditions := {|
  SetStatusCondition := fun cs c => c :: List.filter (fun x => negb (String.eqb (cond_Type x) (cond_Type c))) cs;
|}.

Lemma demo_conditions_laws : StatusConditionsLaws demo_conditions.
Proof.
  assert (Helem : forall (cs : list Condition) (c x : Condition),
    x ∈ List.filter (fun x => negb (String.eqb (cond_Type x) (cond_Type c))) cs <-> x ∈ cs /\ cond_Type x <> cond_Type c).
  { intros. rewrite !list_elem_of_In, List.filter_In, negb_true_iff, String.eqb_neq. done. }
  split; intros cs c; simpl.
  - intros Hnd. constructor.
    + rewrite list_elem_of_fmap. intros (x & Heq & [_ Hne]%Helem). congruence.
    + induction cs as [|y cs IH]; cbn [List.filter]; [constructor|]. rewrite fmap_cons in Hnd.
      apply NoDup_cons in Hnd as [Hy Hnd].
      destruct (negb _); [|by apply IH]. rewrite fmap_cons. constructor; [|by apply IH].
      rewrite list_elem_of_fmap in Hy |- *. intros (x & Heq & [Hx _]%Helem). apply Hy. by exists x.
  - intros x _. by rewrite elem_of_cons, Helem.
Qed.
#[local] Existing Instance demo_conditions_laws.

#[export] Instance demo_refs : ControllerRefs := {|
  IsControlledBy := fun m owner => existsb (fun ref => String.eqb (or_UID ref) (om_UID owner)) (om_OwnerReferences m);
  SetControllerReference := fun owner m =>
    Ok (om_OwnerReferences m ++ [mkOwnerReference "lvm.topolvm.io/v1alpha1" "LVMCluster" (om_Name owner) (om_UID owner)]);
|}.

(** The remaining finalizers are moved to the front of the memory, the rest is left. *)
#[export] Instance in_place_memory : FinalizerMemory := {|
  memory_after := fun memory _ answered => answered ++ drop (length answered) memory;
|}.

Lemma demo_selector_laws : NodeSelectorLaws (K := demo_K8s).
Proof.
  split; [done|]. intros node ts us b c. simpl. intros [= <-] [= <-]. by rewrite existsb_app.
Qed.
#[local] Existing Instance demo_selector_laws.

#[export] Instance demo_scheme : Scheme := {| ClusterGVK := Ok ("lvm.topolvm.io", "v1alpha1", "LVMCluster") |}.

(** Only numbers, no percentages. *)
#[export] Instance demo_scaled : ScaledValues := {|
  GetScaledValueFromIntOrPercent := fun v _ _ =>
    match v with Some (IntValue n) => Ok n | _ => Err (EExt "nil value for IntOrString") end;
|}.

(** The volumes the first call listed. *)
Definition listed_volumes `{K : K8s} (tr : list (ev clusterE)) : list TopoLogicalVolume :=
  match tr with
  | @Ev _ X e x :: _ =>
      match e in clusterE X return X -> list TopoLogicalVolume with
      | OfKube X e => match e in kubeE X return X -> list TopoLogicalVolume with
                      | ListLogicalVolumes => fun r => match r with Ok lvs => lvs | Err _ => [] end
                      | _ => fun _ => []
                      end
      | _ => fun _ => []
      end x
  | [] => []
  end.

(** The clean-up of LogicalVolumes stops at the first volume of an existing node: it ends
    without an error and without a write, whatever volumes of removed nodes follow in the list
    keep their finalizer. *)
Theorem logicalVolumesExist_stops_early `{K : K8s} `{C : !ControllerUtil} (nodes : gset string) :
  wp (logicalVolumesExist nodes) (fun res tr =>
    forall lv lvs, listed_volumes tr = lv :: lvs -> tlv_NodeName lv ∈ nodes -> res = (true, None) /\ length tr = 1).
Proof.
  unfold logicalVolumesExist. apply wp_call. intros [[|lv lvs]|err]; simpl; [done| |done].
  destruct (decide (tlv_NodeName lv ∈ nodes)) as [Hn|Hn].
  - unfold checkLogicalVolume. rewrite bool_decide_eq_true_2 by done. simpl. by intros ? ? [= -> ->].
  - apply wp_intro. intros res tr. simpl. by intros ? ? [= -> ->].
Qed.

Module ClusterDemo.
Definition demo_meta (name uid : string) (finalizers : list string) : ObjectMeta :=
  mkObjectMeta name "openshift-lvm-storage" uid ∅ None finalizers [] None.
Definition demo_class (name : string) (sel : option NodeSelector) : DeviceClass :=
  mkDeviceClass name None sel None None false FilesystemTypeXFS None None.
Definition demo_cluster (cs : list Condition) : LVMCluster :=
  mkLVMCluster (demo_meta "my-lvmcluster" "uid-1" [lvmClusterFinalizer])
    (mkLVMClusterSpec ["maintenance"]
       (mkStorage [demo_class "vg1" (Some (mkNodeSelector demo_K8s ["ssd"])); demo_class "vg2" (Some (mkNodeSelector demo_K8s ["hdd"]))]))
    (mkLVMClusterStatus false LVMStatusUnknown cs []).
Definition demo_reconciler : ClusterReconciler := mkClusterReconciler TypeOCP true "openshift-lvm-storage" []
  (mkVGmanagerOptions (mkKlogOptions "" "") (mkZapOptions "")).

Definition node (name : string) (labels taints : list string) : Node := (name, labels, taints).
Definition demo_nodes : list Node :=
  [node "n1" ["ssd"] []; node "n2" ["hdd"; "ssd"] ["maintenance"]; node "n3" ["ssd"] ["other"]; node "n4" [] []].

Definition ready (vg : string) : VGStatus := mkVGStatus vg VGStatusReady "" [] [] None None.
Definition demo_items : list LVMVolumeGroupNodeStatus :=
  [mkLVMVolumeGroupNodeStatus (demo_meta "n1" "u1" []) [ready "vg1"];
   mkLVMVolumeGroupNodeStatus (demo_meta "n2" "u2" []) [ready "vg1"; ready "vg2"]].

Definition demo_conds : list Condition :=
  [mkCondition ResourcesAvailable true ReasonResourcesAvailable ""; mkCondition VolumeGroupsReady false ReasonVGsDegraded ""].

Lemma computeLVMClusterReadiness_correct_witness :
  (computeLVMClusterReadiness demo_conds).1 = LVMStatusDegraded /\
  exists c, c ∈ demo_conds /\ (cond_Reason c, LVMStatusDegraded) ∈ reason_states.
Proof.
  split; [reflexivity|].
  apply (computeLVMClusterReadiness_correct demo_conds); [|done].
  intros c. unfold demo_conds. rewrite !elem_of_cons, elem_of_nil. intros [->|[->|[]]].
  - exists LVMStatusReady. unfold reason_states. rewrite !elem_of_cons. simpl. tauto.
  - exists LVMStatusDegraded. unfold reason_states. rewrite !elem_of_cons. simpl. tauto.
Defined.

Lemma demo_unique : unique_names demo_items.
Proof.
  split; [by apply (bool_decide_unpack _); vm_compute|].
  intros ns. unfold demo_items. rewrite !elem_of_cons, elem_of_nil.
  intros [->|[->|[]]]; by apply (bool_decide_unpack _); vm_compute.
Qed.

Lemma validateDeviceClassSetup_correct_witness :
  validateDeviceClassSetup (demo_cluster []) [node "n1" ["ssd"] []; node "n2" ["hdd"] []] demo_items = None /\
  exists n, n ∈ [node "n1" ["ssd"] []; node "n2" ["hdd"] []] /\
    isNodeValid n (demo_cluster []) (demo_class "vg2" (Some (mkNodeSelector demo_K8s ["hdd"]))) = Ok true.
Proof.
  split; [vm_compute; reflexivity|].
  refine (proj2 (proj1 (validateDeviceClassSetup_correct (demo_cluster []) [node "n1" ["ssd"] []; node "n2" ["hdd"] []]
                   demo_items demo_unique) _ _ _)).
  - vm_compute. reflexivity.
  - apply list_elem_of_further, list_elem_of_here.
Defined.

Lemma ValidNodes_correct_witness :
  node "n2" ["hdd"; "ssd"] ["maintenance"] ∈ (ValidNodes (demo_cluster []) demo_nodes).1 /\
  node "n3" ["ssd"] ["other"] ∉ (ValidNodes (demo_cluster []) demo_nodes).1.
Proof.
  assert (H : forall n, n ∈ (ValidNodes (demo_cluster []) demo_nodes).1 <->
    n ∈ demo_nodes /\ tolerated (demo_cluster []) n /\
    exists dc, dc ∈ deviceClasses (demo_cluster []) /\ class_selects dc n).
  { intros n. apply (ValidNodes_correct (demo_cluster []) demo_nodes n); [done| |].
    - intros dc sel [->|[->|[]%elem_of_nil]%elem_of_cons]%elem_of_cons; intros [= <-]; done.
    - intros m _ dc sel _ _. eexists. reflexivity. }
  split; rewrite H.
  - split; [apply list_elem_of_further, list_elem_of_here|]. split; [reflexivity|].
    exists (demo_class "vg1" (Some (mkNodeSelector demo_K8s ["ssd"]))). split; [apply list_elem_of_here|reflexivity].
  - intros (_ & Ht & _). vm_compute in Ht. discriminate.
Defined.

Lemma checkStaleNodeFinalizers_safe_witness :
  wp (checkStaleNodeFinalizers demo_reconciler {["n1"]}) (fun _ tr => updates_stale {["n1"]} [] tr).
Proof. apply (checkStaleNodeFinalizers_safe demo_reconciler {["n1"]}). Defined.

(** An API server that stores the one volume group it is given. *)
Definition demo_server (X : Type) (e : clusterE X) (stored : LVMVolumeGroup) : X * LVMVolumeGroup :=
  match e in clusterE X return X * LVMVolumeGroup with
  | OfKube X e =>
      match e in kubeE X return X * LVMVolumeGroup with
      | UpdateGroup vg => (Ok vg, vg)
      | ListVolumeGroups _ => (Ok [stored], stored)
      | CreateOrUpdate k initial mutate => (mutate true initial, stored)
      | GetNode _ | GetCSINode _ | ReadNodeStatus _ _ => (Err (EExt "none"), stored)
      | ListStorageClasses | ListPods _ _ => (Ok [], stored)
      | ApplyStorageClass _ _ | UpdateNodeStatus _ => (None, stored)
      | ListClusters _ | ListNodes | ListNodeStatuses _ | ListLogicalVolumes | ListPVCs _ | ListPVs _ => (Ok [], stored)
      | GetPodContainers _ _ => (Ok [], stored)
      | GetCluster _ _ => (Ok (demo_cluster []), stored)
      | UpdateCluster l => (Ok l, stored)
      | UpdateClusterStatus _ | UpdateLogicalVolume _ | DeleteObject _ _ _ => (None, stored)
      | GetMeta _ _ _ => (Err (EExt "none"), stored)
      end
  | OfManager X e =>
      match e in managerE X return X * LVMVolumeGroup with
      | EnsureDeleted _ _ => (None, stored)
      | EnsureCreatedAll _ _ => ([], stored)
      end
  | OfOperator X e =>
      match e in operatorE X return X * LVMVolumeGroup with
      | Getenv _ => ("", stored)
      | ClusterEventf _ _ _ => (tt, stored)
      | VerboseLog => (false, stored)
      end
  end.

Definition stale_group : LVMVolumeGroup :=
  mkLVMVolumeGroup (demo_meta "vg1" "uid" (map (fun n => NodeCleanupFinalizer +:+ "/" +:+ n) ["a"; "b"; "c"]))
    (mkLVMVolumeGroupSpec None None None None true None).

(** Where the removal of a finalizer moves the others forward in the memory of the list, the
    loop over that list skips one: of three stale finalizers the second survives the clean-up,
    although no node of them exists. *)
Theorem stale_finalizer_skipped :
  let '(err, stored, _) := run demo_server (checkStaleNodeFinalizers demo_reconciler {["d"]}) stale_group in
  err = None /\ om_Finalizers (lvg_meta stored) = [NodeCleanupFinalizer +:+ "/b"].
Proof. vm_compute. split; reflexivity. Qed.

(** An API server with one cluster and the node n1, whose state is whether vgmanager is still
    installed there: it then has the driver and reports the one volume group of the cluster as
    ready. Lookups find nothing, writes succeed. *)
Definition small_cluster : LVMCluster :=
  mkLVMCluster (demo_meta "my-lvmcluster" "uid-1" [lvmClusterFinalizer])
    (mkLVMClusterSpec [] (mkStorage [demo_class "vg1" None])) (mkLVMClusterStatus false LVMStatusUnknown [] []).
Definition small_reconciler : ClusterReconciler := mkClusterReconciler TypeMicroShift false "openshift-lvm-storage" []
  (mkVGmanagerOptions (mkKlogOptions "" "") (mkZapOptions "")).

Definition small_server (X : Type) (e : sysE X) (s : bool) : X * bool :=
  match e in sysE X return X * bool with
  | SKube X e =>
      match e in kubeE X return X * bool with
      | UpdateGroup vg => (Ok vg, s)
      | CreateOrUpdate k initial mutate => (mutate true initial, s)
      | GetNode _ | ReadNodeStatus _ _ => (Err (EExt "none"), s)
      | GetCSINode name => (Ok (mkCSINodeObject name (if s then [TopolvmCSIDriverName] else [])), s)
      | ListNodes => (Ok [node "n1" [] []], s)
      | ListNodeStatuses _ => (Ok (if s then [mkLVMVolumeGroupNodeStatus (demo_meta "n1" "u1" []) [ready "vg1"]] else []), s)
      | ApplyStorageClass _ _ | UpdateNodeStatus _ | UpdateClusterStatus _ | UpdateLogicalVolume _ | DeleteObject _ _ _ => (None, s)
      | ListStorageClasses | ListPods _ _ | ListClusters _ | ListVolumeGroups _ | ListLogicalVolumes | ListPVCs _ | ListPVs _
      | GetPodContainers _ _ => (Ok [], s)
      | GetCluster _ _ => (Ok small_cluster, s)
      | UpdateCluster l => (Ok l, s)
      | GetMeta _ _ _ => (Err (EApi StatusReasonNotFound ""), s)
      end
  | SOperator X e =>
      match e in operatorE X return X * bool with
      | Getenv _ => ("", s)
      | ClusterEventf _ _ _ => (tt, s)
      | VerboseLog => (false, s)
      end
  end.

Definition small_run {A} (s : bool) (p : prog clusterE A) : A * bool * list (ev sysE) :=
  run small_server (sequential small_reconciler "image" p) s.
Definition small_result {A} (s : bool) (p : prog clusterE A) : A := fst (fst (small_run s p)).
Definition small_trace {A} (s : bool) (p : prog clusterE A) : list (ev sysE) := snd (small_run s p).

Lemma small_sys_runs {A} s (p : prog clusterE A) : sys_runs small_reconciler "image" p (small_trace s p) (small_result s p).
Proof. exact (wp_run small_server _ s _ (wp_sequential small_reconciler "image" p)). Qed.


(** The DaemonSet of a cluster whose classes were restricted to nodes, with one annotation. *)
Definition restricted_daemonset : DaemonSet :=
  let ds := setDaemonsetNodeSelector (Some (mkNodeSelector demo_K8s ["ssd"])) (desiredDaemonSet small_reconciler "image" small_cluster) in
  with_ds_meta ds (with_annotations (ds_meta ds) (Some {["owner" := "team"]})).

Definition owned_small_daemonset : DaemonSet :=
  let ds := desiredDaemonSet small_reconciler "image" small_cluster in with_ds_meta ds (with_owners (ds_meta ds) []).

Lemma updateDaemonSet_loses_witness :
  (ExtractNodeSelectorAndTolerations small_cluster).1 = None /\
  pt_Affinity (ds_Template (updateDaemonSet owned_small_daemonset restricted_daemonset)) =
    Some (mkNodeSelector demo_K8s ["ssd"]).
Proof.
  split; [vm_compute; reflexivity|].
  refine (eq_trans (proj1 (updateDaemonSet_loses small_reconciler "image" small_cluster
    owned_small_daemonset restricted_daemonset "owner" "team" _ _ _)) _).
  - by exists [].
  - reflexivity.
  - reflexivity.
  - reflexivity.
Defined.

Lemma cluster_deletion_safe_witness :
  small_result false (reconcileDeleted small_reconciler small_cluster) = (emptyResult, None) /\
  finalizer_removed small_cluster ∈ omap releases_of (small_trace false (reconcileDeleted small_reconciler small_cluster)).
Proof.
  split; [vm_compute; reflexivity|].
  apply (cluster_deletion_safe small_reconciler "image" small_cluster _ _
           (small_sys_runs false (reconcileDeleted small_reconciler small_cluster))); [vm_compute; reflexivity|].
  apply list_elem_of_here.
Defined.

(** The status a run of the small server writes last. *)
Definition small_status : LVMCluster :=
  default small_cluster (last (omap status_of (small_trace true (reconcileCluster small_reconciler small_cluster)))).

Lemma cluster_ready_sound_witness :
  lst_Ready (lc_Status small_status) = true /\
  sys_setup_complete small_reconciler small_cluster (small_trace true (reconcileCluster small_reconciler small_cluster)).
Proof.
  split; [vm_compute; reflexivity|].
  apply (cluster_ready_sound small_reconciler "image" small_cluster _
           (small_result true (reconcileCluster small_reconciler small_cluster)) small_status); [| |apply small_sys_runs| |].
  - split; [constructor|]. by intros c Hc%elem_of_nil.
  - assert (Hnone : omap releases_of (small_trace true (reconcileCluster small_reconciler small_cluster)) = []) by (vm_compute; reflexivity).
    intros l0 l1 Hsaw. assert (Hin : l0 ∈ omap releases_of (small_trace true (reconcileCluster small_reconciler small_cluster)))
      by (apply omap_elem; eexists; split; [exact Hsaw|reflexivity]).
    rewrite Hnone in Hin. by apply elem_of_nil in Hin.
  - apply last_Some_elem_of. vm_cast_no_check (eq_refl (Some small_status)).
  - vm_compute. reflexivity.
Defined.
End ClusterDemo.
