(* ===== verification/NodeRemoval.v ===== *)
(** The node removal controller (internal/controllers/node/removal/controller.go): when the node
    of a LVMVolumeGroupNodeStatus no longer exists, the status is deleted and what the node left
    in the volume groups (its finalizer and the annotation of its wiped devices) is removed. *)

From S2P Require Import Prelude GoStd Effects Api K8sDemo VgEnv Wipe VgController Objects ClusterStatus ClusterEnv Resources.

Section NodeRemoval.
Context `{R : GoRuntime} `{K : K8s} `{C : !ControllerUtil}.

(** The field of the Reconciler. *)
Variable namespace : string.

(** * Operations *)

Definition nodeFinalizer (nodeName : string) : string := NodeCleanupFinalizer +:+ "/" +:+ nodeName.
Definition nodeAnnotation (nodeName : string) : string := DevicesWipedAnnotationPrefix +:+ nodeName.

(** The volume group without the traces of the node, and whether there were any. *)
Definition cleanGroup (nodeName : string) (vg : LVMVolumeGroup) : LVMVolumeGroup * bool :=
  let '(finalizers, needsUpdate) := RemoveFinalizer (om_Finalizers (lvg_meta vg)) (nodeFinalizer nodeName) in
  let m := with_finalizers (lvg_meta vg) finalizers in
  match om_Annotations m with
  | Some annotations =>
      if bool_decide (is_Some (annotations !! nodeAnnotation nodeName))
      then (with_vg_meta vg (with_annotations m (Some (delete (nodeAnnotation nodeName) annotations))), true)
      else (with_vg_meta vg m, needsUpdate)
  | None => (with_vg_meta vg m, needsUpdate)
  end.

Definition cleanupGroup (nodeName : string) (vg : LVMVolumeGroup) (_ : unit) : prog kubeE (unit + error) :=
  let '(vg, needsUpdate) := cleanGroup nodeName vg in
  if negb needsUpdate then Ret (inl tt)
  else
    try _ := call (UpdateGroup vg)
      catch err => Ret (inr (wrapErr ("failed to update LVMVolumeGroup " +:+ lvg_Name vg) err)) in
    Ret (inl tt).

Definition cleanupVolumeGroupsForNode (nodeName : string) : prog kubeE (option error) :=
  try volumeGroups := call (ListVolumeGroups namespace)
    catch err => Ret (Some (wrapErr "failed to list LVMVolumeGroups" err)) in
  res <- for_each (cleanupGroup nodeName) volumeGroups tt;;
  Ret (loop_error res).

(** The block of Reconcile for a node that was not found. *)
Definition removeNodeStatus (nodeStatus : LVMVolumeGroupNodeStatus) : prog kubeE (option error) :=
  let m := ns_meta nodeStatus in
  guard call (DeleteObject KindNodeStatus (om_Namespace m) (om_Name m))
    catch err => Ret (Some (wrapErr ("error deleting LVMVolumeGroupNodeStatus for Node " +:+ om_Name m) err)) in
  guard (let '(nodeStatus, removed) := removeDeleteProtectionFinalizer nodeStatus in
         if removed then call (UpdateNodeStatus nodeStatus) else Ret None)
    catch err => Ret (Some (wrapErr "failed to remove finalizer from LVMVolumeGroupNodeStatus" err)) in
  guard cleanupVolumeGroupsForNode (om_Name m)
    catch err => Ret (Some (wrapErr ("failed to clean up VolumeGroups for Node " +:+ om_Name m) err)) in
  Ret None.

Definition ReconcileNodeStatus (reqNamespace reqName : string) : prog kubeE (Result * option error) :=
  try nodeStatus := call (ReadNodeStatus reqNamespace reqName)
    catch err => Ret (emptyResult, IgnoreNotFound err) in
  let name := om_Name (ns_meta nodeStatus) in
  node <- call (GetNode name);;
  match node with
  | Ok _ => Ret (emptyResult, None)
  | Err err =>
      if IsNotFound err then
        err <- removeNodeStatus nodeStatus;;
        Ret (emptyResult, err)
      else
        Ret (emptyResult, Some (wrapErr ("error retrieving fitting LVMVolumeGroupNodeStatus for Node " +:+ name) err))
  end.

(** The requests for an updated node. *)
Definition GetNodeStatusFromNode (nodeName : string) : prog kubeE (list (string * string)) :=
  res <- call (ReadNodeStatus namespace nodeName);;
  Ret match res with Ok _ => [(namespace, nodeName)] | Err _ => [] end.

(** * What a removal may do *)

(** The node is known not to exist. *)
Definition node_gone (nodeName : string) (tr : list (ev kubeE)) : Prop :=
  exists err, IsNotFound err = true /\ Ev (GetNode nodeName) (Err err) ∈ tr.

(** [vg'] is [vg] without the finalizer and the annotation of the node. *)
Record cleaned (nodeName : string) (vg vg' : LVMVolumeGroup) : Prop := {
  cleaned_spec : lvg_Spec vg' = lvg_Spec vg;
  cleaned_meta : exists fs annotations,
    lvg_meta vg' = with_annotations (with_finalizers (lvg_meta vg) fs) annotations /\
    (forall f, f ∈ fs <-> f ∈ om_Finalizers (lvg_meta vg) /\ f <> nodeFinalizer nodeName) /\
    (forall k, default ∅ annotations !! k =
       if String.eqb k (nodeAnnotation nodeName) then None else default ∅ (om_Annotations (lvg_meta vg)) !! k);
}.

(** What the node left in a volume group. *)
Definition left_behind (nodeName : string) (vg : LVMVolumeGroup) : Prop :=
  nodeFinalizer nodeName ∈ om_Finalizers (lvg_meta vg) \/
  is_Some (default ∅ (om_Annotations (lvg_meta vg)) !! nodeAnnotation nodeName).

(** A write of the API: allowed only for a node that is gone, and only on its own objects. *)
Definition removal_write (status : LVMVolumeGroupNodeStatus) (before : list (ev kubeE)) (v : ev kubeE) : Prop :=
  let name := om_Name (ns_meta status) in
  match v with
  | @Ev _ X e _ =>
      match e with
      | DeleteObject k ns n =>
          k = KindNodeStatus /\ ns = om_Namespace (ns_meta status) /\ n = name /\ node_gone name before
      | UpdateNodeStatus status' => status' = (removeDeleteProtectionFinalizer status).1 /\ node_gone name before
      | UpdateGroup vg' =>
          node_gone name before /\
          exists vg vgs, Ev (ListVolumeGroups namespace) (Ok vgs) ∈ before /\ vg ∈ vgs /\ cleaned name vg vg'
      | UpdateCluster _ | UpdateClusterStatus _ | UpdateLogicalVolume _ | ApplyStorageClass _ _ | CreateOrUpdate _ _ _ => False
      | _ => True
      end
  end.

(** * Correctness *)

Context `{L : !ControllerUtilLaws C}.

Lemma cleanGroup_spec nodeName vg :
  cleaned nodeName vg (cleanGroup nodeName vg).1 /\
  ((cleanGroup nodeName vg).2 = false -> ~ left_behind nodeName vg).
Proof.
  unfold cleanGroup, left_behind.
  destruct (RemoveFinalizer_spec (om_Finalizers (lvg_meta vg)) (nodeFinalizer nodeName)) as (Hgone & Hchanged & Hkeep).
  destruct (RemoveFinalizer _ _) as [fs needsUpdate]. simpl in *.
  assert (Hfs : forall f, f ∈ fs <-> f ∈ om_Finalizers (lvg_meta vg) /\ f <> nodeFinalizer nodeName).
  { intros f. destruct (decide (f = nodeFinalizer nodeName)) as [->|Hf]; [naive_solver|]. rewrite Hkeep by done. naive_solver. }
  assert (Hno : needsUpdate = false -> nodeFinalizer nodeName ∉ om_Finalizers (lvg_meta vg)).
  { rewrite Hchanged. apply contains_str_false. }
  destruct (om_Annotations (lvg_meta vg)) as [annotations|] eqn:Ha; simpl.
  - case_bool_decide as Hk; simpl; (split; [split; [done|]; exists fs; eexists; split; [done|]; split; [done|]|]); rewrite ?Ha; simpl.
    + intros k. destruct (String.eqb_spec k (nodeAnnotation nodeName)) as [->|Hk'];
        [apply lookup_delete_eq|by apply lookup_delete_ne].
    + done.
    + intros k. destruct (String.eqb_spec k (nodeAnnotation nodeName)) as [->|Hk']; [|done].
      by apply eq_None_not_Some.
    + naive_solver.
  - split; [split; [done|]; exists fs; eexists; split; [done|]; split; [done|]|].
    + intros k. simpl. rewrite Ha. by destruct (String.eqb _ _).
    + intros Hn%Hno [?|[x Hx]]; [done|]. simpl in Hx. by rewrite lookup_empty in Hx.
Qed.

Lemma node_gone_mono nodeName tr tr' : tr ⊆ tr' -> node_gone nodeName tr -> node_gone nodeName tr'.
Proof. intros Hsub (err & ? & ?). exists err. auto. Qed.

(** Every listed volume group in which the node left something was written back without it. *)
Definition groups_clean (nodeName : string) (vgs : list LVMVolumeGroup) (tr : list (ev kubeE)) : Prop :=
  forall vg, vg ∈ vgs -> left_behind nodeName vg ->
    exists vg' stored, cleaned nodeName vg vg' /\ Ev (UpdateGroup vg') (Ok stored) ∈ tr.

Lemma groups_clean_app nodeName vgs vg tr tr' :
  groups_clean nodeName vgs tr -> groups_clean nodeName [vg] tr' -> groups_clean nodeName (vgs ++ [vg]) (tr ++ tr').
Proof.
  intros H1 H2 vg0 [Hin|Hin]%elem_of_app Hl.
  - destruct (H1 vg0 Hin Hl) as (vg' & st & Hc & He). exists vg', st. split; [done|set_solver].
  - destruct (H2 vg0 Hin Hl) as (vg' & st & Hc & He). exists vg', st. split; [done|set_solver].
Qed.

(** The writes of the clean-up after the calls [before]. *)
Lemma cleanupVolumeGroupsForNode_spec status before :
  node_gone (om_Name (ns_meta status)) before ->
  wp (cleanupVolumeGroupsForNode (om_Name (ns_meta status))) (fun err tr =>
    ordered (fun b => removal_write status (before ++ b)) tr /\
    (err = None -> exists vgs, Ev (ListVolumeGroups namespace) (Ok vgs) ∈ tr /\ groups_clean (om_Name (ns_meta status)) vgs tr)).
Proof.
  intros Hgone. set (name := om_Name _) in *. unfold cleanupVolumeGroupsForNode. apply wp_call. intros [vgs|err]; cbn [wp].
  2: { split; [order_steps; done|done]. }
  apply wp_bind. set (lev := Ev (ListVolumeGroups namespace) (Ok vgs)).
  eapply (wp_for_each_visited (fun visited _ tr =>
    ordered (fun b => removal_write status (before ++ lev :: b)) tr /\ groups_clean name visited tr)).
  - split; [apply ordered_nil|]. by intros vg Hin%elem_of_nil.
  - intros visited vg rest [] tr Hvgs [Hord Hclean]. unfold cleanupGroup.
    destruct (cleanGroup_spec name vg) as [Hc Hleft]. destruct (cleanGroup name vg) as [vg' needsUpdate]. simpl in *.
    assert (Hwrite : forall b, removal_write status (before ++ lev :: b) (Ev (UpdateGroup vg') (Err (EExt "")))).
    { intros b. split; [eapply node_gone_mono; [|exact Hgone]; set_solver|]. exists vg, vgs.
      split; [set_solver|]. split; [subst vgs; set_solver|done]. }
    destruct needsUpdate; simpl.
    + intros [stored|err]; simpl; rewrite ?app_nil_r.
      * split; [apply ordered_app; split; [done|]; order_steps; rewrite ?app_nil_r; apply Hwrite|].
        apply groups_clean_app; [done|]. intros vg0 ->%list_elem_of_singleton _. exists vg', stored.
        split; [done|apply list_elem_of_here].
      * split; [|done]. order_steps; [done|]. apply ordered_app. split; [done|]. order_steps. apply Hwrite.
    + split; [by rewrite app_nil_r|]. rewrite <- (app_nil_r tr). apply groups_clean_app; [by rewrite ?app_nil_r|].
      intros vg0 ->%list_elem_of_singleton Hl. by destruct (Hleft eq_refl).
  - intros [] tr [Hord Hclean]. cbn [wp loop_error]. rewrite app_nil_r. split; [by order_steps|]. intros _.
    exists vgs. split; [apply list_elem_of_here|]. intros vg Hin Hl.
    destruct (Hclean vg Hin Hl) as (vg' & st & ? & ?). exists vg', st. split; [done|set_solver].
Qed.

(** The node status the reconciliation read. *)
Definition status_read (tr : list (ev kubeE)) : option LVMVolumeGroupNodeStatus :=
  match tr with
  | @Ev _ X e x :: _ =>
      match e in kubeE X return X -> option LVMVolumeGroupNodeStatus with
      | ReadNodeStatus _ _ => fun res => match res with Ok status => Some status | Err _ => None end
      | _ => fun _ => None
      end x
  | [] => None
  end.

Definition node_answer_of (v : ev kubeE) : option (result error Node) :=
  match v with
  | @Ev _ X e x => match e in kubeE X return X -> option (result error Node) with
                   | GetNode _ => Some
                   | _ => fun _ => None
                   end x
  end.

Lemma removeNodeStatus_spec status before :
  node_gone (om_Name (ns_meta status)) before ->
  wp (removeNodeStatus status) (fun err tr =>
    ordered (fun b => removal_write status (before ++ b)) tr /\
    (err = None -> exists vgs, Ev (ListVolumeGroups namespace) (Ok vgs) ∈ tr /\ groups_clean (om_Name (ns_meta status)) vgs tr)).
Proof.
  intros Hgone. unfold removeNodeStatus.
  assert (Hmono : forall b, node_gone (om_Name (ns_meta status)) (before ++ b)).
  { intros b. eapply node_gone_mono; [|exact Hgone]. set_solver. }
  assert (Hrest : forall pre, ordered (fun b => removal_write status (before ++ b)) pre ->
    wp (guard cleanupVolumeGroupsForNode (om_Name (ns_meta status))
          catch err => Ret (Some (wrapErr ("failed to clean up VolumeGroups for Node " +:+ om_Name (ns_meta status)) err)) in
        Ret None) (fun err tr =>
      ordered (fun b => removal_write status (before ++ b)) (pre ++ tr) /\
      (err = None -> exists vgs, Ev (ListVolumeGroups namespace) (Ok vgs) ∈ pre ++ tr /\
         groups_clean (om_Name (ns_meta status)) vgs (pre ++ tr)))).
  { intros pre Hpre. apply wp_bind. eapply wp_mono; [apply (cleanupVolumeGroupsForNode_spec status (before ++ pre)), Hmono|].
    intros err tr [Hord Hclean].
    assert (ordered (fun b => removal_write status (before ++ b)) (pre ++ tr ++ [])) as Hall.
    { rewrite app_nil_r. apply ordered_app. split; [done|]. eapply ordered_mono; [exact Hord|]. simpl. intros b v _.
      by rewrite app_assoc. }
    destruct err; cbn [wp]; (split; [done|]); [done|]. intros _. destruct (Hclean eq_refl) as (vgs & Hl & Hc). exists vgs.
    rewrite app_nil_r. split; [set_solver|]. intros vg Hin Hleft. destruct (Hc vg Hin Hleft) as (vg' & st & ? & ?).
    exists vg', st. split; [done|set_solver]. }
  assert (Hdel : forall b x, removal_write status (before ++ b)
    (Ev (DeleteObject KindNodeStatus (om_Namespace (ns_meta status)) (om_Name (ns_meta status))) x)) by (by intros; split_and!).
  apply wp_call. intros [err|]; cbn [wp]; [split; [order_steps; apply Hdel|done]|].
  apply wp_bind. destruct (removeDeleteProtectionFinalizer status) as [status' removed] eqn:Hs.
  assert (Hupd : forall b x, removal_write status (before ++ b) (Ev (UpdateNodeStatus status') x)).
  { intros b x. split; [by rewrite Hs|apply Hmono]. }
  destruct removed; cbn [wp call].
  - intros [err|]; cbn [wp].
    + split; [|done]. order_steps; [apply Hdel|apply Hupd].
    + eapply wp_mono; [eapply (Hrest [_; _]); order_steps; [apply Hdel|apply Hupd]|]. intros err tr H. exact H.
  - eapply wp_mono; [eapply (Hrest [_]); order_steps; apply Hdel|]. intros err tr H. exact H.
Qed.

(** C16: a node status and what its node left in the volume groups are removed only after the
    node was seen not to exist, and of the volume groups nothing else is changed: all other
    finalizers and annotations and the specification stay. A reconciliation that reports success
    for a missing node has written back every listed volume group in which the node left
    something. *)
Theorem node_removal_safe reqNamespace reqName :
  wp (ReconcileNodeStatus reqNamespace reqName) (fun res tr =>
    match status_read tr with
    | None => length tr = 1
    | Some status =>
        ordered (removal_write status) tr /\
        (res.2 = None -> node_gone (om_Name (ns_meta status)) tr ->
           exists vgs, Ev (ListVolumeGroups namespace) (Ok vgs) ∈ tr /\ groups_clean (om_Name (ns_meta status)) vgs tr)
    end).
Proof.
  unfold ReconcileNodeStatus. apply wp_call. intros [status|err]; [|done]. cbn [wp pbind call].
  intros [node|err]; cbn [wp].
  - simpl. split; [order_steps; done|]. intros _ (err & Herr & Hin). rewrite !elem_of_cons, elem_of_nil in Hin.
    by destruct Hin as [Hin|[Hin|[]]]; apply (f_equal node_answer_of) in Hin.
  - destruct (IsNotFound err) eqn:Hnf; cbn [wp].
    + apply wp_bind.
      set (pre := [Ev (ReadNodeStatus reqNamespace reqName) (Ok status); Ev (GetNode (om_Name (ns_meta status))) (Err err)]).
      eapply wp_mono; [apply (removeNodeStatus_spec status pre)|].
      * exists err. split; [done|]. set_solver.
      * intros e tr [Hord Hclean]. cbn [wp status_read]. rewrite app_nil_r. split; [order_steps; done|].
        intros Hres _. destruct (Hclean Hres) as (vgs & Hl & Hc). exists vgs. split; [set_solver|].
        intros vg Hin Hleft. destruct (Hc vg Hin Hleft) as (vg' & st & ? & ?). exists vg', st. split; [done|set_solver].
    + simpl. split; [order_steps; done|]. done.
Qed.
End NodeRemoval.

Module RemovalDemo.
#[local] Existing Instance listed_order_runtime.
#[local] Existing Instance demo_K8s.
#[local] Existing Instance demo_controller_util_laws.

(** An API server without nodes: the node status, if it still exists, the one volume group and
    how many lists fail before one succeeds. *)
Record Server := mkServer { srv_status : option LVMVolumeGroupNodeStatus; srv_group : LVMVolumeGroup; srv_failures : nat }.

Definition not_found : error := EApi StatusReasonNotFound "".
Definition unavailable : error := EExt "the server is currently unable to handle the request".

Definition serve (X : Type) (e : kubeE X) (s : Server) : X * Server :=
  match e in kubeE X return X * Server with
  | ReadNodeStatus _ _ => (match srv_status s with Some status => Ok status | None => Err not_found end, s)
  | GetNode _ => (Err not_found, s)
  | DeleteObject KindNodeStatus _ _ => (None, s)
  | DeleteObject _ _ _ => (Some unavailable, s)
  | UpdateNodeStatus status =>
      (None, mkServer (match om_Finalizers (ns_meta status) with [] => None | _ => Some status end) (srv_group s) (srv_failures s))
  | ListVolumeGroups _ =>
      match srv_failures s with
      | O => (Ok [srv_group s], s)
      | S n => (Err unavailable, mkServer (srv_status s) (srv_group s) n)
      end
  | UpdateGroup vg => (Ok vg, mkServer (srv_status s) vg (srv_failures s))
  | ListClusters _ | GetPodContainers _ _ | ListNodes | ListStorageClasses | ListPods _ _ | ListNodeStatuses _
  | ListLogicalVolumes | ListPVCs _ | ListPVs _ => (Ok [], s)
  | GetCluster _ _ | UpdateCluster _ | GetCSINode _ | GetMeta _ _ _ | CreateOrUpdate _ _ _ => (Err unavailable, s)
  | UpdateClusterStatus _ | ApplyStorageClass _ _ | UpdateLogicalVolume _ => (Some unavailable, s)
  end.

Definition meta (name : string) (annotations : option (gmap string string)) (finalizers : list string) : ObjectMeta :=
  mkObjectMeta name "openshift-lvm-storage" "uid" ∅ annotations finalizers [] None.
Definition group (finalizers : list string) : LVMVolumeGroup :=
  mkLVMVolumeGroup (meta "vg1" None finalizers) (mkLVMVolumeGroupSpec None None None None true None).
Definition initially (failures : nat) : Server :=
  mkServer (Some (mkLVMVolumeGroupNodeStatus (meta "n1" None [DeleteProtectionFinalizer]) []))
    (group [nodeFinalizer "n1"; nodeFinalizer "n2"]) failures.

Definition reconcileN1 : prog kubeE (Result * option error) := ReconcileNodeStatus "openshift-lvm-storage" "openshift-lvm-storage" "n1".

Definition demo_run : Result * option error * Server * list (ev kubeE) := run serve reconcileN1 (initially 0).

Lemma node_removal_safe_witness :
  om_Finalizers (lvg_meta (srv_group (snd (fst demo_run)))) = [nodeFinalizer "n2"] /\
  exists vgs, Ev (ListVolumeGroups "openshift-lvm-storage") (Ok vgs) ∈ snd demo_run /\ groups_clean "n1" vgs (snd demo_run).
Proof.
  split; [vm_compute; reflexivity|].
  pose proof (wp_run serve reconcileN1 (initially 0) _ (node_removal_safe "openshift-lvm-storage" "openshift-lvm-storage" "n1")) as H.
  assert (Hs : status_read (snd (run serve reconcileN1 (initially 0))) = srv_status (initially 0)) by (vm_compute; reflexivity).
  cbv beta in H. rewrite Hs in H. destruct H as [_ H]. apply H; [vm_compute; reflexivity|].
  exists not_found. split; [reflexivity|]. apply list_elem_of_lookup_2 with 1. vm_compute. reflexivity.
Defined.

(** When the clean-up of the volume groups fails after the node status has been released, it is
    never repeated: the next reconciliation finds no node status, reports success and leaves the
    finalizer of the missing node in the volume group. *)
Theorem node_cleanup_lost :
  let '(first, s1, _) := run serve reconcileN1 (initially 1) in
  let '(second, s2, _) := run serve reconcileN1 s1 in
  is_Some first.2 /\ second.2 = None /\ srv_status s2 = None /\
  om_Finalizers (lvg_meta (srv_group s2)) = [nodeFinalizer "n1"; nodeFinalizer "n2"].
Proof.
  rewrite (surjective_pairing (run serve reconcileN1 (initially 1))), (surjective_pairing (fst (run serve reconcileN1 (initially 1)))).
  set (s1 := snd (fst (run serve reconcileN1 (initially 1)))).
  rewrite (surjective_pairing (run serve reconcileN1 s1)), (surjective_pairing (fst (run serve reconcileN1 s1))).
  split; [apply (bool_decide_unpack _); vm_compute; exact I|]. split; [vm_compute; reflexivity|].
  split; vm_compute; reflexivity.
Qed.
End RemovalDemo.
