(* ===== verification/StartLock.v ===== *)
(** The start lock of vgmanager (internal/controllers/vgmanager/util/startlock.go) and its use in
    cmd/vgmanager/vgmanager.go: a vgmanager process runs its manager only while it holds a lock
    on a file of the node, and waits for it as long as an older process holds it.

    WaitForLock is a loop without a bound; [WaitForLock fuel] makes at most [fuel] attempts and
    answers [None] when all of them were refused. The theorems hold for every [fuel], and
    [WaitForLock_live] shows that [fuel] does not matter once the loop has ended. *)

From stdpp Require Import relations.
From S2P Require Import Prelude GoStd Effects VgManagerDaemon.

(** * Operations *)

Inductive FlockOp := LOCK_EX_NB | LOCK_UN.

(** The system calls of the lock, the cancellation of the context and the manager itself. *)
Inductive lockE : Type -> Type :=
| Mkdir (dir : string) : lockE (option error)
| OpenFile (name : string) : lockE (option error)
| CtxErr : lockE (option error)
| Flock (op : FlockOp) : lockE (option error)
| Sleep (seconds : Z) : lockE unit
| CloseFile : lockE (option error)
| RunManager : lockE (option error).

(** [os.IsExist(err)] *)
Definition os_IsExist (err : error) : bool := match err with ENew id _ => String.eqb id "EEXIST" | _ => false end.

Definition NewFileLock (name : string) : prog lockE (option error) :=
  err <- call (Mkdir FileLockDir);;
  match err with
  | Some err =>
      if negb (os_IsExist err) then Ret (Some err) else call (OpenFile (FileLockDir +:+ "/" +:+ name +:+ ".lock"))
  | None => call (OpenFile (FileLockDir +:+ "/" +:+ name +:+ ".lock"))
  end.

Definition TryLock : prog lockE (option error) := call (Flock LOCK_EX_NB).
Definition Unlock : prog lockE (option error) := call (Flock LOCK_UN).
Definition Close : prog lockE (option error) :=
  guard call (Flock LOCK_UN) catch err => Ret (Some err) in call CloseFile.

(** One round of the loop; [None] goes on to the next. *)
Definition attempt : prog lockE (option (option error)) :=
  cancelled <- call CtxErr;;
  match cancelled with
  | Some err => Ret (Some (Some err))
  | None =>
      err <- TryLock;;
      match err with
      | None => Ret (Some None)
      | Some err =>
          if negb (errors_Is err "EAGAIN") then
            Ret (Some (Some (wrapErr "could not wait for lock because it was already locked by another process" err)))
          else call (Sleep 3);; Ret None
      end
  end.

Fixpoint WaitForLock (fuel : nat) : prog lockE (option (option error)) :=
  match fuel with
  | O => Ret None
  | S fuel =>
      r <- attempt;;
      match r with
      | Some res => Ret (Some res)
      | None => WaitForLock fuel
      end
  end.

(** [None]: the process is still waiting. *)
Definition runWithFileLock (fuel : nat) : prog lockE (option (option error)) :=
  guard NewFileLock "vgmanager" catch err => Ret (Some (Some (wrapErr "unable to create lock" err))) in
  locked <- WaitForLock fuel;;
  match locked with
  | None => Ret None
  | Some (Some err) => Close;; Ret (Some (Some (wrapErr "unable to acquire lock" err)))
  | Some None => err <- call RunManager;; Close;; Ret (Some err)
  end.

(** * Processes on a node *)

(** The lock file every process of a node has open, and the process that has locked each file. *)
Record Kernel := mkKernel { opened : gmap nat string; locked : gmap string nat }.

Definition kernel0 : Kernel := mkKernel ∅ ∅.

(** The locks without those of a process. *)
Definition unlocked (pid : nat) (f : string) (l : gmap string nat) : gmap string nat :=
  if bool_decide (l !! f = Some pid) then delete f l else l.
Definition forget (pid : nat) (k : Kernel) : Kernel :=
  mkKernel (delete pid (opened k)) (filter (fun x => x.2 <> pid) (locked k)).

(** flock(2): the lock of a file is granted when no other process holds it, and may be refused for
    any reason; it is released by LOCK_UN and when the file is closed. [kernel pid e k x k']: to
    the call [e] of [pid] the kernel answers [x]. *)
Definition kernel (pid : nat) {X} (e : lockE X) (k : Kernel) : X -> Kernel -> Prop :=
  match e in lockE X return X -> Kernel -> Prop with
  | OpenFile name => fun err k' =>
      match err with
      | None => k' = mkKernel (<[pid := name]> (opened k)) (locked k)
      | Some _ => k' = k
      end
  | Flock op => fun err k' =>
      match opened k !! pid, err with
      | Some f, None =>
          match op with
          | LOCK_EX_NB => (locked k !! f = None \/ locked k !! f = Some pid) /\ k' = mkKernel (opened k) (<[f := pid]> (locked k))
          | LOCK_UN => k' = mkKernel (opened k) (unlocked pid f (locked k))
          end
      | None, None => False
      | _, Some _ => k' = k
      end
  | CloseFile => fun _ k' =>
      match opened k !! pid with
      | Some f => k' = mkKernel (delete pid (opened k)) (unlocked pid f (locked k))
      | None => k' = k
      end
  | Mkdir _ | CtxErr | Sleep _ | RunManager => fun _ k' => k' = k
  end.

(** The kernel, and what every process still has to do. *)
Definition System : Type := Kernel * gmap nat (prog lockE (option (option error))).

(** A process starts, a process makes its next call, or a process ends: it returned, exited or
    was killed, and the kernel closes its files. *)
Inductive system_step : System -> System -> Prop :=
| step_start pid fuel k ps :
    ps !! pid = None -> system_step (k, ps) (k, <[pid := runWithFileLock fuel]> ps)
| step_call pid X (e : lockE X) cont x k k' ps :
    ps !! pid = Some (Vis e cont) -> kernel pid e k x k' ->
    system_step (k, ps) (k', <[pid := cont x]> ps)
| step_end pid k ps :
    is_Some (ps !! pid) -> system_step (k, ps) (forget pid k, delete pid ps).

Definition reachable (s : System) : Prop := rtc system_step (kernel0, ∅) s.

(** * Holding the lock *)

(** What a process knows: the file it has open, and whether it has locked it. *)
Definition Knows : Type := option string * bool.

Definition knows_after {X} (e : lockE X) (st : Knows) : X -> Knows :=
  match e in lockE X return X -> Knows with
  | OpenFile name => fun err => match err with None => (Some name, false) | Some _ => st end
  | Flock LOCK_EX_NB => fun err => match err with None => (st.1, true) | Some _ => st end
  | Flock LOCK_UN => fun err => match err with None => (st.1, false) | Some _ => st end
  | CloseFile => fun _ => (None, false)
  | _ => fun _ => st
  end.

Definition runs_manager {X} (e : lockE X) : bool := match e with RunManager => true | _ => false end.

(** The file vgmanager locks. *)
Definition lockFile := "/var/lock/vgmanager/vgmanager.lock".

(** [disciplined st p Q]: started knowing [st], [p] runs the manager only while it has locked the
    lock file, and ends with [Q]. *)
Fixpoint disciplined {A} (st : Knows) (p : prog lockE A) (Q : Knows -> A -> Prop) : Prop :=
  match p with
  | Ret a => Q st a
  | Vis e k => (runs_manager e = true -> st = (Some lockFile, true)) /\ forall x, disciplined (knows_after e st x) (k x) Q
  end.

Lemma disciplined_bind {A B} st (p : prog lockE A) (f : A -> prog lockE B) Q :
  disciplined st p (fun st a => disciplined st (f a) Q) -> disciplined st (pbind p f) Q.
Proof. revert st. induction p as [a|X e k IH]; intros st; simpl; [done|]. intros [He Hk]. split; [done|]. auto. Qed.

Lemma disciplined_mono {A} st (p : prog lockE A) (Q Q' : Knows -> A -> Prop) :
  disciplined st p Q -> (forall st a, Q st a -> Q' st a) -> disciplined st p Q'.
Proof. revert st. induction p as [a|X e k IH]; intros st; simpl; [auto|]. intros [He Hk] HQ. split; [done|]. eauto. Qed.

Lemma attempt_disciplined st :
  disciplined st attempt (fun st' r => st'.1 = st.1 /\ (r = Some None -> st'.2 = true)).
Proof.
  split; [done|]. intros [err|]; simpl; [done|]. split; [done|]. intros [err|]; simpl; [|done].
  destruct (errors_Is err "EAGAIN"); simpl; [|done]. split; [done|]. by intros [].
Qed.

Lemma WaitForLock_disciplined fuel st :
  disciplined st (WaitForLock fuel) (fun st' r => st'.1 = st.1 /\ (r = Some None -> st'.2 = true)).
Proof.
  revert st. induction fuel as [|fuel IH]; intros st; [done|]. cbn [WaitForLock]. apply disciplined_bind.
  eapply disciplined_mono; [apply attempt_disciplined|]. intros st' [res|] [Hf H]; [done|].
  eapply disciplined_mono; [apply IH|]. intros st'' r [Hf' H']. by rewrite Hf', Hf.
Qed.

Lemma NewFileLock_disciplined st :
  disciplined st (NewFileLock "vgmanager") (fun st' err => err = None -> st'.1 = Some lockFile).
Proof.
  assert (Hopen : forall st, disciplined st (call (OpenFile lockFile)) (fun st' err => err = None -> st'.1 = Some lockFile))
    by (intros st'; split; [done|]; by intros [err|]).
  unfold NewFileLock. apply disciplined_bind. split; [done|]. intros [err|]; cbn [disciplined]; [|apply Hopen].
  destruct (os_IsExist err); [apply Hopen|done].
Qed.

Lemma runWithFileLock_disciplined fuel st : disciplined st (runWithFileLock fuel) (fun _ _ => True).
Proof.
  unfold runWithFileLock. apply disciplined_bind.
  eapply disciplined_mono; [apply NewFileLock_disciplined|].
  intros st' [err|] Hf; [done|]. specialize (Hf eq_refl). apply disciplined_bind.
  eapply disciplined_mono; [apply WaitForLock_disciplined|]. intros [f held] [[err|]|] [Hst Hheld]; simpl in *; [| |done].
  - split; [done|]. intros [err'|]; simpl; [done|]. by repeat split.
  - split; [intros _; by rewrite Hst, Hf, Hheld|]. intros err. split; [done|]. intros [err'|]; simpl; [done|]. by repeat split.
Qed.

(** * Mutual exclusion *)

(** What a process knows is so. *)
Definition sound (pid : nat) (k : Kernel) (st : Knows) : Prop :=
  st.1 = opened k !! pid /\ (st.2 = true -> exists f, st.1 = Some f /\ locked k !! f = Some pid).

(** Every process goes on as it may, given what it knows. *)
Definition lock_invariant (s : System) : Prop :=
  forall pid p, s.2 !! pid = Some p -> exists st, sound pid s.1 st /\ disciplined st p (fun _ _ => True).

Lemma kernel_self pid X (e : lockE X) k x k' st :
  sound pid k st -> kernel pid e k x k' -> sound pid k' (knows_after e st x).
Proof.
  intros [Hf Hheld]. destruct st as [f held]; simpl in *. subst f. destruct e as [dir|name| |op|sec| |]; simpl; try (by intros ->).
  - destruct x; intros ->; [done|]. split; [by simpl; rewrite lookup_insert_eq|done].
  - assert (Hsame : k' = k -> sound pid k' (opened k !! pid, held)) by (by intros ->).
    destruct (opened k !! pid) as [f|] eqn:Ho, x as [err|]; try done; try (by destruct op).
    destruct op; [intros [_ ->]|intros ->]; (split; [by simpl; rewrite Ho|]); simpl; [|done].
    intros _. exists f. split; [done|apply lookup_insert_eq].
  - destruct (opened k !! pid) as [f|] eqn:Ho; intros ->; (split; [|done]); simpl; [by rewrite lookup_delete_eq|by rewrite Ho].
Qed.

Lemma unlocked_other pid pid' f g l : pid' <> pid -> l !! g = Some pid' -> unlocked pid f l !! g = Some pid'.
Proof.
  intros Hne Hl. unfold unlocked. case_bool_decide as Hf; [|done]. rewrite lookup_delete_ne; [done|]. intros ->. congruence.
Qed.

Lemma kernel_other pid pid' X (e : lockE X) k x k' st :
  pid' <> pid -> sound pid' k st -> kernel pid e k x k' -> sound pid' k' st.
Proof.
  intros Hne [Hf Hheld]. destruct e as [dir|name| |op|sec| |]; simpl; try (by intros ->).
  - destruct x; intros ->; [done|]. split; [by simpl; rewrite lookup_insert_ne|done].
  - destruct (opened k !! pid) as [f|], x as [err|]; try done; try (by intros ->).
    destruct op; [intros [Hfree ->]|intros ->]; (split; [done|]); intros (g & Hg & Hl)%Hheld; exists g; (split; [done|]); simpl.
    + rewrite lookup_insert_ne; [done|]. intros ->. destruct Hfree; congruence.
    + by apply unlocked_other.
  - destruct (opened k !! pid) as [f|]; intros ->; [|done]. split; [by simpl; rewrite lookup_delete_ne|].
    intros (g & Hg & Hl)%Hheld. exists g. split; [done|]. by apply unlocked_other.
Qed.

Lemma forget_other pid pid' k st : pid' <> pid -> sound pid' k st -> sound pid' (forget pid k) st.
Proof.
  intros Hne [Hf Hheld]. split; [by simpl; rewrite lookup_delete_ne|]. intros (g & Hg & Hl)%Hheld. exists g. split; [done|].
  simpl. by apply map_lookup_filter_Some.
Qed.

Lemma lock_invariant_step s s' : lock_invariant s -> system_step s s' -> lock_invariant s'.
Proof.
  intros Hinv Hstep pid' p. destruct Hstep as [pid fuel k ps Hnew|pid X e cont x k k' ps Hp Hk|pid k ps Hp]; simpl.
  - rewrite lookup_insert_Some. intros [[-> <-]|[Hne Hp]]; [|by apply (Hinv pid' p Hp)].
    exists (opened k !! pid', false). split; [by split|]. apply runWithFileLock_disciplined.
  - rewrite lookup_insert_Some. intros [[-> <-]|[Hne Hp']].
    + destruct (Hinv pid' _ Hp) as (st & Hs & _ & Hd). exists (knows_after e st x). split; [by eapply kernel_self|apply Hd].
    + destruct (Hinv pid' p Hp') as (st & Hs & Hd). exists st. split; [by eapply kernel_other|done].
  - rewrite lookup_delete_Some. intros [Hne Hp']. destruct (Hinv pid' p Hp') as (st & Hs & Hd).
    exists st. split; [by apply forget_other|done].
Qed.

Lemma reachable_invariant s : reachable s -> lock_invariant s.
Proof.
  intros H. apply (rtc_ind_r (fun s => lock_invariant s) (kernel0, ∅)) in H; [done| |].
  - intros pid p. simpl. by rewrite lookup_empty.
  - intros s1 s2 _ Hstep Hinv. by eapply lock_invariant_step.
Qed.

(** A process that is about to run its manager has locked the lock file. *)
Lemma manager_locked k ps p cont :
  reachable (k, ps) -> ps !! p = Some (Vis RunManager cont) -> locked k !! lockFile = Some p.
Proof.
  intros Hinv%reachable_invariant Hp. destruct (Hinv p _ Hp) as (st & [_ Hheld] & Hst & _). rewrite (Hst eq_refl) in Hheld.
  destruct (Hheld eq_refl) as (f & [= <-] & Hl). exact Hl.
Qed.

(** C13: however many vgmanager processes are started on a node, wait, fail, exit or are killed,
    and however their system calls are interleaved, at most one of them runs its manager, and
    this one holds the lock of the lock file. *)
Theorem manager_exclusive k ps p q k1 k2 :
  reachable (k, ps) -> ps !! p = Some (Vis RunManager k1) -> ps !! q = Some (Vis RunManager k2) ->
  p = q /\ locked k !! lockFile = Some p.
Proof.
  intros Hr Hp Hq. pose proof (manager_locked k ps p k1 Hr Hp) as Hlp. pose proof (manager_locked k ps q k2 Hr Hq) as Hlq.
  split; [congruence|done].
Qed.

(** * Waiting *)

(** The answers to the attempts to lock. *)
Definition attempt_of (v : ev lockE) : option (option error) :=
  match v with
  | @Ev _ X e x => match e in lockE X return X -> option (option error) with
                   | Flock LOCK_EX_NB => Some
                   | _ => fun _ => None
                   end x
  end.

Definition refused (answer : option error) : Prop := exists err, answer = Some err /\ errors_Is err "EAGAIN" = true.

Lemma attempt_spec : wp attempt (fun r tr =>
  match r with
  | None => exists answer, omap attempt_of tr = [answer] /\ refused answer
  | Some None => omap attempt_of tr = [None]
  | Some (Some err) =>
      omap attempt_of tr = [] /\ Ev CtxErr (Some err) ∈ tr \/
      exists err', omap attempt_of tr = [Some err'] /\ ~ refused (Some err')
  end).
Proof.
  unfold attempt, TryLock. apply wp_call. intros [err|]; cbn [wp]; [left; split; [done|apply list_elem_of_here]|].
  apply wp_call. intros [err|]; cbn [wp]; [|done]. destruct (errors_Is err "EAGAIN") eqn:He; simpl.
  - intros []. exists (Some err). split; [done|]. by exists err.
  - right. exists err. split; [done|]. intros (err' & [= <-] & He'). congruence.
Qed.

(** The outcome of waiting in terms of the answers of the kernel. *)
Lemma WaitForLock_spec fuel : wp (WaitForLock fuel) (fun r tr =>
  match r with
  | None => length (omap attempt_of tr) = fuel /\ Forall refused (omap attempt_of tr)
  | Some None => exists answers, omap attempt_of tr = answers ++ [None] /\ Forall refused answers
  | Some (Some err) =>
      Forall refused (omap attempt_of tr) /\ Ev CtxErr (Some err) ∈ tr \/
      exists answers err', omap attempt_of tr = answers ++ [Some err'] /\ Forall refused answers /\ ~ refused (Some err')
  end).
Proof.
  induction fuel as [|fuel IH]; [done|]. cbn [WaitForLock]. apply wp_bind. eapply wp_mono; [apply attempt_spec|].
  intros [[err|]|] tr H; cbn [wp]; rewrite ?app_nil_r.
  - destruct H as [[-> Hc]|(err' & -> & Hr)]; [by left|right]. by exists [], err'.
  - by exists [].
  - destruct H as (answer & Ha & Hr). eapply wp_mono; [exact IH|]. intros [[err|]|] tr' H; rewrite omap_app, Ha; simpl.
    + destruct H as [[H Hc]|(answers & err' & -> & H & Hn)].
      * left. split; [by constructor|set_solver].
      * right. exists (answer :: answers), err'. split; [done|]. split; [by constructor|done].
    + destruct H as (answers & -> & H). exists (answer :: answers). split; [done|by constructor].
    + destruct H as [Hl H]. split; [by rewrite Hl|by constructor].
Qed.

Lemma WaitForLock_fuel {St} (h : forall X, lockE X -> St -> X * St) n m s res s' tr :
  n <= m -> run h (WaitForLock n) s = (Some res, s', tr) -> run h (WaitForLock m) s = (Some res, s', tr).
Proof.
  revert m s res s' tr. induction n as [|n IH]; intros m s res s' tr Hle; [done|]. destruct m as [|m]; [lia|].
  cbn [WaitForLock]. rewrite !run_bind. destruct (run h attempt s) as [[r s1] tr1]. destruct r as [res'|]; [done|].
  destruct (run h (WaitForLock n) s1) as [[r s2] tr2] eqn:Hrun. intros [= -> -> <-].
  by rewrite (IH m s1 res s' tr2) by (done || lia).
Qed.

(** C34: the wait for the lock ends as soon as the kernel does not refuse an attempt because the
    file is locked, or the context is cancelled: if this happens within [n] rounds the loop
    returns, with the same result for every larger bound, and it returns without an error
    exactly if the lock was granted. *)
Theorem WaitForLock_live {St} (h : forall X, lockE X -> St -> X * St) (s : St) (n : nat) :
  let answers := omap attempt_of (run h (WaitForLock n) s).2 in
  ~ (length answers = n /\ Forall refused answers) ->
  exists res, (forall m, n <= m -> (run h (WaitForLock m) s).1.1 = Some res) /\ (res = None <-> None ∈ answers).
Proof.
  intros answers Hn. pose proof (wp_run h (WaitForLock n) s _ (WaitForLock_spec n)) as Hspec. cbv beta in Hspec.
  fold answers in Hspec. destruct (run h (WaitForLock n) s) as [[r s'] tr] eqn:Hrun. simpl in *.
  destruct r as [res|]; [|done]. exists res. split.
  - intros m Hm. by rewrite (WaitForLock_fuel h n m s res s' tr Hm Hrun).
  - assert (Hrefused : forall l, Forall refused l -> None ∉ l).
    { intros l Hl Hin. rewrite Forall_forall in Hl. by destruct (Hl None Hin) as (? & ? & _). }
    destruct res as [err|]; (split; [|]); try done.
    + intros Hin. destruct Hspec as [[H _]|(l & err' & Heq & H & _)]; [by destruct (Hrefused _ H)|].
      rewrite Heq, elem_of_app, list_elem_of_singleton in Hin. destruct Hin as [Hin|]; [by destruct (Hrefused _ H)|done].
    + intros _. destruct Hspec as (l & -> & _). set_solver.
Qed.

Module LockDemo.
(** A kernel on which another process keeps the lock for some attempts. *)
Definition busy (X : Type) (e : lockE X) (attempts : nat) : X * nat :=
  match e in lockE X return X * nat with
  | Flock LOCK_EX_NB =>
      match attempts with
      | O => (None, O)
      | S n => (Some (ENew "EAGAIN" "resource temporarily unavailable"), n)
      end
  | Sleep _ => (tt, attempts)
  | Mkdir _ | OpenFile _ | CtxErr | Flock LOCK_UN | CloseFile | RunManager => (None, attempts)
  end.

Lemma WaitForLock_live_witness :
  exists res, (forall m, 3 <= m -> (run busy (WaitForLock m) 2).1.1 = Some res) /\
    (res = None <-> None ∈ omap attempt_of (run busy (WaitForLock 3) 2).2).
Proof.
  apply (WaitForLock_live busy 2 3). intros [_ H]. vm_compute in H. apply Forall_cons in H as [_ H].
  apply Forall_cons in H as [_ H]. apply Forall_cons in H as [H _]. by destruct H as (err & Herr & _).
Defined.

(** Process 1 has the lock and runs. *)
Definition running (pid : nat) : System :=
  (mkKernel (<[pid := lockFile]> ∅) (<[lockFile := pid]> ∅), <[pid := Vis RunManager (fun err => Close;; Ret (Some err))]> ∅).

Lemma reachable_running : reachable (running 1).
Proof.
  unfold reachable.
  eapply rtc_l; [apply (step_start 1 1); apply lookup_empty|].
  eapply rtc_l; [eapply (step_call 1 _ (Mkdir FileLockDir) _ None); [apply lookup_insert_eq|reflexivity]|].
  rewrite insert_insert_eq.
  eapply rtc_l; [eapply (step_call 1 _ (OpenFile _) _ None); [apply lookup_insert_eq|reflexivity]|].
  rewrite insert_insert_eq.
  eapply rtc_l; [eapply (step_call 1 _ CtxErr _ None); [apply lookup_insert_eq|reflexivity]|].
  rewrite insert_insert_eq.
  eapply rtc_l; [eapply (step_call 1 _ (Flock LOCK_EX_NB) _ None); [apply lookup_insert_eq|split; [by left|reflexivity]]|].
  rewrite insert_insert_eq. apply rtc_refl.
Qed.

Lemma manager_exclusive_witness : 1 = 1 /\ locked (running 1).1 !! lockFile = Some 1.
Proof.
  exact (manager_exclusive (running 1).1 (running 1).2 1 1 _ _ reachable_running
           (lookup_insert_eq _ _ _) (lookup_insert_eq _ _ _)).
Defined.
End LockDemo.
