(* ===== verification/Migration.v ===== *)
(** The migrations the operator runs when it starts: internal/migration/microlvms/cleanup.go
    deletes the components of older versions, internal/migration/wipe-refactor/annotate.go marks
    volume groups whose devices an older version has wiped. *)

From S2P Require Import Prelude GoStd Effects Api K8sDemo VgEnv Wipe Objects ClusterEnv Resources.

(** * microlvms/cleanup.go *)

Definition TopoLVMLegacyControllerName := "topolvm-controller".
Definition TopoLVMLegacyNodeDaemonSetName := "topolvm-node".
(** cluster.LeaseName *)
Definition LeaseName := "1136b8a6.topolvm.io".

Inductive LegacyKind := LegacyDeployment | LegacyDaemonSet | LegacyLease.
Record LegacyObject := mkLegacyObject { lo_Kind : LegacyKind; lo_Name : string; lo_Namespace : string }.

(** client.Delete with a grace period in seconds. *)
Inductive cleanupE : Type -> Type :=
| DeleteWithin (gracePeriodSeconds : Z) (obj : LegacyObject) : cleanupE (option error).

Section Cleanup.
Variable namespace : string.

Definition deleteImmediatelyIfExists (obj : LegacyObject) : prog cleanupE (option error) :=
  guard call (DeleteWithin 0 obj)
    catch err => Ret (if IsNotFound err then None else Some (wrapErr "cleanup delete failed" err)) in
  Ret None.

Definition legacyObjects : list LegacyObject :=
  [mkLegacyObject LegacyDeployment TopoLVMLegacyControllerName namespace;
   mkLegacyObject LegacyDaemonSet TopoLVMLegacyNodeDaemonSetName namespace;
   mkLegacyObject LegacyLease LeaseName namespace].

(** The end of RemovePreMicroLVMSComponents, given what was received from the channel. *)
Definition joinResults (arrivals : list (option error)) : option error :=
  let errs := omap id arrivals in
  if (0 <? length errs)%nat then Some (wrapErr "failed to run pre 4.16 MicroLVMS cleanup" (errors_Join errs)) else None.

(** A run of RemovePreMicroLVMSComponents: one goroutine per object. *)
Definition RemovePreMicroLVMSComponents (tr : list (ev cleanupE)) (res : option error) : Prop :=
  exists arrivals, parallel (map deleteImmediatelyIfExists legacyObjects) tr arrivals /\ res = joinResults arrivals.

(** What was deleted, and with which answer. *)
Definition deleted_of (v : ev cleanupE) : LegacyObject * option error :=
  match v with
  | @Ev _ X e x => match e in cleanupE X return X -> LegacyObject * option error with
                   | DeleteWithin _ obj => fun err => (obj, err)
                   end x
  end.

(** The object is gone: it was deleted or did not exist. *)
Definition gone_answer (answer : option error) : Prop := match answer with None => True | Some err => IsNotFound err = true end.

Lemma deleteImmediatelyIfExists_runs obj tr a :
  runs (deleteImmediatelyIfExists obj) tr a ->
  exists answer, tr = [Ev (DeleteWithin 0 obj) answer] /\ (a = None <-> gone_answer answer).
Proof.
  apply (wp_runs _ (fun a tr => exists answer, tr = [Ev (DeleteWithin 0 obj) answer] /\ (a = None <-> gone_answer answer))).
  unfold deleteImmediatelyIfExists. apply wp_call. intros [err|]; cbn [wp].
  - exists (Some err). split; [done|]. simpl. by destruct (IsNotFound err).
  - by exists None.
Qed.

Lemma joinResults_None arrivals : joinResults arrivals = None <-> Forall (eq None) arrivals.
Proof.
  unfold joinResults. induction arrivals as [|[err|] arrivals IH]; simpl; [split; [constructor|done]| |].
  - split; [done|]. by intros [? _]%Forall_cons.
  - rewrite IH, Forall_cons. naive_solver.
Qed.

(** In whatever order the goroutines run, the start-up clean-up deletes exactly the three
    components of older versions, each once, and it reports success exactly if each of them was
    deleted or did not exist. *)
Theorem RemovePreMicroLVMSComponents_correct tr res :
  RemovePreMicroLVMSComponents tr res ->
  Permutation (map (fun v => (deleted_of v).1) tr) legacyObjects /\
  (res = None <-> Forall (fun v => gone_answer (deleted_of v).2) tr).
Proof.
  intros (arrivals & (rs & Hrs & Hint & Harr) & ->).
  enough (H : Permutation (map (fun v => (deleted_of v).1) (concat (map fst rs))) legacyObjects /\
    (Forall (eq None) (map snd rs) <-> Forall (fun v => gone_answer (deleted_of v).2) (concat (map fst rs)))).
  { rewrite joinResults_None, Harr, (interleaved_perm _ _ Hint). exact H. }
  clear Hint Harr. revert Hrs. generalize legacyObjects as objs. induction rs as [|[tr1 a] rs IH]; intros objs Hrs.
  - apply Forall2_nil_inv_r in Hrs. destruct objs; [done|discriminate].
  - apply Forall2_cons_inv_r in Hrs as (p & ps & Hr & Hrs & Heq). destruct objs as [|obj objs]; simplify_eq/=.
    destruct (deleteImmediatelyIfExists_runs _ _ _ Hr) as (answer & -> & Ha). destruct (IH objs Hrs) as [IH1 IH2].
    simpl. split; [by constructor|]. rewrite !Forall_cons, IH2. simpl. rewrite <- Ha. naive_solver.
Qed.
End Cleanup.

(** * wipe-refactor/annotate.go *)

(** The Kubernetes client and the clock, as RFC 3339 text. *)
Inductive migrationE `{K : K8s} : Type -> Type :=
| MKube X (e : kubeE X) : migrationE X
| MNow : migrationE string.

Section Annotate.
Context `{K : K8s}.
Variable namespace : string.

Definition wantsWipe (vg : LVMVolumeGroup) : bool :=
  match vgs_DeviceSelector (lvg_Spec vg) with
  | None => false
  | Some sel => default false (ds_ForceWipeDevicesAndDestroyAllData sel)
  end.

Definition markNode (nodeName now : string) (vg : LVMVolumeGroup) : LVMVolumeGroup :=
  with_vg_meta vg (with_annotations (lvg_meta vg)
    (Some (<[DevicesWipedAnnotationPrefix +:+ nodeName := wipedMarker now]> (default ∅ (om_Annotations (lvg_meta vg)))))).

(** The state of the loops is the volume group and [updated]. *)
Definition annotateEntry (nodeName : string) (vgStatus : VGStatus) (state : LVMVolumeGroup * bool)
  : prog migrationE (LVMVolumeGroup * bool) :=
  let '(vg, updated) := state in
  if String.eqb (vs_Name vgStatus) (lvg_Name vg) then
    if negb (wantsWipe vg) then Ret (vg, updated)
    else
      now <- call MNow;;
      Ret (markNode nodeName now vg, true)
  else Ret (vg, updated).

Definition annotateNode (nodeStatus : LVMVolumeGroupNodeStatus) (state : LVMVolumeGroup * bool)
  : prog migrationE (LVMVolumeGroup * bool) :=
  fold_prog (annotateEntry (om_Name (ns_meta nodeStatus))) (ns_LVMVGStatus nodeStatus) state.

Definition annotateGroup (items : list LVMVolumeGroupNodeStatus) (vg : LVMVolumeGroup) (_ : unit) : prog migrationE (unit + error) :=
  ' (vg, updated) <- fold_prog annotateNode items (vg, false);;
  if negb updated then Ret (inl tt)
  else
    try _ := call (MKube _ (UpdateGroup vg))
      catch err => Ret (inr (wrapErr "failed to add wiped annotation to LVMVolumeGroup instance" err)) in
    Ret (inl tt).

Definition AnnotateExistingLVMVolumeGroupsIfWipingEnabled : prog migrationE (option error) :=
  try nodeStatuses := call (MKube _ (ListNodeStatuses namespace))
    catch err => Ret (Some (wrapErr "failed to list LVMVolumeGroupNodeStatus instances" err)) in
  if (length nodeStatuses <? 1)%nat then Ret None
  else
    try volumeGroups := call (MKube _ (ListVolumeGroups namespace))
      catch err => Ret (Some (wrapErr "failed to list LVMVolumeGroup instances" err)) in
    if (length volumeGroups <? 1)%nat then Ret None
    else
      res <- for_each (annotateGroup nodeStatuses) volumeGroups tt;;
      Ret (loop_error res).

(** ** What is annotated *)

(** A node reports the volume group, in whatever state. *)
Definition reports (items : list LVMVolumeGroupNodeStatus) (vg : LVMVolumeGroup) (nodeName : string) : Prop :=
  exists s e, s ∈ items /\ om_Name (ns_meta s) = nodeName /\ e ∈ ns_LVMVGStatus s /\ vs_Name e = lvg_Name vg.

(** [vg'] is [vg] with the marks of the nodes in [nodes], and nothing else changed. *)
Record annotated (vg : LVMVolumeGroup) (nodes : string -> Prop) (vg' : LVMVolumeGroup) : Prop := {
  an_spec : lvg_Spec vg' = lvg_Spec vg;
  an_meta : exists annotations, lvg_meta vg' = with_annotations (lvg_meta vg) annotations;
  an_marked : forall n, nodes n -> is_Some (default ∅ (om_Annotations (lvg_meta vg')) !! (DevicesWipedAnnotationPrefix +:+ n));
  an_other : forall k, (forall n, nodes n -> k <> DevicesWipedAnnotationPrefix +:+ n) ->
    default ∅ (om_Annotations (lvg_meta vg')) !! k = default ∅ (om_Annotations (lvg_meta vg)) !! k;
}.

Lemma annotated_refl vg nodes : (forall n, ~ nodes n) -> annotated vg nodes vg.
Proof.
  intros Hn. split; [done| |by intros n ?%Hn|done]. exists (om_Annotations (lvg_meta vg)). by destruct vg as [[]].
Qed.

Lemma annotated_ext vg (nodes nodes' : string -> Prop) vg' :
  (forall n, nodes n <-> nodes' n) -> annotated vg nodes vg' -> annotated vg nodes' vg'.
Proof. intros Heq [H1 H2 H3 H4]. split; [done|done|naive_solver|]. intros k Hk. apply H4. naive_solver. Qed.

Lemma annotated_mark vg (nodes : string -> Prop) vg' n now :
  annotated vg nodes vg' -> annotated vg (fun m => nodes m \/ m = n) (markNode n now vg').
Proof.
  intros [Hs (ann & Hm) Hmark Hother]. split; [exact Hs| | |]; simpl.
  - eexists. by rewrite Hm.
  - intros m [Hm'| ->]; [|by rewrite lookup_insert_eq].
    destruct (decide (m = n)) as [->|Hne]; [by rewrite lookup_insert_eq|].
    rewrite lookup_insert_ne; [by apply Hmark|]. intros Heq%(inj (String.append DevicesWipedAnnotationPrefix)). congruence.
  - intros k Hk. rewrite lookup_insert_ne; [apply Hother; naive_solver|]. intros Heq. apply (Hk n); [by right|done].
Qed.

Lemma annotated_wantsWipe vg nodes vg' : annotated vg nodes vg' -> wantsWipe vg' = wantsWipe vg /\ lvg_Name vg' = lvg_Name vg.
Proof. intros [Hs (ann & Hm) _ _]. unfold wantsWipe, lvg_Name. by rewrite Hs, Hm. Qed.

(** The decision to wipe, on a node that was marked and on any other. *)
Lemma annotated_shouldWipe vg (nodes : string -> Prop) vg' r :
  annotated vg nodes vg' ->
  (nodes (NodeName r) -> shouldWipeDevicesOnVolumeGroup r vg' = false) /\
  (~ nodes (NodeName r) -> shouldWipeDevicesOnVolumeGroup r vg' = shouldWipeDevicesOnVolumeGroup r vg).
Proof.
  assert (Hdef : forall (m : option (gmap string string)) k,
    match m with Some a => bool_decide (is_Some (a !! k)) | None => false end = bool_decide (is_Some (default ∅ m !! k))).
  { intros [a|] k; [done|]. symmetry. apply bool_decide_eq_false. simpl. rewrite (lookup_empty (M := gmap string)). by intros [? ?]. }
  intros [Hs _ Hmark Hother]. unfold shouldWipeDevicesOnVolumeGroup. rewrite !Hdef, Hs. split; intros Hn.
  - rewrite bool_decide_eq_true_2 by (by apply Hmark).
    destruct (vgs_DeviceSelector _) as [sel|]; [|done]. destruct (ds_ForceWipeDevicesAndDestroyAllData sel) as [[]|]; done.
  - rewrite Hother; [done|]. intros n Hn' Heq%(inj (String.append DevicesWipedAnnotationPrefix)). by subst.
Qed.

(** The state of the loops for [vg] once the nodes in [nodes] were seen to report it. *)
Definition progress (vg : LVMVolumeGroup) (nodes : string -> Prop) (state : LVMVolumeGroup * bool) : Prop :=
  if wantsWipe vg then annotated vg nodes state.1 /\ (state.2 = true <-> exists n, nodes n) else state = (vg, false).

Lemma progress_ext vg (nodes nodes' : string -> Prop) state :
  (forall n, nodes n <-> nodes' n) -> progress vg nodes state -> progress vg nodes' state.
Proof.
  intros Heq. unfold progress. destruct (wantsWipe vg); [|done]. intros [Ha Hu].
  split; [by apply (annotated_ext vg nodes)|]. rewrite Hu. naive_solver.
Qed.

(** The volume groups written, with whether this succeeded. *)
Definition written_of (v : ev migrationE) : option (LVMVolumeGroup * bool) :=
  match v with
  | @Ev _ X e x =>
      match e in migrationE X return X -> option (LVMVolumeGroup * bool) with
      | MKube X e => match e in kubeE X return X -> option (LVMVolumeGroup * bool) with
                     | UpdateGroup vg => fun res => Some (vg, is_Ok res)
                     | _ => fun _ => None
                     end
      | MNow => fun _ => None
      end x
  end.

Lemma annotateEntry_spec vg nodeName e nodes state :
  progress vg nodes state ->
  wp (annotateEntry nodeName e state) (fun state' tr => omap written_of tr = [] /\
    progress vg (fun n => nodes n \/ n = nodeName /\ vs_Name e = lvg_Name vg) state').
Proof.
  destruct state as [vg' updated]. unfold progress at 1. destruct (wantsWipe vg) eqn:Hw; simpl.
  - intros [Ha Hu]. destruct (annotated_wantsWipe _ _ _ Ha) as [Hw' ->]. rewrite Hw', Hw. simpl.
    destruct (String.eqb_spec (vs_Name e) (lvg_Name vg)) as [He|He]; simpl.
    + intros now. split; [done|]. unfold progress. rewrite Hw. simpl. split; [|naive_solver].
      eapply annotated_ext; [|by apply annotated_mark]. naive_solver.
    + split; [done|]. eapply progress_ext; [|unfold progress; rewrite Hw; by split]. naive_solver.
  - intros [= -> ->]. rewrite Hw. simpl. destruct (String.eqb _ _); simpl; (split; [done|]); unfold progress; by rewrite Hw.
Qed.

Lemma annotateNode_spec vg s nodes state :
  progress vg nodes state ->
  wp (annotateNode s state) (fun state' tr => omap written_of tr = [] /\
    progress vg (fun n => nodes n \/ n = om_Name (ns_meta s) /\ exists e, e ∈ ns_LVMVGStatus s /\ vs_Name e = lvg_Name vg) state').
Proof.
  intros Hp. unfold annotateNode.
  apply (wp_fold_visited (fun visited state tr => omap written_of tr = [] /\
    progress vg (fun n => nodes n \/ n = om_Name (ns_meta s) /\ exists e, e ∈ visited /\ vs_Name e = lvg_Name vg) state)).
  - split; [done|]. eapply progress_ext; [|exact Hp]. intros n. split; [by left|].
    intros [Hn|(_ & e & He & _)]; [done|]. by apply elem_of_nil in He.
  - intros visited e rest state' tr _ [Htr Hpr]. eapply wp_mono; [by apply annotateEntry_spec|].
    intros state'' tr' [Htr' Hpr']. split; [by rewrite omap_app, Htr, Htr'|]. eapply progress_ext; [|exact Hpr'].
    intros n. setoid_rewrite elem_of_app. setoid_rewrite list_elem_of_singleton. split.
    + intros [[Hn|(-> & e' & He' & Hv)]|[-> Hv]]; [by left|right; eauto..].
    + intros [Hn|(-> & e' & [He'| ->] & Hv)]; [by do 2 left|left; right; eauto|by right].
  - done.
Qed.

Lemma annotateNodes_spec vg items :
  wp (fold_prog annotateNode items (vg, false)) (fun state tr =>
    omap written_of tr = [] /\ progress vg (reports items vg) state).
Proof.
  apply (wp_fold_visited (fun visited state tr => omap written_of tr = [] /\ progress vg (reports visited vg) state)).
  - split; [done|]. unfold progress. destruct (wantsWipe vg); [|done].
    assert (Hno : forall n, ~ reports [] vg n) by (intros n (s & e & Hs & _); by apply elem_of_nil in Hs).
    split; [by apply annotated_refl|]. simpl. split; [done|]. by intros [n ?%Hno].
  - intros visited s rest state tr _ [Htr Hpr]. eapply wp_mono; [by apply annotateNode_spec|].
    intros state' tr' [Htr' Hpr']. split; [by rewrite omap_app, Htr, Htr'|]. eapply progress_ext; [|exact Hpr'].
    intros n. unfold reports. setoid_rewrite elem_of_app. setoid_rewrite list_elem_of_singleton. split.
    + intros [(s' & e & Hs & Hrest)|(-> & e & He & Hv)]; [exists s', e; by split; [left|]|]. by exists s, e; split; [right|].
    + intros (s' & e & [Hs| ->] & Hn & He & Hv); [left; by exists s', e|right]. split; [done|]. by exists e.
  - done.
Qed.

(** The node statuses and the volume groups the API server listed. *)
Definition statuses_of (v : ev migrationE) : option (list LVMVolumeGroupNodeStatus) :=
  match v with
  | @Ev _ X e x =>
      match e in migrationE X return X -> option (list LVMVolumeGroupNodeStatus) with
      | MKube X e => match e in kubeE X return X -> option (list LVMVolumeGroupNodeStatus) with
                     | ListNodeStatuses _ => fun res => match res with Ok items => Some items | Err _ => None end
                     | _ => fun _ => None
                     end
      | MNow => fun _ => None
      end x
  end.
Definition groups_of (v : ev migrationE) : option (list LVMVolumeGroup) :=
  match v with
  | @Ev _ X e x =>
      match e in migrationE X return X -> option (list LVMVolumeGroup) with
      | MKube X e => match e in kubeE X return X -> option (list LVMVolumeGroup) with
                     | ListVolumeGroups _ => fun res => match res with Ok vgs => Some vgs | Err _ => None end
                     | _ => fun _ => None
                     end
      | MNow => fun _ => None
      end x
  end.

(** The writes that the volume groups [vgs] lead to. *)
Definition writes_ok (items : list LVMVolumeGroupNodeStatus) (vgs : list LVMVolumeGroup) (ws : list (LVMVolumeGroup * bool)) : Prop :=
  forall vg' ok, (vg', ok) ∈ ws -> exists vg, vg ∈ vgs /\ wantsWipe vg = true /\
    (exists n, reports items vg n) /\ annotated vg (reports items vg) vg'.
Definition writes_complete (items : list LVMVolumeGroupNodeStatus) (vgs : list LVMVolumeGroup) (ws : list (LVMVolumeGroup * bool)) : Prop :=
  forall vg, vg ∈ vgs -> wantsWipe vg = true -> (exists n, reports items vg n) ->
    exists vg', (vg', true) ∈ ws /\ annotated vg (reports items vg) vg'.

(** One volume group: nothing is listed, and it is written exactly if it has to be. *)
Lemma annotateGroup_spec items vg :
  wp (annotateGroup items vg tt) (fun r tr =>
    writes_ok items [vg] (omap written_of tr) /\
    (r = inl tt -> writes_complete items [vg] (omap written_of tr))).
Proof.
  unfold annotateGroup. apply wp_bind. eapply wp_mono; [apply annotateNodes_spec|].
  intros [vg' updated] tr [Htr Hpr]. unfold progress in Hpr. destruct (wantsWipe vg) eqn:Hw.
  - destruct Hpr as [Ha Hu]. simpl in *. destruct updated; simpl.
    + assert (Hok : forall ok, writes_ok items [vg] [(vg', ok)]).
      { intros ok w b [= -> ->]%list_elem_of_singleton. exists vg. split; [apply list_elem_of_here|].
        split; [done|]. split; [by apply Hu|done]. }
      intros [stored|err]; simpl; rewrite omap_app, Htr; (split; [apply Hok|]); [|done].
      intros _ vg0 ->%list_elem_of_singleton _ _. exists vg'. split; [apply list_elem_of_here|done].
    + rewrite app_nil_r, Htr. split; [by intros ? ? ?%elem_of_nil|].
      intros _ vg0 ->%list_elem_of_singleton _ Hn. by apply Hu in Hn.
  - injection Hpr as -> ->. simpl. rewrite app_nil_r, Htr. split; [by intros ? ? ?%elem_of_nil|].
    intros _ vg0 ->%list_elem_of_singleton. congruence.
Qed.

Lemma annotateGroups_spec items vgs :
  wp (for_each (annotateGroup items) vgs tt) (fun r tr =>
    writes_ok items vgs (omap written_of tr) /\
    (r = inl tt -> writes_complete items vgs (omap written_of tr))).
Proof.
  apply (wp_for_each_visited (fun visited _ tr =>
    writes_ok items vgs (omap written_of tr) /\ writes_complete items visited (omap written_of tr))).
  - split; [by intros ? ? ?%elem_of_nil|]. by intros vg ?%elem_of_nil.
  - intros visited vg rest [] tr Heq [Hok Hcomplete]. eapply wp_mono; [apply annotateGroup_spec|].
    intros res tr' [Hok' Hcomplete']. rewrite omap_app.
    assert (writes_ok items vgs (omap written_of tr ++ omap written_of tr')).
    { intros vg' ok [Hin|Hin]%elem_of_app; [by eapply Hok|]. destruct (Hok' _ _ Hin) as (vg0 & ->%list_elem_of_singleton & Hrest).
      exists vg. split; [subst vgs; set_solver|done]. }
    destruct res as [[]|err]; (split; [done|]); [|done]. intros vg0 [Hin|Hin]%elem_of_app Hw Hn.
    + destruct (Hcomplete vg0 Hin Hw Hn) as (vg' & ? & ?). exists vg'. split; [set_solver|done].
    + destruct (Hcomplete' eq_refl vg0 Hin Hw Hn) as (vg' & ? & ?). exists vg'. split; [set_solver|done].
  - naive_solver.
Qed.

(** Loops over volume groups list nothing. *)
Definition no_list X (e : migrationE X) : Prop :=
  match e with MKube _ (ListNodeStatuses _) | MKube _ (ListVolumeGroups _) => False | _ => True end.

Lemma no_list_groups items vgs : emits no_list (for_each (annotateGroup items) vgs tt).
Proof. unfold annotateGroup, annotateNode, annotateEntry. emits_auto. Qed.

Lemma no_list_trace tr : Forall (ev_sat no_list) tr -> omap statuses_of tr = [] /\ omap groups_of tr = [].
Proof. induction 1 as [|[X e x] tr He _ [IH1 IH2]]; [done|]. destruct e as [? []|]; try done; by rewrite !omap_skip. Qed.

(** C28: the migration of wiped volume groups writes exactly the listed volume groups that ask for
    wiping and that some node reports, in whatever state, and of those it changes nothing but
    the marks of the reporting nodes; when it succeeds, none of these nodes will wipe the
    devices of the volume group, and for every other node nothing changes. *)
Theorem annotate_correct :
  wp AnnotateExistingLVMVolumeGroupsIfWipingEnabled (fun err tr =>
    match omap statuses_of tr, omap groups_of tr with
    | [items], [vgs] =>
        writes_ok items vgs (omap written_of tr) /\
        (err = None -> writes_complete items vgs (omap written_of tr)) /\
        (forall vg vg' r, annotated vg (reports items vg) vg' ->
           (reports items vg (NodeName r) -> shouldWipeDevicesOnVolumeGroup r vg' = false) /\
           (~ reports items vg (NodeName r) -> shouldWipeDevicesOnVolumeGroup r vg' = shouldWipeDevicesOnVolumeGroup r vg))
    | _, _ => omap written_of tr = []
    end).
Proof.
  unfold AnnotateExistingLVMVolumeGroupsIfWipingEnabled. apply wp_call. intros [items|err]; [|done].
  destruct (length items <? 1)%nat; [done|]. apply wp_call. intros [vgs|err]; [|done].
  destruct (length vgs <? 1)%nat eqn:Hlen.
  - destruct vgs; [|done]. cbn. split; [by intros ? ? ?%elem_of_nil|].
    split; [by intros _ vg ?%elem_of_nil|]. intros vg vg' r. apply annotated_shouldWipe.
  - apply wp_bind. eapply wp_mono; [apply (wp_conj _ _ _ (annotateGroups_spec items vgs) (emits_wp _ _ (no_list_groups items vgs)))|].
    intros res tr [[Hok Hcomplete] [Hs Hg]%no_list_trace]. cbn [wp].
    rewrite app_nil_r, (omap_hit statuses_of _ items), (omap_skip statuses_of), (omap_skip groups_of), (omap_hit groups_of _ vgs),
      !(omap_skip written_of), Hs, Hg by done.
    split; [done|]. split; [|intros vg vg' r; apply annotated_shouldWipe]. destruct res as [[]|]; [|done]. auto.
Qed.
End Annotate.

Module MigrationDemo.
(** The goroutines one after the other: two components exist, one does not. *)
Definition demo_answers : list (option error) := [None; Some (EApi StatusReasonNotFound "not found"); None].
Definition demo_trace : list (ev cleanupE) :=
  zip_with (fun obj answer => Ev (DeleteWithin 0 obj) answer) (legacyObjects "openshift-lvm-storage") demo_answers.

Lemma demo_cleanup : RemovePreMicroLVMSComponents "openshift-lvm-storage" demo_trace None.
Proof.
  exists [None; None; None]. split; [|reflexivity].
  do 3 (apply (parallel_cons _ _ [_]); [apply runs_vis, runs_ret|]). apply parallel_nil.
Qed.

Lemma RemovePreMicroLVMSComponents_correct_witness :
  Permutation (map (fun v => (deleted_of v).1) demo_trace) (legacyObjects "openshift-lvm-storage") /\
  Forall (fun v => gone_answer (deleted_of v).2) demo_trace.
Proof.
  destruct (RemovePreMicroLVMSComponents_correct "openshift-lvm-storage" demo_trace None demo_cleanup) as [H1 H2].
  split; [exact H1|]. by apply H2.
Defined.
End MigrationDemo.
