(* ===== verification/GroupPeers.v ===== *)
(** The other writers of a volume group object are peers in the sense of GroupSystem.v: what the
    operator, the node removal controller, the clean-up of stale finalizers and the migration
    make of an object keeps its name, its deletion timestamp and the finalizers of the nodes
    that exist. *)

From S2P Require Import Prelude GoStd Effects Monitor Api K8sDemo LvAttr Exec Lvm HostTools Resolver Lvmd Filter.
From S2P Require Import Devices Raid VgEnv Wipe VgStatus VgController VgFacts VgDeleteFacts GroupContract GroupSystem.
From S2P Require Import Objects ClusterStatus ClusterEnv ClusterController ClusterFacts Resources NodeRemoval Migration.

(** A way to rewrite the object, given the nodes of the cluster, that is one of a peer. *)
Class PeerWrite `{K : K8s} (rewrites : gset string -> LVMVolumeGroup -> LVMVolumeGroup -> Prop) :=
  peer_write : forall namespace group nodes o o', rewrites nodes o o' -> peer namespace group nodes (Some o) (settle o').

Section Peers.
Context `{R : GoRuntime} `{K : K8s} `{C : !ControllerUtil} `{L : !ControllerUtilLaws C}.

(** The metadata of a rewritten object: everything but finalizers and annotations stays. *)
Lemma same_meta_peer namespace group nodes o o' fs annotations :
  lvg_meta o' = with_annotations (with_finalizers (lvg_meta o) fs) annotations ->
  (forall n, n ∈ nodes -> guarded_by namespace n o -> finalizer namespace n ∈ fs) ->
  peer namespace group nodes (Some o) (settle o').
Proof.
  intros Hm Hk. apply peer_update; unfold lvg_Name, guarded_by in *; rewrite Hm; [done..|]. exact Hk.
Qed.

Lemma nodeFinalizer_eq namespace n : finalizer namespace n = nodeFinalizer n.
Proof. done. Qed.

Lemma nodeFinalizer_inj n1 n2 : nodeFinalizer n1 = nodeFinalizer n2 -> n1 = n2.
Proof. apply (finalizer_inj ""). Qed.

(** lvmVG.EnsureCreated: the specification is replaced and the finalizer of old releases dropped. *)
#[export] Instance mutate_peer : PeerWrite (fun _ o o' => exists volumeGroup, o' = mutateVolumeGroup volumeGroup o).
Proof.
  intros namespace group nodes o o' [volumeGroup ->].
  eapply (same_meta_peer _ _ _ _ _ (RemoveFinalizer (om_Finalizers (lvg_meta o)) legacyVGFinalizer).1 (om_Annotations (lvg_meta o))); [done|].
  intros n _ Hg. destruct (RemoveFinalizer_spec (om_Finalizers (lvg_meta o)) legacyVGFinalizer) as (_ & _ & Hkeep).
  apply Hkeep; [|exact Hg]. intros H. by apply (f_equal (String.prefix "c")) in H.
Qed.

(** The clean-up after a node that is gone. *)
#[export] Instance cleaned_peer : PeerWrite (fun nodes o o' => exists n, (n ∉ nodes) /\ cleaned n o o').
Proof.
  intros namespace group nodes o o' (gone & Hgone & [_ (fs & annotations & Hm & Hfs & _)]).
  eapply same_meta_peer; [exact Hm|]. intros n Hn Hg. apply Hfs. split; [exact Hg|].
  rewrite nodeFinalizer_eq. intros ->%nodeFinalizer_inj. done.
Qed.

(** The clean-up of finalizers of nodes that were not listed. *)
#[export] Instance stale_peer : PeerWrite (fun nodes o o' => exists listed, nodes ⊆ listed /\ stale_removed listed o o').
Proof.
  intros namespace group nodes o o' (listed & Hsub & Heq & Hst). rewrite Heq.
  eapply (same_meta_peer _ _ _ _ _ (om_Finalizers (lvg_meta o')) (om_Annotations (lvg_meta o))); [done|]. intros n Hn Hg.
  destruct (decide (finalizer namespace n ∈ om_Finalizers (lvg_meta o'))) as [|Hno]; [done|].
  destruct (Hst _ Hg Hno) as [_ Hne]. by destruct (Hne n (Hsub n Hn)).
Qed.

(** The migration that marks wiped devices. *)
#[export] Instance annotated_peer : PeerWrite (fun _ o o' => exists nodes, annotated o nodes o').
Proof.
  intros namespace group nodes o o' (marked & [_ (annotations & Hm) _ _]).
  eapply (same_meta_peer _ _ _ _ _ (om_Finalizers (lvg_meta o)) annotations); [|done].
  rewrite Hm. by destruct (lvg_meta o).
Qed.

(** The object the operator creates for a device class. *)
Lemma create_peer namespace group nodes volumeGroup ns owners :
  peer namespace group nodes None
    (Some (mutateVolumeGroup volumeGroup
       (mkLVMVolumeGroup (with_owners (named group ns) owners) (mkLVMVolumeGroupSpec None None None None false None)))).
Proof. by apply peer_create. Qed.

(** A write of a peer keeps the invariant of the cluster, and so do the calls of the agents that
    are interleaved with it. *)
Lemma peer_write_ok namespace group w rewrites `{P : !PeerWrite rewrites} o o' :
  store_ok namespace group w -> current w = Some o -> rewrites (members w) o o' -> store_ok namespace group (append w (settle o')).
Proof. intros Hok Hcur Hr. apply peer_ok; [done|]. rewrite Hcur. by apply peer_write. Qed.
End Peers.
