(* ===== verification/Wiring.v ===== *)
(** How the controllers are connected to the API: SetupWithManager and the predicates of the
    LVMCluster controller (controller_watches.go), of vgmanager, of the node removal controller and
    of the controllers of volumes and claims. A setup says which kinds are watched and which
    requests an event of a kind leads to. *)

From S2P Require Import Prelude GoStd Effects Api K8sDemo VgEnv Objects ClusterStatus ClusterEnv ClusterController Resources VgManagerDaemon.
From S2P Require Import ResourceFacts ClusterWatches ClusterDemo NodeRemoval.

(** * The builder of controller-runtime *)

(** The documented behaviour of the builder: an event that passes the filter of the controller goes
    to the handlers of its kind, and their requests are queued. *)

Inductive WatchedKind :=
| Managed (k : Kind) | WLVMCluster | WDeployment | WNode | WPersistentVolume | WPersistentVolumeClaim.
#[export] Instance WatchedKind_eq_dec : EqDecision WatchedKind.
Proof. solve_decision. Defined.

Inductive EventType := CreateEvent | UpdateEvent | DeleteEvent | GenericEvent.

(** An event; of an update, whether the generation changed. *)
Record Event := mkEvent { ev_Type : EventType; ev_Kind : WatchedKind; ev_Meta : ObjectMeta; ev_GenerationChanged : bool }.

Abbreviation Request := (string * string)%type.

(** [For], [Owns] (with MatchEveryOwner, with GenerationChangedPredicate) and [Watches]. *)
Inductive Handler `{K : K8s} :=
| ForObject
| ForOwner (kind : string) (everyOwner generationOnly : bool)
| Mapped (f : ObjectMeta -> prog kubeE (list Request)).

(** handler.EnqueueRequestForOwner: the requests for the owners of that kind. *)
Class OwnerRequests := { EnqueueRequestForOwner : string -> bool -> ObjectMeta -> list Request }.

(** The object is in the namespace of its owner: the controller is the owner that is asked for. *)
Class OwnerRequestsLaws `{O : ControllerRefs} (E : OwnerRequests) := {
  controller_requested : forall owner m owners m', SetControllerReference owner m = Ok owners ->
    om_OwnerReferences m' = owners -> om_Namespace m' = om_Namespace m ->
    EnqueueRequestForOwner "LVMCluster" false m' = [(om_Namespace m, om_Name owner)];
}.

Record Setup `{K : K8s} := mkSetup { su_Filter : EventType -> bool; su_Sources : list (WatchedKind * Handler) }.
Arguments mkSetup {K} _ _.

Section Dispatch.
Context `{K : K8s} `{E : OwnerRequests}.

(** predicate.GenerationChangedPredicate looks at updates only. *)
Definition GenerationChanged (e : Event) : bool :=
  match ev_Type e with UpdateEvent => ev_GenerationChanged e | _ => true end.

Definition handle (h : Handler) (e : Event) : prog kubeE (list Request) :=
  match h with
  | ForObject => Ret [(om_Namespace (ev_Meta e), om_Name (ev_Meta e))]
  | ForOwner kind everyOwner generationOnly =>
      Ret (if generationOnly && negb (GenerationChanged e) then [] else EnqueueRequestForOwner kind everyOwner (ev_Meta e))
  | Mapped f => f (ev_Meta e)
  end.

Definition dispatch (su : Setup) (e : Event) : prog kubeE (list Request) :=
  if su_Filter su (ev_Type e) then
    fold_prog (fun s requests =>
      if bool_decide (s.1 = ev_Kind e) then more <- handle s.2 e;; Ret (requests ++ more) else Ret requests) (su_Sources su) []
  else Ret [].
End Dispatch.

(** What SetupWithManager asks of the manager: an index of objects by a field, and the controller. *)
Inductive setupE `{K : K8s} : Type -> Type :=
| IndexField (kind : WatchedKind) (field : string) : setupE (option error)
| Complete (su : Setup) : setupE (option error).

(** * The controllers *)

Section Controllers.
Context `{R : GoRuntime} `{K : K8s} `{C : !ControllerUtil} `{O : ControllerRefs} `{GVK : Scheme}.

Definition everyEvent (_ : EventType) : bool := true.

(** lvmcluster/controller_watches.go *)
Definition clusterSources (r : ClusterReconciler) : list (WatchedKind * Handler) :=
  [(WLVMCluster, ForObject);
   (Managed KindDaemonSet, ForOwner "LVMCluster" false false);
   (WDeployment, ForOwner "LVMCluster" false false);
   (Managed KindVolumeGroup, ForOwner "LVMCluster" false false);
   (Managed KindNodeStatus, Mapped getLVMClusterObjsByNameFittingNodeSelector);
   (Managed KindStorageClass, Mapped getManagedLabelObjsForReconcile)] ++
  (if bool_decide (cr_ClusterType r = TypeOCP) then [(Managed KindSCC, Mapped getManagedLabelObjsForReconcile)] else []) ++
  (if cr_EnableSnapshotting r then [(Managed KindVolumeSnapshotClass, Mapped getManagedLabelObjsForReconcile)] else []).

Definition clusterSetup (r : ClusterReconciler) : Setup := mkSetup everyEvent (clusterSources r).

Definition cluster_SetupWithManager (r : ClusterReconciler) : prog setupE (option error) :=
  guard call (IndexField WPersistentVolumeClaim "spec.storageClassName")
    catch err => Ret (Some (wrapErr "failed to index PVCs by storageClassName" err)) in
  guard call (IndexField WPersistentVolume "spec.storageClassName")
    catch err => Ret (Some (wrapErr "failed to index PVs by storageClassName" err)) in
  call (Complete (clusterSetup r)).

(** vgmanager/controller.go *)
Definition vgSources : list (WatchedKind * Handler) :=
  [(Managed KindVolumeGroup, ForObject); (Managed KindNodeStatus, ForOwner "LVMVolumeGroup" true true)].
Definition vg_SetupWithManager : prog setupE (option error) := call (Complete (mkSetup everyEvent vgSources)).

(** node/removal/controller.go *)
Definition removalSources (namespace : string) : list (WatchedKind * Handler) :=
  [(Managed KindNodeStatus, ForObject); (WNode, Mapped (fun m => GetNodeStatusFromNode namespace (om_Name m)))].
Definition removal_SetupWithManager (namespace : string) : prog setupE (option error) :=
  call (Complete (mkSetup everyEvent (removalSources namespace))).

(** persistent-volume/controller.go and persistent-volume-claim/controller.go *)
Definition pv_Predicates (t : EventType) : bool := match t with CreateEvent | UpdateEvent => true | DeleteEvent | GenericEvent => false end.
Definition pv_SetupWithManager : prog setupE (option error) := call (Complete (mkSetup pv_Predicates [(WPersistentVolume, ForObject)])).

Definition pvc_Predicates (t : EventType) : bool := match t with CreateEvent | UpdateEvent => true | DeleteEvent | GenericEvent => false end.
Definition pvc_SetupWithManager : prog setupE (option error) :=
  call (Complete (mkSetup pvc_Predicates [(WPersistentVolumeClaim, ForObject)])).
End Controllers.

(** * Changes of what the operator wrote are noticed *)

Lemma emits_and {E : Type -> Type} {A} (P Q : forall X, E X -> Prop) (p : prog E A) :
  emits P p -> emits Q p -> emits (fun X e => P X e /\ Q X e) p.
Proof. induction p as [a|X e k IH]; cbn; [done|]. intros [? Hp] [? Hq]. split; [done|]. auto. Qed.

Section Drift.
Context `{R : GoRuntime} `{K : K8s} `{C : !ControllerUtil} `{O : ControllerRefs} `{GVK : Scheme} `{V : ScaledValues}.
Context `{E : OwnerRequests} `{EL : !OwnerRequestsLaws E}.
Variables (r : ClusterReconciler) (imageName : string) (l : LVMCluster).

(** The metadata of the kinds that are watched for their owner or their labels. *)
Definition meta_of (k : Kind) : object k -> option ObjectMeta :=
  match k return object k -> option ObjectMeta with
  | KindDaemonSet => fun o => Some (ds_meta o)
  | KindVolumeGroup => fun o => Some (lvg_meta o)
  | k => watched_meta k
  end.

(** Whatever happens to an object of kind [k] with the metadata [m], the cluster is reconciled; for
    labelled objects, if it is among the listed clusters. *)
Definition noticed (k : Kind) (m : ObjectMeta) : Prop := forall t changed,
  wp (dispatch (clusterSetup r) (mkEvent t (Managed k) m changed)) (fun reqs tr =>
    match k with
    | KindDaemonSet | KindVolumeGroup => reqs = [request_for l]
    | _ =>
        (forall req, req ∈ reqs -> req = request_for l) /\
        match clusters_read tr with
        | Some clusters => is_Ok ClusterGVK = true -> (exists l', l' ∈ clusters /\ same_identity l l') -> request_for l ∈ reqs
        | None => True
        end
    end).

(** [mutate] sees the object that is stored under the name of [initial], or [initial] itself when
    there is none. *)
Definition writes_noticed X (e : kubeE X) : Prop :=
  match e with
  | ApplyStorageClass sc _ => noticed KindStorageClass (sc_meta sc)
  | CreateOrUpdate k initial mutate => forall (fresh : bool) o o' m,
      (if (fresh : bool) then o = initial else k <> KindVolumeGroup) ->
      om_Namespace <$> meta_of k o = om_Namespace <$> meta_of k initial ->
      mutate fresh o = Ok o' -> meta_of k o' = Some m -> noticed k m
  | _ => True
  end.

Lemma owner_noticed k m m0 owners :
  (k = KindDaemonSet \/ k = KindVolumeGroup) -> om_Namespace m = om_Namespace (lc_meta l) ->
  SetControllerReference (lc_meta l) m0 = Ok owners -> om_OwnerReferences m = owners -> om_Namespace m0 = om_Namespace m ->
  noticed k m.
Proof.
  intros Hk Hns Hset Hm Hm0 t changed. unfold dispatch. cbn [clusterSetup su_Filter su_Sources everyEvent]. unfold clusterSources.
  assert (Hreq : EnqueueRequestForOwner "LVMCluster" false m = [request_for l]).
  { rewrite (controller_requested (lc_meta l) m0 owners m) by done. unfold request_for. by rewrite Hm0, Hns. }
  destruct Hk as [-> | ->]; cbn; rewrite ?Hreq; destruct (bool_decide (cr_ClusterType r = TypeOCP)), (cr_EnableSnapshotting r); done.
Qed.

Definition labelled_kind (k : Kind) : Prop :=
  k = KindStorageClass \/ k = KindSCC /\ cr_ClusterType r = TypeOCP \/ k = KindVolumeSnapshotClass /\ cr_EnableSnapshotting r = true.

Lemma label_noticed k m : labelled_kind k -> labelled l m -> noticed k m.
Proof.
  intros Hk Hm t changed. unfold dispatch. cbn [clusterSetup su_Filter su_Sources everyEvent]. unfold clusterSources.
  assert (Hfin : forall clusters, let reqs := map request_for (List.filter (fun l => MatchesManagedLabels m (lc_meta l)) clusters) in
    (forall req, req ∈ reqs -> req = request_for l) /\
    (is_Ok ClusterGVK = true -> (exists l', l' ∈ clusters /\ same_identity l l') -> request_for l ∈ reqs)).
  { intros clusters. destruct (requests_exact l m clusters Hm) as [H1 H2]. split; [exact H1|]. intros Hg ?. by apply H2. }
  destruct Hk as [-> |[[-> ->]|[-> ->]]]; [|destruct (cr_EnableSnapshotting r)|];
    try (destruct (bool_decide (cr_ClusterType r = TypeOCP)), (cr_EnableSnapshotting r));
    cbn; (intros [clusters|err]; cbn; [exact (Hfin clusters)|by split; [intros req ?%elem_of_nil|]]).
Qed.

Lemma group_noticed : om_Namespace (lc_meta l) = cr_Namespace r ->
  emits writes_noticed (EnsureCreatedBy (manager r imageName LVMVGs) l).
Proof.
  intros Hns. cbn [manager EnsureCreatedBy]. unfold lvmVG_EnsureCreated. apply emits_bind; [|done].
  apply emits_for_each. intros vg [] Hvg. unfold applyVolumeGroup. destruct (SetControllerReference _ _) as [owners|err] eqn:Hset; [|done].
  apply emits_bind; [|by intros []]. apply emits_call. intros [] o o' m; [|done]. intros -> _ [= <-] [= <-].
  assert (Hin : om_Namespace (lvg_meta vg) = cr_Namespace r).
  { unfold lvmVolumeGroups in Hvg. apply list_elem_of_In, in_map_iff in Hvg as (dc & <- & _). done. }
  eapply owner_noticed; [by right| |exact Hset|done|done]. cbn. congruence.
Qed.

Lemma daemonset_noticed : om_Namespace (lc_meta l) = cr_Namespace r ->
  emits writes_noticed (EnsureCreatedBy (manager r imageName VGManager) l).
Proof.
  intros Hns. cbn [manager EnsureCreatedBy]. unfold vgManager_EnsureCreated.
  destruct (desiredDaemonSet_meta r imageName l) as [Hm _].
  assert (Howned : forall name ds ds', ownedDaemonSet l name ds = Ok ds' -> exists owners,
    SetControllerReference (lc_meta l) (ds_meta ds) = Ok owners /\ ds_meta ds' = with_owners (ds_meta ds) owners).
  { intros name ds ds'. unfold ownedDaemonSet. destruct (SetControllerReference _ _) as [owners|err]; [|done].
    intros [= <-]. by exists owners. }
  destruct (ownedDaemonSet _ _ _) as [dsTemplate|err] eqn:Ht; [|done]. apply Howned in Ht as (owners & Hset & Hmeta).
  assert (Htns : om_Namespace (ds_meta dsTemplate) = cr_Namespace r) by (rewrite Hmeta, Hm; done).
  apply emits_bind.
  2: { intros [ds|err]; [|done]. by destruct (VerifyDaemonSetReadiness ds). }
  apply emits_call. intros fresh o o' m _ Hkey Hmut [= <-]. unfold mutateDaemonSet in Hmut. destruct fresh.
  - injection Hmut as <-. eapply owner_noticed; [by left| |exact Hset|by rewrite Hmeta|]; [by rewrite Htns|by rewrite Htns, Hm].
  - destruct (ownedDaemonSet l _ o) as [ds|err] eqn:Ho; [|done]. injection Hmut as <-. apply Howned in Ho as (owners' & Hset' & Hmeta').
    assert (Hupd : forall t d, om_OwnerReferences (ds_meta (updateDaemonSet t d)) = om_OwnerReferences (ds_meta d) /\
      om_Namespace (ds_meta (updateDaemonSet t d)) = om_Namespace (ds_meta d)).
    { intros t d. unfold updateDaemonSet. by destruct (pt_Affinity (ds_Template t)). }
    destruct (Hupd dsTemplate ds) as [H1 H2]. cbn in Hkey. injection Hkey as Hkey.
    eapply owner_noticed; [by left| |exact Hset'|by rewrite H1, Hmeta'|]; rewrite H2, Hmeta'; cbn; congruence.
Qed.

(** C29: what the LVMCluster controller sets up notices every change of what it wrote: for each
    resource manager of the reconciliation, any event of a DaemonSet or a created volume group it
    wrote leads to a request for the cluster and to no other, and any event of a storage class, of
    a snapshot class or of a security context constraint leads to a request for the cluster if
    the API server lists it, and for no other cluster. The kinds that exist only on some clusters
    are watched exactly where the managers write them. *)
Theorem drift_noticed id :
  id ∈ resourcesToCreate r -> om_Namespace (lc_meta l) = cr_Namespace r ->
  emits writes_noticed (EnsureCreatedBy (manager r imageName id) l).
Proof.
  intros Hid Hns. destruct (decide (id = LVMVGs)) as [-> |Hvg]; [by apply group_noticed|].
  destruct (decide (id = VGManager)) as [-> |Hds]; [by apply daemonset_noticed|].
  eapply emits_mono; [apply emits_and; [apply (managers_label r imageName id l)|apply (manager_creates r imageName id l)]|].
  assert (Hk : forall k, kind_of id = Some k -> (exists o m, watched_meta k o = Some m) -> labelled_kind k).
  { intros k Hk Hw. unfold resourcesToCreate in Hid. destruct id; cbn in Hk; simplify_eq; try (by destruct Hw as (? & ? & ?)); unfold labelled_kind; [by left|..];
      right; revert Hid; case_bool_decide; destruct (cr_EnableSnapshotting r); cbn; rewrite !elem_of_cons, ?elem_of_nil; naive_solver. }
  intros X [] [Hlab Hcr]; try done; cbn in Hlab, Hcr.
  - by apply label_noticed; [left|].
  - intros fresh o o' m _ _ Hmut Hm. assert (Hw : watched_meta k o' = Some m).
    { destruct k; try done; destruct id; done. }
    apply label_noticed; [apply Hk; [done|by exists o', m]|by eapply Hlab].
Qed.
End Drift.

Module WiringDemo.
Import ClusterDemo.
#[local] Existing Instance listed_order_runtime.
#[local] Existing Instance demo_K8s.
#[local] Existing Instance demo_controller_util.

(** The last owner of that kind. *)
#[export] Instance demo_owners : OwnerRequests := {|
  EnqueueRequestForOwner := fun kind _ m =>
    match last (List.filter (fun ref => String.eqb (or_Kind ref) kind) (om_OwnerReferences m)) with
    | Some ref => [(om_Namespace m, or_Name ref)]
    | None => []
    end;
|}.
#[export] Instance demo_owners_laws : OwnerRequestsLaws demo_owners.
Proof.
  split. intros owner m owners m' Hset Howners Hns. injection Hset as <-. cbn [EnqueueRequestForOwner demo_owners].
  rewrite Howners, List.filter_app. cbn. by rewrite last_snoc, Hns.
Qed.

Definition changed_daemonset : Event :=
  mkEvent UpdateEvent (Managed KindDaemonSet)
    (with_owners (named VGManagerUnit "openshift-lvm-storage") [mkOwnerReference "lvm.topolvm.io/v1alpha1" "LVMCluster" "my-lvmcluster" "uid-1"])
    false.

Lemma drift_noticed_witness :
  dispatch (clusterSetup demo_reconciler) changed_daemonset = Ret [("openshift-lvm-storage", "my-lvmcluster")] /\
  emits (writes_noticed demo_reconciler (demo_cluster [])) (EnsureCreatedBy (manager demo_reconciler "image" VGManager) (demo_cluster [])).
Proof.
  split; [reflexivity|]. apply (drift_noticed demo_reconciler "image" (demo_cluster []) VGManager); [|reflexivity].
  apply (bool_decide_unpack _). vm_compute. reflexivity.
Defined.
End WiringDemo.
