(* ===== verification/Volumes.v ===== *)
(** The controllers that watch the volumes and claims of LVMS:
    internal/controllers/persistent-volume/controller.go labels a volume with its node and warns
    about volumes without a claim; internal/controllers/persistent-volume-claim/controller.go
    warns about pending claims for which no node has enough capacity. *)

From S2P Require Import Prelude GoStd Effects Api K8sDemo VgEnv Webhook VgController Objects Resources.
From Stdlib Require Import SpecFloat.

(** The event recorder: type, reason, action and note. *)
Record Note := mkNote { nt_Reason : string; nt_Action : string; nt_Text : string }.

(** * persistent-volume *)

Module PersistentVolumes.
Definition pvLabel := "kubernetes.io/hostname".
Definition topologyKey := "topology.topolvm.io/node".

Inductive Operator := OpIn | OpOther (name : string).
#[export] Instance Operator_eq_dec : EqDecision Operator.
Proof. solve_decision. Defined.

Record Requirement := mkRequirement { rq_Key : string; rq_Operator : Operator; rq_Values : list string }.

(** The match expressions of the terms of spec.nodeAffinity.required, which may be nil. *)
Record PersistentVolume := mkPersistentVolume {
  pv_meta : ObjectMeta;
  pv_StorageClassName : string;
  pv_ClaimRef : option string;
  pv_Required : option (list (list Requirement));
}.

(** An update answers with the volume as the API server stored it. *)
Inductive pvE : Type -> Type :=
| GetPV (name : string) : pvE (result error PersistentVolume)
| UpdatePV (pv : PersistentVolume) : pvE (result error PersistentVolume)
| WarnPV (note : Note) : pvE unit.

Definition claimRemoved : Note := mkNote "ClaimReferenceRemoved" "CheckClaimReference"
  "Claim reference has been removed. This PV is no longer dynamically managed by LVM Storage and will need to be cleaned up manually.".

Definition with_hostname (pv : PersistentVolume) (node : string) : PersistentVolume :=
  {| pv_meta := with_labels (pv_meta pv) (<[pvLabel := node]> (om_Labels (pv_meta pv)));
     pv_StorageClassName := pv_StorageClassName pv; pv_ClaimRef := pv_ClaimRef pv; pv_Required := pv_Required pv |}.

Definition names_node (v : Requirement) : bool :=
  String.eqb (rq_Key v) topologyKey && bool_decide (rq_Operator v = OpIn).

(** One match expression. An expression without values makes the process panic. *)
Definition labelNode (v : Requirement) (pv : PersistentVolume) : prog pvE (PersistentVolume + error) :=
  if names_node v then
    match rq_Values v with
    | [] => Ret (inr (EPanic "index out of range [0] with length 0"))
    | node :: _ =>
        if negb (String.eqb (label (om_Labels (pv_meta pv)) pvLabel) node) then
          try pv := call (UpdatePV (with_hostname pv node)) catch err => Ret (inr err) in
          Ret (inl pv)
        else Ret (inl pv)
    end
  else Ret (inl pv).

Definition labelTerm (expressions : list Requirement) (pv : PersistentVolume) : prog pvE (PersistentVolume + error) :=
  for_each labelNode expressions pv.

Definition ReconcilePV (name : string) : prog pvE (Result * option error) :=
  try pv := call (GetPV name) catch err => Ret (emptyResult, IgnoreNotFound err) in
  if bool_decide (is_Some (om_DeletionTimestamp (pv_meta pv))) || negb (HasPrefix (pv_StorageClassName pv) StorageClassPrefix)
  then Ret (emptyResult, None)
  else
    (match pv_ClaimRef pv with None => call (WarnPV claimRemoved) | Some _ => Ret tt end);;
    match pv_Required pv with
    | None => Ret (emptyResult, None)
    | Some terms =>
        res <- for_each labelTerm terms pv;;
        Ret (emptyResult, match res with inl _ => None | inr err => Some err end)
    end.

(** ** Convergence *)

(** An API server with one volume that stores what it is sent. *)
Definition store (X : Type) (e : pvE X) (pv : PersistentVolume) : X * PersistentVolume :=
  match e in pvE X return X * PersistentVolume with
  | GetPV _ => (Ok pv, pv)
  | UpdatePV pv' => (Ok pv', pv')
  | WarnPV _ => (tt, pv)
  end.

Definition update_of (v : ev pvE) : option PersistentVolume :=
  match v with @Ev _ X e _ => match e with UpdatePV pv => Some pv | _ => None end end.

(** Every expression that names a node names [node] first. *)
Definition agrees (node : string) (vs : list Requirement) : Prop :=
  forall v, v ∈ vs -> names_node v = true -> exists rest, rq_Values v = node :: rest.

(** The label after some expressions. *)
Definition labelled_by (node : string) (vs : list Requirement) (pv pv' : PersistentVolume) : Prop :=
  (existsb names_node vs = false /\ pv' = pv) \/
  (existsb names_node vs = true /\ label (om_Labels (pv_meta pv')) pvLabel = node /\
   (pv' = pv \/ pv' = with_hostname pv node)).

Lemma label_with_hostname pv node : label (om_Labels (pv_meta (with_hostname pv node))) pvLabel = node.
Proof. apply label_insert. Qed.

Lemma labelTerm_store node vs pv :
  agrees node vs ->
  exists pv' tr, run store (labelTerm vs pv) pv = (inl pv', pv', tr) /\ labelled_by node vs pv pv' /\
    (label (om_Labels (pv_meta pv)) pvLabel = node -> omap update_of tr = [] /\ pv' = pv).
Proof.
  unfold labelTerm. revert pv. induction vs as [|v vs IH]; intros pv Hag.
  { exists pv, []. split; [done|]. split; [by left|done]. }
  assert (Hag' : agrees node vs) by (intros w Hw; apply Hag; by apply list_elem_of_further).
  cbn [for_each]. rewrite run_bind. unfold labelNode at 1. unfold labelled_by. cbn [existsb].
  destruct (names_node v) eqn:Hn; cbn [orb].
  - destruct (Hag v (list_elem_of_here _ _) Hn) as [rest ->].
    destruct (String.eqb_spec (label (om_Labels (pv_meta pv)) pvLabel) node) as [Hl|Hl]; simpl.
    + destruct (IH pv Hag') as (pv' & tr & -> & Hlab & Hsame). exists pv', tr. split; [done|].
      destruct (Hsame Hl) as [Htr ->]. split; [|done]. right. split; [done|]. split; [done|by left].
    + destruct (IH (with_hostname pv node) Hag') as (pv' & tr & -> & Hlab & Hsame).
      destruct (Hsame (label_with_hostname pv node)) as [Htr ->]. eexists _, _. split; [done|]. split; [|done].
      right. split; [done|]. split; [apply label_with_hostname|by right].
  - simpl. destruct (IH pv Hag') as (pv' & tr & -> & Hlab & Hsame). exists pv', tr. by split.
Qed.

Lemma labelTerms_store node terms pv :
  (forall vs, vs ∈ terms -> agrees node vs) ->
  exists pv' tr, run store (for_each labelTerm terms pv) pv = (inl pv', pv', tr) /\ labelled_by node (concat terms) pv pv' /\
    (label (om_Labels (pv_meta pv)) pvLabel = node -> omap update_of tr = [] /\ pv' = pv).
Proof.
  revert pv. induction terms as [|vs terms IH]; intros pv Hag.
  { exists pv, []. split; [done|]. split; [by left|done]. }
  cbn [for_each concat]. rewrite run_bind.
  destruct (labelTerm_store node vs pv (Hag vs (list_elem_of_here _ _))) as (pv1 & tr1 & -> & Hlab1 & Hsame1).
  destruct (IH pv1 (fun vs Hvs => Hag vs (list_elem_of_further _ _ _ Hvs))) as (pv' & tr & -> & Hlab & Hsame).
  eexists _, _. split; [done|]. split.
  - unfold labelled_by in *. rewrite existsb_app. destruct Hlab1 as [[-> ->]|(-> & Hl & Heq)]; [exact Hlab|].
    destruct (Hsame Hl) as [_ ->]. right. done.
  - intros Hl. destruct (Hsame1 Hl) as [Htr1 ->]. destruct (Hsame Hl) as [Htr ->]. by rewrite omap_app, Htr1, Htr.
Qed.

Definition managed (pv : PersistentVolume) : bool :=
  bool_decide (om_DeletionTimestamp (pv_meta pv) = None) && HasPrefix (pv_StorageClassName pv) StorageClassPrefix.

Lemma ReconcilePV_store name pv node terms :
  managed pv = true -> pv_Required pv = Some terms -> (forall vs, vs ∈ terms -> agrees node vs) ->
  exists pv' tr, run store (ReconcilePV name) pv = ((emptyResult, None), pv', tr) /\ labelled_by node (concat terms) pv pv' /\
    (label (om_Labels (pv_meta pv)) pvLabel = node -> omap update_of tr = [] /\ pv' = pv).
Proof.
  intros [Hdel Hclass]%andb_true_iff Hreq Hag. apply bool_decide_eq_true in Hdel.
  destruct (labelTerms_store node terms pv Hag) as (pv' & tr & Hrun & Hlab & Hsame).
  unfold ReconcilePV. cbn [pbind call run store]. rewrite Hdel, Hclass. cbn [orb negb].
  rewrite bool_decide_eq_false_2 by (by intros [? ?]). cbn [orb]. rewrite Hreq.
  destruct (pv_ClaimRef pv); cbn [pbind call run store]; rewrite run_bind, Hrun; cbn [run];
    (eexists _, _; split; [reflexivity|]; split; [done|]); intros Hl; destruct (Hsame Hl) as [Htr ->]; (split; [|done]);
    rewrite app_nil_r, ?omap_skip by done; exact Htr.
Qed.

(** C35: where the node affinity of a volume of LVMS names one node, one reconciliation labels the
    volume with it and changes nothing else, and the next one writes nothing: the updates, which
    cause reconciliations themselves, come to an end. *)
Theorem pv_label_converges name pv node terms :
  managed pv = true -> pv_Required pv = Some terms -> (forall vs, vs ∈ terms -> agrees node vs) ->
  existsb names_node (concat terms) = true ->
  let '(res1, pv1, _) := run store (ReconcilePV name) pv in
  let '(res2, pv2, tr2) := run store (ReconcilePV name) pv1 in
  res1 = (emptyResult, None) /\ label (om_Labels (pv_meta pv1)) pvLabel = node /\ (pv1 = pv \/ pv1 = with_hostname pv node) /\
  res2 = (emptyResult, None) /\ pv2 = pv1 /\ omap update_of tr2 = [].
Proof.
  intros Hm Hreq Hag Hex. destruct (ReconcilePV_store name pv node terms Hm Hreq Hag) as (pv1 & tr1 & -> & Hlab & _).
  destruct Hlab as [[? _]|(_ & Hl & Heq)]; [congruence|].
  destruct (ReconcilePV_store name pv1 node terms) as (pv2 & tr2 & -> & _ & Hsame); [by destruct Heq as [->| ->]..|done|].
  destruct (Hsame Hl) as [Htr ->]. done.
Qed.

Definition demo_pv : PersistentVolume :=
  mkPersistentVolume (mkObjectMeta "pv" "" "uid" ∅ None [] [] None) "lvms-vg1" (Some "claim")
    (Some [[mkRequirement topologyKey OpIn ["n1"]]]).

Lemma pv_label_converges_witness :
  let '(_, pv1, _) := run store (ReconcilePV "pv") demo_pv in
  label (om_Labels (pv_meta pv1)) pvLabel = "n1" /\ omap update_of (snd (run store (ReconcilePV "pv") pv1)) = [].
Proof.
  pose proof (pv_label_converges "pv" demo_pv "n1" [[mkRequirement topologyKey OpIn ["n1"]]] eq_refl eq_refl) as H.
  destruct (run store (ReconcilePV "pv") demo_pv) as [[res1 pv1] tr1].
  destruct (run store (ReconcilePV "pv") pv1) as [[res2 pv2] tr2]. simpl in *.
  destruct H as (_ & Hl & _ & _ & _ & Hu); [|reflexivity|by split].
  intros vs ->%list_elem_of_singleton v ->%list_elem_of_singleton _. by exists [].
Defined.
End PersistentVolumes.

(** * persistent-volume-claim *)

(** [%3.1f] of a finite float: the nearest decimal with one digit, ties to even. *)
Definition format_1f (x : spec_float) : string :=
  match x with
  | S754_finite s m e =>
      let tenths :=
        if (0 <=? e)%Z then (Z.pos m * 10 * 2 ^ e)%Z
        else
          let d := (2 ^ (- e))%Z in
          let q := (Z.pos m * 10 / d)%Z in
          let rem := (Z.pos m * 10 mod d)%Z in
          match (2 * rem ?= d)%Z with
          | Lt => q
          | Gt => (q + 1)%Z
          | Eq => if Z.even q then q else (q + 1)%Z
          end in
      (if s then "-" else "") +:+ Itoa (tenths / 10) +:+ "." +:+ Itoa (tenths mod 10)
  | S754_zero s => (if s then "-" else "") +:+ "0.0"
  | S754_infinity s => (if s then "-" else "+") +:+ "Inf"
  | S754_nan => "NaN"
  end.

Module PersistentVolumeClaims.
Definition CapacityAnnotation := "capacity.topolvm.io/".
Definition ClaimPending := "Pending".

Fixpoint prettyLoop (bf : spec_float) (units : list string) : string :=
  match units with
  | [] => format_1f bf +:+ "YiB"
  | unit :: units =>
      if SFltb (SFabs bf) (float64_of_int 1024) then format_1f bf +:+ unit +:+ "B"
      else prettyLoop (float64_div bf (float64_of_int 1024)) units
  end.
Definition prettyByteSize (b : Z) : string :=
  prettyLoop (float64_of_int b) [""; "Ki"; "Mi"; "Gi"; "Ti"; "Pi"; "Ei"; "Zi"].

Section Claims.
Context `{K : K8s}.

(** resource.ParseQuantity and topolvm.DefaultDeviceClassAnnotationName. *)
Variable ParseQuantity : string -> result error Quantity.
Variable DefaultDeviceClassAnnotationName : string.

(** [pvc_Request] is spec.resources.requests.storage, zero when it is not set. *)
Record PersistentVolumeClaim := mkPersistentVolumeClaim {
  pvc_meta : ObjectMeta;
  pvc_StorageClassName : option string;
  pvc_Phase : string;
  pvc_Request : Quantity;
}.
Record CapacityNode := mkCapacityNode { cn_Name : string; cn_Annotations : gmap string string }.

Inductive pvcE : Type -> Type :=
| GetPVC (namespace name : string) : pvcE (result error PersistentVolumeClaim)
| GetClass (name : string) : pvcE (result error StorageClass)
| ListCapacities : pvcE (result error (list CapacityNode))
| WarnPVC (note : Note) : pvcE unit.

Definition deviceClassOf (sc : StorageClass) : string :=
  default DefaultDeviceClassAnnotationName (sc_Parameters sc !! DeviceClassKey).

(** What the loop over the nodes finds. *)
Inductive Search :=
| Unparsable
| Found
| NotFound (nodeMessage : list string).

Fixpoint searchNodes (deviceClass : string) (requested : Quantity) (nodes : list CapacityNode) (nodeMessage : list string) : Search :=
  match nodes with
  | [] => NotFound nodeMessage
  | node :: nodes =>
      match cn_Annotations node !! (CapacityAnnotation +:+ deviceClass) with
      | None => searchNodes deviceClass requested nodes nodeMessage
      | Some capacity =>
          match ParseQuantity capacity with
          | Err _ => Unparsable
          | Ok capacityQuantity =>
              if (q_Cmp requested capacityQuantity <? 0)%Z then Found
              else searchNodes deviceClass requested nodes
                     (nodeMessage ++ ["node " +:+ cn_Name node +:+ " has " +:+ prettyByteSize (q_Value capacityQuantity) +:+ " free storage"])
          end
      end
  end.

Definition notEnoughCapacity (requested : Quantity) (nodeMessage : list string) : Note :=
  mkNote "NotEnoughCapacity" "CheckCapacity"
    ("Requested storage (" +:+ q_String requested +:+ ") is greater than available capacity on any node (" +:+
     strings_Join (sort_Strings nodeMessage) "," +:+ ").").

Definition ReconcilePVC (namespace name : string) : prog pvcE (Result * option error) :=
  try pvc := call (GetPVC namespace name)
    catch err => Ret (emptyResult, IgnoreNotFound err) in
  if bool_decide (is_Some (om_DeletionTimestamp (pvc_meta pvc))) then Ret (emptyResult, None)
  else
    match pvc_StorageClassName pvc with
    | None => Ret (emptyResult, None)
    | Some className =>
        try sc := call (GetClass className) catch err => Ret (emptyResult, Some err) in
        if negb (String.eqb (sc_Provisioner sc) TopolvmCSIDriverName) then Ret (emptyResult, None)
        else if negb (String.eqb (pvc_Phase pvc) ClaimPending) then Ret (emptyResult, None)
        else
          try nodes := call ListCapacities catch err => Ret (emptyResult, Some err) in
          match searchNodes (deviceClassOf sc) (pvc_Request pvc) nodes [] with
          | Unparsable => Ret (emptyResult, None)
          | Found => Ret (mkResult false 15, None)
          | NotFound nodeMessage =>
              call (WarnPVC (notEnoughCapacity (pvc_Request pvc) nodeMessage));;
              Ret (mkResult false 15, None)
          end
    end.

(** ** When a warning is published *)

Definition claim_of (v : ev pvcE) : option PersistentVolumeClaim :=
  match v with
  | @Ev _ X e x => match e in pvcE X return X -> option PersistentVolumeClaim with
                   | GetPVC _ _ => fun res => match res with Ok pvc => Some pvc | Err _ => None end
                   | _ => fun _ => None
                   end x
  end.
Definition class_of (v : ev pvcE) : option StorageClass :=
  match v with
  | @Ev _ X e x => match e in pvcE X return X -> option StorageClass with
                   | GetClass _ => fun res => match res with Ok sc => Some sc | Err _ => None end
                   | _ => fun _ => None
                   end x
  end.
Definition nodes_of (v : ev pvcE) : option (list CapacityNode) :=
  match v with
  | @Ev _ X e x => match e in pvcE X return X -> option (list CapacityNode) with
                   | ListCapacities => fun res => match res with Ok nodes => Some nodes | Err _ => None end
                   | _ => fun _ => None
                   end x
  end.
Definition warning_of (v : ev pvcE) : option Note :=
  match v with @Ev _ X e _ => match e with WarnPVC note => Some note | _ => None end end.

(** The capacities the nodes announce for a device class. *)
Definition capacities (deviceClass : string) (nodes : list CapacityNode) : list (result error Quantity) :=
  omap (fun node => ParseQuantity <$> cn_Annotations node !! (CapacityAnnotation +:+ deviceClass)) nodes.

Context `{QL : !QuantityLaws K}.

Lemma searchNodes_spec deviceClass requested nodes nodeMessage qs :
  capacities deviceClass nodes = map Ok qs ->
  match searchNodes deviceClass requested nodes nodeMessage with
  | Unparsable => False
  | Found => exists q, q ∈ qs /\ (milli requested < milli q)%Z
  | NotFound _ => forall q, q ∈ qs -> (milli q <= milli requested)%Z
  end.
Proof.
  revert nodeMessage qs. induction nodes as [|node nodes IH]; intros nodeMessage qs; cbn [searchNodes].
  { destruct qs; [|done]. intros _ q Hq. by apply elem_of_nil in Hq. }
  destruct (cn_Annotations node !! (CapacityAnnotation +:+ deviceClass)) as [capacity|] eqn:Hc.
  - unfold capacities. rewrite (omap_hit _ _ (ParseQuantity capacity)) by (by rewrite Hc).
    destruct qs as [|q qs]; [done|]. intros [= -> Hqs].
    destruct (Z.ltb_spec (q_Cmp requested q) 0) as [Hlt|Hge].
    + exists q. split; [apply list_elem_of_here|]. by apply q_Cmp_lt.
    + specialize (IH (nodeMessage ++ ["node " +:+ cn_Name node +:+ " has " +:+ prettyByteSize (q_Value q) +:+ " free storage"]) qs Hqs).
      assert (milli q <= milli requested)%Z.
      { destruct (Z.lt_ge_cases (milli requested) (milli q)) as [H%q_Cmp_lt|]; lia. }
      destruct (searchNodes _ _ _ _); [done| |].
      * destruct IH as (q' & ? & ?). exists q'. split; [by apply list_elem_of_further|done].
      * intros q' [->|?]%elem_of_cons; auto.
  - unfold capacities. rewrite omap_skip by (by rewrite Hc). apply IH.
Qed.

(** The search says which capacities parse. *)
Lemma searchNodes_parsed deviceClass requested nodes nodeMessage messages :
  searchNodes deviceClass requested nodes nodeMessage = NotFound messages -> exists qs, capacities deviceClass nodes = map Ok qs.
Proof.
  revert nodeMessage. induction nodes as [|node nodes IH]; intros nodeMessage; cbn [searchNodes]; [by exists []|].
  unfold capacities. destruct (cn_Annotations node !! (CapacityAnnotation +:+ deviceClass)) as [capacity|] eqn:Hc.
  - destruct (ParseQuantity capacity) as [q|err] eqn:Hq; [|done]. destruct (_ <? 0)%Z; [done|].
    intros (qs & Hqs)%IH. exists (q :: qs). rewrite (omap_hit _ _ (Ok q)) by (by rewrite Hc; cbn; rewrite Hq). cbn. by f_equal.
  - rewrite omap_skip by (by rewrite Hc). apply IH.
Qed.

(** What is published for the capacities [qs] of the nodes, one that equals the request included. *)
Lemma warning_for namespace name :
  wp (ReconcilePVC namespace name) (fun res tr =>
    match omap claim_of tr, omap class_of tr, omap nodes_of tr with
    | [pvc], [sc], [nodes] =>
        om_DeletionTimestamp (pvc_meta pvc) = None /\ pvc_Phase pvc = ClaimPending /\
        sc_Provisioner sc = TopolvmCSIDriverName /\
        (omap warning_of tr <> [] -> exists qs, capacities (deviceClassOf sc) nodes = map Ok qs) /\
        forall qs, capacities (deviceClassOf sc) nodes = map Ok qs ->
          res = (mkResult false 15, None) /\
          (omap warning_of tr <> [] <-> forall q, q ∈ qs -> (milli q <= milli (pvc_Request pvc))%Z)
    | _, _, _ => omap warning_of tr = []
    end).
Proof.
  unfold ReconcilePVC. apply wp_call. intros [pvc|err]; [|done].
  destruct (om_DeletionTimestamp (pvc_meta pvc)) eqn:Hdel; [by rewrite bool_decide_eq_true_2 by by eexists|].
  rewrite bool_decide_eq_false_2 by (by intros [? ?]).
  destruct (pvc_StorageClassName pvc) as [className|]; [|done].
  apply wp_call. intros [sc|err]; [|done].
  destruct (String.eqb_spec (sc_Provisioner sc) TopolvmCSIDriverName) as [Hp|Hp]; [|done].
  destruct (String.eqb_spec (pvc_Phase pvc) ClaimPending) as [Hph|Hph]; [|done]. cbn [negb].
  apply wp_call. intros [nodes|err]; [|done].
  pose proof (searchNodes_spec (deviceClassOf sc) (pvc_Request pvc) nodes []) as Hsearch.
  pose proof (searchNodes_parsed (deviceClassOf sc) (pvc_Request pvc) nodes []) as Hparsed.
  destruct (searchNodes _ _ _ _) as [| |msgs]; simpl; rewrite ?Hdel.
  - do 4 (split; [done|]). by intros qs ?%Hsearch.
  - do 4 (split; [done|]). intros qs (q & Hq & Hlt)%Hsearch. split; [done|]. split; [done|].
    intros Hall. specialize (Hall q Hq). lia.
  - intros []. rewrite ?Hdel. do 3 (split; [done|]). split; [intros _; by apply (Hparsed msgs)|].
    intros qs Hq. split; [done|]. split; [|done]. intros _. exact (Hsearch qs Hq).
Qed.

(** C36: a warning about missing capacity is published only for a claim that is pending and not being
    deleted, of a class that TopoLVM provisions, and only if every capacity that the nodes announce
    for the device class can be parsed. If they all can, the warning is published when each of them
    is smaller than what is requested, it is not when one of them is greater, and the claim is looked
    at again after 15 seconds. (A capacity equal to the request is treated like a smaller one:
    [equal_capacity_warned].) *)
Theorem pvc_warning_exact namespace name :
  wp (ReconcilePVC namespace name) (fun res tr =>
    match omap claim_of tr, omap class_of tr, omap nodes_of tr with
    | [pvc], [sc], [nodes] =>
        om_DeletionTimestamp (pvc_meta pvc) = None /\ pvc_Phase pvc = ClaimPending /\
        sc_Provisioner sc = TopolvmCSIDriverName /\
        (omap warning_of tr <> [] -> exists qs, capacities (deviceClassOf sc) nodes = map Ok qs) /\
        forall qs, capacities (deviceClassOf sc) nodes = map Ok qs ->
          res = (mkResult false 15, None) /\
          ((forall q, q ∈ qs -> (milli q < milli (pvc_Request pvc))%Z) -> omap warning_of tr <> []) /\
          ((exists q, q ∈ qs /\ (milli (pvc_Request pvc) < milli q)%Z) -> omap warning_of tr = [])
    | _, _, _ => omap warning_of tr = []
    end).
Proof.
  eapply wp_mono; [apply warning_for|]. intros res tr H. revert H. cbv beta.
  destruct (omap claim_of tr) as [|pvc [|]], (omap class_of tr) as [|sc [|]], (omap nodes_of tr) as [|nodes [|]]; try (intros H; exact H).
  intros (H1 & H2 & H3 & H4 & H5). do 4 (split; [done|]). intros qs Hqs. destruct (H5 qs Hqs) as [Hres Hiff].
  split; [done|]. split.
  - intros Hall. apply Hiff. intros q Hq. specialize (Hall q Hq). lia.
  - intros (q & Hq & Hlt). destruct (omap warning_of tr); [done|]. exfalso.
    assert (milli q <= milli (pvc_Request pvc))%Z; [by apply Hiff|lia].
Qed.

(** A node with exactly the requested capacity does not keep the warning back. *)
Lemma equal_capacity_warned deviceClass requested node nodeMessage capacity q :
  cn_Annotations node !! (CapacityAnnotation +:+ deviceClass) = Some capacity -> ParseQuantity capacity = Ok q ->
  milli q = milli requested -> exists messages, searchNodes deviceClass requested [node] nodeMessage = NotFound messages.
Proof.
  intros Hc Hq He. cbn. rewrite Hc, Hq. destruct (Z.ltb_spec (q_Cmp requested q) 0) as [Hlt|_]; [|by eexists].
  apply q_Cmp_lt in Hlt. lia.
Qed.
End Claims.

Module ClaimDemo.
#[local] Existing Instance demo_K8s.
#[local] Existing Instance demo_quantity_laws.

Definition demo_parse (s : string) : result error Z :=
  let '(v, _, rest) := read_digits s 0 0 in
  if String.eqb rest "" then Ok (v * 1000)%Z else Err (EExt "unable to parse quantity").

Definition demo_meta (name : string) : ObjectMeta := mkObjectMeta name "default" "uid" ∅ None [] [] None.
Definition demo_claim : PersistentVolumeClaim := mkPersistentVolumeClaim (demo_meta "claim") (Some "lvms-vg1") "Pending" 1000000%Z.
Definition demo_sc : StorageClass :=
  mkStorageClass (demo_meta "lvms-vg1") TopolvmCSIDriverName PersistentVolumeReclaimDelete VolumeBindingWaitForFirstConsumer true
    {[DeviceClassKey := "vg1"]}.

(** A node announces 500 bytes, and 1000 are requested. *)
Definition demo_api (X : Type) (e : pvcE X) (s : unit) : X * unit :=
  match e in pvcE X return X * unit with
  | GetPVC _ _ => (Ok demo_claim, s)
  | GetClass _ => (Ok demo_sc, s)
  | ListCapacities => (Ok [mkCapacityNode "n1" {[CapacityAnnotation +:+ "vg1" := "500"]}], s)
  | WarnPVC _ => (tt, s)
  end.

Definition demo_trace : list (ev pvcE) := snd (run demo_api (ReconcilePVC demo_parse "00default" "default" "claim") tt).

Lemma pvc_warning_exact_witness : omap warning_of demo_trace <> [].
Proof.
  pose proof (wp_run demo_api _ tt _ (pvc_warning_exact demo_parse "00default" "default" "claim")) as H. cbv beta in H.
  assert (H1 : omap claim_of demo_trace = [demo_claim]) by reflexivity.
  assert (H2 : omap class_of demo_trace = [demo_sc]) by reflexivity.
  assert (H3 : omap nodes_of demo_trace = [[mkCapacityNode "n1" {[CapacityAnnotation +:+ "vg1" := "500"]}]]) by reflexivity.
  unfold demo_trace in H1, H2, H3. rewrite H1, H2, H3 in H. destruct H as (_ & _ & _ & _ & H).
  destruct (H [500000%Z]) as (_ & Hwarn & _); [vm_compute; reflexivity|].
  apply Hwarn. intros q ->%list_elem_of_singleton. vm_compute. reflexivity.
Defined.
End ClaimDemo.
End PersistentVolumeClaims.
