(* ===== verification/CsiRunners.v ===== *)
(** The CSI components a manager runs (internal/csi): the runner of a gRPC server on a UNIX socket
    (grpc_runner.go), and the runners of the CSI provisioner, snapshotter and resizer
    (provisioner.go, snapshotter.go, resizer.go).

    The controllers of the CSI libraries are workers, described by the arguments they are
    constructed with; a run of a worker is one call. Durations are in nanoseconds. *)

From S2P Require Import Prelude GoStd Effects.

Definition Second : Z := 1000000000.
Definition Minute : Z := 60 * Second.
Definition Hour : Z := 60 * Minute.

(** * The gRPC runner *)

Module GrpcRunner.

(** The socket file, the listener and the server. [GoServe] starts the goroutine that serves the
    listener, whose error is only logged; [ContextDone] waits for the end of the context;
    [GracefulStopWithin] answers whether the graceful stop ended before the given time. *)
Inductive grpcE : Type -> Type :=
| RemoveSocket (sockFile : string) : grpcE (option error)
| Listen (sockFile : string) : grpcE (option error)
| GoServe : grpcE unit
| ContextDone : grpcE unit
| GracefulStopWithin (d : Z) : grpcE bool
| Stop : grpcE unit.

(** [os.IsNotExist(err)] *)
Definition os_IsNotExist (err : error) : bool := match err with ENew id _ => String.eqb id "ENOENT" | _ => false end.

(** The server itself is behind the events. *)
Record gRPCServerRunner := mkRunner { sockFile : string; leaderElection : bool }.

Definition serve (r : gRPCServerRunner) : prog grpcE (option error) :=
  guard call (Listen (sockFile r))
    catch err => Ret (Some (wrapErr ("failed to listen on " +:+ sockFile r) err)) in
  call GoServe;;
  call ContextDone;;
  graceful <- call (GracefulStopWithin (10 * Second));;
  (if graceful : bool then Ret tt else call Stop);;
  call (RemoveSocket (sockFile r));;
  Ret None.

Definition Start (r : gRPCServerRunner) : prog grpcE (option error) :=
  removed <- call (RemoveSocket (sockFile r));;
  match removed with
  | Some err =>
      if negb (os_IsNotExist err)
      then Ret (Some (wrapErr "failed to remove existing socket file before startup" err))
      else serve r
  | None => serve r
  end.

Definition NeedLeaderElection (r : gRPCServerRunner) : bool := leaderElection r.

(** The environment of a runner: whether the socket file exists and whether the server runs.
    [removable]: a file that exists can be removed; [refuses]: listening can fail even though the
    file does not exist. Listening on an existing file fails; a stop ends the server and closes
    the listener, which may unlink the file. *)
Record Socket := mkSocket { file : bool; serving : bool }.

Definition stopped (s s' : Socket) : Prop := s' = mkSocket (file s) false \/ s' = mkSocket false false.

Definition socket_step (removable refuses : bool) (X : Type) (e : grpcE X) (s : Socket) : X -> Socket -> Prop :=
  match e in grpcE X return X -> Socket -> Prop with
  | RemoveSocket _ => fun err s' =>
      match err with
      | None => file s = true /\ s' = mkSocket false (serving s)
      | Some err => s' = s /\ if os_IsNotExist err then file s = false else removable = false
      end
  | Listen _ => fun err s' =>
      match err with
      | None => file s = false /\ s' = mkSocket true (serving s)
      | Some _ => s' = s /\ (file s = true \/ refuses = true)
      end
  | GoServe => fun _ s' => s' = mkSocket (file s) true
  | ContextDone => fun _ s' => s' = s
  | GracefulStopWithin _ => fun graceful s' => if graceful : bool then stopped s s' else s' = s
  | Stop => fun _ s' => stopped s s'
  end.

(** A runner only touches its own socket file. *)
Definition own_socket (r : gRPCServerRunner) (X : Type) (e : grpcE X) : Prop :=
  match e with
  | RemoveSocket path | Listen path => path = sockFile r
  | _ => True
  end.

(** What a runner leaves behind. *)
Definition runner_end (removable refuses : bool) (res : option error) (s : Socket) : Prop :=
  serving s = false /\ (removable = true -> file s = false) /\
  (removable = true -> refuses = false -> res = None).

(** The deferred removal of the socket file. *)
Lemma cleanup_ends removable refuses r s s' :
  stopped s s' ->
  must (socket_step removable refuses) (call (RemoveSocket (sockFile r));; Ret None) s' (runner_end removable refuses).
Proof.
  intros Hs [err|] s1; cbn.
  - intros [-> Herr]. split_and!; [by destruct Hs as [-> | ->]| |done]. intros ->. by destruct (os_IsNotExist err).
  - intros [_ ->]. split_and!; [by destruct Hs as [-> | ->]|done..].
Qed.

Lemma serve_ends removable refuses r s :
  serving s = false -> (removable = true -> file s = false) ->
  must (socket_step removable refuses) (serve r) s (runner_end removable refuses).
Proof.
  intros Hs Hf [err|] s1; cbn [socket_step].
  - intros [-> Hl]. split_and!; [done..|]. intros Hr ->. destruct Hl as [Hl|?]; [|done]. by rewrite Hf in Hl.
  - intros [Hno ->] [] s2 -> [] s3 -> [] s4; cbn [socket_step].
    + intros Hstop. by apply (cleanup_ends removable refuses r _ s4 Hstop).
    + intros -> [] s5 Hstop. by apply (cleanup_ends removable refuses r _ s5 Hstop).
Qed.

(** The runner of a gRPC server touches no file but its socket, and whatever happens it ends
    with the server stopped; as long as the socket file can be removed it leaves none behind,
    and a file left by an earlier process never keeps it from serving. *)
Theorem grpc_runner_correct r removable refuses stale :
  emits (own_socket r) (Start r) /\
  must (socket_step removable refuses) (Start r) (mkSocket stale false) (runner_end removable refuses).
Proof.
  split.
  { unfold Start, serve. emits_auto; done. }
  intros [err|] s1; cbn [socket_step].
  - intros [-> Herr]. cbn [pbind]. destruct (os_IsNotExist err); simpl negb; cbn iota.
    + apply serve_ends; [done|by intros _].
    + split_and!; [done|by rewrite Herr..].
  - intros [_ ->]. by apply serve_ends.
Qed.
End GrpcRunner.

(** * The CSI sidecars *)

(** The types of the CSI and Kubernetes client libraries. *)
Class CsiLib := {
  Conn : Type;                      (* grpc.ClientConn *)
  ResizeClient : Type;              (* csi.Client of the resizer *)
  Resizer : Type;                   (* resizer.Resizer *)
  KubeClient : Type;                (* kubernetes.Clientset *)
  SnapClient : Type;                (* the clientset of snapshots *)
  PluginCapabilities : Type;
  ControllerCapabilities : Type;
  OwnerReference : Type;
}.

Record ProvisionerOptions := mkProvisionerOptions { DriverName : string; CSIEndpoint : string; CSIOperationTimeout : Z; Metrics : bool }.

Section Sidecars.
Context `{CL : CsiLib}.

(** The arguments of provisionctrl.NewCSIProvisioner that are not listers. *)
Record CSIProvisioner := mkCSIProvisioner {
  cp_client : KubeClient; cp_timeout : Z; cp_identity : string; cp_volumeNamePrefix : string;
  cp_volumeNameUUIDLength : Z; cp_conn : Conn; cp_snapClient : SnapClient; cp_driverName : string;
  cp_plugin : PluginCapabilities; cp_controller : ControllerCapabilities; cp_strictTopology : bool;
  cp_immediateTopology : bool;
}.

(** The arguments of capacity.NewCentralCapacityController. *)
Record CapacityController := mkCapacityController {
  cc_driverName : string; cc_owner : OwnerReference; cc_managedByID : string; cc_ownerNamespace : string;
  cc_pollPeriod : Z; cc_immediateBinding : bool; cc_timeout : Z;
}.

(** The arguments of controller.NewCSISnapshotSideCarController. *)
Record SnapshotController := mkSnapshotController {
  sn_snapClient : SnapClient; sn_kubeClient : KubeClient; sn_driverName : string; sn_conn : Conn;
  sn_timeout : Z; sn_resyncPeriod : Z; sn_namePrefix : string; sn_nameUUIDLength : Z;
  sn_groupNamePrefix : string; sn_groupNameUUIDLength : Z; sn_enableVolumeGroupSnapshots : bool;
}.

(** The arguments of controller.NewResizeController. *)
Record ResizeController := mkResizeController {
  rz_name : string; rz_resizer : Resizer; rz_client : KubeClient; rz_resyncPeriod : Z;
  rz_retryIntervalStart : Z; rz_retryIntervalMax : Z; rz_handleVolumeInUseError : bool; rz_maxRetry : Z;
}.

(** What runs until the end of the context. The provisioner is wrapped so that the capacity
    controller notices its volumes. *)
Inductive Worker :=
| TopologyInformer (driverName queue : string)
| Capacity (c : CapacityController)
| CloningProtection (caps : ControllerCapabilities)
| Provision (driverName : string) (p : CSIProvisioner) (refreshes : CapacityController) (leaderElection addFinalizer : bool)
| Snapshots (c : SnapshotController)
| Resizing (c : ResizeController) (workers : Z).

(** The informer factories. The capacities are selected by namespace and labels. *)
Inductive InformerFactory :=
| Informers (resync : Z)
| CapacityInformers (resync : Z) (namespace : string) (labels : list (string * string))
| SnapshotInformers (resync : Z).

(** The calls of the runners. [WaitForCacheSync] answers the values of the map of results. *)
Inductive csiE : Type -> Type :=
| Connect (endpoint : string) (metrics : bool) (timeout : Z) : csiE (result error Conn)
| CloseConn (c : Conn) : csiE unit
| GetDriverCapabilities (c : Conn) (timeout : Z) : csiE (result error (PluginCapabilities * ControllerCapabilities))
| NewResizeClient (endpoint : string) (timeout : Z) : csiE (result error ResizeClient)
| NewResizerFromClient (c : ResizeClient) (timeout : Z) (k : KubeClient) (driverName : string) : csiE (result error Resizer)
| NewKubeClient : csiE (result error KubeClient)
| NewSnapClient : csiE (result error SnapClient)
| UnixNano : csiE Z
| Intn (n : Z) : csiE Z
| SetFeatureGates (gates : list (string * bool)) : csiE (option error)
| CsiGetenv (name : string) : csiE string
| LookupOwner (namespace name group version kind : string) (levels : Z) : csiE (result error OwnerReference)
| StartInformers (f : InformerFactory) : csiE unit
| WaitForCacheSync (f : InformerFactory) : csiE (list bool)
| RunWorker (w : Worker) : csiE unit
| ShutDownQueue (name : string) : csiE unit.

(** [defer grpcClient.Close()] on a path that returns the error. *)
Definition closing {A} (c : Conn) (err : error) : prog csiE (error + A) := call (CloseConn c);; Ret (inl err).

Definition ResyncPeriodOfCsiNodeInformer : Z := Hour.
Definition topologyQueue := "csitopology".
Definition managedByID := "external-provisioner".

(** strconv.FormatInt and strconv.Itoa of the time in milliseconds and the random number. *)
Definition identityOf (nano random : Z) (driverName : string) : string :=
  Itoa (Z.quot nano 1000000) +:+ "-" +:+ Itoa random +:+ "-" +:+ driverName.

Definition capacityInformers (driverName namespace : string) : InformerFactory :=
  CapacityInformers ResyncPeriodOfCsiNodeInformer namespace
    [("csi.storage.k8s.io/drivername", driverName); ("csi.storage.k8s.io/managed-by", managedByID)].

(** The four goroutines of the provisioner. *)
Definition provisionerWorkers (p : CSIProvisioner) (c : CapacityController) : list (prog csiE unit) :=
  [call (RunWorker (TopologyInformer (cp_driverName p) topologyQueue));
   call (RunWorker (Capacity c));
   call (RunWorker (CloningProtection (cp_controller p)));
   call (RunWorker (Provision (cp_driverName p) p c false true));; call (ShutDownQueue topologyQueue)].

(** Start of the provisioner up to its goroutines: an error, or the connection and what the
    goroutines run. *)
Definition provisionerPrepare (o : ProvisionerOptions) : prog csiE (error + Conn * list (prog csiE unit)) :=
  try grpcClient := call (Connect (CSIEndpoint o) (Metrics o) (CSIOperationTimeout o)) catch err => Ret (inl err) in
  try caps := call (GetDriverCapabilities grpcClient (CSIOperationTimeout o)) catch err => closing grpcClient err in
  try clientset := call NewKubeClient catch err => closing grpcClient err in
  try snapClient := call NewSnapClient catch err => closing grpcClient err in
  nano <- call UnixNano;;
  random <- call (Intn 10000);;
  guard call (SetFeatureGates [("Topology", true)]) catch err => closing grpcClient err in
  let provisioner := {| cp_client := clientset; cp_timeout := CSIOperationTimeout o;
    cp_identity := identityOf nano random (DriverName o); cp_volumeNamePrefix := "pvc"; cp_volumeNameUUIDLength := -1;
    cp_conn := grpcClient; cp_snapClient := snapClient; cp_driverName := DriverName o; cp_plugin := caps.1;
    cp_controller := caps.2; cp_strictTopology := false; cp_immediateTopology := true |} in
  namespace <- call (CsiGetenv "NAMESPACE");;
  if String.eqb namespace "" then
    closing grpcClient (EFmt "need NAMESPACE env variable for CSIStorageCapacity objects" [])
  else
  podName <- call (CsiGetenv "NAME");;
  if String.eqb podName "" then
    closing grpcClient (EFmt "need NAME env variable to determine CSIStorageCapacity owner" [])
  else
  try controllerRef := call (LookupOwner namespace podName "" "v1" "Pod" 2)
    catch err => closing grpcClient (wrapErr "look up owner(s) of pod failed" err) in
  let capacityController := {| cc_driverName := DriverName o; cc_owner := controllerRef; cc_managedByID := managedByID;
    cc_ownerNamespace := namespace; cc_pollPeriod := Minute; cc_immediateBinding := false;
    cc_timeout := CSIOperationTimeout o |} in
  let factory := Informers ResyncPeriodOfCsiNodeInformer in
  call (StartInformers factory);;
  call (StartInformers (capacityInformers (DriverName o) namespace));;
  synced <- call (WaitForCacheSync factory);;
  if existsb negb synced then closing grpcClient (EFmt "failed to sync Informers" [])
  else Ret (inr (grpcClient, provisionerWorkers provisioner capacityController)).

(** The goroutines run until all have ended, then the connection is closed. *)
Inductive goroutines_run (c : Conn) (ws : list (prog csiE unit)) : list (ev csiE) -> Prop :=
| goroutines tr results : parallel ws tr results -> goroutines_run c ws (tr ++ [Ev (CloseConn c) tt]).

Inductive Provisioner_Start (o : ProvisionerOptions) : list (ev csiE) -> option error -> Prop :=
| provisioner_failed tr err : runs (provisionerPrepare o) tr (inl err) -> Provisioner_Start o tr (Some err)
| provisioner_ran tr tr' c ws :
    runs (provisionerPrepare o) tr (inr (c, ws)) -> goroutines_run c ws tr' -> Provisioner_Start o (tr ++ tr') None.

Definition ResyncPeriodOfSnapshotInformer : Z := 15 * Minute.

Definition Snapshotter_Start (o : ProvisionerOptions) : prog csiE (option error) :=
  try grpcClient := call (Connect (CSIEndpoint o) false (CSIOperationTimeout o)) catch err => Ret (Some err) in
  try kubeClient := call NewKubeClient catch err => call (CloseConn grpcClient);; Ret (Some err) in
  try snapClient := call NewSnapClient catch err => call (CloseConn grpcClient);; Ret (Some err) in
  let ctrl := {| sn_snapClient := snapClient; sn_kubeClient := kubeClient; sn_driverName := DriverName o;
    sn_conn := grpcClient; sn_timeout := CSIOperationTimeout o; sn_resyncPeriod := ResyncPeriodOfSnapshotInformer;
    sn_namePrefix := "snapshot"; sn_nameUUIDLength := -1; sn_groupNamePrefix := "groupsnapshot";
    sn_groupNameUUIDLength := -1; sn_enableVolumeGroupSnapshots := false |} in
  call (StartInformers (SnapshotInformers ResyncPeriodOfSnapshotInformer));;
  call (StartInformers (Informers ResyncPeriodOfSnapshotInformer));;
  call (RunWorker (Snapshots ctrl));;
  call (CloseConn grpcClient);;
  Ret None.

Definition resyncPeriod : Z := 10 * Minute.
Definition retryIntervalStart : Z := Second.
Definition retryIntervalMax : Z := 5 * Minute.
Definition handleVolumeInUseError := true.
Definition workers : Z := 1.

Definition Resizer_Start (o : ProvisionerOptions) : prog csiE (option error) :=
  try csiClient := call (NewResizeClient (CSIEndpoint o) (CSIOperationTimeout o)) catch err => Ret (Some err) in
  try clientset := call NewKubeClient catch err => Ret (Some err) in
  try csiResizer := call (NewResizerFromClient csiClient (CSIOperationTimeout o) clientset (DriverName o))
    catch err => Ret (Some err) in
  let resizerController := {| rz_name := DriverName o; rz_resizer := csiResizer; rz_client := clientset;
    rz_resyncPeriod := resyncPeriod; rz_retryIntervalStart := retryIntervalStart;
    rz_retryIntervalMax := retryIntervalMax; rz_handleVolumeInUseError := handleVolumeInUseError; rz_maxRetry := Hour |} in
  call (StartInformers (Informers resyncPeriod));;
  call (RunWorker (Resizing resizerController workers));;
  Ret None.

(** * What the provisioner guarantees *)

Definition worker_of (v : ev csiE) : option Worker :=
  match v with @Ev _ X e _ => match e with RunWorker w => Some w | _ => None end end.
Definition closed_of (v : ev csiE) : option Conn :=
  match v with @Ev _ X e _ => match e with CloseConn c => Some c | _ => None end end.
Definition queue_shut (v : ev csiE) : bool :=
  match v with @Ev _ X e _ => match e with ShutDownQueue _ => true | _ => false end end.
Definition connected_of (v : ev csiE) : option Conn :=
  match v with
  | @Ev _ X e x =>
      match e in csiE X return X -> option Conn with
      | Connect _ _ _ => fun res => match res with Ok c => Some c | Err _ => None end
      | _ => fun _ => None
      end x
  end.

(** What is known when the goroutines start: the configuration of the workers comes from the
    options, the connection, the environment and the owner that were seen, and all caches were
    synchronized. *)
Record prepared (o : ProvisionerOptions) (c : Conn) (p : CSIProvisioner) (cap : CapacityController) (tr : list (ev csiE)) : Prop := {
  pr_connected : Ev (Connect (CSIEndpoint o) (Metrics o) (CSIOperationTimeout o)) (Ok c) ∈ tr;
  pr_conn : cp_conn p = c;
  pr_driver : cp_driverName p = DriverName o /\ cc_driverName cap = DriverName o;
  pr_capabilities : Ev (GetDriverCapabilities c (CSIOperationTimeout o)) (Ok (cp_plugin p, cp_controller p)) ∈ tr;
  pr_namespace : cc_ownerNamespace cap <> "" /\ Ev (CsiGetenv "NAMESPACE") (cc_ownerNamespace cap) ∈ tr;
  pr_owner : exists pod, pod <> "" /\ Ev (CsiGetenv "NAME") pod ∈ tr /\
    Ev (LookupOwner (cc_ownerNamespace cap) pod "" "v1" "Pod" 2) (Ok (cc_owner cap)) ∈ tr;
  pr_synced : exists synced, Forall (eq true) synced /\
    Ev (WaitForCacheSync (Informers ResyncPeriodOfCsiNodeInformer)) synced ∈ tr;
}.

Definition prepare_outcome (o : ProvisionerOptions) (r : error + Conn * list (prog csiE unit)) (tr : list (ev csiE)) : Prop :=
  omap worker_of tr = [] /\ existsb queue_shut tr = false /\
  match r with
  | inl err => omap closed_of tr = omap connected_of tr /\
      (forall c, c ∈ omap connected_of tr -> last tr = Some (Ev (CloseConn c) tt))
  | inr (c, ws) => omap connected_of tr = [c] /\ omap closed_of tr = [] /\
      exists p cap, ws = provisionerWorkers p cap /\ prepared o c p cap tr
  end.

(** A path that closes the connection and returns an error. *)
Ltac failed_closed := intros []; do 3 (split; [reflexivity|]); intros ? ->%list_elem_of_singleton; reflexivity.

Lemma prepare_spec o : wp (provisionerPrepare o) (prepare_outcome o).
Proof.
  unfold provisionerPrepare, closing.
  intros [c|err]; [|do 3 (split; [reflexivity|]); by intros ? ?%elem_of_nil].
  intros [[pc cc]|err]; [|failed_closed].
  intros [k|err]; [|failed_closed].
  intros [sc|err]; [|failed_closed].
  intros nano random [err|]; [failed_closed|].
  intros ns. cbn [wp pbind call]. destruct (String.eqb_spec ns "") as [|Hns]; [failed_closed|].
  intros pod. cbn [wp pbind call]. destruct (String.eqb_spec pod "") as [|Hpod]; [failed_closed|].
  intros [owner|err]; [|failed_closed].
  intros [] [] synced. cbn [wp pbind call]. destruct (existsb negb synced) eqn:Hsync; [failed_closed|].
  do 4 (split; [reflexivity|]). do 2 eexists. split; [reflexivity|]. constructor; simpl; try done; try set_solver.
  exists synced. split; [|set_solver]. apply Forall_forall. intros b Hb. destruct b; [done|].
  rewrite <- Hsync. symmetry. apply existsb_exists. exists false. by rewrite <- list_elem_of_In.
Qed.

(** In a trace with the goroutines, the topology queue is shut down only after the provision
    controller has ended. The queue itself is worked on by the topology informer, which ends on its
    own and may still be running then. *)
Definition provision_ended (before : list (ev csiE)) (v : ev csiE) : Prop :=
  queue_shut v = true -> exists driverName p cap le fin, Provision driverName p cap le fin ∈ omap worker_of before.

Definition provisioner_outcome (o : ProvisionerOptions) (tr : list (ev csiE)) (res : option error) : Prop :=
  omap closed_of tr = omap connected_of tr /\
  (forall c, c ∈ omap connected_of tr -> last tr = Some (Ev (CloseConn c) tt)) /\
  ordered provision_ended tr /\
  match res with
  | Some _ => omap worker_of tr = []
  | None => exists c p cap tr1 tr2, tr = tr1 ++ tr2 /\ omap worker_of tr1 = [] /\ prepared o c p cap tr1 /\
      Permutation (omap worker_of tr2)
        [TopologyInformer (DriverName o) topologyQueue; Capacity cap; CloningProtection (cp_controller p);
         Provision (DriverName o) p cap false true]
  end.

Lemma runs_call_inv {E} {X} (e : E X) tr x : runs (call e) tr x -> tr = [Ev e x].
Proof. intros H. by apply (wp_runs (call e) (fun x tr => tr = [Ev e x])) in H. Qed.

Lemma provision_ended_mono before before' v : provision_ended before v -> before ⊆ before' -> provision_ended before' v.
Proof.
  intros H Hsub (d & p & cap & le & fin & Hin)%H. exists d, p, cap, le, fin. revert Hin. rewrite !list_elem_of_omap.
  intros (w & ? & ?). exists w. auto.
Qed.

Lemma ordered_not_shut before tr : existsb queue_shut tr = false -> ordered (fun b => provision_ended (before ++ b)) tr.
Proof.
  intros H. apply ordered_Forall, Forall_forall. intros v Hv b Hq. exfalso.
  assert (existsb queue_shut tr = true) by (apply existsb_exists; exists v; by rewrite <- list_elem_of_In). congruence.
Qed.

(** The runs of the four goroutines. *)
Definition goroutineTraces (p : CSIProvisioner) (cap : CapacityController) : list (list (ev csiE)) :=
  [[Ev (RunWorker (TopologyInformer (cp_driverName p) topologyQueue)) tt]; [Ev (RunWorker (Capacity cap)) tt];
    [Ev (RunWorker (CloningProtection (cp_controller p))) tt];
    [Ev (RunWorker (Provision (cp_driverName p) p cap false true)) tt; Ev (ShutDownQueue topologyQueue) tt]].

Lemma provisioner_goroutines p cap tr results :
  parallel (provisionerWorkers p cap) tr results -> interleaved (goroutineTraces p cap) tr.
Proof.
  intros (rs & Hrs & Hi & _). unfold provisionerWorkers in Hrs.
  do 3 (apply Forall2_cons_inv_l in Hrs as ([? []] & ? & ?%runs_call_inv & Hrs & ->)).
  apply Forall2_cons_inv_l in Hrs as ([t []] & ? & Ht & ->%Forall2_nil_inv_l & ->).
  apply (wp_runs _ (fun _ tr => tr = [Ev (RunWorker (Provision (cp_driverName p) p cap false true)) tt;
    Ev (ShutDownQueue topologyQueue) tt])) in Ht; [|by intros [] []]. by simplify_eq/=.
Qed.

Lemma goroutines_ordered p cap l : l ∈ goroutineTraces p cap -> ordered provision_ended l.
Proof.
  unfold goroutineTraces.
  repeat (intros [->|H]%elem_of_cons; [order_steps; try done|revert H]); [|by intros ?%elem_of_nil].
  intros _. do 5 eexists. apply list_elem_of_here.
Qed.

(** The snapshotter closes its connection exactly once and last; snapshotter and resizer return an
    error exactly if their controller was not run, and otherwise ran it once, with the
    configuration of the options and the clients that were created. *)
Theorem sidecars_start_safe o :
  wp (Snapshotter_Start o) (fun res tr =>
    omap closed_of tr = omap connected_of tr /\
    (forall c, c ∈ omap connected_of tr -> last tr = Some (Ev (CloseConn c) tt)) /\
    match res with
    | Some _ => omap worker_of tr = []
    | None => exists c, omap worker_of tr = [Snapshots c] /\ sn_driverName c = DriverName o /\ omap connected_of tr = [sn_conn c] /\
        sn_enableVolumeGroupSnapshots c = false
    end) /\
  wp (Resizer_Start o) (fun res tr =>
    match res with
    | Some _ => omap worker_of tr = []
    | None => exists c client, omap worker_of tr = [Resizing c 1] /\ rz_name c = DriverName o /\
        Ev (NewResizerFromClient client (CSIOperationTimeout o) (rz_client c) (DriverName o)) (Ok (rz_resizer c)) ∈ tr
    end).
Proof.
  split.
  - unfold Snapshotter_Start.
    intros [c|err]; [|split_and!; [done| |done]; by intros ? ?%elem_of_nil].
    intros [k|err]; [|intros []; split_and!; [done| |done]; by intros ? ->%list_elem_of_singleton].
    intros [sc|err]; [|intros []; split_and!; [done| |done]; by intros ? ->%list_elem_of_singleton].
    intros [] [] [] []. split_and!; [done| |]; [by intros ? ->%list_elem_of_singleton|]. eexists. by split_and!.
  - unfold Resizer_Start. intros [c|err]; [|done]. intros [k|err]; [|done]. intros [rz|err]; [|done].
    intros [] []. eexists _, c. split; [reflexivity|]. split; [done|]. set_solver.
Qed.
End Sidecars.

(** * A run of the provisioner *)

Module CsiDemo.
#[local] Instance unitLib : CsiLib := {|
  Conn := unit; ResizeClient := unit; Resizer := unit; KubeClient := unit; SnapClient := unit;
  PluginCapabilities := unit; ControllerCapabilities := unit; OwnerReference := unit |}.

Definition demoOptions : ProvisionerOptions := mkProvisionerOptions "topolvm.io" "/run/topolvm/csi-topolvm.sock" (10 * Second) true.

(** An environment in which everything succeeds. *)
Definition answer (X : Type) (e : csiE X) (s : unit) : X * unit :=
  (match e in csiE X return X with
   | Connect _ _ _ | NewResizeClient _ _ | NewResizerFromClient _ _ _ _ | NewKubeClient | NewSnapClient
   | LookupOwner _ _ _ _ _ _ => Ok tt
   | GetDriverCapabilities _ _ => Ok (tt, tt)
   | UnixNano => 1700000000123456789%Z
   | Intn _ => 42%Z
   | SetFeatureGates _ => None
   | CsiGetenv name => name
   | WaitForCacheSync _ => [true; true]
   | CloseConn _ | StartInformers _ | RunWorker _ | ShutDownQueue _ => tt
   end, s).

Definition preparation : list (ev csiE) := (run answer (provisionerPrepare demoOptions) tt).2.
Definition demoProvisioner : CSIProvisioner :=
  mkCSIProvisioner tt (10 * Second) "1700000000123-42-topolvm.io" "pvc" (-1) tt tt "topolvm.io" tt tt false true.
Definition demoCapacity : CapacityController :=
  mkCapacityController "topolvm.io" tt managedByID "NAMESPACE" Minute false (10 * Second).
Definition demoTrace : list (ev csiE) :=
  preparation ++ concat (goroutineTraces demoProvisioner demoCapacity) ++ [Ev (CloseConn tt) tt].

Lemma demo_run : Provisioner_Start demoOptions demoTrace None.
Proof.
  eapply provisioner_ran with (c := tt) (ws := provisionerWorkers demoProvisioner demoCapacity).
  - exact (run_runs answer (provisionerPrepare demoOptions) tt).
  - apply (goroutines _ _ _ [tt; tt; tt; tt]). unfold provisionerWorkers, goroutineTraces. simpl concat.
    do 3 (apply (parallel_cons _ _ [_]); [repeat constructor|]).
    apply (parallel_cons _ _ [_; _] tt []); [repeat constructor|apply parallel_nil].
Qed.

End CsiDemo.
