(* ===== verification/OperatorStart.v ===== *)
(** The start of the operator: cmd/operator/operator.go (run, with the registration of the
    controllers and the CSI components), internal/cluster/type.go (the type of the cluster), internal/cluster/sno.go and
    internal/cluster/leaderelection.go (leader election settings). *)

From S2P Require Import Prelude GoStd Effects Api K8sDemo VgEnv Webhook Objects ClusterEnv Resources VgManagerDaemon Migration CsiRunners.

(** The OpenShift libraries for leader election and TLS, and meta.IsNoMatchError. *)
Class OpenShiftLib := {
  LeaderElection : Type;
  (** LeaderElectionDefaulting of a configuration with the given Disable *)
  LeaderElectionDefaulting : bool -> string -> string -> LeaderElection;
  LeaderElectionSNOConfig : LeaderElection -> LeaderElection;
  TLSProfileSpec : Type;
  IsNoMatchError : error -> bool;
}.

(** * The manager *)

(** ctrl.Options, as far as they depend on what was found out before: the namespaces of the cached
    kinds, the TLS profile of the servers and the leader election. *)
Record ManagerOptions `{O : OpenShiftLib} := mkManagerOptions {
  mo_ByObject : list (string * string); mo_TLSProfile : TLSProfileSpec;
  mo_LeaderElectionNamespace : string; mo_LeaderElection : LeaderElection;
}.
Arguments mkManagerOptions {O} _ _ _ _.

Inductive Runnable :=
| GRPCRunner (r : GrpcRunner.gRPCServerRunner)
| Provisioner (o : ProvisionerOptions)
| Snapshotter (o : ProvisionerOptions)
| ResizerRunner (o : ProvisionerOptions).

(** NeedLeaderElection of the four runners. *)
Definition NeedLeaderElection (r : Runnable) : bool :=
  match r with
  | GRPCRunner g => GrpcRunner.NeedLeaderElection g
  | Provisioner _ | Snapshotter _ | ResizerRunner _ => true
  end.

(** What is set up with or added to the manager. [ControllerServer] is the CSI controller service of
    TopoLVM, with the minimal sizes of filesystems and of block volumes. *)
Inductive Registration `{O : OpenShiftLib} :=
| TLSWatcher (initial : TLSProfileSpec)
| LVMClusterController (r : ClusterReconciler)
| NodeRemovalController (namespace : string)
| LVMClusterWebhook
| PersistentVolumeController
| PersistentVolumeClaimController
| TopoLVMNodeReconciler (skipNodeFinalize : bool)
| TopoLVMPersistentVolumeClaimReconciler
| ControllerServer (filesystem : list (string * string)) (block : string)
| Add (r : Runnable)
| HealthzCheck (name : string)
| ReadyzCheck (name : string).

(** What the start asks its environment. [RunCleanup] is RemovePreMicroLVMSComponents, and
    [StartManager] runs the manager until its context ends. *)
Inductive startE `{K : K8s} `{O : OpenShiftLib} : Type -> Type :=
| OfEnvironment X (e : webhookE X) : startE X
| NewSetupClient : startE (option error)
| ListControlPlaneNodes (label : string) : startE (result error (list string))
| GetInfrastructure (name : string) : startE (option error)
| GetConfigMap (namespace name : string) : startE (option error)
| ListSnapshotClasses (limit : Z) : startE (option error)
| RunCleanup (namespace : string) : startE (option error)
| OfAnnotation X (e : migrationE X) : startE X
| FetchTLSProfile : startE (result error TLSProfileSpec)
| NewManager (o : ManagerOptions) : startE (option error)
| Register (r : Registration) : startE (option error)
| StartManager : startE (option error).

Section Start.
Context `{K : K8s} `{O : OpenShiftLib}.

(** * internal/cluster *)

Definition ControlPlaneIDLabel := "node-role.kubernetes.io/control-plane".

Definition IsSNO : prog startE (result error bool) :=
  try nodes := call (ListControlPlaneNodes ControlPlaneIDLabel)
    catch err => Ret (Err (wrapErr "unable to retrieve nodes for SNO check with lease configuration" err)) in
  Ret (Ok (length nodes =? 1)%nat).

Definition NewLeaderElectionResolver (enableLeaderElection : bool) (operatorNamespace : string) : LeaderElection :=
  LeaderElectionDefaulting (negb enableLeaderElection) operatorNamespace LeaseName.

Definition ResolveLeaderElection (defaultElectionConfig : LeaderElection) : prog startE (result error LeaderElection) :=
  try isSNO := IsSNO catch err => Ret (Err err) in
  Ret (Ok (if negb isSNO then defaultElectionConfig else LeaderElectionSNOConfig defaultElectionConfig)).

Definition DefaultGetType : prog startE (result error ClusterType) :=
  err <- call (GetInfrastructure "cluster");;
  match err with
  | None => Ret (Ok TypeOCP)
  | Some err =>
      if IsNotFound err then Ret (Ok TypeOther)
      else if IsNoMatchError err then
        version <- call (GetConfigMap "kube-public" "microshift-version");;
        Ret (Ok match version with None => TypeMicroShift | Some _ => TypeOther end)
      else Ret (Err (wrapErr "failed to get Openshift Infrastructure 'cluster'" err))
  end.

(** CachedTypeResolver.GetType with its atomic pointer. *)
Definition CachedGetType (cached : option ClusterType) : prog startE (result error ClusterType * option ClusterType) :=
  match cached with
  | Some t => Ret (Ok t, Some t)
  | None =>
      try t := DefaultGetType catch err => Ret (Err err, None) in
      Ret (Ok t, Some t)
  end.

(** * cmd/operator/operator.go *)

(** Snapshots are disabled only when their API does not exist. *)
Definition snapshottingEnabled : prog startE bool :=
  err <- call (ListSnapshotClasses 1);;
  Ret match err with Some err => negb (IsNoMatchError err) | None => true end.

Definition cachedKinds : list string := ["LVMCluster"; "LVMVolumeGroup"; "LVMVolumeGroupNodeStatus"; "Deployment"; "DaemonSet"].
Definition managerOptions (operatorNamespace : string) (tlsProfile : TLSProfileSpec) (election : LeaderElection) : ManagerOptions :=
  mkManagerOptions (map (fun kind => (kind, operatorNamespace)) cachedKinds) tlsProfile operatorNamespace election.

(** internal/controllers/constants *)
Definition DefaultMinimumAllocationSizeBlock := "8Mi".
Definition DefaultMinimumAllocationSizeXFS := "300Mi".
Definition DefaultMinimumAllocationSizeExt4 := "32Mi".

Definition sidecarOptions (metrics : bool) : ProvisionerOptions :=
  mkProvisionerOptions TopolvmCSIDriverName DefaultCSISocket (10 * Second) metrics.

(** What run registers, in order, with the context of the error where it is wrapped. *)
Definition registrations (tlsProfile : TLSProfileSpec) (r : ClusterReconciler) : list (Registration * option string) :=
  [(TLSWatcher tlsProfile, Some "unable to create controller for TLS config observation");
   (LVMClusterController r, Some "unable to create LVMCluster controller");
   (NodeRemovalController (cr_Namespace r), Some "unable to create NodeRemovalController controller");
   (LVMClusterWebhook, Some "unable to create LVMCluster webhook");
   (PersistentVolumeController, Some "unable to create PersistentVolume controller");
   (PersistentVolumeClaimController, Some "unable to create PersistentVolumeClaim controller");
   (TopoLVMNodeReconciler false, Some "unable to create TopoLVM Node controller");
   (TopoLVMPersistentVolumeClaimReconciler, Some "unable to create TopoLVM PVC controller");
   (ControllerServer [(DeviceFilesystemType_string FilesystemTypeExt4, DefaultMinimumAllocationSizeExt4);
                      (DeviceFilesystemType_string FilesystemTypeXFS, DefaultMinimumAllocationSizeXFS)] DefaultMinimumAllocationSizeBlock, None);
   (Add (GRPCRunner (GrpcRunner.mkRunner DefaultCSISocket false)), None);
   (Add (Provisioner (sidecarOptions true)), Some "unable to create CSI Provisioner")] ++
  (if cr_EnableSnapshotting r then [(Add (Snapshotter (sidecarOptions false)), Some "unable to create CSI Snapshotter")] else []) ++
  [(Add (ResizerRunner (sidecarOptions false)), None);
   (HealthzCheck "healthz", Some "unable to set up health check");
   (ReadyzCheck "readyz", Some "unable to set up health check")].

Definition register (reg : Registration * option string) (_ : unit) : prog startE (unit + error) :=
  guard call (Register reg.1)
    catch err => Ret (inr match reg.2 with Some ctx => wrapErr ctx err | None => err end) in
  Ret (inl tt).

(** The part of run from the construction of the manager. *)
Definition runManager (tlsProfile : TLSProfileSpec) (election : LeaderElection) (r : ClusterReconciler) : prog startE (option error) :=
  guard call (NewManager (managerOptions (cr_Namespace r) tlsProfile election))
    catch err => Ret (Some (wrapErr "unable to start manager" err)) in
  registered <- for_each register (registrations tlsProfile r) tt;;
  match registered with
  | inr err => Ret (Some err)
  | inl _ =>
      guard call StartManager catch err => Ret (Some (wrapErr "problem running manager" err)) in
      Ret None
  end.

Definition operatorRun (enableLeaderElection : bool) (vgManagerCommand : list string) (logOptions : VGmanagerOptions)
  : prog startE (option error) :=
  try operatorNamespace := translate OfEnvironment GetOperatorNamespace
    catch err => Ret (Some (wrapErr "unable to get operatorNamespace" err)) in
  guard call NewSetupClient
    catch err => Ret (Some (wrapErr "unable to initialize setup client for pre-manager startup checks" err)) in
  try election := ResolveLeaderElection (NewLeaderElectionResolver enableLeaderElection operatorNamespace)
    catch err => Ret (Some (wrapErr "unable to resolve leader election config" err)) in
  ' (clusterType, _) <- CachedGetType None;;
  match clusterType with
  | Err err => Ret (Some (wrapErr "unable to determine cluster type" err))
  | Ok clusterType =>
      enableSnapshotting <- snapshottingEnabled;;
      guard call (RunCleanup operatorNamespace)
        catch err => Ret (Some (wrapErr "failed to run pre 4.16 MicroLVMS cleanup" err)) in
      guard translate OfAnnotation (AnnotateExistingLVMVolumeGroupsIfWipingEnabled operatorNamespace)
        catch err => Ret (Some (wrapErr "failed to run wipe migration logic" err)) in
      try tlsProfile := call FetchTLSProfile
        catch err => Ret (Some (wrapErr "failed to get tls profile" err)) in
      runManager tlsProfile election
        (mkClusterReconciler clusterType enableSnapshotting operatorNamespace vgManagerCommand logOptions)
  end.

(** readyCheck and the check of the webhook server. *)
Definition operatorReady (cacheSynced : bool) (webhookStarted : option error) : option error :=
  if negb cacheSynced then Some (EFmt "informer cache not synced and thus not ready" []) else webhookStarted.

(** * What holds when the controllers start *)

(** The start of the manager, with its answer. *)
Definition started_of (v : ev startE) : option (option error) :=
  match v with
  | @Ev _ X e x => match e in startE X return X -> option (option error) with StartManager => Some | _ => fun _ => None end x
  end.
(** A registration without an error. *)
Definition registered_of (v : ev startE) : option Registration :=
  match v with
  | @Ev _ X e x =>
      match e in startE X return X -> option Registration with
      | Register reg => fun err => match err with None => Some reg | Some _ => None end
      | _ => fun _ => None
      end x
  end.

(** The type agrees with what was read. *)
Definition type_seen (t : ClusterType) (tr : list (ev startE)) : Prop :=
  match t with
  | TypeOCP => Ev (GetInfrastructure "cluster") None ∈ tr
  | TypeMicroShift =>
      (exists err, IsNoMatchError err = true /\ Ev (GetInfrastructure "cluster") (Some err) ∈ tr) /\
      Ev (GetConfigMap "kube-public" "microshift-version") None ∈ tr
  | TypeOther => exists err, (IsNotFound err = true \/ IsNoMatchError err = true) /\ Ev (GetInfrastructure "cluster") (Some err) ∈ tr
  end.

(** Both migrations have come to their end, without an error. *)
Definition migrated (namespace : string) (tr : list (ev startE)) : Prop :=
  Ev (RunCleanup namespace) None ∈ tr /\
  exists mtr, runs (AnnotateExistingLVMVolumeGroupsIfWipingEnabled namespace) mtr None /\
    map (translate_ev OfAnnotation) mtr ⊆ tr.

Lemma DefaultGetType_spec : wp DefaultGetType (fun res tr =>
  (forall t, res = Ok t -> type_seen t tr) /\ omap started_of tr = []).
Proof.
  unfold DefaultGetType. apply wp_call. intros [err|]; cbn [wp].
  - destruct (IsNotFound err) eqn:Hnf; [|destruct (IsNoMatchError err) eqn:Hnm]; cbn [wp].
    + split; [|done]. intros t [= <-]. exists err. split; [by left|apply list_elem_of_here].
    + apply wp_call. intros [err'|]; cbn [wp]; (split; [|done]); intros t [= <-].
      * exists err. split; [by right|apply list_elem_of_here].
      * split; [exists err; split; [done|apply list_elem_of_here]|]. apply list_elem_of_further, list_elem_of_here.
    + by split.
  - split; [|done]. intros t [= <-]. apply list_elem_of_here.
Qed.

Lemma started_environment tr : omap started_of (map (translate_ev OfEnvironment) tr) = [].
Proof. induction tr as [|[X e x] tr IH]; [done|]. exact IH. Qed.
Lemma started_annotation tr : omap started_of (map (translate_ev OfAnnotation) tr) = [].
Proof. induction tr as [|[X e x] tr IH]; [done|]. exact IH. Qed.

(** The sidecars connect to the socket on which a gRPC server of every replica listens, and run only
    on the leader; the snapshotter is among them exactly if snapshots are enabled. *)
Definition sidecars_served (enableSnapshotting : bool) (regs : list Registration) : Prop :=
  (exists g, Add (GRPCRunner g) ∈ regs /\ GrpcRunner.sockFile g = DefaultCSISocket /\ NeedLeaderElection (GRPCRunner g) = false) /\
  (forall r, Add r ∈ regs ->
    match r with
    | GRPCRunner g => True
    | Provisioner o | Snapshotter o | ResizerRunner o =>
        CSIEndpoint o = DefaultCSISocket /\ DriverName o = TopolvmCSIDriverName /\ NeedLeaderElection r = true
    end) /\
  ((exists o, Add (Snapshotter o) ∈ regs) <-> enableSnapshotting = true).

(** Every component of the operator is registered: the watcher of the TLS profile, the controllers of
    clusters, nodes, volumes and claims, the webhook, the controllers and the server of TopoLVM, the
    gRPC server with the provisioner and the resizer, and the probes. *)
Definition components_registered (tlsProfile : TLSProfileSpec) (r : ClusterReconciler) (regs : list Registration) : Prop :=
  TLSWatcher tlsProfile ∈ regs /\ LVMClusterController r ∈ regs /\ NodeRemovalController (cr_Namespace r) ∈ regs /\
  LVMClusterWebhook ∈ regs /\ PersistentVolumeController ∈ regs /\ PersistentVolumeClaimController ∈ regs /\
  (exists skip, TopoLVMNodeReconciler skip ∈ regs) /\ TopoLVMPersistentVolumeClaimReconciler ∈ regs /\
  (exists sizes block, ControllerServer sizes block ∈ regs) /\ (exists g, Add (GRPCRunner g) ∈ regs) /\
  (exists o, Add (Provisioner o) ∈ regs) /\ (exists o, Add (ResizerRunner o) ∈ regs) /\
  HealthzCheck "healthz" ∈ regs /\ ReadyzCheck "readyz" ∈ regs.

(** The manager was started last, after everything it depends on, with everything registered. *)
Definition started_ready (res : option error) (tr : list (ev startE)) : Prop :=
  exists pre regs out election tlsProfile r,
    tr = (pre ++ Ev (NewManager (managerOptions (cr_Namespace r) tlsProfile election)) None :: regs) ++ [Ev StartManager out] /\
    res = wrapErr "problem running manager" <$> out /\ omap started_of (pre ++ regs) = [] /\
    migrated (cr_Namespace r) pre /\ type_seen (cr_ClusterType r) pre /\
    (cr_EnableSnapshotting r = false -> exists err, IsNoMatchError err = true /\ Ev (ListSnapshotClasses 1) (Some err) ∈ pre) /\
    Ev FetchTLSProfile (Ok tlsProfile) ∈ pre /\
    omap registered_of regs = map fst (registrations tlsProfile r) /\
    components_registered tlsProfile r (omap registered_of regs) /\
    sidecars_served (cr_EnableSnapshotting r) (omap registered_of regs).

(** Either the start failed before the controllers, or they were started. *)
Definition start_outcome (res : option error) (tr : list (ev startE)) : Prop :=
  (omap started_of tr = [] /\ is_Some res) \/ started_ready res tr.

Lemma type_seen_mono t tr tr' : tr ⊆ tr' -> type_seen t tr -> type_seen t tr'.
Proof. intros Hsub. destruct t; simpl; naive_solver. Qed.

(** A step that calls nothing but what is known not to start the controllers. *)
Lemma start_step {A} (p : prog startE A) (f : A -> prog startE (option error)) (Q : A -> list (ev startE) -> Prop) pre :
  omap started_of pre = [] -> wp p (fun a tr => Q a tr /\ omap started_of tr = []) ->
  (forall a tr, Q a tr -> omap started_of (pre ++ tr) = [] ->
     wp (f a) (fun res tr' => start_outcome res ((pre ++ tr) ++ tr'))) ->
  wp (pbind p f) (fun res tr => start_outcome res (pre ++ tr)).
Proof.
  intros Hpre Hp Hf. apply wp_bind. eapply wp_mono; [exact Hp|]. intros a tr [HQ Htr].
  eapply wp_mono; [apply (Hf a tr HQ); by rewrite omap_app, Hpre, Htr|]. intros res tr' H. by rewrite app_assoc.
Qed.

(** A call that does not start the controllers. *)
Lemma start_call {X} (e : startE X) : (forall x, started_of (Ev e x) = None) ->
  wp (call e) (fun x tr => tr = [Ev e x] /\ omap started_of tr = []).
Proof. intros He x. split; [done|]. by rewrite omap_skip. Qed.

(** The registrations either all succeed, in order, or the first error is returned. *)
Lemma register_all regs :
  wp (for_each register regs tt) (fun res tr => omap started_of tr = [] /\ (res = inl tt -> omap registered_of tr = map fst regs)).
Proof.
  induction regs as [|reg regs IH]; [done|]. intros [err|]; [by split|]. cbn [pbind]. eapply wp_mono; [exact IH|].
  intros res tr [Hs Hr]. split; [done|]. intros H%Hr. change (reg.1 :: omap registered_of tr = reg.1 :: map fst regs). by rewrite H.
Qed.

Lemma registrations_served tlsProfile r : sidecars_served (cr_EnableSnapshotting r) (map fst (registrations tlsProfile r)).
Proof.
  unfold sidecars_served, registrations. split_and!.
  - exists (GrpcRunner.mkRunner DefaultCSISocket false). split; [|by split]. rewrite map_app, elem_of_app. left. set_solver.
  - intros rn. destruct (cr_EnableSnapshotting r); simpl; rewrite !elem_of_cons, elem_of_nil;
      intros Hin; repeat destruct Hin as [Hin|Hin]; simplify_eq; done.
  - destruct (cr_EnableSnapshotting r); simpl; [split; [done|]; intros _; exists (sidecarOptions false); set_solver|].
    split; [|done]. intros [o Hin]. rewrite !elem_of_cons, elem_of_nil in Hin. by repeat destruct Hin as [Hin|Hin].
Qed.

Lemma registrations_complete tlsProfile r : components_registered tlsProfile r (map fst (registrations tlsProfile r)).
Proof.
  unfold components_registered, registrations. destruct (cr_EnableSnapshotting r); cbn [app map fst];
    split_and!; repeat eexists; repeat first [apply list_elem_of_here|apply list_elem_of_further].
Qed.

(** From the construction of the manager on, given what was seen before. *)
Lemma runManager_outcome tlsProfile election r pre :
  omap started_of pre = [] -> Ev FetchTLSProfile (Ok tlsProfile) ∈ pre -> migrated (cr_Namespace r) pre ->
  type_seen (cr_ClusterType r) pre ->
  (cr_EnableSnapshotting r = false -> exists err, IsNoMatchError err = true /\ Ev (ListSnapshotClasses 1) (Some err) ∈ pre) ->
  wp (runManager tlsProfile election r) (fun res tr => start_outcome res (pre ++ tr)).
Proof.
  intros Hpre Htls Hmig Htype Hsnap. unfold runManager.
  apply (start_step _ _ (fun a tr => tr = [Ev (NewManager (managerOptions (cr_Namespace r) tlsProfile election)) a])); [done|by apply start_call|].
  intros [err|] tr1 -> H1.
  { left. rewrite app_nil_r. split; [done|by eexists]. }
  apply (start_step _ _ (fun res tr => res = inl tt -> omap registered_of tr = map fst (registrations tlsProfile r))); [done| |].
  { eapply wp_mono; [apply register_all|]. by intros a tr [? ?]. }
  intros [[]|err] tr2 Hreg H2.
  2: { left. rewrite app_nil_r. split; [done|by eexists]. }
  assert (Hdone : forall out : option error, start_outcome (wrapErr "problem running manager" <$> out)
    (((pre ++ [Ev (NewManager (managerOptions (cr_Namespace r) tlsProfile election)) None]) ++ tr2) ++ [Ev StartManager out])).
  { intros out. right. exists pre, tr2, out, election, tlsProfile, r. rewrite (Hreg eq_refl). split_and!; try done.
    - by rewrite <- (app_assoc pre).
    - rewrite !omap_app, Hpre in H2. rewrite omap_app, Hpre. exact H2.
    - apply registrations_complete.
    - apply registrations_served. }
  intros [err|]; [apply (Hdone (Some err))|apply (Hdone None)].
Qed.

(** C17: the operator starts its manager at most once and as the last thing it does, and only
    after the migrations have ended without an error (so that no vgmanager is rolled out that
    would wipe devices again), with the type of cluster that was seen and with snapshots unless
    their API was seen to be missing, and with every controller, webhook and CSI component
    registered: the CSI sidecars run on the leader and connect to the socket every replica
    serves. Otherwise the start fails with an error. *)
Theorem operator_start_safe enableLeaderElection vgManagerCommand logOptions :
  wp (operatorRun enableLeaderElection vgManagerCommand logOptions) start_outcome.
Proof.
  assert (Hfail : forall err (tr : list (ev startE)), omap started_of tr = [] ->
    wp (E := startE) (Ret (Some err)) (fun res tr' => start_outcome res (tr ++ tr'))).
  { intros err tr Htr. left. rewrite app_nil_r. split; [done|by eexists]. }
  unfold operatorRun. eapply wp_mono with (Q := fun res tr => start_outcome res ([] ++ tr)); [|done].
  apply (start_step _ _ (fun _ _ => True)); [done| |].
  { apply wp_translate, wp_intro. intros a tr. split; [done|apply started_environment]. }
  intros [ns|err] tr1 _ H1; [|by apply Hfail].
  apply (start_step _ _ (fun _ _ => True)); [done|eapply wp_mono; [by apply start_call|by intros ? ? [_ ?]]|].
  intros [err|] tr2 _ H2; [by apply Hfail|].
  apply (start_step _ _ (fun _ _ => True)); [done| |].
  { unfold ResolveLeaderElection, IsSNO. apply wp_bind, wp_call. intros [nodes|err]; by cbn [wp]. }
  intros [election|err] tr3 _ H3; [|by apply Hfail].
  apply (start_step _ _ (fun a tr => forall t, a.1 = Ok t -> type_seen t tr)); [done| |].
  { unfold CachedGetType. apply wp_bind. eapply wp_mono; [apply DefaultGetType_spec|].
    intros [t|err] tr [Ht Hs]; cbn [wp]; rewrite app_nil_r; (split; [|done]); [|done]. intros t' [= <-]. by apply Ht. }
  intros [[clusterType|err] cached] tr4 Htype H4; [|by apply Hfail]. specialize (Htype clusterType eq_refl).
  apply (start_step _ _ (fun b tr => b = false -> exists err, IsNoMatchError err = true /\ Ev (ListSnapshotClasses 1) (Some err) ∈ tr)); [done| |].
  { unfold snapshottingEnabled. apply wp_call. intros [err|]; cbn [wp]; (split; [|done]); [|done].
    intros Hnm%negb_false_iff. exists err. split; [done|apply list_elem_of_here]. }
  intros snapshots tr5 Hsnap H5.
  apply (start_step _ _ (fun a tr => tr = [Ev (RunCleanup ns) a])); [done|by apply start_call|].
  intros [err|] tr6 -> H6; [by apply Hfail|].
  apply (start_step _ _ (fun a tr => exists mtr, tr = map (translate_ev OfAnnotation) mtr /\
    runs (AnnotateExistingLVMVolumeGroupsIfWipingEnabled ns) mtr a)); [done| |].
  { apply wp_translate. eapply wp_mono; [apply wp_self|]. intros a mtr Hm. split; [by exists mtr|apply started_annotation]. }
  intros [err|] tr7 (mtr & -> & Hm) H7; [by apply Hfail|].
  apply (start_step _ _ (fun a tr => tr = [Ev FetchTLSProfile a])); [done|by apply start_call|].
  intros [tlsProfile|err] tr8 -> H8; [|by apply Hfail].
  apply runManager_outcome; simpl; [done|set_solver|split; [set_solver|exists mtr; split; [done|set_solver]]| |].
  - eapply type_seen_mono; [|exact Htype]. set_solver.
  - intros (err & ? & ?)%Hsnap. exists err. split; [done|set_solver].
Qed.
End Start.
