(* ===== verification/Commands.v ===== *)
(** The command line: cmd/main.go (the root command and its subcommands), the flags of
    cmd/operator and cmd/vgmanager (NewCmd) and of internal/controllers/lvmcluster/logpassthrough.

    A flag set is a list of flags; a flag is bound to a variable of the state [S] by what setting it
    does, which fails on a value it does not accept. How flag sets are joined and command lines
    parsed (github.com/spf13/pflag, and cobra on top of it) is a parameter. *)

From Stdlib Require Import Ascii.
From S2P Require Import Prelude GoStd Effects Api VgEnv K8sDemo Objects ClusterStatus ClusterEnv Resources VgManagerDaemon CsiRunners OperatorStart.

(** * Flags *)

Record Flag (S : Type) := mkFlag { fl_Name : string; fl_Usage : string; fl_Set : string -> S -> option S }.
Arguments mkFlag {S} _ _ _.
Arguments fl_Name {S} _.
Arguments fl_Usage {S} _.
Arguments fl_Set {S} _ _ _.

Definition names {S} (fs : list (Flag S)) : list string := map fl_Name fs.

(** A flag bound to a part of the state. *)
Definition on_part {S T} (get : T -> S) (put : S -> T -> T) (f : Flag S) : Flag T :=
  mkFlag (fl_Name f) (fl_Usage f) (fun v t => s ← fl_Set f v (get t); Some (put s t)).

(** The long form of an argument. *)
Definition long (arg : string * string) : string := "--" +:+ arg.1 +:+ "=" +:+ arg.2.

(** What the arguments do, one after the other. *)
Fixpoint assign {S} (fs : list (Flag S)) (args : list (string * string)) (s : S) : option S :=
  match args with
  | [] => Some s
  | (n, v) :: args =>
      match find_first (fun f => String.eqb (fl_Name f) n) fs with
      | Some f => s ← fl_Set f v s; assign fs args s
      | None => None
      end
  end.

(** The name of a flag holds no equals sign. *)
Fixpoint plain (s : string) : bool :=
  match s with
  | EmptyString => true
  | String c s => negb (Ascii.eqb c "="%char) && plain s
  end.

(** pflag: FlagSet.AddFlagSet, FlagSet.Parse and the values of a StringSlice flag. *)
Class PFlag := {
  AddFlagSet : forall {S}, list (Flag S) -> list (Flag S) -> list (Flag S);
  Parse : forall {S}, list (Flag S) -> list string -> S -> result error S;
  readAsCSV : string -> option (list string);
}.

(** A flag that is present already is not added again; arguments of the form [--name=value] set the
    flags of these names. *)
Class PFlagLaws (P : PFlag) := {
  AddFlagSet_spec : forall S (fs new : list (Flag S)), NoDup (names fs) -> NoDup (names new) ->
    NoDup (names (AddFlagSet fs new)) /\
    forall f, f ∈ AddFlagSet fs new <-> f ∈ fs \/ f ∈ new /\ fl_Name f ∉ names fs;
  Parse_long : forall S (fs : list (Flag S)) args s s', NoDup (names fs) ->
    Forall (fun arg => plain arg.1 = true) args -> assign fs args s = Some s' -> Parse fs (map long args) s = Ok s';
}.

(** The flags of klog and of zap in controller-runtime, with the settings they are bound to. *)
Class LogLibs := {
  Logging : Type;
  klogFlags : list (Flag Logging);
  zapFlags : list (Flag Logging);
}.

(** ** Standard flag values *)

(** [flag.StringVar] *)
Definition StringVar {S} (name usage : string) (put : string -> S -> S) : Flag S :=
  mkFlag name usage (fun v s => Some (put v s)).

(** [strconv.ParseBool] *)
Definition ParseBool (s : string) : option bool :=
  if contains_str ["1"; "t"; "T"; "true"; "TRUE"; "True"] s then Some true
  else if contains_str ["0"; "f"; "F"; "false"; "FALSE"; "False"] s then Some false
  else None.

Definition BoolVar {S} (name usage : string) (put : bool -> S -> S) : Flag S :=
  mkFlag name usage (fun v s => b ← ParseBool v; Some (put b s)).

(** * logpassthrough/options.go *)

Definition KlogOptions_BindFlags : list (Flag KlogOptions) :=
  [StringVar "v" "number for the log level verbosity" (fun v o => mkKlogOptions v (klog_VModule o));
   StringVar "vmodule" "comma-separated list of pattern=N settings for file-filtered logging"
     (fun v o => mkKlogOptions (klog_V o) v)].

Definition ZapOptions_BindFlags : list (Flag ZapOptions) :=
  [StringVar "zap-log-level"
     ("Zap Level to configure the verbosity of logging. Can be one of 'debug', 'info', 'error', " +:+
      "or any integer value > 0 which corresponds to custom debug levels of increasing verbosity")
     (fun v _ => mkZapOptions v)].

Definition NewOptions : VGmanagerOptions := mkVGmanagerOptions (mkKlogOptions "" "") (mkZapOptions "").

Section Bind.
Context `{P : PFlag}.

(** The callback of VisitAll. *)
Definition with_prefix {S} (prefix : string) (f : Flag S) : Flag S :=
  mkFlag (prefix +:+ "-" +:+ fl_Name f) (prefix +:+ ": " +:+ fl_Usage f) (fl_Set f).

Definition bindFlagsWithPrefix {S} (temp fs : list (Flag S)) (prefix : string) : list (Flag S) :=
  AddFlagSet fs (map (with_prefix prefix) temp).

Definition VGmanagerOptions_BindFlags (fs : list (Flag VGmanagerOptions)) : list (Flag VGmanagerOptions) :=
  let klog := map (on_part vgo_KlogOptions (fun k o => mkVGmanagerOptions k (vgo_ZapOptions o))) KlogOptions_BindFlags in
  let zap := map (on_part vgo_ZapOptions (fun z o => mkVGmanagerOptions (vgo_KlogOptions o) z)) ZapOptions_BindFlags in
  bindFlagsWithPrefix zap (bindFlagsWithPrefix klog fs "vgmanager") "vgmanager".

(** * cmd/operator/operator.go *)

(** The fields of Options that are bound to flags. *)
Record OperatorOptions := mkOperatorOptions {
  diagnosticsAddr : string; healthProbeAddr : string; enableLeaderElection : bool;
  op_LogPassthroughOptions : VGmanagerOptions; vgManagerCommand : list string;
}.

Definition DefaultDiagnosticsAddr := ":8443".
Definition DefaultProbeAddr := ":8081".
Definition DefaultEnableLeaderElection := false.
Definition DefaultVGManagerCommand := ["/lvms"; "vgmanager"].

Definition defaultOperatorOptions : OperatorOptions :=
  mkOperatorOptions DefaultDiagnosticsAddr DefaultProbeAddr DefaultEnableLeaderElection NewOptions DefaultVGManagerCommand.

Definition with_log (l : VGmanagerOptions) (o : OperatorOptions) : OperatorOptions :=
  mkOperatorOptions (diagnosticsAddr o) (healthProbeAddr o) (enableLeaderElection o) l (vgManagerCommand o).

(** The flags NewCmd adds itself. *)
Definition operatorOwnFlags : list (Flag OperatorOptions) :=
  [StringVar "diagnostics-address" "The address the diagnostics endpoint binds to."
     (fun v o => mkOperatorOptions v (healthProbeAddr o) (enableLeaderElection o) (op_LogPassthroughOptions o) (vgManagerCommand o));
   StringVar "health-probe-bind-address" "The address the probe endpoint binds to."
     (fun v o => mkOperatorOptions (diagnosticsAddr o) v (enableLeaderElection o) (op_LogPassthroughOptions o) (vgManagerCommand o));
   BoolVar "leader-elect"
     "Enable leader election for controller manager. Enabling this will ensure there is only one active controller manager."
     (fun b o => mkOperatorOptions (diagnosticsAddr o) (healthProbeAddr o) b (op_LogPassthroughOptions o) (vgManagerCommand o));
   mkFlag "vgmanager-cmd"
     "The command that should be used to start vgmanager on the node. Useful for debugging purposes but normally not changed."
     (fun v o => command ← readAsCSV v;
        Some (mkOperatorOptions (diagnosticsAddr o) (healthProbeAddr o) (enableLeaderElection o) (op_LogPassthroughOptions o) command))].

Definition operatorFlags : list (Flag OperatorOptions) :=
  map (on_part op_LogPassthroughOptions with_log) (VGmanagerOptions_BindFlags []) ++ operatorOwnFlags.

(** * cmd/vgmanager/vgmanager.go *)

Record VgCommandOptions := mkVgCommandOptions { vg_diagnosticsAddr : string; vg_healthProbeAddr : string }.
Definition DefaultHealthProbeAddr := ":8081".
Definition defaultVgOptions : VgCommandOptions := mkVgCommandOptions DefaultDiagnosticsAddr DefaultHealthProbeAddr.

Definition vgmanagerFlags : list (Flag VgCommandOptions) :=
  [StringVar "diagnosticsAddr" "The address the diagnostics endpoint binds to." (fun v o => mkVgCommandOptions v (vg_healthProbeAddr o));
   StringVar "health-probe-bind-address" "The address the probe endpoint binds to." (fun v o => mkVgCommandOptions (vg_diagnosticsAddr o) v)].

(** * cmd/main.go *)

Context `{G : LogLibs}.

(** The flags of a subcommand with the persistent ones of the root command. *)
Definition persistentFlags : list (Flag Logging) := AddFlagSet (AddFlagSet [] klogFlags) zapFlags.
Definition commandFlags {S} (own : list (Flag S)) : list (Flag (Logging * S)) :=
  AddFlagSet (map (on_part snd (fun s t => (t.1, s))) own) (map (on_part fst (fun s t => (s, t.2))) persistentFlags).

Inductive Subcommand := OperatorCmd | VgManagerCmd.
Definition Use (c : Subcommand) : string := match c with OperatorCmd => "operator" | VgManagerCmd => "vgmanager" end.
Definition subcommands : list Subcommand := [OperatorCmd; VgManagerCmd].

(** The parts of the API registered with the scheme, and the kinds of api/v1alpha1/groupversion_info.go. *)
Inductive SchemePart := ClientGo | LvmV1alpha1 | TopolvmV1 | SnapshotV1 | SecurityV1 | ConfigV1 | MonitoringV1 | ApiExtensionsV1.
Definition newScheme : list SchemePart :=
  [ClientGo; LvmV1alpha1; TopolvmV1; SnapshotV1; SecurityV1; ConfigV1; MonitoringV1; ApiExtensionsV1].
Definition addKnownTypes : list string :=
  ["LVMCluster"; "LVMClusterList"; "LVMVolumeGroup"; "LVMVolumeGroupList"; "LVMVolumeGroupNodeStatus"; "LVMVolumeGroupNodeStatusList"].

(** The part of the API the objects of the resource managers belong to. *)
Definition part_of (k : Kind) : SchemePart :=
  match k with
  | KindStorageClass | KindCSIDriver | KindDaemonSet | KindNetworkPolicy => ClientGo
  | KindVolumeSnapshotClass => SnapshotV1
  | KindSCC => SecurityV1
  | KindServiceMonitor => MonitoringV1
  | KindCRD => ApiExtensionsV1
  | KindVolumeGroup | KindNodeStatus => LvmV1alpha1
  end.

Lemma scheme_complete k : part_of k ∈ newScheme.
Proof. unfold newScheme. destruct k; cbn [part_of]; rewrite !elem_of_cons; tauto. Qed.

(** The exit code of main, given the error of Execute. *)
Definition main (err : option error) : Z := match err with Some _ => 1 | None => 0 end.
End Bind.

(** * Passing log levels on *)

Lemma find_named {S} (fs : list (Flag S)) f : NoDup (names fs) -> f ∈ fs -> find_first (fun g => String.eqb (fl_Name g) (fl_Name f)) fs = Some f.
Proof.
  induction fs as [|g fs IH]; cbn [names map find_first]; [by intros _ ?%elem_of_nil|].
  intros [Hg Hnd]%NoDup_cons [->|Hf]%elem_of_cons; [by rewrite String.eqb_refl|].
  destruct (String.eqb_spec (fl_Name g) (fl_Name f)) as [Heq|]; [|by apply IH].
  destruct Hg. rewrite Heq. apply list_elem_of_In, in_map, list_elem_of_In. exact Hf.
Qed.

(** The arguments of a part of the state, with the flags renamed, in a larger flag set. *)
Lemma assign_part {S T} (ren : string -> string) (small : list (Flag S)) (big : list (Flag T)) get put args t s' :
  (forall s t, get (put s t) = s) -> (forall s s' t, put s (put s' t) = put s t) -> (forall t, put (get t) t = t) ->
  NoDup (names big) ->
  (forall f, f ∈ small -> fl_Name f ∈ map fst args -> exists f', f' ∈ big /\ fl_Name f' = ren (fl_Name f) /\
     forall v t, fl_Set f' v t = (s ← fl_Set f v (get t); Some (put s t))) ->
  assign small args (get t) = Some s' -> assign big (map (fun a => (ren a.1, a.2)) args) t = Some (put s' t).
Proof.
  intros Hgp Hpp Hpg Hnd. revert t. induction args as [|[n v] args IH]; intros t Hflags; cbn [assign map].
  { intros [= <-]. by rewrite Hpg. }
  destruct (find_first _ small) as [f|] eqn:Hf; [|done]. apply find_first_Some in Hf as [Hin Hn%String.eqb_eq].
  destruct (Hflags f Hin) as (f' & Hin' & Hn' & Hset); [rewrite Hn; left|].
  cbn [fst snd]. rewrite <- Hn, <- Hn', find_named, Hset by done.
  destruct (fl_Set f v (get t)) as [s|]; [|done]. cbn. intros Ha. rewrite (IH (put s t)), Hpp; [done| |by rewrite Hgp].
  intros g Hg Hgn. apply Hflags; [done|]. by right.
Qed.

Section Passthrough.
Context `{P : PFlag} `{PL : !PFlagLaws P} `{G : LogLibs}.

Definition part_flags : list (Flag VGmanagerOptions) :=
  map (on_part vgo_KlogOptions (fun k o => mkVGmanagerOptions k (vgo_ZapOptions o))) KlogOptions_BindFlags ++
  map (on_part vgo_ZapOptions (fun z o => mkVGmanagerOptions (vgo_KlogOptions o) z)) ZapOptions_BindFlags.

(** The settings that are given: those that are not empty. *)
Definition given (zap v vmodule : string) : list (string * string) :=
  List.filter (fun a => (0 <? String.length a.2)%nat) [("zap-log-level", zap); ("v", v); ("vmodule", vmodule)].
Definition for_vgmanager (arg : string * string) : string * string := ("vgmanager-" +:+ arg.1, arg.2).

Lemma given_AsArgs zap v vmodule :
  VGmanagerOptions_AsArgs (mkVGmanagerOptions (mkKlogOptions v vmodule) (mkZapOptions zap)) = map long (given zap v vmodule).
Proof. by destruct zap, v, vmodule. Qed.

Lemma given_bound zap v vmodule :
  assign part_flags (given zap v vmodule) NewOptions = Some (mkVGmanagerOptions (mkKlogOptions v vmodule) (mkZapOptions zap)).
Proof. by destruct zap, v, vmodule. Qed.

Lemma given_names zap v vmodule n : n ∈ map fst (given zap v vmodule) -> n ∈ ["zap-log-level"; "v"; "vmodule"].
Proof. destruct zap, v, vmodule; cbn; set_solver. Qed.

Lemma bound_flags :
  NoDup (names (VGmanagerOptions_BindFlags [])) /\
  forall f, f ∈ VGmanagerOptions_BindFlags [] <-> f ∈ map (with_prefix "vgmanager") part_flags.
Proof.
  unfold VGmanagerOptions_BindFlags, bindFlagsWithPrefix.
  set (klog := map (with_prefix "vgmanager") (map _ KlogOptions_BindFlags)).
  set (zap := map (with_prefix "vgmanager") (map _ ZapOptions_BindFlags)).
  assert (Hk : NoDup (names klog)) by (apply (bool_decide_unpack _); vm_compute; reflexivity).
  assert (Hz : NoDup (names zap)) by (apply (bool_decide_unpack _); vm_compute; reflexivity).
  destruct (AddFlagSet_spec _ [] klog) as [Hnd1 H1]; [constructor|done|].
  destruct (AddFlagSet_spec _ (AddFlagSet [] klog) zap) as [Hnd2 H2]; [done..|]. split; [done|].
  intros f. rewrite H2, H1. unfold part_flags. rewrite map_app, elem_of_app. fold klog zap.
  split; [intros [[?%elem_of_nil|[? _]]|[? _]]; by auto|]. intros [Hf|Hf].
  - left. right. split; [done|]. apply not_elem_of_nil.
  - right. split; [done|]. intros Hin. unfold names in Hin. rewrite list_elem_of_In, in_map_iff in Hin.
    destruct Hin as (g & Hn & Hg). apply list_elem_of_In, H1 in Hg as [?%elem_of_nil|[Hg _]]; [done|].
    apply list_elem_of_singleton in Hf as ->. unfold klog in Hg. cbn in Hg.
    rewrite !elem_of_cons, elem_of_nil in Hg. by destruct Hg as [->|[->|[]]].
Qed.

Lemma operatorFlags_NoDup : NoDup (names operatorFlags).
Proof.
  destruct bound_flags as [Hnd Hin]. unfold operatorFlags, names. rewrite map_app, map_map. apply NoDup_app. split; [exact Hnd|].
  split; [|apply (bool_decide_unpack _); vm_compute; reflexivity].
  intros n Hn. rewrite list_elem_of_In, in_map_iff in Hn. destruct Hn as (f & <- & Hf). apply list_elem_of_In, Hin in Hf.
  cbn in Hf. rewrite !elem_of_cons, elem_of_nil in Hf.
  destruct Hf as [->|[->|[->|[]]]]; cbn; rewrite !elem_of_cons, elem_of_nil; naive_solver.
Qed.

Hypothesis log_names : NoDup (names (klogFlags ++ zapFlags)).

Lemma persistent_flags : NoDup (names persistentFlags) /\ forall f, f ∈ persistentFlags <-> f ∈ klogFlags ++ zapFlags.
Proof using PL log_names.
  unfold persistentFlags. unfold names in log_names. rewrite map_app in log_names. apply NoDup_app in log_names as (Hk & Hd & Hz).
  destruct (AddFlagSet_spec _ [] klogFlags) as [Hnd1 H1]; [constructor|done|].
  destruct (AddFlagSet_spec _ (AddFlagSet [] klogFlags) zapFlags) as [Hnd2 H2]; [done..|]. split; [done|].
  intros f. rewrite H2, H1, elem_of_app. split; [intros [[?%elem_of_nil|[? _]]|[? _]]; by auto|]. intros [Hf|Hf].
  - left. right. split; [done|]. apply not_elem_of_nil.
  - right. split; [done|]. unfold names. rewrite list_elem_of_In, in_map_iff. intros (g & Hn & Hg).
    apply list_elem_of_In, H1 in Hg as [?%elem_of_nil|[Hg _]]; [done|].
    apply (Hd (fl_Name f)); [rewrite <- Hn|]; by apply list_elem_of_In, in_map, list_elem_of_In.
Qed.

(** The flags of a subcommand: all of its own, and the persistent ones of other names. *)
Lemma command_flags {S} (own : list (Flag S)) :
  NoDup (names own) ->
  NoDup (names (commandFlags own)) /\
  (forall f, f ∈ own -> on_part snd (fun s t => (t.1, s)) f ∈ commandFlags own) /\
  (forall f, f ∈ klogFlags ++ zapFlags -> fl_Name f ∉ names own -> on_part fst (fun s t => (s, t.2)) f ∈ commandFlags own).
Proof using PL log_names.
  intros Hown. destruct persistent_flags as [Hp Hin]. unfold commandFlags.
  destruct (AddFlagSet_spec _ (map (on_part snd (fun s t => (t.1, s))) own)
    (map (on_part fst (fun s t => (s, t.2))) persistentFlags)) as [Hnd H]; [by unfold names; rewrite map_map..|].
  split_and!; [done| |]; intros f Hf; [|intros Hn]; apply H.
  - left. by apply list_elem_of_In, in_map, list_elem_of_In.
  - right. split; [by apply list_elem_of_In, in_map, list_elem_of_In, Hin|]. unfold names. by rewrite map_map.
Qed.

Lemma given_plain zap v vmodule : Forall (fun arg => plain arg.1 = true) (given zap v vmodule).
Proof. destruct zap, v, vmodule; repeat constructor. Qed.

Lemma operator_parses zap v vmodule (s : Logging) :
  Parse (commandFlags operatorFlags) (map long (map for_vgmanager (given zap v vmodule))) (s, defaultOperatorOptions) =
  Ok (s, with_log (mkVGmanagerOptions (mkKlogOptions v vmodule) (mkZapOptions zap)) defaultOperatorOptions).
Proof using PL log_names.
  destruct (command_flags operatorFlags operatorFlags_NoDup) as (Hnd & Hin & _). apply Parse_long; [done| |].
  { destruct zap, v, vmodule; repeat constructor. }
  assert (Hop : assign operatorFlags (map for_vgmanager (given zap v vmodule)) defaultOperatorOptions =
    Some (with_log (mkVGmanagerOptions (mkKlogOptions v vmodule) (mkZapOptions zap)) defaultOperatorOptions)).
  { apply (assign_part (fun n => "vgmanager-" +:+ n) part_flags operatorFlags op_LogPassthroughOptions with_log);
      [done|done|by intros []|apply operatorFlags_NoDup| |apply given_bound].
    intros f Hf _. exists (on_part op_LogPassthroughOptions with_log (with_prefix "vgmanager" f)). split_and!; [|done..].
    apply elem_of_app. left. apply list_elem_of_In, in_map, list_elem_of_In, bound_flags. by apply list_elem_of_In, in_map, list_elem_of_In. }
  replace (map for_vgmanager (given zap v vmodule)) with (map (fun a => (id a.1, a.2)) (map for_vgmanager (given zap v vmodule)))
    by (rewrite map_map; by apply map_ext).
  apply (assign_part id operatorFlags (commandFlags operatorFlags) snd (fun s t => (t.1, s)) _ (s, defaultOperatorOptions));
    [done|done|by intros []|done| |exact Hop].
  intros f Hf _. exists (on_part snd (fun s t => (t.1, s)) f). by split_and!; [apply Hin|..].
Qed.

Lemma vgmanager_parses zap v vmodule (s s' : Logging) :
  assign (klogFlags ++ zapFlags) (given zap v vmodule) s = Some s' ->
  Parse (commandFlags vgmanagerFlags) (map long (given zap v vmodule)) (s, defaultVgOptions) = Ok (s', defaultVgOptions).
Proof using PL log_names.
  intros Ha. destruct (command_flags vgmanagerFlags) as (Hnd & _ & Hin); [apply (bool_decide_unpack _); vm_compute; reflexivity|].
  apply Parse_long; [done|apply given_plain|].
  replace (given zap v vmodule) with (map (fun a => (id a.1, a.2)) (given zap v vmodule))
    by (rewrite (map_ext _ id); [apply map_id|by intros []]).
  apply (assign_part id (klogFlags ++ zapFlags) (commandFlags vgmanagerFlags) fst (fun s t => (s, t.2)) _ (s, defaultVgOptions));
    [done|done|by intros []|done| |exact Ha].
  intros f Hf Hn%given_names. exists (on_part fst (fun s t => (s, t.2)) f). split_and!; [|done..]. apply Hin; [done|].
  rewrite !elem_of_cons, elem_of_nil in Hn. cbn. rewrite !elem_of_cons, elem_of_nil.
  destruct Hn as [-> |[-> |[-> |[]]]]; naive_solver.
Qed.

(** C39: the log settings reach vgmanager: for all values the logging libraries accept, starting the
    operator with [--vgmanager-NAME=VALUE] for the non-empty ones is accepted and changes no
    other option, the DaemonSet runs the vgmanager subcommand of the same binary with
    [--NAME=VALUE] for exactly these, and vgmanager accepts that command line and sets up its
    logging with these values, its own options untouched. *)
Theorem log_levels_reach_vgmanager `{K : K8s} zap v vmodule (s0 s s' : Logging) :
  assign (klogFlags ++ zapFlags) (given zap v vmodule) s = Some s' ->
  exists o,
    Parse (commandFlags operatorFlags) (map long (map for_vgmanager (given zap v vmodule))) (s0, defaultOperatorOptions) = Ok (s0, o) /\
    o = with_log (op_LogPassthroughOptions o) defaultOperatorOptions /\
    let args := VGmanagerOptions_AsArgs (op_LogPassthroughOptions o) in
    (forall l clusterType namespace image,
       ct_Command <$> pt_Containers (ds_Template (templateVGManagerDaemonset l clusterType namespace image (vgManagerCommand o) args)) =
       ["/lvms" :: Use VgManagerCmd :: args]) /\
    Parse (commandFlags vgmanagerFlags) args (s, defaultVgOptions) = Ok (s', defaultVgOptions).
Proof using PL log_names.
  intros Ha. eexists. split; [apply operator_parses|]. split; [done|]. cbn zeta. split.
  - intros l clusterType namespace image. unfold templateVGManagerDaemonset. destruct (ExtractNodeSelectorAndTolerations l) as [[sel|] tol]; done.
  - cbn [op_LogPassthroughOptions with_log]. rewrite given_AsArgs. by apply vgmanager_parses.
Qed.
End Passthrough.

(** * A parser *)

Module Demo.
(** The text before the first equals sign and after it. *)
Fixpoint cut (s : string) : option (string * string) :=
  match s with
  | EmptyString => None
  | String c s =>
      if Ascii.eqb c "="%char then Some ("", s)
      else match cut s with Some (n, v) => Some (String c n, v) | None => None end
  end.

Definition read_long (arg : string) : option (string * string) :=
  match arg with
  | String a (String b s) => if Ascii.eqb a "-"%char && Ascii.eqb b "-"%char then cut s else None
  | _ => None
  end.

Lemma cut_app n v : plain n = true -> cut (n +:+ "=" +:+ v) = Some (n, v).
Proof.
  induction n as [|c n IH]; [done|]. cbn [plain]. intros [Hc%negb_true_iff Hn]%andb_true_iff.
  rewrite string_app_cons. cbn [cut]. by rewrite Hc, IH.
Qed.

Lemma read_long_spec args : Forall (fun arg => plain arg.1 = true) args -> mapM read_long (map long args) = Some args.
Proof.
  induction 1 as [|[n v] args Hn _ IH]; [done|]. cbn [map mapM].
  assert (read_long (long (n, v)) = Some (n, v)) as -> by (exact (cut_app n v Hn)). cbn. by rewrite IH.
Qed.

Definition has_name {S} (fs : list (Flag S)) (f : Flag S) : bool := contains_str (names fs) (fl_Name f).

#[export] Instance demo_pflag : PFlag := {|
  AddFlagSet := fun S fs new => fs ++ List.filter (fun f => negb (has_name fs f)) new;
  Parse := fun S fs args s =>
    match mapM read_long args with
    | Some args => match assign fs args s with Some s => Ok s | None => Err (EExt "unknown flag or invalid value") end
    | None => Err (EExt "bad flag syntax")
    end;
  readAsCSV := fun s => Some (Split s ","%char);
|}.

#[export] Instance demo_pflag_laws : PFlagLaws demo_pflag.
Proof.
  split.
  - intros S fs new Hfs Hnew. cbn [AddFlagSet demo_pflag].
    assert (Hin : forall f, f ∈ List.filter (fun f => negb (has_name fs f)) new <-> f ∈ new /\ fl_Name f ∉ names fs).
    { intros f. unfold has_name. rewrite list_elem_of_In, List.filter_In, <- list_elem_of_In, negb_true_iff, contains_str_false. done. }
    split; [|intros f; by rewrite elem_of_app, Hin].
    unfold names. rewrite map_app. apply NoDup_app. split_and!; [done| |].
    + intros n Hn Hn'. rewrite list_elem_of_In, in_map_iff in Hn'. destruct Hn' as (f & <- & Hf). apply list_elem_of_In, Hin in Hf as [_ Hno]. done.
    + clear Hin. induction new as [|f new IH]; [constructor|]. apply NoDup_cons in Hnew as [Hf Hnew]. cbn [List.filter].
      destruct (negb (has_name fs f)); [|by apply IH]. cbn [map]. apply NoDup_cons. split; [|by apply IH].
      intros Hc. apply Hf. rewrite list_elem_of_In, in_map_iff in Hc. destruct Hc as (g & <- & Hg). apply filter_In in Hg as [Hg _].
      by apply list_elem_of_In, in_map.
  - intros S fs args s s' _ Hp Ha. cbn [Parse demo_pflag]. rewrite read_long_spec by done. by rewrite Ha.
Qed.

(** Logging settings by name. *)
Definition demo_flag (name : string) : Flag (gmap string string) := mkFlag name "" (fun v s => Some (<[name := v]> s)).
#[export] Instance demo_logs : LogLibs := {|
  Logging := gmap string string;
  klogFlags := [demo_flag "v"; demo_flag "vmodule"; demo_flag "logtostderr"];
  zapFlags := [demo_flag "zap-devel"; demo_flag "zap-log-level"];
|}.
#[local] Existing Instance demo_K8s.

Lemma log_levels_reach_vgmanager_witness :
  Parse (commandFlags operatorFlags) ["--vgmanager-zap-log-level=debug"; "--vgmanager-v=5"] (∅, defaultOperatorOptions) =
    Ok (∅, with_log (mkVGmanagerOptions (mkKlogOptions "5" "") (mkZapOptions "debug")) defaultOperatorOptions) /\
  exists o : OperatorOptions, VGmanagerOptions_AsArgs (op_LogPassthroughOptions o) = ["--zap-log-level=debug"; "--v=5"] /\
    Parse (commandFlags vgmanagerFlags) ["--zap-log-level=debug"; "--v=5"] (∅, defaultVgOptions) =
      Ok (<["v" := "5"]> (<["zap-log-level" := "debug"]> ∅), defaultVgOptions).
Proof.
  assert (Hn : NoDup (names (klogFlags ++ zapFlags))) by (apply (bool_decide_unpack _); vm_compute; reflexivity).
  destruct (log_levels_reach_vgmanager Hn "debug" "5" "" (∅ : gmap string string) ∅ (<["v" := "5"]> (<["zap-log-level" := "debug"]> ∅)))
    as (o & Hop & Ho & _ & Hvg); [reflexivity|].
  cbn [map for_vgmanager long] in Hop.
  assert (Hl : op_LogPassthroughOptions o = mkVGmanagerOptions (mkKlogOptions "5" "") (mkZapOptions "debug")).
  { vm_compute in Hop. injection Hop as <-. reflexivity. }
  split; [rewrite <- Hl, <- Ho; exact Hop|]. exists o. rewrite Hl in *. split; [reflexivity|exact Hvg].
Defined.
End Demo.
