(* ===== verification/OperatorProcess.v ===== *)
(** The life of the operator process (cmd/operator/operator.go, cmd/main.go): signals and changes of
    the TLS profile, its exit code, the registry its metrics are served from, and the transform of
    the objects its cache holds. *)

From S2P Require Import Prelude GoStd Effects Api VgEnv Objects ClusterEnv Resources VgManagerDaemon CsiRunners OperatorStart Commands.

(** * Signals *)

(** What the goroutine of run received so far, whether the context of the manager is cancelled, and
    whether the goroutine ended the process. *)
Record OperatorProcess := mkOperatorProcess { op_signals : nat; op_cancelled : bool; op_killed : bool }.
Definition newOperatorProcess : OperatorProcess := mkOperatorProcess 0 false false.

Inductive OperatorInput := OpSignal | OpTLSProfileChanged.

(** The goroutine of run: the first signal cancels the context, the second one exits directly. *)
Definition onSignal (p : OperatorProcess) : OperatorProcess :=
  match op_signals p with
  | O => mkOperatorProcess 1 true (op_killed p)
  | S O => mkOperatorProcess 2 (op_cancelled p) true
  | _ => p
  end.

(** OnProfileChange of the TLS watcher. *)
Definition onTLSProfileChange (p : OperatorProcess) : OperatorProcess :=
  mkOperatorProcess (op_signals p) true (op_killed p).

Definition operatorStep (p : OperatorProcess) (i : OperatorInput) : OperatorProcess :=
  if op_killed p then p
  else match i with OpSignal => onSignal p | OpTLSProfileChanged => onTLSProfileChange p end.

(** The exit code, given the error of mgr.Start: a direct exit, or what main makes of the error
    run returns. *)
Definition operatorExitCode (startErr : option error) (p : OperatorProcess) : Z :=
  if op_killed p then 1 else main (wrapErr "problem running manager" <$> startErr).

(** * Metrics *)

(** prometheus.Registerer and prometheus.Gatherer behind ctrlRuntimeMetrics.Registry: the registry of
    controller-runtime, or that of a metrics manager for CSI. *)
Record ExtendedCSIMetricsManager := mkMetricsManager { mm_driverName : string }.
Inductive Registry := ControllerRuntimeRegistry | CSIRegistry (m : ExtendedCSIMetricsManager).

(** The metrics manager, and the registry as the function leaves it. *)
Definition InitializeMetricsManager (registry : Registry) : ExtendedCSIMetricsManager * Registry :=
  let metricsManager := mkMetricsManager TopolvmCSIDriverName in
  (metricsManager, CSIRegistry metricsManager).

(** * Cached objects *)

(** An item of the cache: a client.Object with its managed fields and the rest of it, or something
    else of a named type. *)
Inductive any (A : Type) :=
| ClientObject (managedFields : list string) (rest : A)
| OtherItem (typeName : string).
Arguments ClientObject {A} _ _.
Arguments OtherItem {A} _.

Definition NoManagedFields {A} (i : any A) : result error (any A) :=
  match i with
  | ClientObject _ rest => Ok (ClientObject [] rest)
  | OtherItem typeName => Err (EFmt ("unexpected object type: " +:+ typeName) [])
  end.

(** * What ends the operator *)

Definition is_signal (i : OperatorInput) : bool := match i with OpSignal => true | OpTLSProfileChanged => false end.
Definition signals (inputs : list OperatorInput) : nat := length (filter (fun i => is_signal i = true) inputs).

Lemma operator_state inputs :
  foldl operatorStep newOperatorProcess inputs =
  mkOperatorProcess (Nat.min 2 (signals inputs)) (bool_decide (inputs <> [])) (2 <=? signals inputs)%nat.
Proof.
  induction inputs as [|i inputs IH] using rev_ind; [done|].
  assert (signals (inputs ++ [i]) = signals inputs + (if is_signal i then 1 else 0)) as Hn.
  { unfold signals. rewrite filter_app, length_app. by destruct i. }
  assert (signals inputs <> 0 -> bool_decide (inputs <> []) = true) as Hne.
  { intros Hs. apply bool_decide_eq_true_2. by intros ->. }
  rewrite foldl_app, IH, Hn, (bool_decide_eq_true_2 (inputs ++ [i] <> [])) by (by destruct inputs).
  unfold foldl, operatorStep, onSignal, onTLSProfileChange. simpl op_signals. simpl op_killed. simpl op_cancelled.
  destruct (signals inputs) as [|[|n]], i; simpl; rewrite ?Hne, ?Nat.add_0_r; done.
Qed.

(** Any signal or change of the TLS profile stops the controllers; the process is cut short, with
    exit code 1, exactly by the second signal, however many changes of the profile come before or
    between; otherwise its exit code tells whether the manager ended with an error. *)
Theorem operator_lifecycle inputs startErr :
  let p := foldl operatorStep newOperatorProcess inputs in
  (op_cancelled p = true <-> inputs <> []) /\
  (op_killed p = true <-> 2 <= signals inputs) /\
  (operatorExitCode startErr p = 0%Z <-> signals inputs < 2 /\ startErr = None).
Proof.
  cbv zeta. rewrite operator_state. unfold operatorExitCode. cbn [op_cancelled op_killed].
  split; [by rewrite bool_decide_eq_true|]. split; [apply Nat.leb_le|].
  destruct (Nat.leb_spec 2 (signals inputs)); [split; [done|lia]|]. destruct startErr; simpl; split; naive_solver.
Qed.
