(* ===== verification/VgManagerProcess.v ===== *)
(** The life of a vgmanager process (cmd/vgmanager/vgmanager.go): what makes it stop and with which
    exit code, when it is ready, its registration with the kubelet (internal/csi/registrar.go) and
    health service (internal/csi/health.go), and the paths of its sockets and files. *)

From S2P Require Import Prelude GoStd Effects Api VgEnv Lvmd Objects ClusterStatus ClusterEnv Resources VgManagerDaemon CsiRunners.

(** * Errors *)

Definition ErrConfigModified : error := ENew "ErrConfigModified" "lvmd config file is modified".
Definition ErrTLSProfileModified : error := ENew "ErrTLSProfileModified" "API server TLS profile changed".
Definition ErrNoDeviceClassesAvailable : error :=
  ENew "ErrNoDeviceClassesAvailable" "no device classes in lvmd.yaml configured, can not startup correctly".
Definition ErrCSIPluginNotYetRegistered : error := ENew "ErrCSIPluginNotYetRegistered" "CSI plugin not yet registered".
(** csi.ErrPluginRegistrationFailed *)
Definition ErrPluginRegistrationFailed : error := ENew "ErrPluginRegistrationFailed" "plugin registration failed".
(** context.Canceled *)
Definition Canceled : error := ENew "Canceled" "context canceled".

(** * The process *)

(** [cause] is the cause of the cancellation of the context of the manager. *)
Record Process := mkProcess { registered : bool; cause : option error }.
Definition newProcess : Process := mkProcess false None.

(** context.CancelCauseFunc: the first cancellation counts, and a nil cause is context.Canceled. *)
Definition cancelWithCause (err : option error) (p : Process) : Process :=
  match cause p with
  | Some _ => p
  | None => mkProcess (registered p) (Some (default Canceled err))
  end.

Record FileOps := mkFileOps { op_Write : bool; op_Remove : bool; op_Chmod : bool }.

(** What happens to a running process: the start of the watch, with the answer of os.Stat for the
    configuration directory (an error, or whether it is a directory), a change of a watched
    file, an error of the watcher, a change of the TLS profile, a status of the registration
    from the kubelet, or a signal to terminate. *)
Inductive Input :=
| WatchStart (stat : result error bool)
| FileEvent (name : string) (ops : FileOps)
| WatcherError (err : error)
| TLSProfileChanged
| RegistrationStatus (pluginRegistered : bool) (message : string)
| Terminate.

(** The start of watchTopoLVMAndNotify; a missing directory is created. *)
Definition startWatch (stat : result error bool) (p : Process) : Process :=
  match stat with
  | Err err => if GrpcRunner.os_IsNotExist err then p else cancelWithCause (Some err) p
  | Ok isDir => if negb isDir then cancelWithCause None p else p
  end.

(** The loop of watchTopoLVMAndNotify. *)
Definition onFileEvent (name : string) (ops : FileOps) (p : Process) : Process :=
  if negb (String.eqb name DefaultFileConfigPath) then p
  else if op_Write ops || op_Remove ops || op_Chmod ops
  then cancelWithCause (Some (EFmt (Error ErrConfigModified +:+ ": " +:+ name) [ErrConfigModified])) p
  else p.

(** registrationServer.NotifyRegistrationStatus *)
Definition registrationFailed (message : string) : error :=
  EFmt (Error ErrPluginRegistrationFailed +:+ ": " +:+ message) [ErrPluginRegistrationFailed].
Definition NotifyRegistrationStatus (pluginRegistered : bool) (message : string) (p : Process) : Process :=
  if negb pluginRegistered then cancelWithCause (Some (registrationFailed message)) p
  else mkProcess pluginRegistered (cause p).

Definition step (p : Process) (i : Input) : Process :=
  match i with
  | WatchStart stat => startWatch stat p
  | FileEvent name ops => onFileEvent name ops p
  | WatcherError _ => p
  | TLSProfileChanged => cancelWithCause (Some ErrTLSProfileModified) p
  | RegistrationStatus ok message => NotifyRegistrationStatus ok message p
  | Terminate => cancelWithCause None p
  end.
Definition lifetime (inputs : list Input) : Process := foldl step newProcess inputs.

(** The end of run: the exit code of the process, given the error of mgr.Start. *)
Definition exitCode (startErr : option error) (p : Process) : Z :=
  match startErr with
  | Some _ => 1
  | None =>
      if errors_Is_opt (cause p) "ErrConfigModified" then 0
      else if errors_Is_opt (cause p) "ErrTLSProfileModified" then 0
      else if errors_Is_opt (cause p) "ErrPluginRegistrationFailed" then 0
      else match cause p with Some _ => 1 | None => 0 end
  end.

Definition readyCheck (cacheSynced : bool) (deviceClasses : nat) (p : Process) : option error :=
  if negb cacheSynced then Some (EFmt "informer cache not synced and thus not ready" [])
  else if (deviceClasses =? 0)%nat then Some ErrNoDeviceClassesAvailable
  else if negb (registered p) then Some ErrCSIPluginNotYetRegistered
  else None.

Inductive ServingStatus := SERVING | NOT_SERVING.
(** healthServer.Check *)
Definition HealthCheck (checker : option error) : ServingStatus :=
  match checker with Some _ => NOT_SERVING | None => SERVING end.

Definition registrationPath : string := kubelet ("plugins/" +:+ TopolvmCSIDriverName +:+ "/node/csi-topolvm.sock").
Definition pluginRegistrationSocketPath : string :=
  DefaultPluginRegistrationPath +:+ "/" +:+ TopolvmCSIDriverName +:+ "-reg.sock".

(** ** What the kubelet is told *)

Inductive PluginType := CSIPlugin.
Record PluginInfo := mkPluginInfo {
  pi_Type : PluginType; pi_Name : string; pi_Endpoint : string; pi_SupportedVersions : list string;
}.
(** The constant part of a registrationServer; its flag is [registered] of the process. *)
Record registrationServer := mkRegistrationServer { rg_driverName : string; rg_endpoint : string; rg_version : list string }.

Definition GetInfo (e : registrationServer) : PluginInfo :=
  mkPluginInfo CSIPlugin (rg_driverName e) (rg_endpoint e) (rg_version e).

(** The registration server of vgmanager. *)
Definition vgRegistrationServer : registrationServer := mkRegistrationServer TopolvmCSIDriverName registrationPath ["1.0.0"].

(** * The end of a process *)

Definition code_of (cause : option error) : Z := exitCode None (mkProcess false cause).

(** The inputs that stop a process, and with which exit code. *)
Definition stops (i : Input) : option Z :=
  match i with
  | WatchStart (Err err) => if GrpcRunner.os_IsNotExist err then None else Some (code_of (Some err))
  | WatchStart (Ok isDir) => if isDir then None else Some 1%Z
  | FileEvent name ops =>
      if String.eqb name DefaultFileConfigPath && (op_Write ops || op_Remove ops || op_Chmod ops) then Some 0%Z else None
  | WatcherError _ => None
  | TLSProfileChanged => Some 0%Z
  | RegistrationStatus ok _ => if ok then None else Some 0%Z
  | Terminate => Some 1%Z
  end.

Lemma step_running reg i :
  match stops i with
  | None => cause (step (mkProcess reg None) i) = None
  | Some code => is_Some (cause (step (mkProcess reg None) i)) /\ code_of (cause (step (mkProcess reg None) i)) = code
  end.
Proof.
  destruct i as [[isDir|err]|name ops|err| |ok message|]; simpl; try (split; [by eexists|done]); [| | | |].
  - destruct isDir; simpl; [done|]. split; [by eexists|done].
  - destruct (GrpcRunner.os_IsNotExist err); simpl; [done|]. split; [by eexists|done].
  - unfold onFileEvent. destruct (String.eqb name DefaultFileConfigPath); simpl; [|done].
    destruct (op_Write ops || op_Remove ops || op_Chmod ops); simpl; [|done]. split; [by eexists|done].
  - done.
  - destruct ok; simpl; [done|]. split; [by eexists|done].
Qed.

Lemma step_stopped reg err i : cause (step (mkProcess reg (Some err)) i) = Some err.
Proof.
  destruct i as [[isDir|err']|name ops|err'| |ok message|]; simpl; try done.
  - by destruct isDir.
  - by destruct (GrpcRunner.os_IsNotExist err').
  - unfold onFileEvent. destruct (negb _); [done|]. by destruct (_ || _ || _).
  - by destruct ok.
Qed.

Lemma stopped_forever inputs reg err : cause (foldl step (mkProcess reg (Some err)) inputs) = Some err.
Proof.
  revert reg. induction inputs as [|i inputs IH]; intros reg; simpl; [done|].
  pose proof (step_stopped reg err i) as H. destruct (step _ i) as [reg' cause']. simpl in H. subst cause'. apply IH.
Qed.

Lemma lifetime_code inputs reg :
  let c := cause (foldl step (mkProcess reg None) inputs) in
  match omap stops inputs with
  | [] => c = None
  | code :: _ => is_Some c /\ code_of c = code
  end.
Proof.
  revert reg. induction inputs as [|i inputs IH]; intros reg; [done|]. cbn [foldl].
  pose proof (step_running reg i) as H. destruct (step (mkProcess reg None) i) as [reg' cause']. simpl in H.
  destruct (stops i) as [code|] eqn:Hi.
  - rewrite (omap_hit stops _ code) by done. destruct H as [[err ->] Hc]. cbv zeta. rewrite stopped_forever. split; [by eexists|done].
  - rewrite omap_skip by done. subst cause'. apply IH.
Qed.

Lemma registered_seen inputs p : registered (foldl step p inputs) = true ->
  registered p = true \/ exists message, RegistrationStatus true message ∈ inputs.
Proof.
  revert p. induction inputs as [|i inputs IH]; intros p; simpl; [by left|]. intros [Hr|(m & Hm)]%IH.
  - destruct i as [[isDir|err]|name ops|err| |ok message|]; simpl in Hr.
    + left. unfold cancelWithCause in Hr. by destruct isDir, (cause p).
    + left. unfold cancelWithCause in Hr. by destruct (GrpcRunner.os_IsNotExist err), (cause p).
    + left. unfold onFileEvent, cancelWithCause in Hr. by destruct (negb _), (op_Write ops || op_Remove ops || op_Chmod ops), (cause p).
    + by left.
    + left. unfold cancelWithCause in Hr. by destruct (cause p).
    + destruct ok; [right; exists message; apply list_elem_of_here|]. left. unfold NotifyRegistrationStatus, cancelWithCause in Hr.
      by destruct (cause p).
    + left. unfold cancelWithCause in Hr. by destruct (cause p).
  - right. exists m. by apply list_elem_of_further.
Qed.

(** Whatever happens to a vgmanager process, the first event that stops it decides its fate:
    after a change of its configuration, of the TLS profile or a failed registration it exits
    with code 0 and is restarted, after a signal, or when the configuration path is not a
    directory, with code 1; and it is ready, and its health service serving, only after the
    kubelet confirmed its registration and with at least one device class in its
    configuration. *)
Theorem vgmanager_lifecycle inputs :
  exitCode None (lifetime inputs) = match omap stops inputs with [] => 0%Z | code :: _ => code end /\
  forall cacheSynced deviceClasses,
    HealthCheck (readyCheck cacheSynced deviceClasses (lifetime inputs)) = SERVING <->
    cacheSynced = true /\ deviceClasses <> O /\ registered (lifetime inputs) = true /\
    exists message, RegistrationStatus true message ∈ inputs.
Proof.
  split.
  - pose proof (lifetime_code inputs false) as H. unfold lifetime, newProcess. cbv zeta in H.
    destruct (foldl step (mkProcess false None) inputs) as [reg c]. simpl in H.
    destruct (omap stops inputs) as [|code codes]; [by subst c|]. by destruct H as [_ <-].
  - intros synced classes. pose proof (registered_seen inputs newProcess) as Hseen. fold (lifetime inputs) in Hseen.
    unfold readyCheck. destruct synced; simpl; [|split; [done|naive_solver]].
    destruct classes as [|n]; simpl; [split; [done|naive_solver]|].
    destruct (registered (lifetime inputs)); simpl; [|split; [done|naive_solver]].
    split; [|done]. intros _. split_and!; [done..|]. by destruct Hseen.
Qed.

(** * Paths *)

(** The file on the host behind a path in the container: the mount whose directory the path is
    in, and the host path of its volume. *)
Definition trimSlash (path : string) : string := if HasSuffixSlash path then String.substring 0 (String.length path - 1) path else path.
Definition hostFile (volumes : list Volume) (mounts : list VolumeMount) (path : string) : option string :=
  match find_first (fun m => HasPrefix path (vm_MountPath m +:+ "/")) mounts with
  | None => None
  | Some m =>
      match find_first (fun v => String.eqb (vol_Name v) (vm_Name m)) volumes with
      | Some (mkVolume _ (HostPath host _)) => Some (trimSlash host +:+ TrimPrefix path (vm_MountPath m))
      | _ => None
      end
  end.

Section Paths.
Context `{K : K8s}.

(** Through the volumes of the DaemonSet, the CSI socket on which vgmanager listens is the one
    it announces to the kubelet (GetInfo), its registration socket is in the directory the kubelet
    watches, its start lock is a file of the host, shared with every other vgmanager on the
    node, and its lvmd configuration is kept on the host, on MicroShift in the directory of
    MicroShift. *)
Theorem daemonset_paths l clusterType namespace image command args :
  let t := ds_Template (templateVGManagerDaemonset l clusterType namespace image command args) in
  Forall (fun c =>
  hostFile (pt_Volumes t) (ct_VolumeMounts c) DefaultCSISocket = Some (pi_Endpoint (GetInfo vgRegistrationServer)) /\
  hostFile (pt_Volumes t) (ct_VolumeMounts c) pluginRegistrationSocketPath =
    Some (kubelet "plugins_registry/topolvm.io-reg.sock") /\
  hostFile (pt_Volumes t) (ct_VolumeMounts c) (FileLockDir +:+ "/vgmanager.lock") = Some (FileLockDir +:+ "/vgmanager.lock") /\
  hostFile (pt_Volumes t) (ct_VolumeMounts c) DefaultFileConfigPath =
    Some (if bool_decide (clusterType = TypeMicroShift) then MicroShiftFileConfigPath else DefaultFileConfigPath)) (pt_Containers t).
Proof.
  unfold templateVGManagerDaemonset. destruct (ExtractNodeSelectorAndTolerations l) as [[sel|] tolerations]; simpl;
    (constructor; [|constructor]); destruct clusterType; by vm_compute.
Qed.
End Paths.
