(* ===== verification/VgManagerStart.v ===== *)
(** The start of vgmanager: run of cmd/vgmanager/vgmanager.go, from the environment of the process
    over the registration of the controllers and the CSI services to the end of the manager. *)

From S2P Require Import Prelude GoStd Effects Api Raid VgEnv Webhook Lvmd Objects ClusterEnv VgManagerDaemon.
From S2P Require Import CsiRunners OperatorStart VgManagerProcess.

(** * Registrations *)

(** The services of a gRPC server. *)
Inductive Service := HealthOfReadyCheck | AlwaysHealthy | IdentityService | NodeService | RegistrationService.

(** What is set up with or added to the manager of vgmanager. The embedded lvmd client serves the
    classes of the configuration. *)
Inductive VgRegistration `{O : OpenShiftLib} :=
| VgTLSWatcher (initial : TLSProfileSpec)
| LogicalVolumeReconciler (nodeName : string) (classes : list lvmd.DeviceClass) (options : list lvmd.LvcreateOptionClass)
| MetricsExporter (nodeName : string)
| NewNodeServer (nodeName : string)
| AddServer (r : GrpcRunner.gRPCServerRunner) (services : list Service)
| VGManagerController (r : Reconciler)
| VgHealthzCheck (name : string)
| VgReadyzCheck (name : string).

(** The calls of run. [RunVgManager] runs the manager and, beside it, the watch of the
    configuration: it answers the error of mgr.Start and what happened to the process. *)
Inductive vgStartE `{K : K8s} `{O : OpenShiftLib} : Type -> Type :=
| VgGetenv (name : string) : vgStartE string
| VgEnvironment X (e : webhookE X) : vgStartE X
| VgNewSetupClient : vgStartE (option error)
| VgFetchTLSProfile : vgStartE (result error TLSProfileSpec)
| VgNewManager (namespace : string) (tlsProfile : TLSProfileSpec) : vgStartE (option error)
| MustRegister (g : RAIDGauge) : vgStartE unit
| VgRegister (r : VgRegistration) : vgStartE (option error)
| ReadFile (path : string) : vgStartE (result error string)
| NewWatcher : vgStartE (option error)
| RunVgManager : vgStartE (option error * list Input)
| CloseWatcher : vgStartE unit.

(** run returns, or the process exits. *)
Inductive End := Returned (err : option error) | Exited (code : Z).

Definition exit_code (e : End) : Z :=
  match e with Returned None => 0 | Returned (Some _) => 1 | Exited code => code end.

Section VgStart.
Context `{K : K8s} `{O : OpenShiftLib} `{Y : Yaml}.

Definition loadConfFile (cfgFilePath : string) : prog vgStartE (result error lvmd.Config) :=
  try b := call (ReadFile cfgFilePath) catch err => Ret (Err err) in
  Ret (Unmarshal b).

(** The components of TopoLVM, which need a configuration. *)
Definition topolvmRegistrations (nodeName : string) (config : lvmd.Config) : list (VgRegistration * string) :=
  [(LogicalVolumeReconciler nodeName (lvmd.DeviceClasses config) (lvmd.LvcreateOptionClasses config),
      "unable to create LogicalVolumeReconciler");
   (MetricsExporter nodeName, "could not add topolvm metrics");
   (NewNodeServer nodeName, "could not setup topolvm node server");
   (AddServer (GrpcRunner.mkRunner DefaultCSISocket false) [HealthOfReadyCheck; IdentityService; NodeService],
      "could not add grpc runner for node server");
   (AddServer (GrpcRunner.mkRunner pluginRegistrationSocketPath false) [AlwaysHealthy; RegistrationService],
      "could not add grpc runner for registration server")].

Definition controllerRegistrations (nodeName operatorNamespace : string) : list (VgRegistration * string) :=
  [(VGManagerController (mkReconciler nodeName operatorNamespace), "unable to create controller VGManager");
   (VgHealthzCheck "healthz", "unable to set up health check");
   (VgReadyzCheck "readyz", "unable to set up ready check")].

Definition vgRegister (reg : VgRegistration * string) (_ : unit) : prog vgStartE (unit + error) :=
  guard call (VgRegister reg.1) catch err => Ret (inr (wrapErr reg.2 err)) in
  Ret (inl tt).

(** From the configuration on: TopoLVM if it could be loaded, the controller and the checks, and the
    watcher of the file. *)
Definition vgComponents (nodeName operatorNamespace : string) (loaded : result error lvmd.Config) : prog vgStartE (option error) :=
  topolvm <- match loaded with
             | Err _ => Ret (inl tt)
             | Ok lvmdConfig => for_each vgRegister (topolvmRegistrations nodeName lvmdConfig) tt
             end;;
  match topolvm with
  | inr err => Ret (Some err)
  | inl _ =>
      registered <- for_each vgRegister (controllerRegistrations nodeName operatorNamespace) tt;;
      match registered with
      | inr err => Ret (Some err)
      | inl _ =>
          guard call NewWatcher catch err => Ret (Some (wrapErr "unable to set up file watcher" err)) in
          Ret None
      end
  end.

(** Until the manager runs: an error, or that everything is registered. *)
Definition vgSetup : prog vgStartE (option error) :=
  nodeName <- call (VgGetenv "NODE_NAME");;
  try operatorNamespace := translate VgEnvironment GetOperatorNamespace
    catch err => Ret (Some (wrapErr "unable to get operatorNamespace" err)) in
  guard call VgNewSetupClient
    catch err => Ret (Some (wrapErr "unable to initialize setup client for pre-manager startup checks" err)) in
  try tlsProfile := call VgFetchTLSProfile catch err => Ret (Some (wrapErr "failed to get tls profile" err)) in
  guard call (VgNewManager operatorNamespace tlsProfile)
    catch err => Ret (Some (wrapErr "unable to start manager" err)) in
  fold_prog (fun g _ => call (MustRegister g)) RAIDMetrics tt;;
  guard call (VgRegister (VgTLSWatcher tlsProfile))
    catch err => Ret (Some (wrapErr "unable to create controller for TLS config observation" err)) in
  loaded <- loadConfFile DefaultFileConfigPath;;
  vgComponents nodeName operatorNamespace loaded.

(** The end of run after mgr.Start; the deferred close of the watcher is not reached by os.Exit. *)
Definition vgFinish (startErr : option error) (p : Process) : prog vgStartE End :=
  match startErr with
  | Some err => call CloseWatcher;; Ret (Returned (Some (wrapErr "problem running manager" err)))
  | None =>
      if errors_Is_opt (cause p) "ErrConfigModified" then Ret (Exited 0)
      else if errors_Is_opt (cause p) "ErrTLSProfileModified" then Ret (Exited 0)
      else if errors_Is_opt (cause p) "ErrPluginRegistrationFailed" then Ret (Exited 0)
      else match cause p with
           | Some _ => Ret (Exited 1)
           | None => call CloseWatcher;; Ret (Returned None)
           end
  end.

Definition vgRun : prog vgStartE End :=
  guard vgSetup catch err => Ret (Returned (Some err)) in
  ' (startErr, inputs) <- call RunVgManager;;
  vgFinish startErr (lifetime inputs).

(** * What holds when the manager runs *)

Definition vg_ran_of (v : ev vgStartE) : option (option error * list Input) :=
  match v with
  | @Ev _ X e x =>
      match e in vgStartE X return X -> option (option error * list Input) with RunVgManager => Some | _ => fun _ => None end x
  end.
Definition vg_registered_of (v : ev vgStartE) : option VgRegistration :=
  match v with
  | @Ev _ X e x =>
      match e in vgStartE X return X -> option VgRegistration with
      | VgRegister reg => fun err => match err with None => Some reg | Some _ => None end
      | _ => fun _ => None
      end x
  end.
(** The content of the configuration file, as it was read. *)
Definition config_of (v : ev vgStartE) : option (result error lvmd.Config) :=
  match v with
  | @Ev _ X e x =>
      match e in vgStartE X return X -> option (result error lvmd.Config) with
      | ReadFile _ => fun res => Some (match res with Ok b => Unmarshal b | Err err => Err err end)
      | _ => fun _ => None
      end x
  end.

(** Everything that is registered when the manager starts. *)
Definition all_registrations (nodeName operatorNamespace : string) (tlsProfile : TLSProfileSpec)
    (loaded : result error lvmd.Config) : list VgRegistration :=
  VgTLSWatcher tlsProfile ::
  match loaded with Ok config => map fst (topolvmRegistrations nodeName config) | Err _ => [] end ++
  map fst (controllerRegistrations nodeName operatorNamespace).

Definition setup_done (nodeName operatorNamespace : string) (tlsProfile : TLSProfileSpec)
    (loaded : result error lvmd.Config) (tr : list (ev vgStartE)) : Prop :=
  Ev (VgGetenv "NODE_NAME") nodeName ∈ tr /\ Ev VgFetchTLSProfile (Ok tlsProfile) ∈ tr /\
  Ev (VgNewManager operatorNamespace tlsProfile) None ∈ tr /\ omap config_of tr = [loaded] /\
  omap vg_registered_of tr = all_registrations nodeName operatorNamespace tlsProfile loaded.

(** The kubelet reports a registration only to a registration service that is served. *)
Definition kubelet_reports (regs : list VgRegistration) (inputs : list Input) : Prop :=
  forall ok message, RegistrationStatus ok message ∈ inputs ->
  exists r services, AddServer r services ∈ regs /\ RegistrationService ∈ services.

(** The process is ready only with a loaded configuration that has a device class, and after the
    kubelet confirmed its registration. (What a failed decoding left of the classes does not
    matter.) *)
Definition ready_only (loaded : result error lvmd.Config) (regs : list VgRegistration) (inputs : list Input) : Prop :=
  kubelet_reports regs inputs ->
  forall cacheSynced deviceClasses,
    match loaded with Ok config => deviceClasses = length (lvmd.DeviceClasses config) | Err _ => True end ->
    readyCheck cacheSynced deviceClasses (lifetime inputs) = None ->
    exists config, loaded = Ok config /\ lvmd.DeviceClasses config <> [] /\ exists message, RegistrationStatus true message ∈ inputs.

(** Either run failed before the manager, or the manager ran once, after the set-up. *)
Definition vg_outcome (res : End) (tr : list (ev vgStartE)) : Prop :=
  (omap vg_ran_of tr = [] /\ exists err, res = Returned (Some err)) \/
  exists pre post startErr inputs nodeName operatorNamespace tlsProfile loaded,
    tr = pre ++ Ev RunVgManager (startErr, inputs) :: post /\ omap vg_ran_of (pre ++ post) = [] /\
    setup_done nodeName operatorNamespace tlsProfile loaded pre /\
    exit_code res = match startErr with Some _ => 1%Z | None => default 0%Z (head (omap stops inputs)) end /\
    ready_only loaded (omap vg_registered_of pre) inputs.

Lemma vgRegister_all regs :
  wp (for_each vgRegister regs tt) (fun res tr => omap vg_ran_of tr = [] /\ omap config_of tr = [] /\
    (res = inl tt -> omap vg_registered_of tr = map fst regs)).
Proof.
  induction regs as [|reg regs IH]; [done|]. intros [err|]; [by split_and!|]. cbn [pbind]. eapply wp_mono; [exact IH|].
  intros res tr (Hs & Hc & Hr). split_and!; [done..|]. intros H%Hr.
  change (reg.1 :: omap vg_registered_of tr = reg.1 :: map fst regs). by rewrite H.
Qed.

Lemma vgFinish_spec startErr p :
  wp (vgFinish startErr p) (fun res tr => exit_code res = exitCode startErr p /\ omap vg_ran_of tr = []).
Proof.
  unfold vgFinish, exitCode. destruct startErr as [err|]; [by intros []|].
  destruct (errors_Is_opt _ "ErrConfigModified"); [done|]. destruct (errors_Is_opt _ "ErrTLSProfileModified"); [done|].
  destruct (errors_Is_opt _ "ErrPluginRegistrationFailed"); [done|]. destruct (cause p); [done|by intros []].
Qed.

Lemma vgEnvironment_silent tr :
  omap vg_ran_of (map (translate_ev VgEnvironment) tr) = [] /\ omap config_of (map (translate_ev VgEnvironment) tr) = [] /\
  omap vg_registered_of (map (translate_ev VgEnvironment) tr) = [].
Proof. induction tr as [|[X e x] tr IH]; [done|]. exact IH. Qed.

(** Without a configuration no registration service is served. *)
Lemma no_registration_service nodeName operatorNamespace tlsProfile err r services :
  AddServer r services ∉ all_registrations nodeName operatorNamespace tlsProfile (Err err).
Proof. unfold all_registrations, controllerRegistrations. set_solver. Qed.

Lemma ready_needs_config nodeName operatorNamespace tlsProfile loaded inputs :
  ready_only loaded (all_registrations nodeName operatorNamespace tlsProfile loaded) inputs.
Proof.
  intros Hk synced n Hn Hready.
  destruct (vgmanager_lifecycle inputs) as [_ H]. specialize (H synced n). rewrite Hready in H.
  destruct H as [(_ & Hclasses & _ & m & Hm) _]; [done|]. destruct loaded as [config|err].
  - exists config. split_and!; [done| |by exists m]. intros Hnil. by rewrite Hnil in Hn.
  - destruct (Hk _ _ Hm) as (r & ss & Hin & _). by apply no_registration_service in Hin.
Qed.

(** The exit code is decided by the first event that stops the process. *)
Lemma exit_decided startErr inputs :
  exitCode startErr (lifetime inputs) = match startErr with Some _ => 1%Z | None => default 0%Z (head (omap stops inputs)) end.
Proof.
  destruct startErr as [err|]; [done|]. destruct (vgmanager_lifecycle inputs) as [-> _]. by destruct (omap stops inputs).
Qed.

(** What is registered with and without a configuration. *)
Lemma topolvm_registered nodeName (loaded : result error lvmd.Config) :
  wp (match loaded with
      | Err _ => Ret (inl tt)
      | Ok lvmdConfig => for_each vgRegister (topolvmRegistrations nodeName lvmdConfig) tt
      end) (fun res tr => omap vg_ran_of tr = [] /\ omap config_of tr = [] /\
    (res = inl tt -> omap vg_registered_of tr =
      match loaded with Ok config => map fst (topolvmRegistrations nodeName config) | Err _ => [] end)).
Proof. destruct loaded as [c|err]; [apply vgRegister_all|by split_and!]. Qed.

(** What the calls after the environment of the process establish. *)
Definition setup_tail (nodeName : string) (res : option error) (tr : list (ev vgStartE)) : Prop :=
  omap vg_ran_of tr = [] /\
  (res = None -> exists operatorNamespace tlsProfile loaded,
     Ev VgFetchTLSProfile (Ok tlsProfile) ∈ tr /\ Ev (VgNewManager operatorNamespace tlsProfile) None ∈ tr /\
     omap config_of tr = [loaded] /\
     omap vg_registered_of tr = all_registrations nodeName operatorNamespace tlsProfile loaded).

Lemma vgComponents_spec nodeName ns tls loaded pre :
  omap vg_ran_of pre = [] -> omap config_of pre = [loaded] -> omap vg_registered_of pre = [VgTLSWatcher tls] ->
  Ev VgFetchTLSProfile (Ok tls) ∈ pre -> Ev (VgNewManager ns tls) None ∈ pre ->
  wp (vgComponents nodeName ns loaded) (fun res tr => setup_tail nodeName res (pre ++ tr)).
Proof.
  intros Hr Hc Hg Htls Hmgr. unfold vgComponents. apply wp_bind. eapply wp_mono; [apply topolvm_registered|].
  intros [[]|err] tr1 (Hr1 & Hc1 & Hg1); [|split; [by rewrite !omap_app, Hr, Hr1|done]].
  apply wp_bind. eapply wp_mono; [apply vgRegister_all|].
  intros [[]|err] tr2 (Hr2 & Hc2 & Hg2); [|split; [by rewrite !omap_app, Hr, Hr1, Hr2|done]].
  intros [err|]; (split; [by rewrite !omap_app, Hr, Hr1, Hr2|]); [done|]. intros _. exists ns, tls, loaded.
  rewrite !omap_app, Hc, Hc1, Hc2, Hg, (Hg1 eq_refl), (Hg2 eq_refl). split_and!; [set_solver..|done|done].
Qed.

Lemma vgSetup_spec :
  wp vgSetup (fun res tr => omap vg_ran_of tr = [] /\
    (res = None -> exists nodeName operatorNamespace tlsProfile loaded, setup_done nodeName operatorNamespace tlsProfile loaded tr)).
Proof.
  unfold vgSetup. apply wp_call. intros nodeName. apply wp_bind, wp_translate, wp_intro. intros res0 tr0.
  destruct (vgEnvironment_silent tr0) as (Hr0 & Hc0 & Hg0).
  eapply wp_mono with (Q := setup_tail nodeName).
  2: { intros res tr (Hr & Hd). rewrite omap_skip, omap_app, Hr0 by done. split; [done|].
       intros (ns & tls & loaded & ? & ? & Hc & Hg)%Hd. exists nodeName, ns, tls, loaded. unfold setup_done.
       rewrite !(omap_skip _ (Ev (VgGetenv _) _)), !omap_app, Hc0, Hg0 by done. split_and!; [set_solver..|done|done]. }
  destruct res0 as [ns|err]; [|by split].
  intros [err|]; [by split|]. intros [tls|err]; [|by split]. intros [err|]; [by split|].
  intros [] [] [] [] [] [err|]; [by split|]. intros content.
  set (loaded := match content with Ok b => Unmarshal b | Err err => Err err end).
  set (pre := [Ev VgNewSetupClient None; Ev VgFetchTLSProfile (Ok tls); Ev (VgNewManager ns tls) None;
    Ev (MustRegister raidHealthStatus) tt; Ev (MustRegister raidSyncInProgress) tt; Ev (MustRegister raidMemberCount) tt;
    Ev (MustRegister raidDegradedCount) tt; Ev (MustRegister raidSyncPercent) tt; Ev (VgRegister (VgTLSWatcher tls)) None;
    Ev (ReadFile DefaultFileConfigPath) content]).
  assert (H : wp (vgComponents nodeName ns loaded) (fun res tr => setup_tail nodeName res (pre ++ tr))).
  { apply (vgComponents_spec nodeName ns tls loaded pre); [done..|set_solver|set_solver]. }
  subst loaded. by destruct content.
Qed.

End VgStart.
